(* ===== verification/_CoqProject ===== *)
-Q . S2P
prelude.v
text.v
byte_stream.v
wrapping_integers.v
stream_reassembler.v
buffer.v
parser.v
internet_checksum.v
tcp_segment.v
ipv4.v
ethernet.v
tcp_receiver.v
tcp_sender.v
tcp_state.v
tcp_connection.v
tcp_link.v
tcp_duplex.v
tcp_completion.v
network_interface.v
router.v
adapters.v
file_descriptor.v
socket.v
address.v
eventloop.v
tcp_sponge_socket.v
bidirectional_stream_copy.v
network_simulator.v
network_run.v
tcp_benchmark.v
lab7.v
lab7_run.v
lab7_network.v
command_line.v
printers.v
udp_tcpdump.v
tun.v
