(* ===== verification/prelude.v ===== *)
(** * Sponge: a verification development

    Sponge is a TCP/IP stack in user space.  Bytes written by an application go
    through [TCPConnection::write] into the sender's [ByteStream]; [TCPSender]
    cuts them into segments, tracks what is outstanding and retransmits; the
    connection stamps each segment with the receiver's acknowledgment number and
    window.  An adapter turns segments into IPv4 datagrams or UDP payloads,
    [NetworkInterface] turns datagrams into Ethernet frames, resolving addresses
    with ARP, and [Router] forwards datagrams between interfaces.  In the other
    direction [TCPReceiver] hands payloads to a [StreamReassembler], which puts
    them in order in a [ByteStream] the application reads.

    ** How the code is modelled

    Each C++ class is a Module with the class's name: its members are the fields
    of a record [t], each member function is a definition of the same name that
    takes the object first and returns the new object.  Names of members and
    functions are the source's, leading underscores included.  Unsigned integers
    are [Z] and every operation that can wrap is reduced explicitly ([u8], [u16],
    [u32], [u64]; [s32] for a conversion to [int]).  Bytes are numbers below 256,
    strings and deques are lists.  A call that can throw, read outside a container
    or fail to return has type [outcome]: [Ok], [Throw], [UB] or [Diverge]; the
    theorems that a call "returns" state that the outcome is [Ok].

    ** The files

    - [prelude]: outcomes, record update, machine integers, lists of bytes, the
      hints and tactics shared by the other files.
    - [byte_stream]: [libsponge/byte_stream].  A specification ([ByteStreamSpec]:
      the queue the header describes: the bytes accepted, the bytes delivered, two
      flags) and the refinement that every sequence of calls of a writer that stops
      at the end gives the same replies; what happens to a write after the end.
    - [wrapping_integers]: [libsponge/wrapping_integers].  Wrapping round trip,
      nearest number to the checkpoint, and exactly when [unwrap]'s loop ends.
    - [stream_reassembler]: [libsponge/stream_reassembler].  Slices of a stream
      [S] in any order give a prefix of [S], what is in the window is kept, and
      the stream ends when all of it has come; and what breaks this.
    - [buffer], [parser], [internet_checksum]: [libsponge/util/buffer],
      [util/parser] and the checksum of [util/util].  [PrefixDiscard] is what the
      three kinds of buffers promise their users; parsing inverts unparsing; the
      checksum is the one's complement sum.
    - [tcp_segment], [ipv4], [ethernet]: the packet formats of
      [libsponge/tcp_helpers] (TCP header and segment, IPv4 header and datagram,
      Ethernet header and frame, ARP message).  Round trips, detection of
      corruption, and what the parsers report.
    - [tcp_receiver], [tcp_sender]: [libsponge/tcp_receiver] and
      [libsponge/tcp_sender] with [tcp_helpers/tcp_config].  Both have an invariant
      of every reachable state.  The receiver acknowledges exactly what it holds;
      the sender's segments are slices of its stream, it fills the window and
      stays in it, and under any ticks it retransmits when a timer that doubles says so.
    - [tcp_state]: [tcp_helpers/tcp_state], the summaries used by the tests.
    - [tcp_connection]: [libsponge/tcp_connection].  No event gets a connection
      stuck; every segment it queues can be serialized and parsed back; what each
      segment and each tick does; when a connection ends.
    - [tcp_link]: a sender and a receiver with a network between them that loses,
      repeats, delays and reorders segments and loses acknowledgments, as a
      transition system over the two models.  What is delivered is a prefix of what
      was sent, no step gets stuck, and from every state the transfer can be
      completed; and a run in which a FIN that overtakes data loses the data.
    - [tcp_duplex]: two whole connections with a network between them that loses
      segments and delivers the others in order.  Each direction is a run of the link,
      so both ends receive a prefix of what the other sends, and no call on either
      end fails.
    - [tcp_completion]: the same two connections.  From every reachable state in which
      neither has used up its retransmissions some conversation brings both streams
      over completely, FINs included, with both connections still active: each round
      lowers a measure of what is not yet delivered and acknowledged, and a sender
      whose peer has closed its window gets on with a one byte probe.
    - [network_interface], [router]: [libsponge/network_interface] and
      [libsponge/router].  Address resolution, expiry of the cache, longest prefix
      match, and that routing empties every queue.
    - [adapters]: [tcp_helpers/tcp_over_ip], [fd_adapter], [lossy_fd_adapter] and
      [tuntap_adapter].  [DatagramAdapter] is the interface of an adapter, with the
      promise that it serves one connection; the UDP, TUN, Ethernet and lossy
      adapters are its instances.  Segments cross a pair of TUN adapters unchanged.
    - [file_descriptor], [eventloop]: [util/file_descriptor] and [util/eventloop],
      with the kernel's answers as arguments.  Partial writes lose nothing; a round
      of the loop is a relation on the program's state; what every callback keeps
      the loop keeps.
    - [socket]: [util/socket], the wrappers of the socket calls; a datagram is sent
      whole or not at all.
    - [tcp_sponge_socket]: [tcp_helpers/tcp_sponge_socket], against the interface
      [DatagramAdapter]: the four rules of the TCP thread, its loop, [connect],
      [listen_and_accept], and the end of the thread.  Nothing is lost between the
      owner and the connection, the owner's data is never refused however much of it
      waits, rule 4 sends the
      connection's queue, and what the destructor leaves unsent.
    - [bidirectional_stream_copy]: [apps/bidirectional_stream_copy], four rules
      between the terminal and a socket; nothing is lost on the way.
    - [text]: what the programs use of the C and C++ libraries to print and to read
      text: numbers in decimal and hexadecimal, [strncmp], [strtol], [strtof].
    - [address]: [util/address], the constructors and conversions to text around the
      resolver of the C library, and the stored bytes for which a number and a port
      stand.
    - [network_simulator], [network_run]: [apps/network_simulator].  Hosts, wires and
      the scenario in the first, with the theorem about one wire and the exactness
      of a host's check; in the second the proof that the scenario succeeds for
      every seed.
    - [tcp_benchmark]: [apps/tcp_benchmark], two connections that exchange their
      segments directly.
    - [lab7], [lab7_run]: [apps/lab7].  The adapter over a network interface (an
      instance of [DatagramAdapter]), the socket, the routers of the two roles and
      the thread that moves frames between host, router and Internet.  Where the
      routers send a datagram; that the thread never runs into undefined behaviour,
      whatever arrives; that a segment crosses from one socket's adapter to the
      other's through both threads; and that an empty datagram makes a thread deaf.
    - [lab7_network]: both sides of [apps/lab7] as one transition system (hosts, socket
      pairs, threads, the Internet).  From every state in which the caches of the
      interfaces hold nothing false, cold ones included, a segment that one host writes
      can be brought to the other, the missing addresses resolved on all three links.
    - [command_line]: [apps/tcp_udp], [apps/tcp_ipv4], [apps/tcp_ip_ethernet],
      [apps/tcp_native] and [apps/webget].  The options and the configurations they
      make, against an arbitrary resolver; a command line written out and read back;
      no argument is missed; [webget] prints the whole answer.
    - [printers]: the printing functions of the packet formats, of [tcp_state], of the
      programs, and [hexdump], which is compared with a dump made row by row for the
      lengths its counter can hold.
    - [udp_tcpdump]: [apps/udp_tcpdump], the search for the UDP payload in a captured
      packet and the capture loop; the payload is found, the search through IPv6
      extension headers ends inside the packet, and what short packets do.
    - [tun]: [util/tun] and [apps/tun], the request that names the device, and that the
      program reports every packet until a read fails.

    ** Hypotheses about the environment

    The link's network is free to lose, repeat, delay and reorder what was sent, but
    it invents nothing, it delivers no segment that is 2^30 numbers old, it does not
    let a FIN without data overtake the data before it ([overtaking_fin_loses_data]
    shows why), and it keeps acknowledgments in order.  The network between two
    connections keeps all segments in order and makes the same promises about old
    segments and bare FINs; its runs are those in which no connection gives up
    retransmitting.  What the kernel answers to a system
    call and what [poll] reports are arguments, constrained only where a theorem
    says so.  The simulator's scenario asks that the Ethernet addresses drawn for
    the one wire with three parties differ.

    A receiver's theorems are about a peer that sends one stream from one initial
    sequence number and starts each segment in the advertised window
    ([TCPReceiver.peer_segment]); a sender's and a connection's are about streams
    shorter than 2^61 bytes with less than 2^30 bytes in flight, where 32-bit
    sequence numbers are not ambiguous.  Behaviour outside these ranges is the
    subject of separate theorems ([unwrap_terminates_iff],
    [push_beyond_room_is_UB], [overtaking_fin_loses_data], [truncated_fin_acks_a_lost_byte],
    [shrunk_window_is_overrun], [stray_segment_opens_connection]).  Where the code and its
    own comments or tests differ, the theorems leave the case out and another one shows
    what the code does: [write_after_end_is_accepted], [rst_ends_listening_connection],
    [uncanonical_route_never_applies], [empty_final_substring_closes_at_any_index].

    ** Fuel

    Loops that are not structural take fuel and the fuel given always suffices or
    its absence is reported: [unwrap] iterates at most twice when it ends at all
    ([unwrap_terminates_iff] says when it does not); [check_contiguous] gets one
    unit more than the length of its bitmap; [fill_window] one per byte buffered
    and one more; [InternetChecksum::value] folds a 32-bit number at most twice;
    [Router::route] gets one unit per queued datagram; the search through IPv6
    extension headers one per byte of the packet.

    ** What is not modelled

    Not modelled: messages on the standard error stream, which nothing reads back;
    reference counts, which only decide when memory is released; the creation and
    joining of threads (so [program_body] of [apps/lab7] is modelled in its parts, and
    the owner and the TCP thread of [tcp_sponge_socket] interleave at system calls);
    the clock and the random device, whose values are arguments.  Code outside the
    repository is a parameter or an argument: the kernel, the resolver, libpcap.
    What else of the sources has no definition are declarations, defaulted and deleted
    members and type aliases, which do nothing.
    *)

From stdpp Require Export prelude list list_numbers gmap.
From Stdlib Require Export ZArith Lia ZifyBool.

Open Scope Z_scope.

(** ** Outcomes of a C++ call *)

(** The exceptions the code throws. *)
Inductive exn :=
| runtime_error
| out_of_range
| length_error
| bad_optional_access
| unix_error (code : Z).

(** What running a piece of the code can do: return a value, throw, run into
    undefined behaviour (an out-of-range [deque] access, [front()] of an empty
    container, a shift by at least the width), or loop for ever. *)
Inductive outcome (A : Type) :=
| Ok (a : A)
| Throw (e : exn)
| UB
| Diverge.
Arguments Ok {A} a.
Arguments Throw {A} e.
Arguments UB {A}.
Arguments Diverge {A}.

#[export] Instance outcome_ret : MRet outcome := @Ok.

#[export] Instance outcome_bind : MBind outcome := λ A B f m,
  match m with
  | Ok a => f a
  | Throw e => Throw e
  | UB => UB
  | Diverge => Diverge
  end.

(** An access that is undefined outside the container. *)
Definition or_UB {A} (o : option A) : outcome A :=
  match o with Some a => Ok a | None => UB end.

(** ** What a program returns *)

Definition EXIT_SUCCESS : Z := 0.
Definition EXIT_FAILURE : Z := 1.

(** [catch (const exception &e) { ...; return EXIT_FAILURE; }] around the rest of
    [main]: the exit status *)
Definition catching (m : outcome unit) : outcome Z :=
  match m with
  | Ok _ => Ok EXIT_SUCCESS
  | Throw _ => Ok EXIT_FAILURE
  | UB => UB
  | Diverge => Diverge
  end.

(** ** Record update: [r <| f := v |>] *)

(** [eta] rebuilds a record from its projections; [upd f] replaces one. *)
Class Eta (R : Type) := eta : R → R.
Class Upd {R E : Type} (get : R → E) := upd : (E → E) → R → R.
Arguments upd {R E} get {_} _ _ /.

Ltac derive_upd :=
  lazymatch goal with
  | |- @Upd ?R ?E ?get =>
    let i := constr:(_ : Eta R) in
    let e := eval red in i in
    lazymatch eval pattern get in e with
    | ?body _ =>
      let u := eval cbv beta in (λ (g : E → E) (r : R), body (λ x, g (get x)) r) in
      exact u
    end
  end.
#[export] Hint Extern 0 (Upd _) => derive_upd : typeclass_instances.

Declare Scope record_scope.
Delimit Scope record_scope with record.
Notation "r <| f := v |>" := (upd f (λ _, v) r)
  (at level 1, f at next level, left associativity, format "r  <| f  :=  v |>") : record_scope.
Notation "r <| f ::= g |>" := (upd f g r)
  (at level 1, f at next level, left associativity, format "r  <| f  ::=  g |>") : record_scope.
Open Scope record_scope.

(** ** Machine integers *)

(** The value an unsigned type of the given width stores for [z]. *)
Definition u8 (z : Z) : Z := z mod 2 ^ 8.
Definition u16 (z : Z) : Z := z mod 2 ^ 16.
Definition u32 (z : Z) : Z := z mod 2 ^ 32.
Definition u64 (z : Z) : Z := z mod 2 ^ 64.

(** The value a 32-bit two's complement [int] stores for [z]. *)
Definition s32 (z : Z) : Z := (z + 2 ^ 31) mod 2 ^ 32 - 2 ^ 31.

(** [bool] promoted to an integer. *)
Definition b2z (b : bool) : Z := if b then 1 else 0.

(** A byte string; a [char] is its value read as [uint8_t]. *)
Abbreviation bytes := (list Z).

(** [size()] of a container. *)
Definition len {A} (l : list A) : Z := Z.of_nat (length l).

#[global] Arguments u8 : simpl never.
#[global] Arguments u16 : simpl never.
#[global] Arguments u32 : simpl never.
#[global] Arguments u64 : simpl never.
#[global] Arguments s32 : simpl never.
#[global] Arguments len {A} l : simpl never.

(** A string of bytes. *)
Definition is_bytes (l : bytes) : Prop := Forall (λ b, 0 ≤ b < 2 ^ 8) l.

(** ** Automation *)

Create HintDb sponge.
Create Rewrite HintDb sponge.

(** Arithmetic with the widths unfolded: every [mod] by a power of two becomes
    its quotient-remainder equations. *)
Ltac word_lia :=
  unfold u8, u16, u32, u64, s32, b2z, len in *;
  Z.div_mod_to_equations; lia.

(** Splits every boolean test of the goal and of the hypotheses that a [match]
    or an [if] waits for, and turns comparisons into propositions. *)
Ltac case_tests :=
  repeat match goal with
  | |- context [if ?b then _ else _] => destruct b eqn:?
  | H : context [if ?b then _ else _] |- _ => destruct b eqn:?
  end;
  repeat match goal with
  | H : (_ && _)%bool = true |- _ => apply andb_prop in H as [? ?]
  | H : (_ || _)%bool = false |- _ => apply orb_false_elim in H as [? ?]
  | H : negb _ = true |- _ => apply negb_true_iff in H
  | H : negb _ = false |- _ => apply negb_false_iff in H
  end.

(** Inverts [m ≫= f = Ok b] hypotheses. *)
Lemma Ok_inj {A} (a b : A) : Ok a = Ok b → a = b.
Proof. congruence. Qed.

Lemma bind_Ok {A B} (m : outcome A) (f : A → outcome B) b :
  m ≫= f = Ok b ↔ ∃ a, m = Ok a ∧ f a = Ok b.
Proof. split; [destruct m; intros; simplify_eq/=; eauto|by intros (a & -> & ?)]. Qed.

(** The same as an equation, for calls too large to compute with. *)
Lemma bind_eq {A B} (m : outcome A) (f : A → outcome B) a : m = Ok a → m ≫= f = f a.
Proof. by intros ->. Qed.

Lemma or_UB_Ok {A} (o : option A) a : or_UB o = Ok a ↔ o = Some a.
Proof. destruct o; simpl; naive_solver. Qed.

Ltac inv_ok :=
  repeat match goal with
  | H : mbind _ _ = Ok _ |- _ => apply bind_Ok in H; destruct H as (? & ? & ?)
  | H : or_UB _ = Ok _ |- _ => apply or_UB_Ok in H
  | H : mret _ = Ok _ |- _ => injection H as H
  | H : Ok _ = Ok _ |- _ => injection H as H
  | H : UB = Ok _ |- _ => discriminate H
  | H : Throw _ = Ok _ |- _ => discriminate H
  | H : Diverge = Ok _ |- _ => discriminate H
  end.

(** ** Calls without undefined behaviour *)

(** [m] does not run into undefined behaviour, and if it returns, its value
    satisfies [P]. *)
Definition no_UB {A} (P : A → Prop) (m : outcome A) : Prop :=
  match m with Ok a => P a | UB => False | _ => True end.

Lemma no_UB_bind {A B} (P : A → Prop) (Q : B → Prop) (m : outcome A) (f : A → outcome B) :
  no_UB P m → (∀ a, m = Ok a → P a → no_UB Q (f a)) → no_UB Q (m ≫= f).
Proof. destruct m; cbn; intros; try done. eauto. Qed.

Lemma no_UB_mono {A} (P Q : A → Prop) (m : outcome A) : no_UB P m → (∀ a, m = Ok a → P a → Q a) → no_UB Q m.
Proof. destruct m; cbn; intros; try done. eauto. Qed.

Lemma no_UB_Ok {A} (P : A → Prop) (m : outcome A) a : no_UB P m → m = Ok a → P a.
Proof. by intros H ->. Qed.

(** ** Lemmas on machine integers *)

Lemma u8_bound z : 0 ≤ u8 z < 2 ^ 8.
Proof. apply Z.mod_pos_bound. lia. Qed.

Lemma u16_bound z : 0 ≤ u16 z < 2 ^ 16.
Proof. apply Z.mod_pos_bound. lia. Qed.

Lemma u32_bound z : 0 ≤ u32 z < 2 ^ 32.
Proof. apply Z.mod_pos_bound. lia. Qed.

Lemma u64_bound z : 0 ≤ u64 z < 2 ^ 64.
Proof. apply Z.mod_pos_bound. lia. Qed.

Lemma u8_id z : 0 ≤ z < 2 ^ 8 → u8 z = z.
Proof. apply Z.mod_small. Qed.

Lemma u16_id z : 0 ≤ z < 2 ^ 16 → u16 z = z.
Proof. apply Z.mod_small. Qed.

Lemma u32_id z : 0 ≤ z < 2 ^ 32 → u32 z = z.
Proof. apply Z.mod_small. Qed.

Lemma u64_id z : 0 ≤ z < 2 ^ 64 → u64 z = z.
Proof. apply Z.mod_small. Qed.

Lemma s32_id z : - 2 ^ 31 ≤ z < 2 ^ 31 → s32 z = z.
Proof. intros ?. unfold s32. rewrite Z.mod_small; lia. Qed.

Lemma u64_add_idemp x y : u64 (u64 x + y) = u64 (x + y).
Proof. unfold u64. rewrite Z.add_mod_idemp_l; [done|lia]. Qed.

#[export] Hint Resolve u8_bound u16_bound u32_bound u64_bound : sponge.

(** ** Lemmas on byte strings *)

Lemma is_bytes_app l k : is_bytes (l ++ k) ↔ is_bytes l ∧ is_bytes k.
Proof. apply Forall_app. Qed.

(** ** Lemmas on lengths *)

Lemma len_nonneg {A} (l : list A) : 0 ≤ len l.
Proof. unfold len. lia. Qed.

Lemma len_nil {A} : len (@nil A) = 0.
Proof. done. Qed.

Lemma len_cons {A} (x : A) l : len (x :: l) = 1 + len l.
Proof. unfold len. simpl. lia. Qed.

Lemma len_app {A} (l k : list A) : len (l ++ k) = len l + len k.
Proof. unfold len. rewrite length_app. lia. Qed.

Lemma len_take {A} n (l : list A) : 0 ≤ n → len (take (Z.to_nat n) l) = Z.min n (len l).
Proof. intros ?. unfold len. rewrite length_take. lia. Qed.

Lemma len_drop {A} n (l : list A) : 0 ≤ n → len (drop (Z.to_nat n) l) = Z.max 0 (len l - n).
Proof. intros ?. unfold len. rewrite length_drop. lia. Qed.

Lemma len_replicate {A} n (x : A) : 0 ≤ n → len (replicate (Z.to_nat n) x) = n.
Proof. intros ?. unfold len. rewrite length_replicate. lia. Qed.

Lemma len_zero_nil {A} (l : list A) : len l = 0 → l = [].
Proof. destruct l; [done|]. rewrite len_cons. pose proof (len_nonneg l). lia. Qed.

#[export] Hint Rewrite @len_nil @len_cons @len_app : sponge.
