(* ===== verification/text.v ===== *)
(** * Text

    What the programs use of the C and C++ libraries to print and to read text: the
    bytes of a literal, numbers in decimal and hexadecimal as [std::to_string] and
    the output streams write them, [strncmp], [strtol] and [strtof]. *)

From Stdlib Require Import SpecFloat Ascii String.
From stdpp Require Import strings pretty.
From S2P Require Import prelude.

(** The bytes of a string literal. *)
Definition literal (s : string) : bytes := map (λ c, Z.of_N (Ascii.N_of_ascii c)) (String.list_ascii_of_string s).

(** [std::to_string] of an unsigned number *)
Definition to_string (n : Z) : bytes := literal (pretty (Z.to_N n)).

(** ** Output streams *)

(** A number as [os << std::dec << n] writes it *)
Definition dec (n : Z) : string := pretty (Z.to_N n).

Definition hex_char (d : Z) : ascii :=
  Ascii.ascii_of_nat (Z.to_nat (if d <? 10 then 48 + d else 87 + d)).

(** [n] in base 16 in front of [s]; a 64-bit number has at most 16 digits. *)
Fixpoint hex_loop (fuel : nat) (n : Z) (s : string) : string :=
  match fuel with
  | O => s
  | S fuel =>
    let s := String (hex_char (n mod 16)) s in
    if n / 16 =? 0 then s else hex_loop fuel (n / 16) s
  end.

(** [os << std::hex << n] *)
Definition hex (n : Z) : string := hex_loop 16 n "".

(** [os << std::setfill(c) << std::setw(width) << ...] *)
Definition setw (width : nat) (c : ascii) (s : string) : string :=
  String.concat "" (replicate (width - String.length s) (String c "")) +:+ s.

(** [os << std::boolalpha << b] *)
Definition boolalpha (b : bool) : string := if b then "true" else "false".

Definition newline : string := String (ascii_of_nat 10) "".

(** [inet_ntoa] of the address whose number is [ip] *)
Definition inet_ntoa (ip : Z) : string :=
  dec (ip / 2 ^ 24) +:+ "." +:+ dec (ip / 2 ^ 16 mod 2 ^ 8) +:+ "." +:+ dec (ip / 2 ^ 8 mod 2 ^ 8) +:+ "." +:+
  dec (ip mod 2 ^ 8).

(** ** The C library *)

(** [strncmp(a, b, n) == 0] for strings without a null character *)
Fixpoint strncmp_eq (n : nat) (a b : string) : bool :=
  match n with
  | O => true
  | S n =>
    match a, b with
    | EmptyString, EmptyString => true
    | String c a, String d b => bool_decide (c = d) && strncmp_eq n a b
    | _, _ => false
    end
  end.

Definition isspace (c : Ascii.ascii) : bool :=
  let n := Ascii.nat_of_ascii c in ((n =? 32) || ((9 <=? n) && (n <=? 13)))%nat.

Fixpoint skip_spaces (s : string) : string :=
  match s with
  | String c s' => if isspace c then skip_spaces s' else s
  | EmptyString => EmptyString
  end.

(** An optional sign: whether it is a minus, and the rest. *)
Definition sign (s : string) : bool * string :=
  match s with
  | String "-"%char s => (true, s)
  | String "+"%char s => (false, s)
  | _ => (false, s)
  end.

(** The value of a digit, letters counting from ten. *)
Definition digit (c : Ascii.ascii) : option Z :=
  let n := Z.of_nat (Ascii.nat_of_ascii c) in
  if (48 <=? n) && (n <=? 57) then Some (n - 48)
  else if (97 <=? n) && (n <=? 122) then Some (n - 87)
  else if (65 <=? n) && (n <=? 90) then Some (n - 55)
  else None.

Definition digit_in (base : Z) (c : Ascii.ascii) : option Z :=
  match digit c with
  | Some d => if d <? base then Some d else None
  | None => None
  end.

(** The digits at the front: the number [acc] extended by them, how many there
    are, and the rest. *)
Fixpoint digits (base : Z) (s : string) (acc count : Z) : Z * Z * string :=
  match s with
  | String c s' =>
    match digit_in base c with
    | Some d => digits base s' (base * acc + d) (count + 1)
    | None => (acc, count, s)
    end
  | EmptyString => (acc, count, s)
  end.

Definition LONG_MAX : Z := 2 ^ 63 - 1.
Definition LONG_MIN : Z := - 2 ^ 63.

(** The base that [strtol] with base 0 takes, and where the digits start. *)
Definition prefix_base (s : string) : Z * string :=
  match s with
  | String "0"%char (String x (String c _ as s')) =>
    if bool_decide (x = "x"%char ∨ x = "X"%char) then
      match digit_in 16 c with Some _ => (16, s') | None => (8, s) end
    else (8, s)
  | String "0"%char _ => (8, s)
  | _ => (10, s)
  end.

(** [strtol(s, nullptr, 0)] *)
Definition strtol (s : string) : Z :=
  let '(negative, s) := sign (skip_spaces s) in
  let '(base, s) := prefix_base s in
  let '(n, _, _) := digits base s 0 0 in
  if negative then Z.max LONG_MIN (- n) else Z.min LONG_MAX n.

(** [float] is IEEE binary32: 24 bits of significand, exponents below 128. *)
Definition float_prec : Z := 24.
Definition float_emax : Z := 128.

(** The nearest [float] to [m * base ^ e] *)
Definition to_float (negative : bool) (m base e : Z) : spec_float :=
  let m := if negative then - m else m in
  if 0 <=? e then binary_normalize float_prec float_emax (m * base ^ e) 0 negative
  else
    match m with
    | Z0 => S754_zero negative
    | Zpos p | Zneg p =>
      SFdiv float_prec float_emax (S754_finite negative p 0) (S754_finite false (Z.to_pos (base ^ (- e))) 0)
    end.

(** The exponent after the digits: a letter, a sign and decimal digits; 0 if there
    is none. *)
Definition exponent (lower upper : Ascii.ascii) (s : string) : Z :=
  match s with
  | String c s =>
    if bool_decide (c = lower ∨ c = upper) then
      let '(negative, s) := sign s in
      let '(e, _, _) := digits 10 s 0 0 in
      if negative then - e else e
    else 0
  | EmptyString => 0
  end.

(** Digits with an optional point: the digits as a number, how many there are, how
    many of them are after the point, and the rest. *)
Definition point_digits (base : Z) (s : string) : Z * Z * Z * string :=
  let '(n, count, rest) := digits base s 0 0 in
  match rest with
  | String "."%char rest =>
    let '(n, count', rest) := digits base rest n count in
    (n, count', count' - count, rest)
  | _ => (n, count, 0, rest)
  end.

(** [s] starts with [word], whatever the case of its letters; [word] is in lower
    case. *)
Fixpoint starts_with (word s : string) : bool :=
  match word, s with
  | EmptyString, _ => true
  | String c word, String d s =>
    let n := Ascii.nat_of_ascii d in
    let d := if ((65 <=? n) && (n <=? 90))%nat then Ascii.ascii_of_nat (n + 32) else d in
    bool_decide (c = d) && starts_with word s
  | _, EmptyString => false
  end.

(** [strtof(s, nullptr)] *)
Definition strtof (s : string) : spec_float :=
  let '(negative, s) := sign (skip_spaces s) in
  if starts_with "inf" s then S754_infinity negative
  else if starts_with "nan" s then S754_nan
  else
    let '(hn, hcount, hfraction, hrest) :=
      if starts_with "0x" s then point_digits 16 (substring 2 (String.length s - 2) s) else (0, 0, 0, EmptyString) in
    if hcount >? 0 then to_float negative hn 2 (exponent "p" "P" hrest - 4 * hfraction)
    else
      let '(n, count, fraction, rest) := point_digits 10 s in
      if count >? 0 then to_float negative n 10 (exponent "e" "E" rest - fraction) else S754_zero false.

(** ** Lemmas *)

Lemma literal_is_bytes s : is_bytes (literal s).
Proof.
  apply Forall_map, Forall_true. intros c. cbn. pose proof (Ascii.N_ascii_bounded c). lia.
Qed.

Lemma len_literal s : len (literal s) = Z.of_nat (String.length s).
Proof.
  unfold len, literal. rewrite length_map. f_equal.
  induction s as [|c s IH]; [done|]. cbn. by rewrite IH.
Qed.

Lemma pretty_go_length k x s :
  (x < 10 ^ N.of_nat k)%N → (String.length (pretty_N_go x s) ≤ k + String.length s)%nat.
Proof.
  revert x s. induction k as [|k IH]; intros x s Hx.
  { replace x with 0%N by (cbn in Hx; lia). by rewrite pretty_N_go_0. }
  destruct (decide (x = 0)%N) as [->|Hne]; [rewrite pretty_N_go_0; lia|].
  rewrite pretty_N_go_step by lia. etrans; [apply IH|cbn; lia].
  apply N.Div0.div_lt_upper_bound. rewrite Nat2N.inj_succ, N.pow_succ_r' in Hx. lia.
Qed.

(** A number below [10 ^ k] has at most [k] digits. *)
Lemma len_to_string k n : (0 < k)%nat → 0 ≤ n < 10 ^ Z.of_nat k → len (to_string n) ≤ Z.of_nat k.
Proof.
  intros Hk Hn. unfold to_string. rewrite len_literal. apply inj_le. unfold pretty, pretty_N.
  destruct (decide _); [cbn; lia|]. etrans; [apply (pretty_go_length k)|cbn; lia].
  apply N2Z.inj_lt. rewrite Z2N.id, N2Z.inj_pow, nat_N_Z by lia. apply Hn.
Qed.

(** Options of one letter match exactly; [-Lu] and [-Ld] match whatever starts with
    them, since only three characters are compared. *)
Lemma strncmp_exact a b : (String.length a < 3)%nat → strncmp_eq 3 a b = bool_decide (a = b).
Proof.
  intros Ha. destruct a as [|c1 [|c2 [|c3 a]]]; [..|cbn in Ha; lia]; clear Ha;
    destruct b as [|d1 [|d2 [|d3 b]]]; cbn [strncmp_eq]; rewrite ?andb_true_r, ?andb_false_r;
    symmetry; repeat case_bool_decide; naive_solver.
Qed.

Lemma strncmp_prefix c1 c2 c3 b :
  strncmp_eq 3 (String c1 (String c2 (String c3 ""))) b = true ↔ ∃ b', b = String c1 (String c2 (String c3 b')).
Proof.
  destruct b as [|d1 [|d2 [|d3 b]]]; cbn [strncmp_eq]; rewrite ?andb_false_r; try (split; [done|naive_solver]).
  rewrite andb_true_r, !andb_true_iff, !bool_decide_eq_true. naive_solver.
Qed.

(** A number in decimal starts with a digit, not a zero. *)
Lemma pretty_char_digit d :
  (d < 10)%N → digit_in 10 (pretty_N_char d) = Some (Z.of_N d) ∧ isspace (pretty_N_char d) = false ∧
    pretty_N_char d ≠ "-"%char ∧ pretty_N_char d ≠ "+"%char ∧ (d ≠ 0%N → pretty_N_char d ≠ "0"%char).
Proof.
  intros Hd.
  assert (Hc : d ∈ (N.of_nat <$> seq 0 10)).
  { apply list_elem_of_fmap. exists (N.to_nat d). rewrite N2Nat.id. split; [done|]. apply elem_of_seq. lia. }
  cbn in Hc. rewrite !elem_of_cons in Hc.
  repeat destruct Hc as [->|Hc]; try (by split_and!; try done); by apply elem_of_nil in Hc.
Qed.

Lemma pretty_go_head x s :
  (0 < x)%N → ∃ d s', pretty_N_go x s = String (pretty_N_char d) s' ∧ (0 < d < 10)%N.
Proof.
  revert s. induction (N.lt_wf_0 x) as [x _ IH]. intros s Hx. rewrite pretty_N_go_step by done.
  destruct (decide (x < 10)%N) as [Hlt|Hge].
  - exists x, s. rewrite N.div_small, N.mod_small, pretty_N_go_0 by done. done.
  - apply IH; [apply N.div_lt; lia|]. apply N.div_str_pos. lia.
Qed.

Lemma digits_pretty x s count : ∃ k, digits 10 (pretty_N_go x s) 0 count = digits 10 s (Z.of_N x) (count + k).
Proof.
  revert s. induction (N.lt_wf_0 x) as [x _ IH]. intros s. destruct (decide (x = 0)%N) as [->|Hx].
  { exists 0. by rewrite pretty_N_go_0, Z.add_0_r. }
  rewrite pretty_N_go_step by lia. destruct (IH (x / 10)%N) with (s := String (pretty_N_char (x mod 10)) s) as [k ->];
    [apply N.div_lt; lia|].
  cbn [digits]. destruct (pretty_char_digit (x mod 10)) as [-> _]; [by apply N.mod_lt|].
  exists (k + 1). f_equal; [|lia]. pose proof (N.div_mod x 10). lia.
Qed.

(** Printing a number and reading it back. *)
Lemma strtol_pretty n : 0 ≤ n ≤ LONG_MAX → strtol (pretty (Z.to_N n)) = n.
Proof.
  intros Hn. unfold strtol, pretty, pretty_N. destruct (decide (Z.to_N n = 0%N)) as [H0|H0].
  { assert (n = 0) as -> by lia. done. }
  destruct (pretty_go_head (Z.to_N n) "") as (d & s & Hs & Hd); [lia|].
  destruct (pretty_char_digit d) as (_ & Hsp & Hm & Hp & H00); [lia|].
  destruct (digits_pretty (Z.to_N n) "" 0) as [k Hk]. rewrite Hs in Hk |- *.
  cbn [skip_spaces]. rewrite Hsp. set (c := pretty_N_char d) in *.
  assert (sign (String c s) = (false, String c s)) as ->.
  { clear -Hm Hp. destruct c as [[] [] [] [] [] [] [] []]; done. }
  assert (prefix_base (String c s) = (10, String c s)) as ->.
  { assert (c ≠ "0"%char) by (apply H00; lia). clearbody c. clear -H. destruct c as [[] [] [] [] [] [] [] []]; done. }
  rewrite Hk. cbn [digits]. rewrite Z2N.id by lia. lia.
Qed.

(** ** Lemmas on strings *)

Lemma append_cons x a b : String x a +:+ b = String x (a +:+ b).
Proof. done. Qed.

Lemma append_nil_l a : "" +:+ a = a.
Proof. done. Qed.

Lemma append_assoc a b c : (a +:+ b) +:+ c = a +:+ b +:+ c.
Proof. induction a as [|x a IH]; [done|]. rewrite ?append_cons. cbn. by rewrite IH. Qed.

Lemma append_nil_r a : a +:+ "" = a.
Proof. induction a as [|x a IH]; [done|]. rewrite ?append_cons. cbn. by rewrite IH. Qed.

Lemma length_append a b : String.length (a +:+ b) = (String.length a + String.length b)%nat.
Proof. induction a as [|x a IH]; [done|]. rewrite ?append_cons. cbn. by rewrite IH. Qed.

Lemma substring_all s : substring 0 (String.length s) s = s.
Proof. induction s as [|x s IH]; [done|]. cbn. by rewrite IH. Qed.

Lemma append_inj a b c d : String.length a = String.length c → a +:+ b = c +:+ d → a = c ∧ b = d.
Proof.
  revert c. induction a as [|x a IH]; intros [|y c] Hl H; try done.
  cbn in Hl. rewrite !append_cons in H. injection Hl as Hl. injection H as -> H. by destruct (IH c Hl H) as [-> ->].
Qed.

(** Two digits show a byte. *)
Definition hex_byte (b : Z) : string := setw 2 "0" (hex b).

Lemma length_hex_byte b : 0 ≤ b < 2 ^ 8 → String.length (hex_byte b) = 2%nat.
Proof.
  intros Hb. assert (H : Forall (λ b, String.length (hex_byte b) = 2%nat) (seqZ 0 256)).
  { apply (bool_decide_unpack _). vm_compute. exact I. }
  rewrite Forall_forall in H. apply H, elem_of_seqZ. lia.
Qed.

Lemma digits_hex_byte b : 0 ≤ b < 2 ^ 8 → digits 16 (hex_byte b) 0 0 = (b, 2, "").
Proof.
  intros Hb. assert (H : Forall (λ b, digits 16 (hex_byte b) 0 0 = (b, 2, "")) (seqZ 0 256)).
  { apply (bool_decide_unpack _). vm_compute. exact I. }
  rewrite Forall_forall in H. apply H, elem_of_seqZ. lia.
Qed.

Lemma hex_byte_inj a b : 0 ≤ a < 2 ^ 8 → 0 ≤ b < 2 ^ 8 → hex_byte a = hex_byte b → a = b.
Proof.
  intros Ha Hb H. apply digits_hex_byte in Ha, Hb. rewrite H, Hb in Ha. by injection Ha.
Qed.
