(* ===== verification/byte_stream.v ===== *)
(** * The flow-controlled byte stream

    Models [libsponge/byte_stream.hh] and [libsponge/byte_stream.cc]: the class
    [ByteStream], one definition per method.  [ByteStreamSpec] is the contract
    the rest of the stack relies on: a bounded queue described by its history,
    the bytes accepted so far and the bytes delivered so far.  The refinement
    theorem says that every sequence of calls on the class returns what the
    bounded queue returns. *)

From S2P Require Import prelude.

Module ByteStream.

(** The members of [class ByteStream]. *)
Record t := mk {
  buffer : bytes;
  capacity : Z;
  end_write : bool;
  end_read : bool;
  written_bytes : Z;
  read_bytes : Z;
  _error : bool
}.

#[global] Instance eta_t : Eta t := λ s,
  mk (buffer s) (capacity s) (end_write s) (end_read s) (written_bytes s) (read_bytes s)
     (_error s).

(** [ByteStream::ByteStream(capa)] *)
Definition make (capa : Z) : t := mk [] capa false false 0 0 false.

Definition set_error (s : t) : t := s <| _error := true |>.

(** [ByteStream::write]: the loop pushes [data[0..realWrite)]. *)
Definition write (s : t) (data : bytes) : t * Z :=
  let canWrite := u64 (capacity s - len (buffer s)) in
  let realWrite := Z.min canWrite (len data) in
  (s <| buffer ::= λ b, b ++ take (Z.to_nat realWrite) data |>
     <| written_bytes ::= λ w, u64 (w + realWrite) |>,
   realWrite).

Definition peek_output (s : t) (n : Z) : bytes :=
  let canPeek := Z.min n (len (buffer s)) in
  take (Z.to_nat canPeek) (buffer s).

Definition pop_output (s : t) (n : Z) : t :=
  if n >? len (buffer s) then set_error s
  else s <| buffer ::= drop (Z.to_nat n) |> <| read_bytes ::= λ r, u64 (r + n) |>.

Definition read (s : t) (n : Z) : t * bytes :=
  if n >? len (buffer s) then (set_error s, [])
  else
    (s <| buffer ::= drop (Z.to_nat n) |> <| read_bytes ::= λ r, u64 (r + n) |>,
     take (Z.to_nat n) (buffer s)).

Definition end_input (s : t) : t := s <| end_write := true |>.
Definition input_ended (s : t) : bool := end_write s.
Definition error (s : t) : bool := _error s.
Definition buffer_size (s : t) : Z := len (buffer s).
Definition buffer_empty (s : t) : bool := len (buffer s) =? 0.
Definition eof (s : t) : bool := buffer_empty s && end_write s.
Definition bytes_written (s : t) : Z := written_bytes s.
Definition bytes_read (s : t) : Z := read_bytes s.
Definition remaining_capacity (s : t) : Z := u64 (capacity s - len (buffer s)).

(** ** Invariant *)

(** The buffer fits in the capacity, a [size_t]. *)
Definition wf (s : t) : Prop := len (buffer s) ≤ capacity s < 2 ^ 64.

(** ** Calls as data *)

Inductive call :=
| Write (data : bytes)
| Peek (n : Z)
| Pop (n : Z)
| Read (n : Z)
| EndInput
| SetError.

(** A caller passes a [size_t]. *)
Definition call_ok (c : call) : Prop :=
  match c with Peek n | Pop n | Read n => 0 ≤ n < 2 ^ 64 | _ => True end.

(** What a call returns: a count, a string, or nothing. *)
Inductive reply :=
| Count (n : Z)
| Str (data : bytes)
| Void.

Definition exec (s : t) (c : call) : t * reply :=
  match c with
  | Write data => let '(s', n) := write s data in (s', Count n)
  | Peek n => (s, Str (peek_output s n))
  | Pop n => (pop_output s n, Void)
  | Read n => let '(s', data) := read s n in (s', Str data)
  | EndInput => (end_input s, Void)
  | SetError => (set_error s, Void)
  end.

Fixpoint run (s : t) (cs : list call) : t * list reply :=
  match cs with
  | [] => (s, [])
  | c :: cs =>
    let '(s1, r) := exec s c in
    let '(s2, rs) := run s1 cs in
    (s2, r :: rs)
  end.

End ByteStream.

(** ** The abstract bounded queue *)

Module ByteStreamSpec.

(** Everything accepted since construction, everything delivered, and the flags. *)
Record t := mk {
  accepted : bytes;
  delivered : bytes;
  ended : bool;
  failed : bool
}.

#[global] Instance eta_t : Eta t := λ a,
  mk (accepted a) (delivered a) (ended a) (failed a).

Definition init : t := mk [] [] false false.

(** The bytes accepted and not yet delivered. *)
Definition pending (a : t) : bytes := drop (length (delivered a)) (accepted a).

(** One call, for a writer that may also write after the end. *)
Definition step (cap : Z) (a : t) (c : ByteStream.call) : t * ByteStream.reply :=
  match c with
  | ByteStream.Write data =>
    let now := take (Z.to_nat (cap - len (pending a))) data in
    (a <| accepted ::= λ x, x ++ now |>, ByteStream.Count (len now))
  | ByteStream.Peek n => (a, ByteStream.Str (take (Z.to_nat n) (pending a)))
  | ByteStream.Pop n =>
    (if n <=? len (pending a)
     then a <| delivered ::= λ d, d ++ take (Z.to_nat n) (pending a) |>
     else a <| failed := true |>,
     ByteStream.Void)
  | ByteStream.Read n =>
    if n <=? len (pending a)
    then (a <| delivered ::= λ d, d ++ take (Z.to_nat n) (pending a) |>,
          ByteStream.Str (take (Z.to_nat n) (pending a)))
    else (a <| failed := true |>, ByteStream.Str [])
  | ByteStream.EndInput => (a <| ended := true |>, ByteStream.Void)
  | ByteStream.SetError => (a <| failed := true |>, ByteStream.Void)
  end.

(** The documented queue: once the input is ended no more bytes can be written. *)
Definition exec (cap : Z) (a : t) (c : ByteStream.call) : t * ByteStream.reply :=
  match c with
  | ByteStream.Write _ => if ended a then (a, ByteStream.Count 0) else step cap a c
  | _ => step cap a c
  end.

(** The writer keeps to the documentation: it writes nothing after it has ended the
    input. *)
Fixpoint stops_at_end (ended : bool) (cs : list ByteStream.call) : Prop :=
  match cs with
  | [] => True
  | ByteStream.Write _ :: cs => ended = false ∧ stops_at_end ended cs
  | ByteStream.EndInput :: cs => stops_at_end true cs
  | _ :: cs => stops_at_end ended cs
  end.

Fixpoint run (cap : Z) (a : t) (cs : list ByteStream.call) : t * list ByteStream.reply :=
  match cs with
  | [] => (a, [])
  | c :: cs =>
    let '(a1, r) := exec cap a c in
    let '(a2, rs) := run cap a1 cs in
    (a2, r :: rs)
  end.

(** The simulation relation: the class holds exactly the pending bytes, and its
    counters are the lengths of the two histories as [size_t]. *)
Record sim (cap : Z) (s : ByteStream.t) (a : t) : Prop := {
  sim_split : accepted a = delivered a ++ ByteStream.buffer s;
  sim_cap : ByteStream.capacity s = cap;
  sim_fit : len (ByteStream.buffer s) ≤ cap;
  sim_written : ByteStream.bytes_written s = u64 (len (accepted a));
  sim_read : ByteStream.bytes_read s = u64 (len (delivered a));
  sim_ended : ByteStream.input_ended s = ended a;
  sim_failed : ByteStream.error s = failed a
}.

End ByteStreamSpec.

(** ** Lemmas *)

Section byte_stream_facts.
Import ByteStream.
Implicit Types (s : t) (data : bytes) (n : Z).

Lemma wf_make n : 0 ≤ n < 2 ^ 64 → wf (make n).
Proof. unfold wf, len. simpl. lia. Qed.

Lemma remaining_capacity_wf s :
  wf s → remaining_capacity s = capacity s - len (buffer s).
Proof.
  unfold wf, remaining_capacity. pose proof (len_nonneg (buffer s)).
  intros ?. rewrite u64_id; lia.
Qed.

Lemma write_wf s data :
  wf s →
  write s data =
    (s <| buffer ::= λ b, b ++ take (Z.to_nat (capacity s - len (buffer s))) data |>
       <| written_bytes ::= λ w,
            u64 (w + Z.min (capacity s - len (buffer s)) (len data)) |>,
     Z.min (capacity s - len (buffer s)) (len data)).
Proof.
  intros Hwf. unfold write. fold (remaining_capacity s).
  rewrite remaining_capacity_wf by done. unfold wf in Hwf.
  set (k := capacity s - _). simpl. do 3 f_equal.
  destruct (Z.le_gt_cases k (len data)).
  - by rewrite Z.min_l.
  - rewrite Z.min_r by lia. rewrite !take_ge; [done|..]; unfold len in *; lia.
Qed.

Lemma write_preserves_wf s data : wf s → wf (write s data).1.
Proof.
  intros Hwf. rewrite write_wf by done. unfold wf in *. simpl.
  pose proof (len_nonneg (buffer s)).
  rewrite len_app, len_take by lia. lia.
Qed.

Lemma drop_preserves_fit {A} k (l : list A) : len (drop k l) ≤ len l.
Proof. unfold len. rewrite length_drop. lia. Qed.

Lemma pop_output_preserves_wf s n : wf s → wf (pop_output s n).
Proof.
  unfold pop_output, wf. case_tests; [done|]. simpl.
  pose proof (drop_preserves_fit (Z.to_nat n) (buffer s)). lia.
Qed.

Lemma read_preserves_wf s n : wf s → wf (read s n).1.
Proof.
  unfold read, wf. case_tests; [done|]. simpl.
  pose proof (drop_preserves_fit (Z.to_nat n) (buffer s)). lia.
Qed.

(** [read] is [peek_output] followed by [pop_output] when enough is buffered. *)
Lemma read_peek_pop s n :
  n ≤ len (buffer s) → read s n = (pop_output s n, peek_output s n).
Proof.
  intros Hn. unfold read, pop_output, peek_output.
  destruct (n >? _) eqn:E; [lia|]. by rewrite Z.min_l by lia.
Qed.

Lemma peek_output_take s n : peek_output s n = take (Z.to_nat n) (buffer s).
Proof.
  unfold peek_output. destruct (Z.le_gt_cases n (len (buffer s))).
  - by rewrite Z.min_l.
  - rewrite Z.min_r by lia. unfold len in *. rewrite !take_ge by lia. done.
Qed.

End byte_stream_facts.

#[export] Hint Resolve wf_make write_preserves_wf pop_output_preserves_wf
  read_preserves_wf : sponge.

Section refinement.
Import ByteStreamSpec.
Context (cap : Z) (cap_range : 0 ≤ cap < 2 ^ 64).
Implicit Types (s : ByteStream.t) (a : t).

Lemma sim_wf s a : sim cap s a → ByteStream.wf s.
Proof. intros H. destruct H. unfold ByteStream.wf. lia. Qed.

Lemma sim_pending s a : sim cap s a → pending a = ByteStream.buffer s.
Proof. intros H. unfold pending. by rewrite (sim_split _ _ _ H), drop_app_length. Qed.

Lemma sim_init : sim cap (ByteStream.make cap) init.
Proof. constructor; simpl; try done. unfold len. simpl. lia. Qed.

Lemma sim_write s a data :
  sim cap s a →
  sim cap (ByteStream.write s data).1 (step cap a (ByteStream.Write data)).1 ∧
  ByteStream.Count (ByteStream.write s data).2 = (step cap a (ByteStream.Write data)).2.
Proof.
  intros H. rewrite (write_wf _ _ (sim_wf _ _ H)). simpl.
  rewrite (sim_pending _ _ H), <- (sim_cap _ _ _ H).
  pose proof (sim_fit _ _ _ H) as Hfit. rewrite <- (sim_cap _ _ _ H) in Hfit.
  destruct H as [Hs Hc _ Hw Hr He Hf]. unfold ByteStream.bytes_written in Hw.
  assert (Hlen : len (take (Z.to_nat (ByteStream.capacity s - len (ByteStream.buffer s))) data)
            = Z.min (ByteStream.capacity s - len (ByteStream.buffer s)) (len data))
    by (apply len_take; lia).
  split; [constructor|]; simpl; try done.
  - by rewrite Hs, app_assoc.
  - rewrite len_app, Hlen. lia.
  - rewrite len_app, Hlen, Hw. apply u64_add_idemp.
  - by rewrite Hlen.
Qed.

(** Delivering [n] pending bytes keeps the relation. *)
Lemma sim_deliver s a n :
  sim cap s a → 0 ≤ n ≤ len (ByteStream.buffer s) →
  sim cap (s <| ByteStream.buffer ::= drop (Z.to_nat n) |>
             <| ByteStream.read_bytes ::= λ r, u64 (r + n) |>)
          (a <| delivered ::= λ d, d ++ take (Z.to_nat n) (pending a) |>).
Proof.
  intros H Hn. rewrite (sim_pending _ _ H).
  destruct H as [Hs Hc Hfit Hw Hr He Hf]. unfold ByteStream.bytes_read in Hr.
  constructor; simpl; try done.
  - by rewrite <- app_assoc, take_drop.
  - pose proof (drop_preserves_fit (Z.to_nat n) (ByteStream.buffer s)). lia.
  - rewrite len_app, len_take by lia. rewrite Hr, Z.min_l by lia. apply u64_add_idemp.
Qed.

Lemma sim_flag s a :
  sim cap s a → sim cap (ByteStream.set_error s) (a <| failed := true |>).
Proof. intros []. by constructor. Qed.

Lemma sim_step s a c :
  ByteStream.call_ok c → sim cap s a →
  sim cap (ByteStream.exec s c).1 (step cap a c).1 ∧
  (ByteStream.exec s c).2 = (step cap a c).2.
Proof.
  intros Hok H. pose proof (sim_pending _ _ H) as Hp. destruct c; simpl in Hok.
  - destruct (sim_write s a data H) as [H1 H2]. unfold ByteStream.exec.
    by destruct (ByteStream.write s data) as [s' k].
  - simpl. by rewrite peek_output_take, Hp.
  - simpl. unfold ByteStream.pop_output. rewrite Hp.
    case_tests; try lia; split; try done; [by apply sim_flag|].
    rewrite <- Hp. apply sim_deliver; [done|lia].
  - simpl. unfold ByteStream.read. rewrite Hp.
    case_tests; try lia; split; try done; [by apply sim_flag|].
    rewrite <- Hp. apply sim_deliver; [done|lia].
  - split; [|done]. destruct H. by constructor.
  - split; [|done]. by apply sim_flag.
Qed.

(** A writer that keeps to the documentation does not notice the check. *)
Lemma exec_step a c cs :
  stops_at_end (ended a) (c :: cs) → exec cap a c = step cap a c ∧ stops_at_end (ended (step cap a c).1) cs.
Proof.
  destruct c; cbn; try done; [by intros [-> ?]|by case_tests..].
Qed.

Lemma sim_run cs s a :
  Forall ByteStream.call_ok cs → stops_at_end (ended a) cs → sim cap s a →
  sim cap (ByteStream.run s cs).1 (run cap a cs).1 ∧
  (ByteStream.run s cs).2 = (run cap a cs).2.
Proof.
  intros Hok. revert s a. induction Hok as [|c cs Hc _ IH]; intros s a Hend H; [done|].
  destruct (exec_step a c cs Hend) as [He Hend']. rewrite <- He in Hend'.
  destruct (sim_step s a c Hc H) as [H1 Hr]. rewrite <- He in H1, Hr. cbn [ByteStream.run run].
  destruct (ByteStream.exec s c) as [s1 r1], (exec cap a c) as [a1 r2]; simpl in *.
  destruct (IH _ _ Hend' H1) as [H2 Hrs].
  destruct (ByteStream.run s1 cs), (run cap a1 cs); simpl in *. by subst.
Qed.

End refinement.

(** ** Properties *)

(** C1: a freshly constructed [ByteStream] answers every sequence of calls in which
    nothing is written after the input was ended exactly as the documented bounded
    queue does: writes accept precisely what fits, reads and peeks return the
    accepted bytes in order, over-long pops and reads only set the error flag; and
    what it holds afterwards is the accepted bytes not yet delivered, never more than
    the capacity.  The condition is on the writer: that no more bytes can be written
    after the end is documented, but the class does not see to it. *)
Theorem byte_stream_refines_bounded_queue (cap : Z) (cs : list ByteStream.call) :
  0 ≤ cap < 2 ^ 64 → Forall ByteStream.call_ok cs → ByteStreamSpec.stops_at_end false cs →
  (ByteStream.run (ByteStream.make cap) cs).2 =
    (ByteStreamSpec.run cap ByteStreamSpec.init cs).2 ∧
  ByteStreamSpec.sim cap (ByteStream.run (ByteStream.make cap) cs).1
    (ByteStreamSpec.run cap ByteStreamSpec.init cs).1.
Proof.
  intros Hcap Hok Hend. apply and_comm, sim_run; [done|done|done|]. by apply sim_init.
Qed.

Lemma byte_stream_refines_bounded_queue_witness :
  (ByteStream.run (ByteStream.make 3)
     [ByteStream.Write [1; 2]; ByteStream.Pop 1; ByteStream.Write [3; 4; 5]; ByteStream.EndInput;
      ByteStream.Read 2; ByteStream.Read 2]).2 =
  (ByteStreamSpec.run 3 ByteStreamSpec.init
     [ByteStream.Write [1; 2]; ByteStream.Pop 1; ByteStream.Write [3; 4; 5]; ByteStream.EndInput;
      ByteStream.Read 2; ByteStream.Read 2]).2.
Proof.
  apply (byte_stream_refines_bounded_queue 3); [lia|repeat constructor; simpl; lia|done].
Defined.

(** The class itself takes bytes after the end: a write goes in as far as it fits,
    and a stream that was at its end no longer is. *)
Theorem write_after_end_is_accepted (s : ByteStream.t) (data : bytes) :
  ByteStream.wf s → ByteStream.eof s = true → data ≠ [] → 0 < ByteStream.capacity s →
  0 < (ByteStream.write s data).2 ∧ ByteStream.eof (ByteStream.write s data).1 = false.
Proof.
  intros Hwf [Hb He]%andb_prop Hd Hc. apply Z.eqb_eq in Hb. rewrite write_wf by done. rewrite Hb, Z.sub_0_r.
  assert (0 < len data) by (destruct data; [done|rewrite len_cons; pose proof (len_nonneg data); lia]).
  cbn. split; [lia|]. unfold ByteStream.eof, ByteStream.buffer_empty. cbn.
  rewrite len_app, len_take, Hb by lia. by destruct (Z.eqb_spec (0 + Z.min (ByteStream.capacity s) (len data)) 0); [lia|].
Qed.
