(* ===== verification/wrapping_integers.v ===== *)
(** * Sequence numbers that wrap at 2^32

    Models [libsponge/wrapping_integers.hh] and [libsponge/wrapping_integers.cc]:
    [WrappingInt32], its operators, [wrap] and [unwrap].  The loop of [unwrap]
    runs on fuel; two steps are always enough when the loop ends at all, and
    the lemmas below say exactly when it does. *)

From S2P Require Import prelude.

(** [class WrappingInt32], a raw [uint32_t]. *)
Record WrappingInt32 := mkWrappingInt32 { raw_value : Z }.

#[export] Instance WrappingInt32_eq_dec : EqDecision WrappingInt32.
Proof. solve_decision. Defined.

(** The raw value is a [uint32_t]. *)
Definition seq_ok (a : WrappingInt32) : Prop := 0 ≤ raw_value a < 2 ^ 32.

(** [operator-(WrappingInt32, WrappingInt32)]: the 32-bit difference as [int32_t]. *)
Definition seq_sub (a b : WrappingInt32) : Z := s32 (u32 (raw_value a - raw_value b)).

(** [operator==] and [operator!=] *)
Definition seq_eqb (a b : WrappingInt32) : bool := raw_value a =? raw_value b.
Definition seq_neqb (a b : WrappingInt32) : bool := negb (seq_eqb a b).

(** [operator+(WrappingInt32, uint32_t)] *)
Definition seq_add (a : WrappingInt32) (b : Z) : WrappingInt32 :=
  mkWrappingInt32 (u32 (raw_value a + b)).

(** [operator-(WrappingInt32, uint32_t)] *)
Definition seq_back (a : WrappingInt32) (b : Z) : WrappingInt32 := seq_add a (u32 (- b)).

(** [wrap(uint64_t n, WrappingInt32 isn)] *)
Definition wrap (n : Z) (isn : WrappingInt32) : WrappingInt32 := seq_add isn (u32 n).

(** [while (tmp <= checkpoint) tmp += (1ll << 32);] *)
Fixpoint unwrap_loop (fuel : nat) (tmp checkpoint : Z) : outcome Z :=
  match fuel with
  | O => Diverge
  | S fuel =>
    if tmp <=? checkpoint then unwrap_loop fuel (u64 (tmp + 2 ^ 32)) checkpoint else Ok tmp
  end.

(** [unwrap(n, isn, checkpoint)] with [fuel] loop iterations. *)
Definition unwrap_fuel (fuel : nat) (n isn : WrappingInt32) (checkpoint : Z) : outcome Z :=
  let tmp :=
    if seq_sub n isn <? 0 then u64 (seq_sub n isn + 2 ^ 32) else u64 (seq_sub n isn) in
  if tmp >=? checkpoint then Ok tmp
  else
    let tmp := Z.lor tmp (Z.shiftl (Z.shiftr checkpoint 32) 32) in
    tmp ← unwrap_loop fuel tmp checkpoint;
    let tmp1 := u64 (tmp - 2 ^ 32) in
    Ok (if u64 (checkpoint - tmp1) <? u64 (tmp - checkpoint) then tmp1 else tmp).

Definition unwrap (n isn : WrappingInt32) (checkpoint : Z) : outcome Z :=
  unwrap_fuel 2 n isn checkpoint.

(** ** Lemmas *)

(** The offset of [n] from [isn] modulo 2^32, the first value of [tmp]. *)
Definition seq_offset (n isn : WrappingInt32) : Z := (raw_value n - raw_value isn) mod 2 ^ 32.

Lemma seq_offset_bound n isn : 0 ≤ seq_offset n isn < 2 ^ 32.
Proof. apply Z.mod_pos_bound. lia. Qed.

Lemma split_high_low z :
  z = z / 2 ^ 32 * 2 ^ 32 + z mod 2 ^ 32 ∧ 0 ≤ z mod 2 ^ 32 < 2 ^ 32.
Proof. split; [|apply Z.mod_pos_bound; lia]. pose proof (Z.div_mod z (2 ^ 32)). lia. Qed.

Lemma mod_high_low z r off :
  0 ≤ off < 2 ^ 32 → r = off + z * 2 ^ 32 → r mod 2 ^ 32 = off.
Proof. intros ? ->. rewrite Z.mod_add by lia. by apply Z.mod_small. Qed.

Lemma first_tmp n isn :
  (if seq_sub n isn <? 0 then u64 (seq_sub n isn + 2 ^ 32) else u64 (seq_sub n isn))
  = seq_offset n isn.
Proof.
  pose proof (seq_offset_bound n isn). unfold seq_sub, seq_offset, u32, s32, u64 in *.
  set (d := (raw_value n - raw_value isn) mod 2 ^ 32) in *.
  destruct (_ <? 0) eqn:E; Z.div_mod_to_equations; lia.
Qed.

Lemma lor_high_low off q :
  0 ≤ off < 2 ^ 32 → Z.lor off (Z.shiftl q 32) = off + q * 2 ^ 32.
Proof.
  intros Hoff. rewrite Z.shiftl_mul_pow2 by lia.
  rewrite <- Z.lxor_lor, <- Z.add_nocarry_lxor; [done|..];
    apply Z.bits_inj'; intros i Hi; rewrite Z.land_spec, Z.bits_0.
  all: destruct (Z.lt_ge_cases i 32).
  1,3: rewrite (Z.mul_pow2_bits_low q 32 i) by lia; apply andb_false_r.
  all: rewrite <- (Z.mod_small off (2 ^ 32)) by lia;
    rewrite Z.mod_pow2_bits_high by lia; done.
Qed.

(** The value [tmp] has when the loop starts. *)
Lemma loop_entry n isn cp :
  Z.lor (seq_offset n isn) (Z.shiftl (Z.shiftr cp 32) 32)
  = seq_offset n isn + (cp / 2 ^ 32) * 2 ^ 32.
Proof.
  rewrite Z.shiftr_div_pow2 by lia. apply lor_high_low, seq_offset_bound.
Qed.

(** Away from the top 2^32 checkpoints, one round of the loop is enough. *)
Lemma unwrap_loop_ends fuel off q cp :
  0 ≤ off < 2 ^ 32 → cp / 2 ^ 32 = q → 0 ≤ cp < 2 ^ 64 →
  off > cp mod 2 ^ 32 ∨ cp < 2 ^ 64 - 2 ^ 32 →
  unwrap_loop (S (S fuel)) (off + q * 2 ^ 32) cp =
  Ok (if off <=? cp mod 2 ^ 32 then off + (q + 1) * 2 ^ 32 else off + q * 2 ^ 32).
Proof.
  intros Hoff <- Hcp Hend. cbn [unwrap_loop].
  pose proof (split_high_low cp) as [Hsplit Hlow].
  destruct (_ <=? cp) eqn:E1, (off <=? _) eqn:E2; try lia; [|done].
  rewrite (u64_id (off + cp / 2 ^ 32 * 2 ^ 32 + 2 ^ 32)) by lia.
  destruct (off + cp / 2 ^ 32 * 2 ^ 32 + 2 ^ 32 <=? cp) eqn:E3; [lia|]. f_equal. lia.
Qed.

(** In the top 2^32 checkpoints the sum overflows and the loop never ends. *)
Lemma unwrap_loop_diverges fuel off k cp :
  0 ≤ off ≤ cp mod 2 ^ 32 → 2 ^ 64 - 2 ^ 32 ≤ cp < 2 ^ 64 → 0 ≤ k < 2 ^ 32 →
  unwrap_loop fuel (off + k * 2 ^ 32) cp = Diverge.
Proof.
  intros Hoff Hcp. revert k. induction fuel as [|fuel IH]; intros k Hk; [done|].
  cbn [unwrap_loop].
  assert (Hq : cp / 2 ^ 32 = 2 ^ 32 - 1) by (Z.div_mod_to_equations; lia).
  pose proof (split_high_low cp) as [Hsplit Hlow].
  destruct (_ <=? cp) eqn:E; [|nia].
  destruct (Z.eq_dec k (2 ^ 32 - 1)) as [->|Hne].
  - replace (u64 _) with (off + 0 * 2 ^ 32); [apply IH; lia|].
    unfold u64. Z.div_mod_to_equations; lia.
  - rewrite u64_id by nia.
    replace (_ + 2 ^ 32) with (off + (k + 1) * 2 ^ 32) by lia. apply IH; lia.
Qed.

(** The result of [unwrap] in closed form, for every fuel of at least two. *)
Lemma unwrap_fuel_ends fuel n isn cp :
  0 ≤ cp < 2 ^ 64 →
  seq_offset n isn > cp mod 2 ^ 32 ∨ cp < 2 ^ 64 - 2 ^ 32 →
  ∃ r, unwrap_fuel (S (S fuel)) n isn cp = Ok r ∧
    0 ≤ r < 2 ^ 64 ∧ r mod 2 ^ 32 = seq_offset n isn ∧
    (- 2 ^ 31 < r - cp ≤ 2 ^ 31 ∨ r = seq_offset n isn ∧ cp ≤ r).
Proof.
  intros Hcp Hend. unfold unwrap_fuel. rewrite first_tmp, loop_entry.
  pose proof (seq_offset_bound n isn) as Hoff. set (off := seq_offset n isn) in *.
  destruct (off >=? cp) eqn:E.
  { exists off. split_and!; [done|lia|lia|apply Z.mod_small; lia|right; lia]. }
  rewrite (unwrap_loop_ends fuel off _ cp) by done.
  pose proof (split_high_low cp) as [Hsplit Hlow].
  assert (Hq : 0 ≤ cp / 2 ^ 32 < 2 ^ 32) by (Z.div_mod_to_equations; lia).
  set (q := cp / 2 ^ 32) in *. cbn.
  destruct (off <=? cp mod 2 ^ 32) eqn:E2.
  - rewrite (u64_id (_ - 2 ^ 32)) by lia. rewrite !u64_id by lia.
    destruct (_ <? _) eqn:E3; eexists; (split; [done|]); split_and!; try lia;
      first [apply (mod_high_low (q + 1)); lia | apply (mod_high_low q); lia
            |apply (mod_high_low (q - 1)); lia].
  - assert (0 < q) by lia.
    rewrite (u64_id (_ - 2 ^ 32)) by lia. rewrite !u64_id by lia.
    destruct (_ <? _) eqn:E3; eexists; (split; [done|]); split_and!; try lia;
      first [apply (mod_high_low (q + 1)); lia | apply (mod_high_low q); lia
            |apply (mod_high_low (q - 1)); lia].
Qed.

Lemma unwrap_fuel_diverges fuel n isn cp :
  2 ^ 64 - 2 ^ 32 ≤ cp < 2 ^ 64 → seq_offset n isn ≤ cp mod 2 ^ 32 →
  unwrap_fuel fuel n isn cp = Diverge.
Proof.
  intros Hcp Hle. unfold unwrap_fuel. rewrite first_tmp, loop_entry.
  pose proof (seq_offset_bound n isn) as Hoff.
  destruct (seq_offset n isn >=? cp) eqn:E; [lia|].
  by rewrite unwrap_loop_diverges by (Z.div_mod_to_equations; lia).
Qed.

Lemma unwrap_spec n isn cp :
  0 ≤ cp < 2 ^ 64 - 2 ^ 32 →
  ∃ r, unwrap n isn cp = Ok r ∧ 0 ≤ r < 2 ^ 64 ∧ r mod 2 ^ 32 = seq_offset n isn ∧
    (- 2 ^ 31 < r - cp ≤ 2 ^ 31 ∨ r = seq_offset n isn ∧ cp ≤ r).
Proof. intros ?. apply unwrap_fuel_ends; lia. Qed.

Lemma seq_offset_wrap n isn : seq_offset (wrap n isn) isn = n mod 2 ^ 32.
Proof.
  unfold seq_offset, wrap, seq_add, u32. simpl.
  rewrite Zminus_mod_idemp_l. replace (_ - _) with (n mod 2 ^ 32) by lia.
  apply Z.mod_mod. lia.
Qed.

Lemma wrap_ok n isn : seq_ok (wrap n isn).
Proof. apply u32_bound. Qed.

(** Any number congruent to the offset wraps back to [n]. *)
Lemma wrap_of_offset r n isn :
  seq_ok n → r mod 2 ^ 32 = seq_offset n isn → wrap r isn = n.
Proof.
  unfold seq_ok, seq_offset. intros Hn Hr. destruct n as [n]. simpl in *.
  unfold wrap, seq_add, u32. f_equal. rewrite Hr.
  rewrite Zplus_mod_idemp_r. replace (_ + _) with n by lia. by apply Z.mod_small.
Qed.

(** The sequence number a checkpoint within half the space recovers. *)
Lemma unwrap_wrap n isn cp :
  0 ≤ n < 2 ^ 64 → 0 ≤ cp < 2 ^ 64 - 2 ^ 32 → - 2 ^ 31 < n - cp ≤ 2 ^ 31 →
  unwrap (wrap n isn) isn cp = Ok n.
Proof.
  intros Hn Hcp Hd. destruct (unwrap_spec (wrap n isn) isn cp Hcp) as (r & -> & Hr & Hm & Hc).
  rewrite seq_offset_wrap in *. f_equal. Z.div_mod_to_equations; lia.
Qed.

(** ** Properties *)

(** C19: [unwrap] inverts [wrap]: an absolute sequence number survives the trip
    through its 32-bit form whenever it lies less than 2^31 before the checkpoint or
    at most 2^31 after it, and the checkpoint is below 2^64 - 2^32 (above, [unwrap]
    need not return). *)
Theorem unwrap_wrap_roundtrip (n : Z) (isn : WrappingInt32) (checkpoint : Z) :
  0 ≤ n < 2 ^ 64 → 0 ≤ checkpoint < 2 ^ 64 - 2 ^ 32 →
  - 2 ^ 31 < n - checkpoint ≤ 2 ^ 31 →
  unwrap (wrap n isn) isn checkpoint = Ok n.
Proof. apply unwrap_wrap. Qed.

Lemma unwrap_wrap_roundtrip_witness :
  unwrap (wrap (3 * 2 ^ 32 + 17) (mkWrappingInt32 4294967290))
    (mkWrappingInt32 4294967290) (3 * 2 ^ 32 - 5) = Ok (3 * 2 ^ 32 + 17).
Proof. apply (unwrap_wrap_roundtrip (3 * 2 ^ 32 + 17)); lia. Defined.

(** [unwrap] returns the 64-bit number that wraps to [n] and is closest to
    the checkpoint: no other non-negative number that wraps to [n] is nearer. *)
Theorem unwrap_closest (n isn : WrappingInt32) (checkpoint : Z) :
  seq_ok n → 0 ≤ checkpoint < 2 ^ 64 - 2 ^ 32 →
  ∃ r, unwrap n isn checkpoint = Ok r ∧ 0 ≤ r < 2 ^ 64 ∧ wrap r isn = n ∧
    ∀ m, 0 ≤ m → wrap m isn = n → Z.abs (r - checkpoint) ≤ Z.abs (m - checkpoint).
Proof.
  intros Hn Hcp. destruct (unwrap_spec n isn checkpoint Hcp) as (r & Hu & Hr & Hm & Hc).
  exists r. split_and!; [done|lia|lia|by apply wrap_of_offset|].
  intros m Hm0 <-. rewrite seq_offset_wrap in *. Z.div_mod_to_equations; lia.
Qed.

Lemma unwrap_closest_witness :
  ∃ r, unwrap (mkWrappingInt32 5) (mkWrappingInt32 0) (2 ^ 32) = Ok r ∧ 0 ≤ r < 2 ^ 64 ∧
    wrap r (mkWrappingInt32 0) = mkWrappingInt32 5 ∧
    ∀ m, 0 ≤ m → wrap m (mkWrappingInt32 0) = mkWrappingInt32 5 →
      Z.abs (r - 2 ^ 32) ≤ Z.abs (m - 2 ^ 32).
Proof. apply unwrap_closest; [unfold seq_ok; simpl|]; lia. Defined.

(** C20: the loop of [unwrap] ends for a checkpoint exactly unless the checkpoint
    is in the last 2^32 values and its low half is at least the offset of [n]
    from [isn]; there [tmp += 1ll << 32] overflows and no number of iterations is
    enough. *)
Theorem unwrap_terminates_iff (n isn : WrappingInt32) (checkpoint : Z) :
  0 ≤ checkpoint < 2 ^ 64 →
  (∃ fuel r, unwrap_fuel fuel n isn checkpoint = Ok r) ↔
  (checkpoint < 2 ^ 64 - 2 ^ 32 ∨
   checkpoint mod 2 ^ 32 < (raw_value n - raw_value isn) mod 2 ^ 32).
Proof.
  intros Hcp. fold (seq_offset n isn). split.
  - intros (fuel & r & H).
    destruct (Z.lt_ge_cases checkpoint (2 ^ 64 - 2 ^ 32)); [by left|right].
    apply Z.nle_gt. intros Hle. by rewrite unwrap_fuel_diverges in H by lia.
  - intros H. destruct (unwrap_fuel_ends 0 n isn checkpoint) as (r & Hr & _); [done|lia|].
    eauto.
Qed.

Lemma unwrap_terminates_iff_witness :
  (∃ fuel r, unwrap_fuel fuel (mkWrappingInt32 7) (mkWrappingInt32 9) 100 = Ok r) ↔
  (100 < 2 ^ 64 - 2 ^ 32 ∨ 100 mod 2 ^ 32 < (7 - 9) mod 2 ^ 32).
Proof. apply (unwrap_terminates_iff (mkWrappingInt32 7) (mkWrappingInt32 9) 100). lia. Defined.
