(* ===== verification/stream_reassembler.v ===== *)
(** * Reassembly of substrings into a byte stream

    Models [libsponge/stream_reassembler.hh] and
    [libsponge/stream_reassembler.cc]: the sliding window of unassembled bytes
    ([buffer] with its [bitmap]), [check_contiguous] and [push_substring].  Every
    [deque] access is checked: an index outside the container is [UB], and the
    subtraction that computes the room left in the window is done in [size_t].

    [reach] is the set of states a reassembler of the stream [S] gets into when
    its substrings are slices of [S] that start inside the advertised window;
    the theorems say that such a reassembler delivers exactly [S]. *)

From S2P Require Import prelude byte_stream.

Module StreamReassembler.

(** The members of [class StreamReassembler]. *)
Record t := mk {
  unass_base : Z;
  unass_size : Z;
  _eof : bool;
  buffer : bytes;
  bitmap : list bool;
  _output : ByteStream.t;
  _capacity : Z
}.

#[global] Instance eta_t : Eta t := λ s,
  mk (unass_base s) (unass_size s) (_eof s) (buffer s) (bitmap s) (_output s) (_capacity s).

(** [StreamReassembler::StreamReassembler(capacity)] *)
Definition make (capacity : Z) : t :=
  mk 0 0 false (replicate (Z.to_nat capacity) 0) (replicate (Z.to_nat capacity) false)
     (ByteStream.make capacity) capacity.

(** [while (bitmap.front()) { ... }]: moves the assembled bytes at the front of
    the window to [tmp] and shifts placeholders in at its back. *)
Fixpoint contiguous_loop (fuel : nat) (buf : bytes) (bm : list bool) (tmp : bytes)
    : outcome (bytes * list bool * bytes) :=
  match fuel with
  | O => Diverge
  | S fuel =>
    match bm with
    | [] => UB
    | false :: _ => Ok (buf, bm, tmp)
    | true :: bm =>
      match buf with
      | [] => UB
      | c :: buf => contiguous_loop fuel (buf ++ [0]) (bm ++ [false]) (tmp ++ [c])
      end
    end
  end.

Definition check_contiguous (s : t) : outcome t :=
  '(buf, bm, tmp) ← contiguous_loop (S (length (bitmap s))) (buffer s) (bitmap s) [];
  let s := s <| buffer := buf |> <| bitmap := bm |> in
  Ok (if len tmp >? 0
      then s <| _output ::= λ o, (ByteStream.write o tmp).1 |>
             <| unass_base ::= λ b, u64 (b + len tmp) |>
             <| unass_size ::= λ n, u64 (n - len tmp) |>
      else s).

(** [data[k]] of a [const std::string]: the terminator at [size()], undefined
    beyond it. *)
Definition string_at (data : bytes) (k : Z) : outcome Z :=
  if k =? len data then Ok 0 else or_UB (data !! Z.to_nat k).

(** The two copying loops: for [i = 0 .. n-1], unless [bitmap[i + dst]] is set,
    store [data[i + src]] there and count it. *)
Fixpoint fill_loop (n : nat) (i dst src : Z) (data : bytes)
    (buf : bytes) (bm : list bool) (size : Z) : outcome (bytes * list bool * Z) :=
  match n with
  | O => Ok (buf, bm, size)
  | S n =>
    let k := Z.to_nat (u64 (i + dst)) in
    b ← or_UB (bm !! k);
    if (b : bool) then fill_loop n (i + 1) dst src data buf bm size
    else
      c ← string_at data (u64 (i + src));
      _ ← or_UB (buf !! k);
      fill_loop n (i + 1) dst src data (<[k := c]> buf) (<[k := true]> bm) (u64 (size + 1))
  end.

Definition store (s : t) (n dst src : Z) (data : bytes) : outcome t :=
  '(buf, bm, size) ←
    fill_loop (Z.to_nat n) 0 dst src data (buffer s) (bitmap s) (unass_size s);
  Ok (s <| buffer := buf |> <| bitmap := bm |> <| unass_size := size |>).

(** The end of [push_substring]: assemble, then close the stream if the last
    byte has arrived and nothing is waiting. *)
Definition finish (s : t) : outcome t :=
  s ← check_contiguous s;
  Ok (if _eof s && (unass_size s =? 0)
      then s <| _output ::= ByteStream.end_input |> else s).

(** [StreamReassembler::push_substring] *)
Definition push_substring (s : t) (data : bytes) (index : Z) (eof : bool) : outcome t :=
  let s := if eof then s <| _eof := true |> else s in
  let n := len data in
  if (n =? 0) && _eof s && (unass_size s =? 0) then
    Ok (s <| _output ::= ByteStream.end_input |>)
  else if index >=? u64 (unass_base s + _capacity s) then Ok s
  else if index >=? unass_base s then
    let offset := s32 (u64 (index - unass_base s)) in
    let real_len :=
      Z.min n (u64 (_capacity s - ByteStream.buffer_size (_output s) - offset)) in
    let s := if real_len <? n then s <| _eof := false |> else s in
    s ← store s real_len offset 0 data;
    finish s
  else if u64 (index + n) >? unass_base s then
    let offset := s32 (u64 (unass_base s - index)) in
    let real_len :=
      Z.min (u64 (n - offset)) (u64 (_capacity s - ByteStream.buffer_size (_output s))) in
    let s := if real_len <? u64 (n - offset) then s <| _eof := false |> else s in
    s ← store s real_len 0 offset data;
    finish s
  else finish s.

Definition stream_out (s : t) : ByteStream.t := _output s.
Definition unassembled_bytes (s : t) : Z := unass_size s.
Definition empty (s : t) : bool := unass_size s =? 0.
Definition ack_index (s : t) : Z := unass_base s.

(** ** Reassembling a known stream *)

(** The room the window still has: what the receiver advertises. *)
Definition room (s : t) : Z := ByteStream.remaining_capacity (_output s).

(** Byte [i] of the stream has been stored or delivered. *)
Definition received (s : t) (i : Z) : Prop :=
  0 ≤ i < unass_base s ∨
  unass_base s ≤ i ∧ bitmap s !! Z.to_nat (i - unass_base s) = Some true.

(** The number of bytes the bitmap marks. *)
Fixpoint marked (bm : list bool) : nat :=
  match bm with [] => 0 | b :: bm => (if b then 1 else 0) + marked bm end.

(** [data] is the slice of [S] at [index], of a length an [int] holds; a final
    slice ends where [S] ends. *)
Definition slice_of (S : bytes) (data : bytes) (index : Z) (eof : bool) : Prop :=
  0 ≤ index ∧ len data < 2 ^ 31 ∧
  (∀ j, 0 ≤ j < len data → data !! Z.to_nat j = S !! Z.to_nat (index + j)) ∧
  (eof = true → index + len data = len S).

(** The substring starts inside the window the receiver advertises (or wholly
    beyond the buffer, where it is dropped), and a final one is not dropped and,
    if empty, arrives in order. *)
Definition in_window (s : t) (data : bytes) (index : Z) (eof : bool) : Prop :=
  (index ≤ unass_base s + room s ∨ unass_base s + _capacity s ≤ index) ∧
  (eof = true → index < unass_base s + _capacity s ∧ (data ≠ [] ∨ index ≤ unass_base s)).

(** What holds between the steps of a push. *)
Record mid (S : bytes) (s : t) : Prop := {
  mid_cap : 0 < _capacity s < 2 ^ 31;
  mid_buf : len (buffer s) = _capacity s;
  mid_bm : len (bitmap s) = _capacity s;
  mid_base : 0 ≤ unass_base s ≤ len S;
  mid_out : ∃ a, ByteStreamSpec.sim (_capacity s) (_output s) a ∧
                 ByteStreamSpec.accepted a = take (Z.to_nat (unass_base s)) S;
  mid_window : ∀ k : nat, bitmap s !! k = Some true →
    buffer s !! k = S !! (Z.to_nat (unass_base s) + k)%nat ∧
    unass_base s + Z.of_nat k < len S ∧ Z.of_nat k < room s;
  mid_size : unass_size s = Z.of_nat (marked (bitmap s))
}.

(** The invariant of a reassembler of [S]. *)
Record inv (S : bytes) (s : t) : Prop := {
  inv_mid : mid S s;
  inv_front : bitmap s !! 0%nat = Some false;
  inv_eof : _eof s = true → S = [] ∨ received s (len S - 1);
  inv_ended : ByteStream.input_ended (_output s) = _eof s && (unass_size s =? 0)
}.

(** The states reached from a new reassembler by pushing slices of [S] that
    start in the window, interleaved with reads of the output by its owner, who
    may also mark it as failed. *)
Inductive reach (capacity : Z) (S : bytes) : t → Prop :=
| reach_make : reach capacity S (make capacity)
| reach_push s data index eof s' :
    reach capacity S s →
    slice_of S data index eof → in_window s data index eof →
    push_substring s data index eof = Ok s' →
    reach capacity S s'
| reach_read s n :
    reach capacity S s → 0 ≤ n < 2 ^ 64 →
    reach capacity S (s <| _output ::= λ o, (ByteStream.read o n).1 |>)
| reach_pop s n :
    reach capacity S s → 0 ≤ n < 2 ^ 64 →
    reach capacity S (s <| _output ::= λ o, ByteStream.pop_output o n |>)
| reach_error s :
    reach capacity S s → reach capacity S (s <| _output ::= ByteStream.set_error |>).

End StreamReassembler.

(** ** Lemmas *)

Section loops.
Import StreamReassembler.

Lemma marked_insert bm k :
  bm !! k = Some false → marked (<[k := true]> bm) = S (marked bm).
Proof.
  revert k. induction bm as [|b bm IH]; intros [|k] H; simplify_eq/=; [done|].
  rewrite IH by done. lia.
Qed.

Lemma marked_le bm : (marked bm ≤ length bm)%nat.
Proof. induction bm as [|[] bm IH]; simpl; lia. Qed.

Lemma marked_app bm1 bm2 : marked (bm1 ++ bm2) = (marked bm1 + marked bm2)%nat.
Proof. induction bm1 as [|[] bm1 IH]; simpl; lia. Qed.

Lemma marked_replicate_true p : marked (replicate p true) = p.
Proof. induction p; simpl; lia. Qed.

Lemma marked_replicate_false p : marked (replicate p false) = 0%nat.
Proof. induction p; simpl; lia. Qed.

Lemma marked_pos bm k : bm !! k = Some true → (0 < marked bm)%nat.
Proof.
  revert k. induction bm as [|b bm IH]; intros [|k] H; simplify_eq/=; [lia|].
  specialize (IH _ H). lia.
Qed.

Lemma marked_zero bm : marked bm = 0%nat → ∀ k, bm !! k ≠ Some true.
Proof. intros H k Hk. apply marked_pos in Hk. lia. Qed.

(** The leading run of marks. *)
Lemma leading_run (bm : list bool) :
  ∃ p rest, bm = replicate p true ++ rest ∧ rest !! 0%nat ≠ Some true.
Proof.
  induction bm as [|[] bm (p & rest & -> & Hr)].
  - by exists 0%nat, [].
  - by exists (S p), rest.
  - by exists 0%nat, (false :: replicate p true ++ rest).
Qed.

Lemma run_lookup (p : nat) (rest : list bool) :
  (∀ k, (k < p)%nat → (replicate p true ++ rest) !! k = Some true) ∧
  ∀ k, (replicate p true ++ rest) !! (p + k)%nat = rest !! k.
Proof.
  split; intros k.
  - intros Hk. rewrite lookup_app_l by (rewrite length_replicate; lia). by apply lookup_replicate_2.
  - rewrite lookup_app_r by (rewrite length_replicate; lia). rewrite length_replicate. f_equal. lia.
Qed.

(** The loop of [check_contiguous] moves the leading run out and leaves an
    unmarked slot at the front; one more step than the run is enough fuel. *)
Lemma contiguous_loop_spec p fuel buf rest tmp :
  (p < fuel)%nat → (p ≤ length buf)%nat → rest !! 0%nat ≠ Some true →
  (0 < p + length rest)%nat →
  contiguous_loop fuel buf (replicate p true ++ rest) tmp =
  Ok (drop p buf ++ replicate p 0, rest ++ replicate p false, tmp ++ take p buf).
Proof.
  revert fuel buf rest tmp. induction p as [|p IH]; intros fuel buf rest tmp Hf Hb Hr Hn.
  - destruct fuel; [lia|]. simpl. rewrite !app_nil_r.
    destruct rest as [|[] rest]; simpl in *; [lia|done|done].
  - destruct fuel as [|fuel], buf as [|c buf]; simpl in *; try lia.
    rewrite <- app_assoc, IH; [|lia|rewrite length_app; simpl; lia|..].
    + rewrite drop_app_le, take_app_le by lia. rewrite <- !app_assoc. simpl.
      repeat f_equal.
    + destruct rest; done.
    + rewrite length_app. simpl. lia.
Qed.

(** The copying loop marks exactly its target range and writes the source bytes
    into the slots that were free. *)
Lemma byte_loop_spec n i dst src data buf bm size :
  0 ≤ i → 0 ≤ dst → 0 ≤ src →
  i + Z.of_nat n + dst ≤ len bm → len buf = len bm → len bm < 2 ^ 63 →
  i + Z.of_nat n + src ≤ len data → len data < 2 ^ 63 →
  size = Z.of_nat (marked bm) →
  ∃ buf' bm', fill_loop n i dst src data buf bm size = Ok (buf', bm', Z.of_nat (marked bm')) ∧
    length buf' = length buf ∧ length bm' = length bm ∧
    (∀ k, bm' !! k = Some true ↔
       bm !! k = Some true ∨ i + dst ≤ Z.of_nat k < i + dst + Z.of_nat n) ∧
    (∀ k, bm !! k = Some true → buf' !! k = buf !! k) ∧
    (∀ k, bm !! k ≠ Some true → bm' !! k = Some true →
       buf' !! k = data !! Z.to_nat (Z.of_nat k - dst + src)).
Proof.
  revert i buf bm size. induction n as [|n IH];
    intros i buf bm size Hi Hdst Hsrc Hbm Hbuf Hsmall Hdata Hds ->.
  { exists buf, bm. split_and!; try done. intros k. split; [by left|intros [?|?]; [done|lia]]. }
  cbn [fill_loop]. rewrite (u64_id (i + dst)), (u64_id (i + src)) by lia.
  destruct (lookup_lt_is_Some_2 bm (Z.to_nat (i + dst))) as [b Hb]; [unfold len in *; lia|].
  rewrite Hb. cbn. destruct b.
  - destruct (IH (i + 1) buf bm (Z.of_nat (marked bm)))
      as (buf' & bm' & -> & H1 & H2 & H3 & H4 & H5); try lia.
    exists buf', bm'. split_and!; try done. intros k. rewrite H3.
    destruct (decide (Z.of_nat k = i + dst)) as [Hk|Hk]; [|split; intros [?|?]; auto; lia].
    replace k with (Z.to_nat (i + dst)) by lia. split; [by left|by left].
  - assert (Hc : ∃ c, data !! Z.to_nat (i + src) = Some c)
      by (apply lookup_lt_is_Some_2; unfold len in *; lia).
    destruct Hc as [c Hc].
    assert (Hu : ∃ u, buf !! Z.to_nat (i + dst) = Some u)
      by (apply lookup_lt_is_Some_2; unfold len in *; lia).
    destruct Hu as [u Hu].
    unfold string_at. destruct (i + src =? len data) eqn:E; [lia|].
    rewrite Hc, Hu. cbn.
    destruct (IH (i + 1) (<[Z.to_nat (i + dst) := c]> buf) (<[Z.to_nat (i + dst) := true]> bm)
                (u64 (Z.of_nat (marked bm) + 1)))
      as (buf' & bm' & -> & H1 & H2 & H3 & H4 & H5);
      try lia; try (unfold len in *; rewrite ?length_insert; lia).
    { rewrite marked_insert by done. pose proof (marked_le bm). rewrite u64_id; unfold len in *; lia. }
    rewrite length_insert in H1. rewrite length_insert in H2. exists buf', bm'. split_and!; try done.
    + intros k. rewrite H3, list_lookup_insert.
      destruct (decide (Z.to_nat (i + dst) = k)) as [<-|Hne].
      * split; [right; lia|]. intros _. left. case_decide; [done|]. unfold len in *; lia.
      * rewrite decide_False by tauto. split; intros [?|?]; auto; lia.
    + intros k Hk. destruct (decide (Z.to_nat (i + dst) = k)) as [<-|Hne]; [congruence|].
      rewrite H4; rewrite list_lookup_insert_ne by done; done.
    + intros k Hk Hk'. destruct (decide (Z.to_nat (i + dst) = k)) as [<-|Hne].
      * rewrite H4 by (apply list_lookup_insert_eq; unfold len in *; lia).
        rewrite list_lookup_insert_eq by (unfold len in *; lia).
        rewrite <- Hc. f_equal. lia.
      * apply H5; [|done]. by rewrite list_lookup_insert_ne.
Qed.

(** The copying loop runs out of the window when its range does. *)
Lemma fill_loop_overrun n i dst data buf bm size :
  0 ≤ i → 0 ≤ dst → i + Z.of_nat n ≤ len data → len data < 2 ^ 31 →
  len buf = len bm → len bm < 2 ^ 31 → i + dst ≤ len bm < i + dst + Z.of_nat n →
  fill_loop n i dst 0 data buf bm size = UB.
Proof.
  revert i buf bm size. induction n as [|n IH];
    intros i buf bm size Hi Hdst Hdata Hsmall Hbuf Hbm Hover; [lia|].
  cbn [fill_loop]. rewrite (u64_id (i + dst)), (u64_id (i + 0)) by lia.
  destruct (bm !! Z.to_nat (i + dst)) as [b|] eqn:Hb; [|done].
  apply lookup_lt_Some in Hb as Hlt.
  cbn. destruct b; [apply IH; unfold len in *; lia|].
  unfold string_at. destruct (i + 0 =? len data) eqn:E; [lia|].
  destruct (lookup_lt_is_Some_2 data (Z.to_nat (i + 0))) as [c ->]; [unfold len in *; lia|].
  destruct (lookup_lt_is_Some_2 buf (Z.to_nat (i + dst))) as [u ->]; [unfold len in *; lia|].
  cbn. apply IH; unfold len in *; rewrite ?length_insert; lia.
Qed.

End loops.

Section pushing.
Import StreamReassembler.
Context (S : bytes) (S_small : len S < 2 ^ 63).
Implicit Types (s : t) (data : bytes).

Lemma room_eq s :
  mid S s →
  room s = _capacity s - len (ByteStream.buffer (_output s)) ∧ 0 ≤ room s ≤ _capacity s.
Proof.
  intros H. destruct (mid_out _ _ H) as (a & Hsim & _). pose proof (mid_cap _ _ H).
  pose proof (ByteStreamSpec.sim_fit _ _ _ Hsim).
  pose proof (ByteStreamSpec.sim_cap _ _ _ Hsim).
  pose proof (len_nonneg (ByteStream.buffer (_output s))).
  unfold room, ByteStream.remaining_capacity. rewrite u64_id; lia.
Qed.

Lemma buffered_room s : mid S s → ByteStream.buffer_size (_output s) = _capacity s - room s.
Proof. intros H. destruct (room_eq s H). unfold ByteStream.buffer_size. lia. Qed.

(** Storing a slice of [S] in a range of the window that has room. *)
Lemma store_spec s n dst src data :
  mid S s → 0 ≤ n → 0 ≤ dst → 0 ≤ src → dst + n ≤ room s → src + n ≤ len data →
  len data < 2 ^ 63 → unass_base s + dst + n ≤ len S →
  (∀ j, 0 ≤ j < n → data !! Z.to_nat (j + src) = S !! Z.to_nat (unass_base s + j + dst)) →
  ∃ s', store s n dst src data = Ok s' ∧ mid S s' ∧
    unass_base s' = unass_base s ∧ _eof s' = _eof s ∧ _output s' = _output s ∧
    _capacity s' = _capacity s ∧
    ∀ k : nat, bitmap s' !! k = Some true ↔
      bitmap s !! k = Some true ∨ dst ≤ Z.of_nat k < dst + n.
Proof.
  intros Hm Hn Hdst Hsrc Hroom Hdata Hsmall HS Hslice.
  destruct (room_eq s Hm) as [_ Hr]. pose proof Hm as [Hcap Hbuf Hbm Hbase Hout Hwin Hsize].
  destruct (byte_loop_spec (Z.to_nat n) 0 dst src data (buffer s) (bitmap s) (unass_size s))
    as (buf' & bm' & Hf & Hl1 & Hl2 & Hbits & Hold & Hnew); try lia.
  unfold store. rewrite Hf. cbn. eexists. split; [done|]. split_and!; try done.
  - constructor; simpl; try done; try (unfold len in *; lia).
    intros k Hk. destruct (decide (bitmap s !! k = Some true)) as [Ho|Ho].
    + rewrite Hold by done. by apply Hwin.
    + rewrite Hnew by done. apply Hbits in Hk as [?|Hk]; [done|]. rewrite Z2Nat.id in Hk by done.
      specialize (Hslice (Z.of_nat k - dst)).
      rewrite Hslice by lia. split; [f_equal; lia|]. unfold room in *. simpl. lia.
  - simpl. intros k. rewrite Hbits. rewrite Z2Nat.id by done. by rewrite !Z.add_0_l.
Qed.

Lemma take_slice p buf B :
  (∀ k, (k < p)%nat → buf !! k = S !! (B + k)%nat) →
  take p buf = take p (drop B S).
Proof.
  intros H. apply list_eq. intros k. destruct (decide (k < p)%nat).
  - rewrite !lookup_take, !decide_True by done. by rewrite lookup_drop, H.
  - rewrite !lookup_take, !decide_False by done. done.
Qed.

(** A window shifted by [p] marks what the old one marked beyond [p]. *)
Lemma shifted_mark p (rest : list bool) k :
  (rest ++ replicate p false) !! k = Some true ↔ rest !! k = Some true.
Proof.
  split; intros H.
  - apply lookup_app_Some in H as [?|[_ H]]; [done|].
    apply lookup_replicate in H as [? _]. done.
  - by apply lookup_app_l_Some.
Qed.

(** The output after the leading run of [p] bytes has been written to it. *)
Lemma deliver_spec s (p : nat) :
  mid S s → (∀ k, (k < p)%nat → bitmap s !! k = Some true) →
  Z.of_nat p ≤ room s ∧ unass_base s + Z.of_nat p ≤ len S ∧
  len (take p (buffer s)) = Z.of_nat p ∧
  let out := (ByteStream.write (_output s) (take p (buffer s))).1 in
  ByteStream.remaining_capacity out = room s - Z.of_nat p ∧
  ByteStream.input_ended out = ByteStream.input_ended (_output s) ∧
  ∃ a, ByteStreamSpec.sim (_capacity s) out a ∧
    ByteStreamSpec.accepted a = take (Z.to_nat (unass_base s + Z.of_nat p)) S.
Proof.
  intros Hm Hmark. destruct (room_eq s Hm) as [Hre Hr].
  pose proof Hm as [Hcap Hbuf Hbm Hbase (a & Hsim & Hacc) Hwin Hsize].
  assert (Hp : Z.of_nat p ≤ room s ∧ unass_base s + Z.of_nat p ≤ len S).
  { destruct p as [|p]; [lia|]. destruct (Hwin p) as (_ & ? & ?); [apply Hmark|]; lia. }
  assert (Htmp : len (take p (buffer s)) = Z.of_nat p).
  { unfold len in *. rewrite length_take. lia. }
  destruct (sim_write (_capacity s) ltac:(lia) (_output s) a (take p (buffer s)) Hsim)
    as [Hsim' _].
  split_and!; [lia|lia|done|]. cbv zeta. split_and!.
  - rewrite write_wf by (eapply sim_wf; [|done]; lia).
    unfold ByteStream.remaining_capacity. simpl.
    rewrite (ByteStreamSpec.sim_cap _ _ _ Hsim), len_app, len_take by lia.
    rewrite Htmp, u64_id by lia. lia.
  - done.
  - eexists. split; [done|]. simpl. rewrite (sim_pending _ _ _ Hsim), Hacc.
    rewrite (take_ge (take p _)) by (unfold len in *; lia).
    rewrite (take_slice p (buffer s) (Z.to_nat (unass_base s)))
      by (intros k Hk; by apply Hwin, Hmark).
    rewrite Z2Nat.inj_add, Nat2Z.id by lia. by rewrite take_take_drop.
Qed.

(** Moving the leading run from the bitmap below the base changes no byte's status. *)
Lemma received_shift (b : Z) (p : nat) (bm rest : list bool) (i : Z) :
  (∀ k, (k < p)%nat → bm !! k = Some true) → (∀ k, bm !! (p + k)%nat = rest !! k) → 0 ≤ b →
  (0 ≤ i < b + Z.of_nat p ∨
   b + Z.of_nat p ≤ i ∧ (rest ++ replicate p false) !! Z.to_nat (i - (b + Z.of_nat p)) = Some true) ↔
  (0 ≤ i < b ∨ b ≤ i ∧ bm !! Z.to_nat (i - b) = Some true).
Proof.
  intros Hmark Hshift Hb. rewrite shifted_mark, <- Hshift.
  destruct (Z.le_gt_cases (b + Z.of_nat p) i) as [Hi|Hi].
  - replace (p + _)%nat with (Z.to_nat (i - b)) by lia.
    split; intros [?|[? ?]]; first [lia | right; split; [lia|done]].
  - split; [|intros [?|[? ?]]; left; lia].
    intros [?|[? _]]; [|lia]. destruct (Z.lt_ge_cases i b); [left; lia|].
    right. split; [lia|]. apply Hmark. lia.
Qed.

(** [check_contiguous] delivers the leading run and nothing else changes hands. *)
Lemma check_contiguous_spec s :
  mid S s →
  ∃ s', check_contiguous s = Ok s' ∧ mid S s' ∧ bitmap s' !! 0%nat = Some false ∧
    _eof s' = _eof s ∧ _capacity s' = _capacity s ∧
    unass_base s' + room s' = unass_base s + room s ∧
    ByteStream.input_ended (_output s') = ByteStream.input_ended (_output s) ∧
    ∀ i, received s' i ↔ received s i.
Proof.
  intros Hm. pose proof Hm as [Hcap Hbuf Hbm Hbase _ Hwin Hsize].
  destruct (leading_run (bitmap s)) as (p & rest & Hrun & Hrest).
  assert (Hlen : length (bitmap s) = (p + length rest)%nat)
    by (rewrite Hrun, length_app, length_replicate; lia).
  pose proof (run_lookup p rest) as [Hmark Hshift]. rewrite <- Hrun in Hmark, Hshift.
  destruct (deliver_spec s p Hm Hmark) as (Hroom & HS & Htmp & Hrem & Hend & a & Hsim & Hacc).
  unfold check_contiguous. rewrite Hlen, Hrun.
  rewrite contiguous_loop_spec by (first [done | unfold len in *; lia]). cbn [mbind outcome_bind].
  rewrite app_nil_l, Htmp.
  destruct p as [|p].
  { simpl. rewrite !app_nil_r. rewrite drop_0. eexists. split; [done|].
    assert (rest = bitmap s) as -> by done.
    assert (Heta : s <| buffer := buffer s |> <| bitmap := bitmap s |> = s) by by destruct s.
    cbn in Heta. rewrite Heta. split_and!; try done.
    destruct (bitmap s) as [|[] ?] eqn:Eb; try done. unfold len in *. simpl in *. lia. }
  destruct (Z.of_nat (Datatypes.S p) >? 0) eqn:E; [|lia]. eexists. split; [done|].
  clear E. set (P := Datatypes.S p) in *.
  assert (HP : (0 < P)%nat) by lia. clearbody P. clear p.
  assert (Hb : u64 (unass_base s + Z.of_nat P) = unass_base s + Z.of_nat P)
    by (apply u64_id; lia).
  assert (Hmk : marked (bitmap s) = (P + marked rest)%nat)
    by (rewrite Hrun, marked_app, marked_replicate_true; done).
  pose proof (marked_le (bitmap s)) as Hml.
  split_and!.
  - constructor; cbn -[ByteStream.write u64 replicate]; rewrite ?Hb; try lia.
    + unfold len in *. rewrite length_app, length_drop, length_replicate. lia.
    + unfold len in *. rewrite length_app, length_replicate. lia.
    + eauto.
    + intros k Hk. apply shifted_mark in Hk. rewrite <- Hshift in Hk.
      destruct (Hwin _ Hk) as (Hw & ? & ?). split_and!; [|lia|].
      * rewrite lookup_app_l, lookup_drop; [rewrite Hw; f_equal; lia|].
        apply lookup_lt_Some in Hk. rewrite length_drop. unfold len in *. lia.
      * unfold room. cbn -[ByteStream.write]. rewrite Hrem. lia.
    + rewrite marked_app, marked_replicate_false, Hsize. rewrite u64_id; unfold len in *; lia.
  - cbn -[replicate]. destruct rest as [|[] rest]; [|done|done]. by destruct P; [lia|].
  - done.
  - done.
  - unfold room. cbn -[ByteStream.write u64]. rewrite Hb, Hrem. unfold room. lia.
  - done.
  - intros i. unfold received. cbn -[ByteStream.write u64]. rewrite Hb.
    apply received_shift; [done|done|lia].
Qed.

Lemma marked_none bm : (∀ k, bm !! k ≠ Some true) → marked bm = 0%nat.
Proof.
  induction bm as [|[] bm IH]; intros H; simpl; [done|by destruct (H 0%nat)|].
  apply IH. intros k. apply (H (Datatypes.S k)).
Qed.

(** Nothing is waiting exactly when no byte beyond the base is stored. *)
Lemma size_zero s :
  mid S s → unass_size s = 0 ↔ ∀ i, unass_base s ≤ i → ¬ received s i.
Proof.
  intros Hm. rewrite (mid_size _ _ Hm). split.
  - intros Hz i Hi [?|[_ Hr]]; [lia|]. apply marked_pos in Hr. lia.
  - intros H. rewrite marked_none; [done|]. intros k Hk.
    apply (H (unass_base s + Z.of_nat k)); [lia|]. right.
    split; [lia|]. rewrite <- Hk. f_equal. lia.
Qed.

Lemma received_bound s i : mid S s → received s i → 0 ≤ i < len S ∧ i < unass_base s + room s.
Proof.
  intros Hm. pose proof (mid_base _ _ Hm). destruct (room_eq s Hm) as [_ Hr].
  intros [?|[? Hi]]; [lia|]. apply (mid_window _ _ Hm) in Hi as (_ & ? & ?). lia.
Qed.

(** When the last byte is there, nothing waits iff everything is delivered. *)
Lemma size_zero_complete s :
  mid S s → S = [] ∨ received s (len S - 1) → unass_size s = 0 ↔ unass_base s = len S.
Proof.
  intros Hm Hlast. rewrite size_zero by done. pose proof (mid_base _ _ Hm) as Hb. split.
  - intros Hz. destruct Hlast as [->|Hl]; [rewrite len_nil in *; lia|].
    destruct (Z.le_gt_cases (unass_base s) (len S - 1)) as [Hle|]; [|lia].
    by destruct (Hz _ Hle).
  - intros He i Hi Hr. apply received_bound in Hr; [lia|done].
Qed.

Lemma mid_eof s e : mid S s → mid S (s <| _eof := e |>).
Proof. by intros []. Qed.

Lemma mid_end_input s : mid S s → mid S (s <| _output ::= ByteStream.end_input |>).
Proof.
  intros [Hcap Hbuf Hbm Hbase (a & Hsim & Hacc) Hwin Hsize]. constructor; try done.
  exists (a <| ByteStreamSpec.ended := true |>). split; [|done]. by destruct Hsim.
Qed.

(** The common tail of every push. *)
Lemma finish_spec s :
  mid S s → (_eof s = true → S = [] ∨ received s (len S - 1)) →
  (ByteStream.input_ended (_output s) = true → _eof s = true ∧ unass_base s = len S) →
  ∃ s', finish s = Ok s' ∧ inv S s' ∧ _eof s' = _eof s ∧ _capacity s' = _capacity s ∧
    unass_base s' + room s' = unass_base s + room s ∧ ∀ i, received s' i ↔ received s i.
Proof.
  intros Hm Heof Hend.
  destruct (check_contiguous_spec s Hm) as (s1 & Hc & Hm1 & Hf & He1 & Hcap & Hedge & Hin & Hrec).
  unfold finish. rewrite Hc. cbn [mbind outcome_bind].
  assert (Hlast : _eof s1 = true → S = [] ∨ received s1 (len S - 1)).
  { rewrite He1, Hrec. done. }
  destruct (_eof s1 && (unass_size s1 =? 0)) eqn:E; eexists; (split; [done|]).
  - split_and!; try done. constructor; try done. by apply mid_end_input.
  - split_and!; try done. constructor; try done. rewrite Hin, E.
    destruct (ByteStream.input_ended (_output s)); [|done].
    destruct (Hend eq_refl) as [He Hb]. exfalso. rewrite He1, He in E. simpl in E.
    apply Z.eqb_neq in E. apply E. rewrite He1 in Hlast.
    apply (size_zero_complete s1 Hm1 (Hlast He)). pose proof (mid_base _ _ Hm1).
    assert (unass_base s ≤ unass_base s1); [|lia].
    destruct (Z.le_gt_cases (unass_base s) (unass_base s1)) as [|Hlt]; [done|].
    exfalso. assert (received s (unass_base s1)) as Hr by (left; lia).
    apply Hrec in Hr as [?|[_ Hr]]; [lia|]. rewrite Z.sub_diag, Z2Nat.inj_0 in Hr. congruence.
Qed.

Lemma slice_bound data index eof :
  slice_of S data index eof → data ≠ [] → index + len data ≤ len S.
Proof.
  intros (H0 & _ & Hsl & _) Hne.
  assert (0 < len data) by (destruct data; [done|]; unfold len; simpl; lia).
  specialize (Hsl (len data - 1) ltac:(lia)).
  destruct (lookup_lt_is_Some_2 data (Z.to_nat (len data - 1))) as [c Hc]; [unfold len in *; lia|].
  rewrite Hc in Hsl. symmetry in Hsl. apply lookup_lt_Some in Hsl. unfold len in *. lia.
Qed.

(** An [eof] flag that is set stays set: no slice of [S] reaches past the end of
    [S], so none is cut short by the window once the end of [S] is in it. *)
Lemma eof_in_window s data index eof :
  inv S s → slice_of S data index eof → data ≠ [] → _eof s = true →
  index + len data ≤ unass_base s + room s.
Proof.
  intros Hi Hsl Hne He. pose proof (slice_bound _ _ _ Hsl Hne).
  destruct (inv_eof _ _ Hi He) as [->|Hr].
  - rewrite len_nil in *. destruct Hsl as [? _].
    destruct data; [done|]. rewrite len_cons in *. pose proof (len_nonneg data). lia.
  - apply received_bound in Hr; [lia|apply Hi].
Qed.

(** The old flag, or a final slice that fits in the window. *)
Definition eof_after (s : t) (data : bytes) (index : Z) (eof : bool) : bool :=
  _eof s || (eof && (index + len data <=? unass_base s + room s)).

(** Storing the part of the slice that fits, then the common tail. *)
Lemma store_finish_spec s e data index eof n dst src :
  inv S s → slice_of S data index eof → data ≠ [] → e = eof_after s data index eof →
  0 ≤ dst → 0 ≤ src → dst - src = index - unass_base s →
  n = Z.min (len data - src) (room s - dst) → dst = 0 ∨ src = 0 → 0 ≤ n →
  ∃ s', (s1 ← store (s <| _eof := e |>) n dst src data; finish s1) = Ok s' ∧ inv S s' ∧
    _eof s' = eof_after s data index eof ∧ _capacity s' = _capacity s ∧
    unass_base s' + room s' = unass_base s + room s ∧
    ∀ i, received s' i ↔ received s i ∨
      (index ≤ i < index + len data ∧ i < unass_base s + room s).
Proof.
  intros Hi Hsl Hne -> Hdst Hsrc Hoff Hn Hz Hn0. pose proof Hi as [Hm Hf Hlast Hend].
  pose proof (slice_bound _ _ _ Hsl Hne) as Hb. pose proof Hsl as (H0 & Hsmall & Hsl' & Hfin).
  destruct (store_spec (s <| _eof := eof_after s data index eof |>) n dst src data)
    as (s1 & -> & Hm1 & Hbase & He1 & Ho & Hc & Hbits); cbn -[finish] in *; try lia; try done.
  { by apply mid_eof. }
  { unfold room in *. cbn. lia. }
  { intros j Hj. rewrite Hsl' by lia. f_equal. lia. }
  assert (Hroom : room s1 = room s) by (unfold room; by rewrite Ho).
  assert (Hrec : ∀ i, received s1 i ↔ received s i ∨
      (index ≤ i < index + len data ∧ i < unass_base s + room s)).
  { intros i. unfold received. rewrite Hbase, Hbits.
    destruct (Z.lt_ge_cases i (unass_base s)) as [|Hge].
    - split; [intros [?|?]; auto; lia|].
      intros [[?|?]|?]; [by left|lia|]. left. lia.
    - split.
      + intros [?|[_ [?|Hk]]]; [lia|left; by right|]. right. lia.
      + intros [[?|[_ ?]]|?]; [lia|right; auto|]. right. split; [done|]. right. lia. }
  destruct (finish_spec s1 Hm1) as (s' & Hs' & Hi' & He' & Hc' & Hedge & Hrec').
  - rewrite He1. unfold eof_after. intros He. destruct (_eof s) eqn:Eo.
    + destruct (Hlast eq_refl); [by left|]. right. apply Hrec. by left.
    + simpl in He. apply andb_prop in He as [He Hle]. right. apply Hrec.
      rewrite Hfin in * by done.
      destruct (decide (received s (len S - 1))); [by left|]. right.
      destruct data; [done|]. rewrite len_cons in *. pose proof (len_nonneg data). lia.
  - rewrite Ho, Hend, He1, Hbase. intros [He Hz']%andb_prop. unfold eof_after. rewrite He.
    split; [done|]. apply (size_zero_complete s Hm (Hlast He)). lia.
  - exists s'. rewrite Hs'. split_and!; try done; try congruence; try lia.
    intros i. by rewrite Hrec', Hrec.
Qed.

(** A final push that adds nothing comes after the last byte. *)
Lemma eof_after_last s data index eof :
  inv S s → slice_of S data index eof → (eof = true → index + len data ≤ unass_base s) →
  eof_after s data index eof = true → S = [] ∨ received s (len S - 1).
Proof.
  intros Hi (H0 & _ & _ & Hfin) Hle He. pose proof (mid_base _ _ (inv_mid _ _ Hi)).
  unfold eof_after in He. destruct (_eof s) eqn:Eo; [by apply Hi|].
  simpl in He. apply andb_prop in He as [-> _]. specialize (Hle eq_refl).
  rewrite Hfin in Hle by done.
  destruct (decide (S = [])) as [|HS]; [by left|right; left].
  assert (len S ≠ 0) by (intros ?; by apply HS, len_zero_nil). lia.
Qed.

(** A stream that has ended is complete. *)
Lemma ended_complete s :
  inv S s → ByteStream.input_ended (_output s) = true →
  _eof s = true ∧ unass_base s = len S.
Proof.
  intros Hi. rewrite (inv_ended _ _ Hi). intros [He Hz]%andb_prop. split; [done|].
  apply (size_zero_complete s (inv_mid _ _ Hi) (inv_eof _ _ Hi He)). lia.
Qed.

(** A push that stores nothing only can close the stream. *)
Lemma push_nothing_spec s data index eof :
  inv S s → slice_of S data index eof → (eof = true → index + len data ≤ unass_base s) →
  ∃ s', finish (s <| _eof := eof_after s data index eof |>) = Ok s' ∧ inv S s' ∧
    _eof s' = eof_after s data index eof ∧ _capacity s' = _capacity s ∧
    unass_base s' + room s' = unass_base s + room s ∧
    ∀ i, received s' i ↔ received s i.
Proof.
  intros Hi Hsl Hle.
  destruct (finish_spec (s <| _eof := eof_after s data index eof |>)) as (s' & Hs');
    cbn -[received finish]; [..|exists s'; exact Hs'].
  - by apply mid_eof, Hi.
  - exact (eof_after_last s data index eof Hi Hsl Hle).
  - intros He. destruct (ended_complete s Hi He) as [Heo ?]. split; [|done].
    unfold eof_after. by rewrite Heo.
Qed.

Lemma eof_set s (eof : bool) :
  (if eof then s <| _eof := true |> else s) = s <| _eof := _eof s || eof |>.
Proof. destruct s as [? ? [] ? ? ? ?], eof; done. Qed.

Lemma store_none s dst src data : store s 0 dst src data = Ok s.
Proof. by destruct s. Qed.

Lemma eof_after_fits s data index eof :
  index + len data ≤ unass_base s + room s → eof_after s data index eof = _eof s || eof.
Proof.
  intros H. unfold eof_after. apply Z.leb_le in H. rewrite H. by rewrite andb_true_r.
Qed.

Lemma eof_after_cut s data index eof :
  inv S s → slice_of S data index eof → data ≠ [] →
  unass_base s + room s < index + len data → eof_after s data index eof = false.
Proof.
  intros Hi Hsl Hne Hlt. unfold eof_after. apply Z.leb_gt in Hlt as Hf. rewrite Hf.
  rewrite andb_false_r, orb_false_r. destruct (_eof s) eqn:E; [|done].
  pose proof (eof_in_window s data index eof Hi Hsl Hne E). lia.
Qed.

Lemma eof_after_empty s index eof :
  inv S s → in_window s [] index eof → eof_after s [] index eof = _eof s || eof.
Proof.
  intros Hi [_ Hw]. destruct (room_eq s (inv_mid _ _ Hi)) as [_ Hr]. destruct eof.
  - destruct (Hw eq_refl) as [_ [?|?]]; [done|].
    apply eof_after_fits. rewrite len_nil. lia.
  - unfold eof_after. by rewrite andb_false_l.
Qed.

(** A push, with the flag it leaves and the offsets as plain differences. *)
Lemma push_substring_eq s data index eof :
  inv S s → slice_of S data index eof → in_window s data index eof →
  let s1 := s <| _eof := eof_after s data index eof |> in
  push_substring s data index eof =
    if (len data =? 0) && _eof s1 && (unass_size s =? 0)
    then Ok (s1 <| _output ::= ByteStream.end_input |>)
    else if index >=? unass_base s + _capacity s then Ok s
    else if index >=? unass_base s then
      let dst := index - unass_base s in
      s2 ← store s1 (Z.min (len data) (room s - dst)) dst 0 data; finish s2
    else if index + len data >? unass_base s then
      let src := unass_base s - index in
      s2 ← store s1 (Z.min (len data - src) (room s)) 0 src data; finish s2
    else finish s1.
Proof.
  intros Hi Hsl Hw. pose proof (inv_mid _ _ Hi) as Hm. destruct (room_eq s Hm) as [_ Hr].
  pose proof (mid_cap _ _ Hm) as Hcap. pose proof (mid_base _ _ Hm) as Hbase.
  pose proof (buffered_room s Hm) as Hbr. pose proof (len_nonneg data) as Hlen.
  pose proof Hsl as (H0 & Hsmall & _). pose proof Hw as [Hin Hweof].
  unfold push_substring. rewrite eof_set. cbn -[store finish u64 s32].
  rewrite (u64_id (unass_base s + _capacity s)), Hbr by lia.
  assert (Hfirst : (len data =? 0) && (_eof s || eof) = (len data =? 0) && eof_after s data index eof).
  { destruct (len data =? 0) eqn:E; [|done]. apply Z.eqb_eq, len_zero_nil in E as ->.
    by rewrite eof_after_empty. }
  rewrite Hfirst. destruct (_ && (unass_size s =? 0)) eqn:E1.
  { apply andb_prop in E1 as [E1 _]. rewrite <- Hfirst in E1.
    apply andb_prop in E1 as [E1 E1']. apply Z.eqb_eq, len_zero_nil in E1 as ->.
    by rewrite eof_after_empty. }
  destruct (index >=? unass_base s + _capacity s) eqn:E2.
  { destruct eof; [destruct (Hweof eq_refl); lia|]. rewrite orb_false_r. by destruct s. }
  assert (Hcut : ∀ b : bool, b = (unass_base s + room s <? index + len data) →
    (if b then false else _eof s || eof) = eof_after s data index eof).
  { intros b ->. destruct (_ <? _) eqn:E; [|symmetry; apply eof_after_fits; lia].
    symmetry. destruct (decide (data = [])) as [->|]; [|apply eof_after_cut; [done..|lia]].
    rewrite len_nil in *. unfold eof_after. rewrite len_nil.
    destruct Hin; lia. }
  destruct (index >=? unass_base s) eqn:E3.
  { rewrite (u64_id (index - unass_base s)), s32_id by lia.
    rewrite (u64_id (_ - _ - _)) by lia.
    replace (_capacity s - (_capacity s - room s) - (index - unass_base s))
      with (room s - (index - unass_base s)) by lia.
    rewrite <- (Hcut (len data `min` (room s - (index - unass_base s)) <? len data)) by lia.
    by destruct (_ <? len data). }
  rewrite (u64_id (index + len data)) by lia.
  destruct (index + len data >? unass_base s) eqn:E4.
  { rewrite (u64_id (unass_base s - index)), s32_id by lia.
    rewrite (u64_id (len data - _)), (u64_id (_capacity s - _)) by lia.
    replace (_capacity s - (_capacity s - room s)) with (room s) by lia.
    rewrite <- (Hcut ((len data - (unass_base s - index)) `min` room s <?
                      len data - (unass_base s - index))) by lia.
    by destruct (_ <? len data - _). }
  by rewrite eof_after_fits by lia.
Qed.

(** Inside its window a push succeeds, keeps the invariant, and stores exactly
    the part of the slice that the advertised window has room for. *)
Lemma push_substring_spec s data index eof :
  inv S s → slice_of S data index eof → in_window s data index eof →
  ∃ s', push_substring s data index eof = Ok s' ∧ inv S s' ∧
    _eof s' = eof_after s data index eof ∧ _capacity s' = _capacity s ∧
    unass_base s' + room s' = unass_base s + room s ∧
    ∀ i, received s' i ↔ received s i ∨
      (index ≤ i < index + len data ∧ i < unass_base s + room s).
Proof.
  intros Hi Hsl Hw. rewrite push_substring_eq by done.
  pose proof (inv_mid _ _ Hi) as Hm. destruct (room_eq s Hm) as [_ Hr].
  pose proof (mid_base _ _ Hm) as Hbase. pose proof (len_nonneg data) as Hlen.
  assert (Hnone : ∀ s', (∀ i, received s' i ↔ received s i) →
    (len data = 0 ∨ index + len data ≤ unass_base s ∨ unass_base s + room s ≤ index) →
    ∀ i, received s' i ↔ received s i ∨
      (index ≤ i < index + len data ∧ i < unass_base s + room s)).
  { intros s' Hs' Hd i. rewrite Hs'. split; [by left|]. intros [?|?]; [done|].
    destruct Hsl as [? _]. left. lia. }
  assert (Hempty : data = [] → eof = true → index + len data ≤ unass_base s).
  { intros -> ->. destruct Hw as [_ Hw]. destruct (Hw eq_refl) as [_ [?|?]]; [done|].
    rewrite len_nil. lia. }
  cbn -[store finish]. destruct (_ && (unass_size s =? 0)) eqn:E1.
  { eexists. split; [done|]. apply andb_prop in E1 as [[E0 E1]%andb_prop E2].
    apply Z.eqb_eq in E0. split_and!; try done; [|apply Hnone; [done|by left]].
    constructor; cbn -[received]; [exact (mid_end_input _ (mid_eof s _ Hm))|apply Hi|..|by rewrite E1, E2].
    intros _. exact (eof_after_last s data index eof Hi Hsl (Hempty (len_zero_nil _ E0)) E1). }
  destruct (index >=? unass_base s + _capacity s) eqn:E2.
  { exists s. split_and!; try done; [|apply Hnone; [done|right; right; lia]].
    destruct eof; [destruct Hw as [_ Hw], (Hw eq_refl); lia|]. unfold eof_after. by rewrite orb_false_r. }
  destruct (decide (data = [])) as [->|Hne].
  - destruct (push_nothing_spec s [] index eof Hi Hsl (Hempty eq_refl))
      as (s' & Hs' & Hi' & He' & Hc' & Hd' & Hr'). exists s'.
    specialize (Hnone s' Hr' ltac:(by left)). rewrite len_nil in *.
    destruct (index >=? unass_base s) eqn:E3.
    + rewrite Z.min_l by (destruct Hw as [Hw _]; lia). by rewrite store_none.
    + destruct (index + 0 >? unass_base s) eqn:E4; [lia|done].
  - destruct (index >=? unass_base s) eqn:E3; [|destruct (index + len data >? _) eqn:E4].
    + apply store_finish_spec; try done; destruct Hw as [Hw _]; lia.
    + apply store_finish_spec; try done; lia.
    + destruct (push_nothing_spec s data index eof Hi Hsl)
        as (s' & Hs' & Hi' & He' & Hc' & Hd' & Hr'); [lia|].
      exists s'. split_and!; try done. apply Hnone; [done|]. lia.
Qed.

Lemma inv_make capacity : 0 < capacity < 2 ^ 31 → inv S (make capacity).
Proof.
  intros Hc. assert (Hnone : ∀ k, replicate (Z.to_nat capacity) false !! k ≠ Some true).
  { intros k [? _]%lookup_replicate. done. }
  constructor; [constructor|..]; cbn -[ByteStream.make]; try done.
  - apply len_replicate. lia.
  - apply len_replicate. lia.
  - pose proof (len_nonneg S). lia.
  - eexists. split; [apply sim_init; lia|done].
  - intros k Hk. by apply Hnone in Hk.
  - rewrite marked_none; [done|apply Hnone].
  - destruct (Z.to_nat capacity) eqn:E; [lia|done].
Qed.

(** Delivering buffered bytes to the owner keeps the invariant: only the room
    of the window grows. *)
Lemma inv_consume s c o :
  inv S s → ByteStream.call_ok c → o = (ByteStream.exec (_output s) c).1 →
  match c with
  | ByteStream.Read _ | ByteStream.Pop _ | ByteStream.SetError => True
  | _ => False
  end →
  inv S (s <| _output := o |>).
Proof.
  intros [Hm Hf He Hend] Hok -> Hc.
  destruct Hm as [Hcap Hbuf Hbm Hbase (a & Hsim & Hacc) Hwin Hsize].
  destruct (sim_step (_capacity s) ltac:(lia) (_output s) a c Hok Hsim) as [Hsim' _].
  assert (Hroom : room s ≤ ByteStream.remaining_capacity (ByteStream.exec (_output s) c).1).
  { pose proof (ByteStreamSpec.sim_fit _ _ _ Hsim). pose proof (ByteStreamSpec.sim_cap _ _ _ Hsim).
    pose proof (ByteStreamSpec.sim_fit _ _ _ Hsim').
    pose proof (ByteStreamSpec.sim_cap _ _ _ Hsim') as Hc'.
    unfold room, ByteStream.remaining_capacity.
    pose proof (len_nonneg (ByteStream.buffer (_output s))).
    pose proof (len_nonneg (ByteStream.buffer (ByteStream.exec (_output s) c).1)).
    rewrite !u64_id by lia. rewrite Hc'.
    pose proof (drop_preserves_fit (Z.to_nat match c with ByteStream.Read n | ByteStream.Pop n => n
      | _ => 0 end) (ByteStream.buffer (_output s))) as Hd.
    destruct c; try done; cbn in *; unfold ByteStream.pop_output, ByteStream.read in *;
      try destruct (_ >? _); cbn in *; lia. }
  constructor; [constructor|..]; cbn; try done.
  - eexists. split; [done|]. rewrite <- Hacc.
    destruct c; try done; cbn; destruct (_ <=? _); done.
  - intros k Hk. destruct (Hwin k Hk) as (? & ? & ?). unfold room in *. cbn. split_and!; [done|lia|lia].
  - rewrite <- Hend. destruct c; try done; cbn; unfold ByteStream.pop_output, ByteStream.read;
      by destruct (_ >? _).
Qed.

Lemma reach_inv capacity s :
  0 < capacity < 2 ^ 31 → reach capacity S s → inv S s ∧ _capacity s = capacity.
Proof.
  intros Hc. induction 1 as [|s data index eof s' _ [Hi Hcap] Hsl Hw Hp|s n _ [Hi Hcap] Hn|s n _ [Hi Hcap] Hn|s _ [Hi Hcap]].
  - split; [by apply inv_make|done].
  - destruct (push_substring_spec s data index eof Hi Hsl Hw) as (s1 & Hp1 & Hi1 & _ & Hc1 & _).
    rewrite Hp in Hp1. injection Hp1 as ->. split; [done|congruence].
  - split; [|done]. apply (inv_consume s (ByteStream.Read n)); [done|done| |done].
    cbn. by destruct (ByteStream.read _ n).
  - split; [|done]. by apply (inv_consume s (ByteStream.Pop n)).
  - split; [|done]. by apply (inv_consume s ByteStream.SetError).
Qed.

(** [ack_index] is the first byte that is still missing. *)
Lemma ack_index_first_missing s :
  inv S s → ¬ received s (ack_index s) ∧ ∀ i, 0 ≤ i < ack_index s → received s i.
Proof.
  intros Hi. pose proof (inv_front _ _ Hi) as Hf. split; [|by left].
  intros [?|[_ Hr]]; unfold ack_index in *; [lia|].
  rewrite Z.sub_diag, Z2Nat.inj_0 in Hr. congruence.
Qed.


End pushing.

(** ** Properties *)

Section properties.
Import StreamReassembler.

(** C2: a reassembler is fed slices of a stream [S] in any order, with overlaps and
    repeats, and read from at any time.  Each slice starts in its window or at the
    window's right edge, or lies beyond all of its buffer, where it is dropped; a final
    slice is not of the latter kind and, if it is empty, comes in order.  Then what
    the reassembler has written to its output is exactly the bytes of [S] before
    [ack_index], in order; every byte before [ack_index] has been received and the one
    at [ack_index] has not; and once it signals the end of the input, all of [S] has
    been written. *)
Theorem reassembler_delivers_stream (capacity : Z) (S : bytes) (s : t) :
  0 < capacity < 2 ^ 31 → len S < 2 ^ 63 → reach capacity S s →
  (∃ a, ByteStreamSpec.sim capacity (stream_out s) a ∧
        ByteStreamSpec.accepted a = take (Z.to_nat (ack_index s)) S) ∧
  (∀ i, 0 ≤ i < ack_index s → received s i) ∧ ¬ received s (ack_index s) ∧
  (ByteStream.input_ended (stream_out s) = true → ack_index s = len S).
Proof.
  intros Hc HS Hreach. destruct (reach_inv S HS capacity s Hc Hreach) as [Hi <-].
  destruct (ack_index_first_missing S s Hi) as [H1 H2].
  split_and!; try done; [apply Hi|]. intros He. by apply (ended_complete S HS s Hi).
Qed.

(** Slices of a stream are easy to recognise on concrete data. *)
Definition is_slice (S data : bytes) (index : Z) (eof : bool) : bool :=
  (0 <=? index) && (len data <? 2 ^ 31) && bool_decide (take (length data) (drop (Z.to_nat index) S) = data) &&
  (negb eof || (index + len data =? len S)).

Lemma is_slice_of S data index eof : is_slice S data index eof = true → slice_of S data index eof.
Proof.
  intros [[[Hi%Z.leb_le Hl%Z.ltb_lt]%andb_prop Hd%bool_decide_eq_true]%andb_prop He]%andb_prop.
  split_and!; [lia|lia| |].
  - intros j Hj. rewrite <- Hd at 1. unfold len in Hj. rewrite lookup_take_lt by lia. rewrite lookup_drop. f_equal. lia.
  - intros ->. cbn in He. lia.
Qed.

(** Six bytes through a buffer of four: the second pair first, a read in between, and
    the last pair with the end. *)
Definition six : bytes := [1; 2; 3; 4; 5; 6].

Definition pushed (s : t) (data : bytes) (index : Z) (eof : bool) : t :=
  match push_substring s data index eof with Ok s => s | _ => s end.

Definition six_pushed : t :=
  let s := pushed (pushed (make 4) [3; 4] 2 false) [1; 2; 3] 0 false in
  pushed (s <| _output ::= λ o, (ByteStream.read o 2).1 |>) [5; 6] 4 true.

Lemma push_reach S cap s data index eof :
  reach cap S s → is_slice S data index eof = true → in_window s data index eof →
  (if push_substring s data index eof is Ok _ then true else false) = true → reach cap S (pushed s data index eof).
Proof.
  intros Hs Hsl Hw. unfold pushed. destruct (push_substring s data index eof) as [s'| | |] eqn:E; try done. intros _.
  by eapply reach_push; [exact Hs|apply is_slice_of, Hsl|exact Hw|exact E].
Qed.

Lemma six_pushed_reach : reach 4 six six_pushed.
Proof.
  apply push_reach; [apply reach_read; [|lia]| | |]; [|done..| |done].
  - apply push_reach; [apply push_reach; [apply reach_make|..]|..]; try done; (split; [left; vm_compute; done|done]).
  - split; [left; vm_compute; done|]. split; [vm_compute; done|by left].
Qed.

Lemma reassembler_delivers_stream_witness :
  (∃ a, ByteStreamSpec.sim 4 (stream_out six_pushed) a ∧ ByteStreamSpec.accepted a = six) ∧
  (∀ i, 0 ≤ i < 6 → received six_pushed i) ∧ ¬ received six_pushed 6 ∧
  ByteStream.input_ended (stream_out six_pushed) = true ∧ ack_index six_pushed = len six.
Proof.
  destruct (reassembler_delivers_stream 4 six six_pushed) as (H1 & H2 & H3 & H4);
    [lia|unfold len; simpl; lia|apply six_pushed_reach|].
  split; [exact H1|]. split; [exact H2|]. split; [exact H3|]. split; [vm_compute; reflexivity|].
  apply H4. vm_compute. reflexivity.
Defined.

(** C3: a push of a slice that starts inside the window always returns, and
    afterwards the stored bytes are those stored before plus exactly the bytes of
    the slice that lie before the right edge of the window; the right edge does
    not move; and the flag for the last byte is set exactly by a final slice that
    fits. *)
Theorem push_substring_stores_window (capacity : Z) (S : bytes) (s : t)
    (data : bytes) (index : Z) (eof : bool) :
  0 < capacity < 2 ^ 31 → len S < 2 ^ 63 → reach capacity S s →
  slice_of S data index eof → in_window s data index eof →
  let edge := ack_index s + ByteStream.remaining_capacity (stream_out s) in
  ∃ s', push_substring s data index eof = Ok s' ∧
    (∀ i, received s' i ↔ received s i ∨ (index ≤ i < index + len data ∧ i < edge)) ∧
    ack_index s' + ByteStream.remaining_capacity (stream_out s') = edge ∧
    _eof s' = _eof s || (eof && (index + len data <=? edge)).
Proof.
  intros Hc HS Hreach Hsl Hw. destruct (reach_inv S HS capacity s Hc Hreach) as [Hi _].
  destruct (push_substring_spec S HS s data index eof Hi Hsl Hw)
    as (s' & Hp & _ & He & _ & Hedge & Hrec).
  exists s'. done.
Qed.

Lemma push_substring_stores_window_witness :
  ∃ s', push_substring (make 4) [3; 4; 5] 2 false = Ok s' ∧
    (∀ i, received s' i ↔ received (make 4) i ∨ (2 ≤ i < 2 + len [3; 4; 5] ∧ i < 4)) ∧
    ack_index s' + ByteStream.remaining_capacity (stream_out s') = 4 ∧
    _eof s' = false.
Proof.
  apply (push_substring_stores_window 4 [1; 2; 3; 4; 5] (make 4) [3; 4; 5] 2 false);
    [lia|unfold len; simpl; lia|apply reach_make|..].
  - split_and!; [lia|unfold len; simpl; lia| |done]. intros j Hj. unfold len in Hj. simpl in Hj.
    assert (j = 0 ∨ j = 1 ∨ j = 2) as [->|[->| ->]] by lia; done.
  - split; [left; vm_compute; done|done].
Defined.

(** Nothing is lost: once every byte of [S] has been stored and the final
    slice has been accepted, the reassembler has written all of [S], has closed
    its output and holds no unassembled byte. *)
Theorem reassembler_complete (capacity : Z) (S : bytes) (s : t) :
  0 < capacity < 2 ^ 31 → len S < 2 ^ 63 → reach capacity S s →
  (∀ i, 0 ≤ i < len S → received s i) → _eof s = true →
  ack_index s = len S ∧ unassembled_bytes s = 0 ∧ empty s = true ∧
  ByteStream.input_ended (stream_out s) = true.
Proof.
  intros Hc HS Hreach Hall He. destruct (reach_inv S HS capacity s Hc Hreach) as [Hi _].
  pose proof (mid_base _ _ (inv_mid _ _ Hi)) as Hb.
  destruct (ack_index_first_missing S s Hi) as [Hmiss _].
  assert (Hack : ack_index s = len S).
  { unfold ack_index in *. destruct (decide (unass_base s = len S)); [done|].
    destruct Hmiss. apply Hall. lia. }
  pose proof (proj2 (size_zero_complete S HS s (inv_mid _ _ Hi) (inv_eof _ _ Hi He)) Hack) as Hz.
  unfold unassembled_bytes, empty, stream_out. rewrite (inv_ended _ _ Hi), He, Hz. done.
Qed.

(** The states of a two-byte stream whose last byte comes first. *)
Definition last_byte_first : t :=
  Eval vm_compute in
    match push_substring (make 4) [8] 1 true with Ok s => s | _ => make 4 end.

Definition both_bytes : t :=
  Eval vm_compute in
    match push_substring last_byte_first [7] 0 false with Ok s => s | _ => make 4 end.

Lemma reassembler_complete_witness :
  ack_index both_bytes = 2 ∧ unassembled_bytes both_bytes = 0 ∧ empty both_bytes = true ∧
  ByteStream.input_ended (stream_out both_bytes) = true.
Proof.
  apply (reassembler_complete 4 [7; 8] both_bytes); [lia|unfold len; simpl; lia|..|done].
  - apply (reach_push 4 [7; 8] last_byte_first [7] 0 false);
      [apply (reach_push 4 [7; 8] (make 4) [8] 1 true); [apply reach_make|..|vm_compute; done]
      |..|vm_compute; done].
    all: try (split_and!; [lia|unfold len; simpl; lia| |done]; intros j Hj; unfold len in Hj;
      simpl in Hj; assert (j = 0) as -> by lia; done).
    all: split; [left; vm_compute; done|intros ?; split; [vm_compute; done|by left]].
  - intros i Hi. unfold len in Hi. simpl in Hi.
    assert (i = 0 ∨ i = 1) as [->| ->] by lia; left; vm_compute; done.
Defined.

(** Outside the advertised window the length check underflows.  A substring
    that starts beyond the room left but before [ack_index + capacity], and runs
    past the end of the window buffer, makes [push_substring] index its [deque]s
    out of range. *)
Theorem push_beyond_room_is_UB (capacity : Z) (S : bytes) (s : t) (data : bytes) (index : Z) :
  0 < capacity < 2 ^ 31 → len S < 2 ^ 63 → reach capacity S s →
  len data < 2 ^ 31 →
  ack_index s + ByteStream.remaining_capacity (stream_out s) < index < ack_index s + capacity →
  ack_index s + capacity < index + len data →
  push_substring s data index false = UB.
Proof.
  intros Hc HS Hreach Hd Hidx Hover. destruct (reach_inv S HS capacity s Hc Hreach) as [Hi <-].
  pose proof (inv_mid _ _ Hi) as Hm. destruct (room_eq S s Hm) as [_ Hr].
  pose proof (mid_base _ _ Hm) as Hb. pose proof (buffered_room S s Hm) as Hbr.
  unfold ack_index, stream_out in *. fold (room s) in Hidx.
  unfold push_substring. cbn -[store finish u64 s32].
  destruct (_ && (unass_size s =? 0)) eqn:E1; [lia|].
  rewrite (u64_id (unass_base s + _capacity s)), Hbr by lia.
  destruct (index >=? unass_base s + _capacity s) eqn:E2; [lia|].
  destruct (index >=? unass_base s) eqn:E3; [|lia].
  rewrite (u64_id (index - unass_base s)), s32_id by lia.
  assert (Hwrap : u64 (_capacity s - (_capacity s - room s) - (index - unass_base s)) =
                  2 ^ 64 + (room s - (index - unass_base s))).
  { unfold u64. symmetry. apply (Z.mod_unique_pos _ _ (-1)); lia. }
  rewrite Hwrap, Z.min_l by lia. rewrite Z.ltb_irrefl.
  unfold store. rewrite fill_loop_overrun; [done|..];
    pose proof (mid_buf _ _ Hm); pose proof (mid_bm _ _ Hm); pose proof (len_nonneg data);
    cbn in *; lia.
Qed.

(** Three unread bytes in a window of four. *)
Definition three_unread : t :=
  Eval vm_compute in
    match push_substring (make 4) [1; 2; 3] 0 false with Ok s => s | _ => make 4 end.

Lemma three_unread_reached S :
  (∀ j, 0 ≤ j < 3 → [1; 2; 3] !! Z.to_nat j = S !! Z.to_nat j) → reach 4 S three_unread.
Proof.
  intros HS. apply (reach_push 4 S (make 4) [1; 2; 3] 0 false); [apply reach_make|..|vm_compute; done].
  - split_and!; [lia|unfold len; simpl; lia|exact HS|done].
  - split; [left; vm_compute; done|done].
Qed.

Lemma push_beyond_room_is_UB_witness :
  push_substring three_unread [6; 7; 8] 5 false = UB.
Proof.
  apply (push_beyond_room_is_UB 4 [1; 2; 3; 4; 5; 6; 7; 8] three_unread [6; 7; 8] 5);
    [lia|unfold len; simpl; lia| |unfold len; simpl; lia|vm_compute; done|vm_compute; done].
  apply three_unread_reached. intros j Hj.
  assert (j = 0 ∨ j = 1 ∨ j = 2) as [->|[->| ->]] by lia; done.
Defined.

(** An empty final substring closes the output whenever no byte is waiting,
    whatever its index: bytes of the stream before that index may still be
    missing, and the ones already acknowledged do not change. *)
Theorem empty_final_substring_closes_at_any_index (s : t) (index : Z) :
  unassembled_bytes s = 0 →
  ∃ s', push_substring s [] index true = Ok s' ∧
    ByteStream.input_ended (stream_out s') = true ∧
    ack_index s' = ack_index s ∧
    ByteStream.bytes_written (stream_out s') = ByteStream.bytes_written (stream_out s).
Proof.
  unfold unassembled_bytes. intros Hz. unfold push_substring. cbn. rewrite Hz. cbn.
  eexists. split; done.
Qed.

Lemma empty_final_substring_closes_at_any_index_witness :
  ∃ s', push_substring (make 10) [] 3 true = Ok s' ∧
    ByteStream.input_ended (stream_out s') = true ∧ ack_index s' = 0 ∧
    ByteStream.bytes_written (stream_out s') = 0.
Proof. apply (empty_final_substring_closes_at_any_index (make 10) 3). done. Defined.

(** The calls of C10, on slices of the stream [1; 2; 3; 4; 5; 6; 7]. *)
Definition overfull_run : outcome t :=
  s ← push_substring (make 4) [1; 2; 3] 0 false;
  s ← push_substring s [6; 7] 5 false;
  let s := s <| _output ::= λ o, (ByteStream.read o 1).1 |> in
  push_substring s [4; 5] 3 false.

(** With a substring stored beyond the room left, the reassembler can
    acknowledge bytes it never delivers: here [ack_index] is 7 while only the
    five bytes [1..5] were ever written to the output, the rest being refused by
    the full stream. *)
Theorem overfull_window_loses_bytes :
  ∃ s, overfull_run = Ok s ∧ ack_index s = 7 ∧
    ByteStream.bytes_written (stream_out s) = 5 ∧
    ByteStream.buffer (stream_out s) = [2; 3; 4; 5] ∧ unassembled_bytes s = 0.
Proof. eexists. split; [vm_compute; reflexivity|]. vm_compute. done. Qed.

End properties.
