(* ===== verification/buffer.v ===== *)
(** * Reference-counted strings that discard bytes from the front

    Models [libsponge/util/buffer.hh] and [libsponge/util/buffer.cc]: [Buffer],
    [BufferList] and [BufferViewList].  The shared storage of a [Buffer] is never
    written after construction, so a copy of the handle is a copy of the value.
    [PrefixDiscard] is the contract the three classes share: they denote a byte
    string, and [remove_prefix] drops its first bytes or throws. *)

From S2P Require Import prelude.

(** ** Interface *)

(** [discard] is [remove_prefix]; [valid] is the class invariant. *)
Class PrefixDiscard (T : Type) := {
  contents : T → bytes;
  valid : T → Prop;
  discard : T → Z → outcome T;
  discard_within : ∀ b n, valid b → 0 ≤ n ≤ len (contents b) →
    ∃ b', discard b n = Ok b' ∧ valid b' ∧ contents b' = drop (Z.to_nat n) (contents b);
  discard_beyond : ∀ b n, valid b → len (contents b) < n < 2 ^ 64 → discard b n = Throw out_of_range
}.

Module Buffer.

(** The members of [class Buffer]. *)
Record t := mk {
  _storage : option bytes;
  _starting_offset : Z
}.

#[global] Instance eta_t : Eta t := λ b, mk (_storage b) (_starting_offset b).

(** [Buffer() = default] *)
Definition default : t := mk None 0.

(** [Buffer(std::string &&)] *)
Definition of_string (data : bytes) : t := mk (Some data) 0.

Definition str (b : t) : bytes :=
  match _storage b with
  | None => []
  | Some data => drop (Z.to_nat (_starting_offset b)) data
  end.

(** [str().at(n)] throws outside the view. *)
Definition at_ (b : t) (n : Z) : outcome Z :=
  match str b !! Z.to_nat n with Some c => Ok c | None => Throw out_of_range end.

Definition size (b : t) : Z := len (str b).

Definition copy (b : t) : bytes := str b.

Definition remove_prefix (b : t) (n : Z) : outcome t :=
  if n >? len (str b) then Throw out_of_range
  else
    let b := b <| _starting_offset ::= λ o, u64 (o + n) |> in
    Ok match _storage b with
       | Some data => if _starting_offset b =? len data then b <| _storage := None |> else b
       | None => b
       end.

(** The view starts inside the storage. *)
Definition wf (b : t) : Prop :=
  match _storage b with
  | None => True
  | Some data => 0 ≤ _starting_offset b ≤ len data ∧ len data < 2 ^ 64
  end.

End Buffer.

Module BufferList.

(** [std::deque<Buffer> _buffers] *)
Definition t := list Buffer.t.

Definition of_buffer (b : Buffer.t) : t := [b].

(** [BufferList(std::string &&)] appends one [Buffer]. *)
Definition of_string (data : bytes) : t := [Buffer.of_string data].

Definition append (l other : t) : t := (l ++ other : list _).

(** [operator Buffer()]: only for at most one piece. *)
Definition to_buffer (l : t) : outcome Buffer.t :=
  match l with
  | [] => Ok Buffer.default
  | [b] => Ok b
  | _ => Throw runtime_error
  end.

Fixpoint concatenate (l : t) : bytes :=
  match l with [] => [] | b :: l => Buffer.str b ++ concatenate l end.

Definition size (l : t) : Z := foldl (λ ret b, u64 (ret + Buffer.size b)) 0 l.

Fixpoint remove_prefix (l : t) (n : Z) : outcome t :=
  if n >? 0 then
    match l with
    | [] => Throw out_of_range
    | b :: l =>
      if n <? len (Buffer.str b) then b ← Buffer.remove_prefix b n; Ok (b :: l)
      else remove_prefix l (u64 (n - len (Buffer.str b)))
    end
  else Ok l.

End BufferList.

Module BufferViewList.

(** [std::deque<std::string_view> _views] *)
Definition t := list bytes.

Definition of_string (data : bytes) : t := [data].

(** [BufferViewList(const BufferList &)] *)
Definition of_list (buffers : BufferList.t) : t := map Buffer.str buffers.

Fixpoint remove_prefix (l : t) (n : Z) : outcome t :=
  if n >? 0 then
    match l with
    | [] => Throw out_of_range
    | v :: l =>
      if n <? len v then Ok (drop (Z.to_nat n) v :: l) else remove_prefix l (u64 (n - len v))
    end
  else Ok l.

Definition size (l : t) : Z := foldl (λ ret v, u64 (ret + len v)) 0 l.

(** The [iovec]s point at the views, in order. *)
Definition as_iovecs (l : t) : list (bytes * Z) := map (λ v, (v, len v)) l.

End BufferViewList.

(** ** Lemmas *)

Lemma str_of_string data : Buffer.str (Buffer.of_string data) = data.
Proof. done. Qed.

Lemma wf_of_string data : len data < 2 ^ 64 → Buffer.wf (Buffer.of_string data).
Proof. unfold Buffer.wf. simpl. pose proof (len_nonneg data). lia. Qed.

Lemma buffer_remove_prefix_spec b n :
  Buffer.wf b → 0 ≤ n ≤ len (Buffer.str b) →
  ∃ b', Buffer.remove_prefix b n = Ok b' ∧ Buffer.wf b' ∧
    Buffer.str b' = drop (Z.to_nat n) (Buffer.str b).
Proof.
  intros Hwf Hn. unfold Buffer.remove_prefix.
  destruct (n >? len (Buffer.str b)) eqn:E; [lia|]. eexists. split; [done|].
  destruct b as [[data|] off]; unfold Buffer.str, Buffer.wf in *; simpl in *; [|by rewrite drop_nil].
  rewrite len_drop in Hn by lia.
  rewrite (u64_id (off + n)) by lia. destruct (off + n =? len data) eqn:E2; simpl.
  - split; [done|]. rewrite drop_drop, drop_ge; [done|]. unfold len in *. lia.
  - split; [lia|]. rewrite drop_drop. f_equal. lia.
Qed.

Lemma buffer_remove_prefix_beyond b n :
  Buffer.wf b → len (Buffer.str b) < n < 2 ^ 64 → Buffer.remove_prefix b n = Throw out_of_range.
Proof.
  intros _ Hn. unfold Buffer.remove_prefix.
  destruct (n >? len (Buffer.str b)) eqn:E; [done|lia].
Qed.

#[export] Instance Buffer_PrefixDiscard : PrefixDiscard Buffer.t := {|
  contents := Buffer.str;
  valid := Buffer.wf;
  discard := Buffer.remove_prefix;
  discard_within := buffer_remove_prefix_spec;
  discard_beyond := buffer_remove_prefix_beyond
|}.

(** A list of pieces discards as its pieces do; both list classes run this loop. *)
Section pieces.
Context {P : Type} `{!PrefixDiscard P}.

Fixpoint pieces_contents (l : list P) : bytes :=
  match l with [] => [] | b :: l => contents b ++ pieces_contents l end.

Definition pieces_valid (l : list P) : Prop :=
  Forall valid l ∧ len (pieces_contents l) < 2 ^ 64.

Fixpoint pieces_discard (l : list P) (n : Z) : outcome (list P) :=
  if n >? 0 then
    match l with
    | [] => Throw out_of_range
    | b :: l =>
      if n <? len (contents b) then b ← discard b n; Ok (b :: l)
      else pieces_discard l (u64 (n - len (contents b)))
    end
  else Ok l.

Lemma pieces_valid_cons b l :
  pieces_valid (b :: l) → valid b ∧ pieces_valid l ∧
  len (contents b) + len (pieces_contents l) < 2 ^ 64.
Proof.
  intros [H1 H2]. apply Forall_cons in H1 as [? ?]. cbn in H2. rewrite len_app in H2.
  pose proof (len_nonneg (contents b)). split_and!; [done| |lia]. split; [done|lia].
Qed.

Lemma pieces_discard_within l n :
  pieces_valid l → 0 ≤ n ≤ len (pieces_contents l) →
  ∃ l', pieces_discard l n = Ok l' ∧ pieces_valid l' ∧
    pieces_contents l' = drop (Z.to_nat n) (pieces_contents l).
Proof.
  revert n. induction l as [|b l IH]; intros n Hv Hn; cbn in *.
  { assert (n = 0) as -> by (unfold len in Hn; simpl in Hn; lia). simpl. eauto. }
  pose proof Hv as (Hb & Hl & Hsum)%pieces_valid_cons. rewrite len_app in Hn.
  pose proof (len_nonneg (contents b)). pose proof (len_nonneg (pieces_contents l)).
  destruct (n >? 0) eqn:E.
  - destruct (n <? len (contents b)) eqn:E2.
    + destruct (discard_within b n Hb) as (b' & -> & Hb' & Hc); [lia|]. cbn.
      eexists. split; [done|]. cbn. rewrite Hc, drop_app_le by (unfold len in *; lia).
      split; [|done]. destruct Hl as [Hl _]. split; [by constructor|].
      cbn. rewrite Hc, len_app, len_drop by lia. lia.
    + rewrite u64_id by lia. destruct (IH (n - len (contents b))) as (l' & -> & H1 & H2); [done|lia|].
      eexists. split_and!; [done|done|]. rewrite H2, drop_app_ge by (unfold len in *; lia).
      f_equal. unfold len. lia.
  - assert (n = 0) as -> by lia. eexists. split; [done|]. done.
Qed.

Lemma pieces_discard_beyond l n :
  pieces_valid l → len (pieces_contents l) < n < 2 ^ 64 → pieces_discard l n = Throw out_of_range.
Proof.
  revert n. induction l as [|b l IH]; intros n Hv Hn; cbn in *.
  { destruct (n >? 0) eqn:E; [done|]. unfold len in Hn. simpl in Hn. lia. }
  pose proof Hv as (Hb & Hl & Hsum)%pieces_valid_cons. rewrite len_app in Hn.
  pose proof (len_nonneg (contents b)). pose proof (len_nonneg (pieces_contents l)).
  destruct (n >? 0) eqn:E; [|lia]. destruct (n <? len (contents b)) eqn:E2; [lia|].
  rewrite u64_id by lia. apply IH; [done|lia].
Qed.

End pieces.

Lemma bufferlist_is_pieces l n : BufferList.remove_prefix l n = pieces_discard l n.
Proof.
  revert n. induction l as [|b l IH]; intros n; cbn; [done|]. by destruct (n >? 0); rewrite ?IH.
Qed.

Lemma concatenate_pieces l : BufferList.concatenate l = pieces_contents l.
Proof. induction l as [|b l IH]; cbn; [done|]. by rewrite IH. Qed.

#[export] Instance BufferList_PrefixDiscard : PrefixDiscard BufferList.t.
Proof.
  refine {| contents := BufferList.concatenate; valid := pieces_valid;
            discard := BufferList.remove_prefix |};
    intros l n; rewrite bufferlist_is_pieces, !concatenate_pieces.
  - intros Hv Hn. destruct (pieces_discard_within l n Hv Hn) as (l' & H1 & H2 & H3).
    exists l'. by rewrite concatenate_pieces.
  - apply pieces_discard_beyond.
Defined.

(** A [string_view] as a piece: [remove_prefix] is guarded by the caller's test. *)
Definition view_discard (v : bytes) (n : Z) : outcome bytes :=
  if n <=? len v then Ok (drop (Z.to_nat n) v) else Throw out_of_range.

Lemma view_discard_within v n :
  True → 0 ≤ n ≤ len v → ∃ v', view_discard v n = Ok v' ∧ True ∧ v' = drop (Z.to_nat n) v.
Proof. intros _ Hn. unfold view_discard. destruct (n <=? len v) eqn:E; [eauto|lia]. Qed.

Lemma view_discard_beyond v n :
  True → len v < n < 2 ^ 64 → view_discard v n = Throw out_of_range.
Proof. intros _ Hn. unfold view_discard. destruct (n <=? len v) eqn:E; [lia|done]. Qed.

#[export] Instance view_PrefixDiscard : PrefixDiscard bytes := {|
  contents := λ v, v;
  valid := λ _, True;
  discard := view_discard;
  discard_within := view_discard_within;
  discard_beyond := view_discard_beyond
|}.

Lemma viewlist_is_pieces (l : BufferViewList.t) n :
  BufferViewList.remove_prefix l n = pieces_discard l n.
Proof.
  revert n. induction l as [|v l IH]; intros n; cbn; [done|].
  destruct (n >? 0); rewrite ?IH; [|done]. destruct (n <? len v) eqn:E; [|done].
  unfold view_discard. destruct (n <=? len v) eqn:E2; [done|lia].
Qed.

Lemma concat_pieces (l : BufferViewList.t) : concat l = pieces_contents l.
Proof. induction l as [|v l IH]; cbn; [done|]. by rewrite IH. Qed.

#[export] Instance BufferViewList_PrefixDiscard : PrefixDiscard BufferViewList.t.
Proof.
  refine {| contents := @concat Z; valid := pieces_valid (P := bytes);
            discard := BufferViewList.remove_prefix |};
    intros l n; rewrite viewlist_is_pieces, !concat_pieces.
  - intros Hv Hn. destruct (pieces_discard_within l n Hv Hn) as (l' & H1 & H2 & H3).
    exists l'. by rewrite concat_pieces.
  - apply pieces_discard_beyond.
Defined.

Lemma size_foldl {A} (f : A → Z) l acc :
  foldl (λ ret b, u64 (ret + f b)) (u64 acc) l = u64 (acc + foldr (λ b r, f b + r) 0 l).
Proof.
  revert acc. induction l as [|b l IH]; intros acc; cbn; [f_equal; lia|].
  rewrite u64_add_idemp, IH. f_equal. lia.
Qed.

Lemma bufferlist_size_concatenate l :
  len (BufferList.concatenate l) < 2 ^ 64 → BufferList.size l = len (BufferList.concatenate l).
Proof.
  intros H. unfold BufferList.size. change 0 with (u64 0) at 1. rewrite size_foldl.
  rewrite Z.add_0_l. replace (foldr _ 0 l) with (len (BufferList.concatenate l)).
  - apply u64_id. pose proof (len_nonneg (BufferList.concatenate l)). lia.
  - clear. induction l as [|b l IH]; cbn; [done|]. rewrite len_app, IH. done.
Qed.

Lemma concatenate_append l k :
  BufferList.concatenate (BufferList.append l k) =
  BufferList.concatenate l ++ BufferList.concatenate k.
Proof.
  unfold BufferList.append. induction l as [|b l IH]; cbn; [done|]. by rewrite IH, app_assoc.
Qed.

(** ** Properties *)

(** [BufferList::remove_prefix(n)] drops exactly the first [n] bytes of the
    concatenated contents when there are that many, across piece boundaries, and
    otherwise throws [out_of_range]; a view of the list behaves the same. *)
Theorem bufferlist_remove_prefix (l : BufferList.t) (n : Z) :
  Forall Buffer.wf l → len (BufferList.concatenate l) < 2 ^ 64 → 0 ≤ n < 2 ^ 64 →
  if n <=? len (BufferList.concatenate l) then
    (∃ l', BufferList.remove_prefix l n = Ok l' ∧
       BufferList.concatenate l' = drop (Z.to_nat n) (BufferList.concatenate l)) ∧
    (∃ v', BufferViewList.remove_prefix (BufferViewList.of_list l) n = Ok v' ∧
       concat v' = drop (Z.to_nat n) (BufferList.concatenate l))
  else
    BufferList.remove_prefix l n = Throw out_of_range ∧
    BufferViewList.remove_prefix (BufferViewList.of_list l) n = Throw out_of_range.
Proof.
  intros Hwf Hsmall Hn.
  assert (Hview : concat (BufferViewList.of_list l) = BufferList.concatenate l)
    by (clear; induction l as [|b l IH]; [done|]; cbn; f_equal; exact IH).
  assert (Hv1 : valid (T := BufferList.t) l) by (split; [done|by rewrite <- concatenate_pieces]).
  assert (Hv2 : valid (T := BufferViewList.t) (BufferViewList.of_list l)).
  { split; [by apply Forall_true|]. by rewrite <- concat_pieces, Hview. }
  destruct (_ <=? _) eqn:E; [split|split].
  - destruct (discard_within (T := BufferList.t) l n Hv1) as (l' & ? & _ & ?); cbn in *; eauto; lia.
  - destruct (discard_within (T := BufferViewList.t) (BufferViewList.of_list l) n Hv2)
      as (l' & ? & _ & Hc); cbn in *; rewrite Hview in *; eauto; lia.
  - apply (discard_beyond (T := BufferList.t) l n Hv1). cbn. lia.
  - apply (discard_beyond (T := BufferViewList.t) _ n Hv2).
    cbn [contents BufferViewList_PrefixDiscard]. rewrite Hview. lia.
Qed.

Lemma bufferlist_remove_prefix_witness :
  (∃ l', BufferList.remove_prefix [Buffer.of_string [1; 2]; Buffer.of_string [3; 4]] 3 = Ok l' ∧
     BufferList.concatenate l' = [4]) ∧
  (∃ v', BufferViewList.remove_prefix [[1; 2]; [3; 4]] 3 = Ok v' ∧ concat v' = [4]).
Proof.
  apply (bufferlist_remove_prefix [Buffer.of_string [1; 2]; Buffer.of_string [3; 4]] 3);
    [repeat constructor; unfold len; simpl; lia|unfold len; simpl; lia|lia].
Defined.
