(* ===== verification/parser.v ===== *)
(** * Parsing and unparsing integers in network byte order

    Models [libsponge/util/parser.hh] and [libsponge/util/parser.cc]:
    [ParseResult], [NetParser] (a [Buffer] and a sticky error) and
    [NetUnparser].  A parser method returns its value together with the parser
    it leaves behind, in the outcome monad of the [Buffer] it reads from. *)

From stdpp Require Import strings.
From S2P Require Import prelude buffer.

(** [enum class ParseResult] *)
Inductive ParseResult :=
| NoError
| BadChecksum
| PacketTooShort
| WrongIPVersion
| HeaderTooShort
| TruncatedPacket
| Unsupported.

#[export] Instance ParseResult_eq_dec : EqDecision ParseResult.
Proof. solve_decision. Defined.

(** [static_cast<size_t>(r)] *)
Definition ParseResult_index (r : ParseResult) : nat :=
  match r with
  | NoError => 0 | BadChecksum => 1 | PacketTooShort => 2 | WrongIPVersion => 3
  | HeaderTooShort => 4 | TruncatedPacket => 5 | Unsupported => 6
  end.

(** The array [_names] of [as_string]. *)
Definition ParseResult_names : list string :=
  ["NoError"; "BadChecksum"; "PacketTooShort"; "WrongIPVersion"; "HeaderTooShort";
   "TruncatedPacket"]%string.

Definition as_string (r : ParseResult) : outcome string :=
  or_UB (ParseResult_names !! ParseResult_index r).

Module NetParser.

(** The members of [class NetParser]. *)
Record t := mk {
  _buffer : Buffer.t;
  _error : ParseResult
}.

#[global] Instance eta_t : Eta t := λ p, mk (_buffer p) (_error p).

(** [NetParser(Buffer)] *)
Definition make (b : Buffer.t) : t := mk b NoError.

Definition buffer (p : t) : Buffer.t := _buffer p.
Definition get_error (p : t) : ParseResult := _error p.
Definition set_error (p : t) (res : ParseResult) : t := p <| _error := res |>.
Definition error (p : t) : bool := bool_decide (get_error p ≠ NoError).

Definition _check_size (p : t) (size : Z) : t :=
  if size >? Buffer.size (_buffer p) then set_error p PacketTooShort else p.

(** The loop of [_parse_int<T>] over the bytes [i ..]: [T] has [8 * n] bits. *)
Fixpoint parse_int_loop (n : Z) (b : Buffer.t) (i : Z) (todo : nat) (ret : Z) : outcome Z :=
  match todo with
  | O => Ok ret
  | S todo =>
    let ret := Z.shiftl ret 8 mod 2 ^ (8 * n) in
    c ← Buffer.at_ b i;
    parse_int_loop n b (i + 1) todo ((ret + u8 c) mod 2 ^ (8 * n))
  end.

(** [_parse_int<T>] for [sizeof(T) = n] *)
Definition _parse_int (n : nat) (p : t) : outcome (Z * t) :=
  let p := _check_size p (Z.of_nat n) in
  if error p then Ok (0, p)
  else
    ret ← parse_int_loop (Z.of_nat n) (_buffer p) 0 n 0;
    b ← Buffer.remove_prefix (_buffer p) (Z.of_nat n);
    Ok (ret, p <| _buffer := b |>).

Definition u32 (p : t) : outcome (Z * t) := _parse_int 4 p.
Definition u16 (p : t) : outcome (Z * t) := _parse_int 2 p.
Definition u8 (p : t) : outcome (Z * t) := _parse_int 1 p.

Definition remove_prefix (p : t) (n : Z) : outcome t :=
  let p := _check_size p n in
  if error p then Ok p
  else
    b ← Buffer.remove_prefix (_buffer p) n;
    Ok (p <| _buffer := b |>).

End NetParser.

Module NetUnparser.

(** The bytes [_unparse_int<T>] appends, most significant first. *)
Fixpoint int_bytes (n : nat) (val : Z) : bytes :=
  match n with
  | O => []
  | S n => Z.land (Z.shiftr val (Z.of_nat n * 8)) 255 :: int_bytes n val
  end.

Definition u32 (s : bytes) (val : Z) : bytes := s ++ int_bytes 4 val.
Definition u16 (s : bytes) (val : Z) : bytes := s ++ int_bytes 2 val.
Definition u8 (s : bytes) (val : Z) : bytes := s ++ int_bytes 1 val.

End NetUnparser.

(** ** Lemmas *)

(** The value of a big-endian byte string. *)
Definition be_value (l : bytes) : Z := foldl (λ acc b, acc * 2 ^ 8 + b) 0 l.

(** What is left to parse. *)
Definition todo (p : NetParser.t) : bytes := Buffer.str (NetParser._buffer p).

(** A parser over a well-formed buffer that has not failed. *)
Definition ready (p : NetParser.t) : Prop :=
  Buffer.wf (NetParser._buffer p) ∧ NetParser._error p = NoError.

Lemma length_int_bytes n v : length (NetUnparser.int_bytes n v) = n.
Proof. induction n; simpl; auto. Qed.

Lemma int_bytes_head n v :
  Z.land (Z.shiftr v (Z.of_nat n * 8)) 255 = (v / 2 ^ (8 * Z.of_nat n)) mod 2 ^ 8.
Proof.
  change 255 with (Z.ones 8). rewrite Z.land_ones, Z.shiftr_div_pow2 by lia.
  by rewrite (Z.mul_comm 8).
Qed.

Lemma is_bytes_int_bytes n v : is_bytes (NetUnparser.int_bytes n v).
Proof.
  unfold is_bytes. induction n as [|n IH]; simpl; constructor; [|done].
  rewrite int_bytes_head. apply Z.mod_pos_bound. lia.
Qed.

Lemma be_value_foldl l acc :
  foldl (λ acc b, acc * 2 ^ 8 + b) acc l = acc * 2 ^ (8 * len l) + be_value l.
Proof.
  unfold be_value. revert acc. induction l as [|b l IH]; intros acc; cbn [foldl].
  - rewrite (@len_nil Z). change (2 ^ (8 * 0)) with 1. lia.
  - rewrite IH, (IH (0 * 2 ^ 8 + b)), len_cons.
    rewrite Z.mul_add_distr_l, Z.pow_add_r by (pose proof (len_nonneg l); lia).
    change (2 ^ (8 * 1)) with (2 ^ 8). lia.
Qed.

Lemma be_value_cons b l : be_value (b :: l) = b * 2 ^ (8 * len l) + be_value l.
Proof. unfold be_value at 1. cbn [foldl]. by rewrite be_value_foldl. Qed.

Lemma be_value_bound l : is_bytes l → 0 ≤ be_value l < 2 ^ (8 * len l).
Proof.
  unfold is_bytes. induction 1 as [|b l Hb _ IH]; [done|].
  rewrite be_value_cons, len_cons. pose proof (len_nonneg l).
  rewrite Z.mul_add_distr_l, Z.pow_add_r by lia. change (2 ^ (8 * 1)) with (2 ^ 8). nia.
Qed.

(** Unparsing then evaluating gives the value modulo its width. *)
Lemma be_value_int_bytes n v :
  be_value (NetUnparser.int_bytes n v) = v mod 2 ^ (8 * Z.of_nat n).
Proof.
  induction n as [|n IH]; [by rewrite Z.mod_1_r|].
  cbn [NetUnparser.int_bytes]. rewrite be_value_cons, IH, int_bytes_head.
  unfold len. rewrite length_int_bytes.
  replace (8 * Z.of_nat (S n)) with (8 * Z.of_nat n + 8) by lia.
  rewrite Z.pow_add_r, Z.rem_mul_r by lia. lia.
Qed.

Lemma int_bytes_id n v :
  0 ≤ v < 2 ^ (8 * Z.of_nat n) → be_value (NetUnparser.int_bytes n v) = v.
Proof. intros ?. rewrite be_value_int_bytes. by apply Z.mod_small. Qed.

(** One step of the parser, as a byte-string function: with enough bytes left it
    takes the first [n] as a number; otherwise it fails once and for all. *)
Lemma parse_int_loop_spec (b : Buffer.t) (n done_ left : nat) :
  is_bytes (Buffer.str b) → (done_ + left = n)%nat → (n ≤ length (Buffer.str b))%nat →
  NetParser.parse_int_loop (Z.of_nat n) b (Z.of_nat done_) left
    (be_value (take done_ (Buffer.str b))) = Ok (be_value (take n (Buffer.str b))).
Proof.
  intros Hb. revert done_. induction left as [|left IH]; intros done_ Hn Hlen.
  { simpl. by replace done_ with n by lia. }
  cbn [NetParser.parse_int_loop]. unfold Buffer.at_. rewrite Nat2Z.id.
  destruct (lookup_lt_is_Some_2 (Buffer.str b) done_) as [c Hc]; [lia|].
  rewrite Hc. cbn [mbind outcome_bind].
  assert (Hcb : 0 ≤ c < 2 ^ 8) by (by apply (Forall_lookup_1 _ _ _ _ Hb Hc)).
  assert (Htake : is_bytes (take done_ (Buffer.str b))) by (by apply Forall_take).
  pose proof (be_value_bound _ Htake) as Hv. unfold len in Hv. rewrite length_take in Hv.
  rewrite Nat.min_l in Hv by lia.
  assert (Hpow : 2 ^ (8 * Z.of_nat done_) * 2 ^ 8 ≤ 2 ^ (8 * Z.of_nat n)).
  { rewrite <- Z.pow_add_r by lia. apply Z.pow_le_mono_r; lia. }
  rewrite u8_id by done. rewrite Z.shiftl_mul_pow2 by lia.
  rewrite (Z.mod_small (_ * _)) by nia. rewrite Z.mod_small by nia.
  replace (_ * 2 ^ 8 + c) with (be_value (take (S done_) (Buffer.str b))).
  - replace (Z.of_nat done_ + 1) with (Z.of_nat (S done_)) by lia. apply IH; lia.
  - rewrite (take_S_r _ _ _ Hc). unfold be_value at 1. by rewrite foldl_app.
Qed.

Lemma parse_int_ready n p :
  ready p → is_bytes (todo p) → (n ≤ length (todo p))%nat →
  ∃ p', NetParser._parse_int n p = Ok (be_value (take n (todo p)), p') ∧
    ready p' ∧ todo p' = drop n (todo p).
Proof.
  intros [Hwf He] Hb Hn. unfold NetParser._parse_int, NetParser._check_size, Buffer.size.
  unfold todo in *. destruct (_ >? _) eqn:E; [unfold len in *; lia|].
  unfold NetParser.error, NetParser.get_error. rewrite He. cbn [bool_decide].
  rewrite bool_decide_eq_false_2 by (intros H; by apply H).
  pose proof (parse_int_loop_spec (NetParser._buffer p) n 0 n Hb) as Hl.
  rewrite take_0 in Hl. change (be_value []) with 0 in Hl. change (Z.of_nat 0) with 0 in Hl.
  rewrite Hl by lia. cbn [mbind outcome_bind].
  destruct (buffer_remove_prefix_spec (NetParser._buffer p) (Z.of_nat n) Hwf)
    as (b' & -> & Hwf' & Hs); [unfold len; lia|].
  eexists. split; [done|]. unfold ready. cbn. rewrite Hs, Nat2Z.id. done.
Qed.

Lemma parse_int_short n p :
  ready p → (length (todo p) < n)%nat →
  NetParser._parse_int n p = Ok (0, NetParser.set_error p PacketTooShort).
Proof.
  intros [Hwf He] Hn. unfold NetParser._parse_int, NetParser._check_size, Buffer.size.
  unfold todo in *. destruct (_ >? _) eqn:E; [|unfold len in *; lia]. done.
Qed.

(** A parser that has failed stays failed, returns zeros and keeps its input. *)
Lemma parse_int_failed n p :
  NetParser._error p ≠ NoError →
  ∃ p', NetParser._parse_int n p = Ok (0, p') ∧ NetParser._error p' ≠ NoError ∧
    NetParser._buffer p' = NetParser._buffer p.
Proof.
  intros He. unfold NetParser._parse_int, NetParser._check_size.
  destruct (_ >? _); [by eexists|].
  unfold NetParser.error, NetParser.get_error. rewrite bool_decide_eq_true_2 by done.
  by exists p.
Qed.

(** Reading back [n] bytes from the front of the input. *)
Lemma parse_int_app n p v rest :
  ready p → is_bytes (todo p) → todo p = NetUnparser.int_bytes n v ++ rest →
  0 ≤ v < 2 ^ (8 * Z.of_nat n) →
  ∃ p', NetParser._parse_int n p = Ok (v, p') ∧ ready p' ∧ is_bytes (todo p') ∧ todo p' = rest.
Proof.
  intros Hr Hb Htodo Hv.
  destruct (parse_int_ready n p Hr Hb) as (p' & Hp & Hr' & Ht').
  { rewrite Htodo, length_app, length_int_bytes. lia. }
  rewrite Htodo in Hp, Ht'. rewrite take_app_length' in Hp by (by rewrite length_int_bytes).
  rewrite drop_app_length' in Ht' by (by rewrite length_int_bytes).
  rewrite int_bytes_id in Hp by done.
  exists p'. split_and!; try done. rewrite Ht'. unfold is_bytes in *.
  rewrite Htodo in Hb. by apply Forall_app in Hb as [_ ?].
Qed.

Lemma parser_remove_prefix_ready p n :
  ready p → 0 ≤ n ≤ len (todo p) →
  ∃ p', NetParser.remove_prefix p n = Ok p' ∧ ready p' ∧ todo p' = drop (Z.to_nat n) (todo p).
Proof.
  intros [Hwf He] Hn. unfold NetParser.remove_prefix, NetParser._check_size, Buffer.size.
  unfold todo in *. destruct (_ >? _) eqn:E; [lia|].
  unfold NetParser.error, NetParser.get_error. rewrite He.
  rewrite bool_decide_eq_false_2 by (intros H; by apply H).
  destruct (buffer_remove_prefix_spec (NetParser._buffer p) n Hwf) as (b' & -> & Hwf' & Hs); [done|].
  eexists. split; [done|]. done.
Qed.

Lemma parser_remove_prefix_short p n :
  len (todo p) < n → NetParser.remove_prefix p n = Ok (NetParser.set_error p PacketTooShort).
Proof.
  intros Hn. unfold NetParser.remove_prefix, NetParser._check_size, Buffer.size, todo in *.
  by destruct (_ >? _) eqn:E; [|lia].
Qed.

Lemma ready_make b : Buffer.wf b → ready (NetParser.make b).
Proof. done. Qed.

(** A parser that has not failed and has exactly [l] left to read. *)
Definition at_input (p : NetParser.t) (l : bytes) : Prop := ready p ∧ is_bytes l ∧ todo p = l.

(** A parser over a well-formed buffer whose error is [e], or that ran short. *)
Definition safe (e : ParseResult) (p : NetParser.t) : Prop :=
  (Buffer.wf (NetParser._buffer p) ∧ is_bytes (todo p)) ∧
  (NetParser._error p = e ∨ NetParser._error p = PacketTooShort).

Lemma at_input_make b : Buffer.wf b → is_bytes (Buffer.str b) → at_input (NetParser.make b) (Buffer.str b).
Proof. done. Qed.

Lemma safe_make b : Buffer.wf b → is_bytes (Buffer.str b) → safe NoError (NetParser.make b).
Proof. split; [done|by left]. Qed.

Lemma at_input_safe p l : at_input p l → safe NoError p.
Proof. intros ([? ?] & Hb & Ht). split; [|by left]. split; [done|]. by rewrite Ht. Qed.

Lemma safe_same_error e p p' :
  safe e p → Buffer.wf (NetParser._buffer p') → is_bytes (todo p') →
  NetParser._error p' = NetParser._error p ∨ NetParser._error p' = PacketTooShort → safe e p'.
Proof. unfold safe. intuition congruence. Qed.

(** Running a parser over what an unparser wrote, one field at a time. *)
Lemma parse_step {A} (Q : outcome A → Prop) n p v rest (k : Z * NetParser.t → outcome A) :
  at_input p (NetUnparser.int_bytes n v ++ rest) → 0 ≤ v < 2 ^ (8 * Z.of_nat n) →
  (∀ p', at_input p' rest → Q (k (v, p'))) → Q (NetParser._parse_int n p ≫= k).
Proof.
  intros (Hr & Hb & Ht) Hv Hk.
  destruct (parse_int_app n p v rest) as (p' & -> & Hr' & Hb' & Ht'); try done; [by rewrite Ht|].
  apply Hk. split_and!; try done. by rewrite <- Ht'.
Qed.

(** Running a parser over any input: each step returns a number of its width; the
    only error it can raise is [PacketTooShort]. *)
Lemma parse_safe_step {A} (Q : outcome A → Prop) e n p (k : Z * NetParser.t → outcome A) :
  safe e p → (∀ v p', safe e p' → 0 ≤ v < 2 ^ (8 * Z.of_nat n) → Q (k (v, p'))) →
  Q (NetParser._parse_int n p ≫= k).
Proof.
  intros Hs Hk. assert (0 ≤ 0 < 2 ^ (8 * Z.of_nat n)) by lia. pose proof Hs as [[Hwf Hb] _].
  destruct (decide (NetParser._error p = NoError)) as [He|He].
  - destruct (decide (length (todo p) < n)%nat) as [Hlt|Hge].
    + rewrite parse_int_short by done. apply Hk; [|done]. apply (safe_same_error e p); auto.
    + destruct (parse_int_ready n p) as (p' & -> & [Hwf' He'] & Ht); try done; [lia|].
      apply Hk.
      * apply (safe_same_error e p); [done|done| |left; congruence]. rewrite Ht. by apply Forall_drop.
      * assert (Htk : is_bytes (take n (todo p))) by (by apply Forall_take).
        pose proof (be_value_bound _ Htk) as Hbd. unfold len in Hbd.
        rewrite length_take, Nat.min_l in Hbd by lia. done.
  - unfold NetParser._parse_int, NetParser._check_size.
    destruct (_ >? _); [apply Hk; [|done]; apply (safe_same_error e p); auto|].
    unfold NetParser.error, NetParser.get_error. rewrite bool_decide_eq_true_2 by done.
    apply Hk; done.
Qed.

(** Skipping bytes never throws either. *)
Lemma remove_prefix_safe_step {A} (Q : outcome A → Prop) e n p (k : NetParser.t → outcome A) :
  safe e p → 0 ≤ n → (∀ p', safe e p' → Q (k p')) → Q (NetParser.remove_prefix p n ≫= k).
Proof.
  intros Hs Hn Hk. pose proof Hs as [[Hwf Hb] _].
  destruct (decide (len (todo p) < n)).
  { rewrite parser_remove_prefix_short by done. apply Hk, (safe_same_error e p); auto. }
  destruct (decide (NetParser._error p = NoError)) as [He|He].
  - destruct (parser_remove_prefix_ready p n) as (p' & -> & [Hwf' He'] & Ht); [done|lia|].
    apply Hk, (safe_same_error e p); [done|done| |left; congruence]. rewrite Ht. by apply Forall_drop.
  - unfold NetParser.remove_prefix, NetParser._check_size, Buffer.size, todo in *.
    destruct (_ >? _) eqn:E; [lia|].
    unfold NetParser.error, NetParser.get_error. rewrite bool_decide_eq_true_2 by done. by apply Hk.
Qed.

Lemma remove_prefix_step {A} (Q : outcome A → Prop) p l rest (k : NetParser.t → outcome A) :
  at_input p (l ++ rest) → (∀ p', at_input p' rest → Q (k p')) →
  Q (NetParser.remove_prefix p (len l) ≫= k).
Proof.
  intros (Hr & Hb & Ht) Hk. apply Forall_app in Hb as [_ Hb].
  destruct (parser_remove_prefix_ready p (len l)) as (p' & -> & Hr' & Ht'); [done|..].
  { rewrite Ht, len_app. pose proof (len_nonneg l). pose proof (len_nonneg rest). lia. }
  apply Hk. split_and!; try done. rewrite Ht', Ht. unfold len. rewrite Nat2Z.id. apply drop_app_length.
Qed.

Lemma at_input_error p l : at_input p l → NetParser.error p = false ∧ NetParser.get_error p = NoError.
Proof.
  intros ([_ He] & _). unfold NetParser.error, NetParser.get_error. rewrite He. split; [|done].
  apply bool_decide_eq_false_2. by intros H; apply H.
Qed.

(** Focuses on the parsing step the goal runs first. *)
Ltac focus_parse :=
  unfold NetParser.u8, NetParser.u16, NetParser.u32;
  match goal with
  | |- context [mbind ?k (NetParser._parse_int ?n ?p)] =>
    pattern (mbind (M := outcome) k (NetParser._parse_int n p))
  | |- context [mbind ?k (NetParser.remove_prefix ?p ?n)] =>
    pattern (mbind (M := outcome) k (NetParser.remove_prefix p n))
  end.

(** Reads the next field of a known input. *)
Ltac parse_field :=
  focus_parse;
  eapply parse_step;
  [eassumption|first [done|apply u8_bound|apply u16_bound|idtac]|
   let p' := fresh "p" in let Hp' := fresh "Hp" in intros p' Hp'; cbv beta iota zeta].

(** Reads the next field of any input. *)
Ltac parse_any :=
  focus_parse;
  eapply parse_safe_step;
  [eassumption|
   let v := fresh "v" in let p' := fresh "p" in let Hp' := fresh "Hp" in let Hv := fresh "Hv" in
   intros v p' Hp' Hv; cbv beta iota zeta].

(** ** Properties *)

(** [NetParser] inverts [NetUnparser]: a number of [n] bytes written in
    network byte order in front of any input is read back, and the parser is left
    at the rest of the input with no error. *)
Theorem parse_unparse_roundtrip (n : nat) (v : Z) (rest : bytes) (b : Buffer.t) :
  Buffer.wf b → 0 ≤ v < 2 ^ (8 * Z.of_nat n) → is_bytes rest →
  Buffer.str b = NetUnparser.int_bytes n v ++ rest →
  ∃ p', NetParser._parse_int n (NetParser.make b) = Ok (v, p') ∧
    NetParser.get_error p' = NoError ∧ Buffer.str (NetParser.buffer p') = rest.
Proof.
  intros Hwf Hv Hrest Hs.
  destruct (parse_int_app n (NetParser.make b) v rest) as (p' & Hp & [_ He] & _ & Ht); try done.
  - unfold todo, is_bytes. cbn. rewrite Hs. apply Forall_app. split; [apply is_bytes_int_bytes|done].
  - exists p'. done.
Qed.

Lemma parse_unparse_roundtrip_witness :
  ∃ p', NetParser._parse_int 4 (NetParser.make (Buffer.of_string [222; 173; 190; 239; 7])) =
          Ok (3735928559, p') ∧
    NetParser.get_error p' = NoError ∧ Buffer.str (NetParser.buffer p') = [7].
Proof.
  apply (parse_unparse_roundtrip 4 3735928559 [7]); [|lia| |done].
  - apply wf_of_string. unfold len. simpl. lia.
  - repeat constructor; lia.
Defined.

(** Reading from a [NetParser] never throws: for every input and every
    width it returns; with too few bytes it sets [PacketTooShort] and returns 0,
    and after an error it returns 0, keeps an error and consumes nothing. *)
Theorem parse_int_never_throws (n : nat) (p : NetParser.t) :
  Buffer.wf (NetParser._buffer p) → is_bytes (Buffer.str (NetParser._buffer p)) →
  ∃ v p', NetParser._parse_int n p = Ok (v, p') ∧
    (NetParser.error p = true → v = 0 ∧ NetParser.error p' = true ∧
       NetParser.buffer p' = NetParser.buffer p) ∧
    (NetParser.error p = false → len (Buffer.str (NetParser._buffer p)) < Z.of_nat n →
       v = 0 ∧ NetParser.get_error p' = PacketTooShort) ∧
    (NetParser.error p = false → Z.of_nat n ≤ len (Buffer.str (NetParser._buffer p)) →
       NetParser.error p' = false ∧
       Buffer.str (NetParser.buffer p') = drop n (Buffer.str (NetParser._buffer p))).
Proof.
  intros Hwf Hb. unfold NetParser.error, NetParser.get_error.
  destruct (decide (NetParser._error p = NoError)) as [He|He].
  - rewrite He. rewrite bool_decide_eq_false_2 by (intros H; by apply H).
    destruct (decide (length (todo p) < n)%nat) as [Hlt|Hge].
    + exists 0. eexists. split; [by apply parse_int_short|]. split_and!; try done.
      unfold todo, len in *. lia.
    + destruct (parse_int_ready n p) as (p' & Hp & [_ He'] & Ht); try done; [lia|].
      exists (be_value (take n (todo p))), p'. split; [done|]. split_and!; try done.
      * unfold todo, len in *. lia.
      * rewrite He'. intros _ _. split; [|done]. by apply bool_decide_eq_false_2; intros H; apply H.
  - destruct (parse_int_failed n p He) as (p' & Hp & He' & Hbuf).
    exists 0, p'. split; [done|]. rewrite bool_decide_eq_true_2 by done.
    split_and!; try done. intros _. rewrite bool_decide_eq_true_2 by done. done.
Qed.

Lemma parse_int_never_throws_witness :
  ∃ v p', NetParser._parse_int 2 (NetParser.make (Buffer.of_string [7])) = Ok (v, p') ∧
    (NetParser.error (NetParser.make (Buffer.of_string [7])) = true →
       v = 0 ∧ NetParser.error p' = true ∧ NetParser.buffer p' = Buffer.of_string [7]) ∧
    (NetParser.error (NetParser.make (Buffer.of_string [7])) = false → 1 < 2 →
       v = 0 ∧ NetParser.get_error p' = PacketTooShort) ∧
    (NetParser.error (NetParser.make (Buffer.of_string [7])) = false → 2 ≤ 1 →
       NetParser.error p' = false ∧ Buffer.str (NetParser.buffer p') = []).
Proof.
  apply (parse_int_never_throws 2 (NetParser.make (Buffer.of_string [7]))).
  - apply wf_of_string. unfold len. simpl. lia.
  - repeat constructor; lia.
Defined.

(** [as_string] is defined for every result except [Unsupported]: its table
    has one name too few, so printing an [Unsupported] result reads past it. *)
Theorem as_string_misses_unsupported (r : ParseResult) :
  as_string r = UB ↔ r = Unsupported.
Proof. by destruct r. Qed.
