(* ===== verification/internet_checksum.v ===== *)
(** * The Internet checksum

    Models [class InternetChecksum] of [libsponge/util/util.hh] and
    [libsponge/util/util.cc]: a 32-bit running sum of 16-bit big-endian words
    that may be fed in pieces of odd length, and the fold to 16 bits.  The fold
    runs on two units of fuel; a 32-bit sum never needs more. *)

From S2P Require Import prelude.

Module InternetChecksum.

(** The members of [class InternetChecksum]. *)
Record t := mk {
  _sum : Z;
  _parity : bool
}.

(** [InternetChecksum(initial_sum)] *)
Definition make (initial_sum : Z) : t := mk initial_sum false.

(** One round of the loop of [add]. *)
Definition add_byte (c : t) (b : Z) : t :=
  let val := u16 (u8 b) in
  let val := if negb (_parity c) then u16 (Z.shiftl val 8) else val in
  mk (u32 (_sum c + val)) (negb (_parity c)).

Definition add (c : t) (data : bytes) : t := foldl add_byte c data.

(** [while (ret > 0xffff) ret = (ret >> 16) + (ret & 0xffff);] *)
Fixpoint fold_loop (fuel : nat) (ret : Z) : Z :=
  match fuel with
  | O => ret
  | S fuel =>
    if ret >? 65535 then fold_loop fuel (u32 (Z.shiftr ret 16 + Z.land ret 65535)) else ret
  end.

(** [~ret] converted to [uint16_t] *)
Definition value (c : t) : Z := u16 (Z.lnot (fold_loop 2 (_sum c))).

End InternetChecksum.

(** ** Lemmas *)

(** The sum of the 16-bit words of a byte string; [odd]: the first byte is the
    low half of a word. *)
Fixpoint word_sum (odd : bool) (data : bytes) : Z :=
  match data with
  | [] => 0
  | b :: data => (if odd then b else b * 2 ^ 8) + word_sum (negb odd) data
  end.

Section checksum_facts.
Import InternetChecksum.

Lemma word_sum_nonneg odd data : is_bytes data → 0 ≤ word_sum odd data.
Proof.
  unfold is_bytes. intros H. revert odd. induction H as [|b data Hb _ IH]; intros odd; simpl; [lia|].
  specialize (IH (negb odd)). destruct odd; lia.
Qed.

Lemma word_sum_le odd data :
  is_bytes data → word_sum odd data ≤ (2 ^ 16 - 2 ^ 8) * len data.
Proof.
  unfold is_bytes. intros H. revert odd. induction H as [|b data Hb _ IH]; intros odd; simpl; [done|].
  specialize (IH (negb odd)). rewrite len_cons. destruct odd; lia.
Qed.

(** Feeding a string adds its word sum, modulo 2^32. *)
Lemma add_spec data c :
  is_bytes data → 0 ≤ _sum c < 2 ^ 32 →
  add c data = mk (u32 (_sum c + word_sum (_parity c) data))
                  (xorb (_parity c) (Nat.odd (length data))).
Proof.
  unfold is_bytes. intros H. revert c. induction H as [|b data Hb _ IH]; intros [sum par] Hs; simpl in Hs.
  { simpl. by rewrite Z.add_0_r, u32_id, xorb_false_r by done. }
  unfold add in *. cbn [foldl]. unfold add_byte at 2. cbn [_sum _parity].
  rewrite IH by apply u32_bound. cbn [_sum _parity word_sum].
  rewrite u8_id, (u16_id b) by lia. f_equal.
  - rewrite Z.shiftl_mul_pow2 by lia. unfold u32.
    destruct par; cbn [negb].
    + rewrite Zplus_mod_idemp_l. f_equal. lia.
    + rewrite u16_id by lia. rewrite Zplus_mod_idemp_l. f_equal. lia.
  - cbn [length]. rewrite Nat.odd_succ, <- Nat.negb_odd. by destruct par, (Nat.odd _).
Qed.

Lemma add_app c d1 d2 : add c (d1 ++ d2) = add (add c d1) d2.
Proof. apply foldl_app. Qed.

Lemma word_sum_app odd d1 d2 :
  word_sum odd (d1 ++ d2) = word_sum odd d1 + word_sum (xorb odd (Nat.odd (length d1))) d2.
Proof.
  revert odd. induction d1 as [|b d1 IH]; intros odd; cbn [word_sum app].
  - simpl. by rewrite xorb_false_r.
  - rewrite IH. cbn [length]. rewrite Nat.odd_succ, <- Nat.negb_odd.
    replace (xorb (negb odd) (Nat.odd (length d1))) with (xorb odd (negb (Nat.odd (length d1))))
      by (by destruct odd, (Nat.odd _)).
    by rewrite Z.add_assoc.
Qed.

Lemma fold_step x :
  0 ≤ x < 2 ^ 32 →
  let y := u32 (Z.shiftr x 16 + Z.land x 65535) in
  y = x / 2 ^ 16 + x mod 2 ^ 16 ∧ 0 ≤ y ≤ 131070 ∧ y mod 65535 = x mod 65535 ∧ (y = 0 ↔ x = 0).
Proof.
  intros Hx y.
  assert (Hd : x = 65536 * (x / 2 ^ 16) + x mod 2 ^ 16 ∧ 0 ≤ x mod 2 ^ 16 < 65536).
  { split; [apply Z.div_mod; lia|apply Z.mod_pos_bound; lia]. }
  assert (0 ≤ x / 2 ^ 16 < 65536) by (split; [apply Z.div_pos|apply Z.div_lt_upper_bound]; lia).
  assert (Hy : y = x / 2 ^ 16 + x mod 2 ^ 16).
  { subst y. change 65535 with (Z.ones 16).
    rewrite Z.land_ones, Z.shiftr_div_pow2 by lia. rewrite u32_id; [done|lia]. }
  clearbody y. subst y. split_and!; [done|lia|lia| |lia].
  rewrite (proj1 Hd) at 3. replace (65536 * (x / 2 ^ 16) + x mod 2 ^ 16)
    with (x / 2 ^ 16 + x mod 2 ^ 16 + (x / 2 ^ 16) * 65535) by lia.
  by rewrite Z.mod_add by lia.
Qed.

(** Two folds bring any 32-bit sum below 2^16 and keep it modulo 65535. *)
Lemma fold_loop_spec x :
  0 ≤ x < 2 ^ 32 →
  0 ≤ fold_loop 2 x ≤ 65535 ∧ fold_loop 2 x mod 65535 = x mod 65535 ∧
  (fold_loop 2 x = 0 ↔ x = 0).
Proof.
  intros Hx. cbn [fold_loop]. destruct (x >? 65535) eqn:E1; [|lia].
  destruct (fold_step x Hx) as (_ & Hy & Hym & Hyz). set (y := u32 _) in *. clearbody y.
  destruct (y >? 65535) eqn:E2; [|split_and!; [lia|lia|done|lia]].
  destruct (fold_step y) as (Hz & Hzb & Hzm & Hzz); [lia|]. set (z := u32 _) in *.
  split_and!; [lia| |congruence|lia].
  rewrite Hz. Z.div_mod_to_equations; lia.
Qed.

(** More fuel changes nothing: the loop has ended. *)
Lemma fold_loop_enough fuel x :
  0 ≤ x < 2 ^ 32 → fold_loop (2 + fuel) x = fold_loop 2 x.
Proof.
  intros Hx. destruct (fold_loop_spec x Hx) as [Hb _]. revert Hb.
  cbn [fold_loop Nat.add]. destruct (x >? 65535); [|done]. destruct (_ >? 65535); [|done].
  intros Hb. destruct fuel; [done|]. cbn [fold_loop]. destruct (_ >? 65535) eqn:E; [lia|done].
Qed.

Lemma value_eq c : 0 ≤ _sum c < 2 ^ 32 → value c = 65535 - fold_loop 2 (_sum c).
Proof.
  intros Hc. destruct (fold_loop_spec _ Hc) as [Hb _]. unfold value, Z.lnot, u16.
  symmetry. apply (Z.mod_unique_pos _ _ (-1)); lia.
Qed.

(** A checksum is valid, that is 0, iff the sum is a positive multiple of 65535. *)
Lemma value_zero_iff c :
  0 ≤ _sum c < 2 ^ 32 → value c = 0 ↔ _sum c ≠ 0 ∧ _sum c mod 65535 = 0.
Proof.
  intros Hc. rewrite value_eq by done. destruct (fold_loop_spec _ Hc) as (Hb & Hm & Hz).
  rewrite <- Hm. split.
  - intros H. assert (fold_loop 2 (_sum c) = 65535) as -> by lia. split; [|done].
    intros ?. rewrite (proj2 Hz) in H by done. lia.
  - intros [Hne H]. assert (fold_loop 2 (_sum c) ≠ 0) by (rewrite Hz; done).
    Z.div_mod_to_equations; lia.
Qed.

Lemma value_bound c : 0 ≤ _sum c < 2 ^ 32 → 0 ≤ value c < 2 ^ 16.
Proof. intros _. apply u16_bound. Qed.

(** Adding the computed value to the sum makes the checksum valid. *)
Lemma value_completes c total :
  0 ≤ _sum c < 2 ^ 32 → total = _sum c + value c → 0 ≤ total < 2 ^ 32 →
  value (mk total false) = 0.
Proof.
  intros Hc -> Ht. apply value_zero_iff; [done|]. cbn [_sum]. revert Ht.
  rewrite value_eq by done. destruct (fold_loop_spec _ Hc) as (Hb & Hm & Hz). intros Ht.
  split; [destruct (decide (_sum c = 0)) as [E|]; [rewrite (proj2 Hz E); lia|lia]|].
  Z.div_mod_to_equations; lia.
Qed.

(** A checksum over data whose sum fits: one fold of the plain sum. *)
Lemma value_of_data init data :
  is_bytes data → 0 ≤ init → init + word_sum false data < 2 ^ 32 →
  value (add (make init) data) = 65535 - fold_loop 2 (init + word_sum false data).
Proof.
  intros Hd Hi Hs. pose proof (word_sum_nonneg false data Hd).
  rewrite add_spec by (cbn; done || lia). cbn [_sum _parity make]. rewrite u32_id by lia.
  rewrite value_eq by (cbn; lia). done.
Qed.

Lemma data_valid_iff init data :
  is_bytes data → 0 ≤ init → init + word_sum false data < 2 ^ 32 →
  value (add (make init) data) = 0 ↔
  init + word_sum false data ≠ 0 ∧ (init + word_sum false data) mod 65535 = 0.
Proof.
  intros Hd Hi Hs. pose proof (word_sum_nonneg false data Hd).
  rewrite add_spec by (cbn; done || lia). cbn [_sum _parity make]. rewrite u32_id by lia.
  rewrite value_zero_iff by (cbn; lia). done.
Qed.

(** Writing the value into a zeroed 16-bit field at an even position makes the
    checksum of the whole valid. *)
Lemma field_completes init a z w b :
  is_bytes a → is_bytes z → is_bytes w → is_bytes b → Nat.even (length a) = true →
  length z = 2%nat → length w = 2%nat → word_sum false z = 0 →
  0 ≤ init → init + word_sum false (a ++ z ++ b) + 65535 < 2 ^ 32 →
  word_sum false w = value (add (make init) (a ++ z ++ b)) →
  value (add (make init) (a ++ w ++ b)) = 0.
Proof.
  intros Ha Hz Hw Hb Hev Hlz Hlw Hz0 Hi Hs Hv.
  assert (Hda : is_bytes (a ++ z ++ b)) by (by repeat apply Forall_app_2).
  assert (Hdb : is_bytes (a ++ w ++ b)) by (by repeat apply Forall_app_2).
  pose proof (word_sum_nonneg false _ Hda) as H0.
  assert (Hsum : word_sum false (a ++ w ++ b) = word_sum false (a ++ z ++ b) + word_sum false w).
  { rewrite !word_sum_app. replace (xorb false (Nat.odd (length a))) with false
      by (rewrite <- Nat.negb_even, Hev; done).
    rewrite Hlz, Hlw, Hz0. lia. }
  rewrite value_of_data in Hv by (done || lia).
  destruct (fold_loop_spec (init + word_sum false (a ++ z ++ b))) as (Hb1 & Hm & Hzz); [lia|].
  apply data_valid_iff; [done|lia|lia|]. rewrite Hsum, Hv. split; [lia|].
  Z.div_mod_to_equations; lia.
Qed.

Lemma word_sum_insert odd data i b b' :
  data !! i = Some b →
  word_sum odd (<[i:=b']> data) =
  word_sum odd data + (b' - b) * (if xorb odd (Nat.odd i) then 1 else 2 ^ 8).
Proof.
  revert odd i. induction data as [|c data IH]; intros odd [|i] Hi; simplify_eq/=.
  - rewrite xorb_false_r. destruct odd; lia.
  - rewrite (IH _ _ Hi), Nat.odd_succ, <- Nat.negb_odd.
    replace (xorb odd (negb (Nat.odd i))) with (xorb (negb odd) (Nat.odd i))
      by (by destruct odd, (Nat.odd i)). lia.
Qed.

(** Changing one byte of data with a valid checksum makes it invalid. *)
Lemma one_byte_detected init data i b b' :
  is_bytes data → 0 ≤ init → init + word_sum false data < 2 ^ 32 - 2 ^ 16 →
  data !! i = Some b → 0 ≤ b' < 2 ^ 8 → b' ≠ b →
  value (add (make init) data) = 0 → value (add (make init) (<[i:=b']> data)) ≠ 0.
Proof.
  intros Hd Hi Hs Hb Hb' Hne Hv.
  assert (Hd' : is_bytes (<[i:=b']> data)) by (by apply Forall_insert).
  assert (Hbb : 0 ≤ b < 2 ^ 8) by (by apply (Forall_lookup_1 _ _ _ _ Hd Hb)).
  pose proof (word_sum_nonneg false _ Hd'). pose proof (word_sum_insert false data i b b' Hb) as Hw.
  apply data_valid_iff in Hv as [_ Hv]; [|done|lia|lia].
  set (k := if xorb false (Nat.odd i) then 1 else 2 ^ 8) in *.
  assert (Hk : k = 1 ∨ k = 256) by (unfold k; destruct (xorb _ _); auto). clearbody k.
  rewrite data_valid_iff; [|done|lia|rewrite Hw; destruct Hk as [-> | ->]; lia].
  intros [_ Hv']. rewrite Hw in Hv'. destruct Hk as [-> | ->]; Z.div_mod_to_equations; lia.
Qed.

End checksum_facts.

(** ** Properties *)

(** [InternetChecksum] is the one's complement of the one's complement sum:
    for data whose word sum fits in 32 bits, fed in any split into two pieces,
    the value is the number [v] of 16 bits with [sum + v] a positive multiple of
    65535, [sum] being the initial sum plus the big-endian 16-bit words. *)
Theorem checksum_is_ones_complement_sum (init : Z) (d1 d2 : bytes) :
  is_bytes d1 → is_bytes d2 → 0 ≤ init →
  init + word_sum false (d1 ++ d2) < 2 ^ 32 →
  let sum := init + word_sum false (d1 ++ d2) in
  let v := InternetChecksum.value
             (InternetChecksum.add (InternetChecksum.add (InternetChecksum.make init) d1) d2) in
  0 ≤ v < 2 ^ 16 ∧ (sum + v) mod 65535 = 0 ∧ 0 < sum + v ∧
  (v = 0 ↔ sum ≠ 0 ∧ sum mod 65535 = 0).
Proof.
  intros H1 H2 Hi Hs sum v. subst v. rewrite <- add_app.
  assert (H12 : is_bytes (d1 ++ d2)) by (by apply Forall_app).
  pose proof (word_sum_nonneg false (d1 ++ d2) H12).
  rewrite add_spec by (cbn; done || lia). cbn [InternetChecksum._sum InternetChecksum._parity
    InternetChecksum.make]. rewrite u32_id by lia. fold sum.
  set (c := InternetChecksum.mk sum _).
  assert (Hc : 0 ≤ InternetChecksum._sum c < 2 ^ 32) by (cbn; lia).
  destruct (fold_loop_spec _ Hc) as (Hb & Hm & Hz).
  split_and!; try (apply value_bound; done).
  - rewrite value_eq by done. cbn [InternetChecksum._sum c] in *. Z.div_mod_to_equations; lia.
  - rewrite value_eq by done. cbn [InternetChecksum._sum c] in *. lia.
  - by apply (value_zero_iff c).
Qed.

Lemma checksum_is_ones_complement_sum_witness :
  let sum := 5 + word_sum false ([69; 0; 0] ++ [20; 255]) in
  let v := InternetChecksum.value
             (InternetChecksum.add
                (InternetChecksum.add (InternetChecksum.make 5) [69; 0; 0]) [20; 255]) in
  0 ≤ v < 2 ^ 16 ∧ (sum + v) mod 65535 = 0 ∧ 0 < sum + v ∧
  (v = 0 ↔ sum ≠ 0 ∧ sum mod 65535 = 0).
Proof.
  apply (checksum_is_ones_complement_sum 5 [69; 0; 0] [20; 255]);
    [repeat constructor; lia|repeat constructor; lia|lia|simpl; lia].
Defined.
