(* ===== verification/tcp_segment.v ===== *)
(** * TCP headers and segments on the wire

    Models [libsponge/tcp_helpers/tcp_header.{hh,cc}] and
    [libsponge/tcp_helpers/tcp_segment.{hh,cc}]: parsing, serializing, the
    comparison of headers and the length of a segment in sequence space.
    The printing methods [to_string] and [summary] are in [printers.v]. *)

From S2P Require Import prelude wrapping_integers buffer parser internet_checksum.

Module TCPHeader.

Definition LENGTH : Z := 20.

(** The fields of [struct TCPHeader]. *)
Record t := mk {
  sport : Z;
  dport : Z;
  seqno : WrappingInt32;
  ackno : WrappingInt32;
  doff : Z;
  urg : bool;
  ack : bool;
  psh : bool;
  rst : bool;
  syn : bool;
  fin : bool;
  win : Z;
  cksum : Z;
  uptr : Z
}.

#[global] Instance eta_t : Eta t := λ h,
  mk (sport h) (dport h) (seqno h) (ackno h) (doff h) (urg h) (ack h) (psh h) (rst h) (syn h)
     (fin h) (win h) (cksum h) (uptr h).

(** The default member initializers. *)
Definition default : t :=
  mk 0 0 (mkWrappingInt32 0) (mkWrappingInt32 0) (LENGTH / 4) false false false false false false
     0 0 0.

(** [static_cast<bool>(fl_b & m)] *)
Definition flag (fl_b m : Z) : bool := negb (Z.land fl_b m =? 0).

(** Every field is assigned before the first return, so the previous contents of
    the header do not matter. *)
Definition parse (p : NetParser.t) : outcome (ParseResult * t * NetParser.t) :=
  '(sport, p) ← NetParser.u16 p;
  '(dport, p) ← NetParser.u16 p;
  '(seqno, p) ← NetParser.u32 p;
  '(ackno, p) ← NetParser.u32 p;
  '(off_b, p) ← NetParser.u8 p;
  let doff := Z.shiftr off_b 4 in
  '(fl_b, p) ← NetParser.u8 p;
  '(win, p) ← NetParser.u16 p;
  '(cksum, p) ← NetParser.u16 p;
  '(uptr, p) ← NetParser.u16 p;
  let h := mk sport dport (mkWrappingInt32 seqno) (mkWrappingInt32 ackno) doff
              (flag fl_b 32) (flag fl_b 16) (flag fl_b 8) (flag fl_b 4) (flag fl_b 2) (flag fl_b 1)
              win cksum uptr in
  if doff <? 5 then Ok (HeaderTooShort, h, p)
  else
    p ← NetParser.remove_prefix p (u64 (doff * 4 - LENGTH));
    if NetParser.error p then Ok (NetParser.get_error p, h, p) else Ok (NoError, h, p).

(** [b ? m : 0] *)
Definition bit (b : bool) (m : Z) : Z := if b then m else 0.

Definition flags (h : t) : Z :=
  Z.lor (Z.lor (Z.lor (Z.lor (Z.lor (bit (urg h) 32) (bit (ack h) 16)) (bit (psh h) 8))
    (bit (rst h) 4)) (bit (syn h) 2)) (bit (fin h) 1).

Definition serialize (h : t) : outcome bytes :=
  if doff h <? 5 then Throw runtime_error
  else
    let ret := [] in
    let ret := NetUnparser.u16 ret (sport h) in
    let ret := NetUnparser.u16 ret (dport h) in
    let ret := NetUnparser.u32 ret (raw_value (seqno h)) in
    let ret := NetUnparser.u32 ret (raw_value (ackno h)) in
    let ret := NetUnparser.u8 ret (u8 (Z.shiftl (doff h) 4)) in
    let ret := NetUnparser.u8 ret (u8 (flags h)) in
    let ret := NetUnparser.u16 ret (win h) in
    let ret := NetUnparser.u16 ret (cksum h) in
    let ret := NetUnparser.u16 ret (uptr h) in
    Ok (resize (Z.to_nat (4 * doff h)) 0 ret).

(** [operator==] leaves out the ports and the checksum. *)
Definition eqb (h other : t) : bool :=
  seq_eqb (seqno h) (seqno other) && seq_eqb (ackno h) (ackno other) && (doff h =? doff other) &&
  Bool.eqb (urg h) (urg other) && Bool.eqb (ack h) (ack other) && Bool.eqb (psh h) (psh other) &&
  Bool.eqb (rst h) (rst other) && Bool.eqb (syn h) (syn other) && Bool.eqb (fin h) (fin other) &&
  (win h =? win other) && (uptr h =? uptr other).

(** Every field holds a value of its type. *)
Definition ok (h : t) : Prop :=
  0 ≤ sport h < 2 ^ 16 ∧ 0 ≤ dport h < 2 ^ 16 ∧ seq_ok (seqno h) ∧ seq_ok (ackno h) ∧
  0 ≤ doff h < 2 ^ 8 ∧ 0 ≤ win h < 2 ^ 16 ∧ 0 ≤ cksum h < 2 ^ 16 ∧ 0 ≤ uptr h < 2 ^ 16.

(** The bytes of the header before and after the checksum field. *)
Definition before_cksum (h : t) : bytes :=
  NetUnparser.int_bytes 2 (sport h) ++ NetUnparser.int_bytes 2 (dport h) ++
  NetUnparser.int_bytes 4 (raw_value (seqno h)) ++ NetUnparser.int_bytes 4 (raw_value (ackno h)) ++
  NetUnparser.int_bytes 1 (u8 (Z.shiftl (doff h) 4)) ++ NetUnparser.int_bytes 1 (u8 (flags h)) ++
  NetUnparser.int_bytes 2 (win h).

Definition after_cksum (h : t) : bytes :=
  NetUnparser.int_bytes 2 (uptr h) ++ replicate (Z.to_nat (4 * doff h - LENGTH)) 0.

End TCPHeader.

Module TCPSegment.

(** The members of [class TCPSegment]. *)
Record t := mk {
  header : TCPHeader.t;
  payload : Buffer.t
}.

#[global] Instance eta_t : Eta t := λ s, mk (header s) (payload s).

Definition default : t := mk TCPHeader.default Buffer.default.

Definition parse (s : t) (buffer : Buffer.t) (datagram_layer_checksum : Z)
    : outcome (ParseResult * t) :=
  let check := InternetChecksum.make datagram_layer_checksum in
  let check := InternetChecksum.add check (Buffer.str buffer) in
  if negb (InternetChecksum.value check =? 0) then Ok (BadChecksum, s)
  else
    let p := NetParser.make buffer in
    '(_, h, p) ← TCPHeader.parse p;
    Ok (NetParser.get_error p, mk h (NetParser.buffer p)).

Definition length_in_sequence_space (s : t) : Z :=
  u64 (len (Buffer.str (payload s)) + b2z (TCPHeader.syn (header s)) + b2z (TCPHeader.fin (header s))).

Definition serialize (s : t) (datagram_layer_checksum : Z) : outcome BufferList.t :=
  let header_out := (header s) <| TCPHeader.cksum := 0 |> in
  let check := InternetChecksum.make datagram_layer_checksum in
  hdr ← TCPHeader.serialize header_out;
  let check := InternetChecksum.add check hdr in
  let check := InternetChecksum.add check (Buffer.str (payload s)) in
  let header_out := header_out <| TCPHeader.cksum := InternetChecksum.value check |> in
  hdr ← TCPHeader.serialize header_out;
  let ret := [] in
  let ret := BufferList.append ret (BufferList.of_string hdr) in
  Ok (BufferList.append ret (BufferList.of_buffer (payload s))).

(** A segment whose fields fit their types, with a payload that fits in an IPv4
    datagram; the header has at most the 15 words its field can describe. *)
Definition ok (s : t) : Prop :=
  TCPHeader.ok (header s) ∧ 5 ≤ TCPHeader.doff (header s) ≤ 15 ∧ Buffer.wf (payload s) ∧
  is_bytes (Buffer.str (payload s)) ∧ len (Buffer.str (payload s)) < 2 ^ 16.

End TCPSegment.

(** ** Lemmas *)

Section tcp_wire.
Import TCPHeader.

Lemma flags_roundtrip h :
  flag (u8 (flags h)) 32 = urg h ∧ flag (u8 (flags h)) 16 = ack h ∧ flag (u8 (flags h)) 8 = psh h ∧
  flag (u8 (flags h)) 4 = rst h ∧ flag (u8 (flags h)) 2 = syn h ∧ flag (u8 (flags h)) 1 = fin h.
Proof.
  unfold flags. by destruct (urg h), (ack h), (psh h), (rst h), (syn h), (fin h).
Qed.

Lemma doff_roundtrip d : 0 ≤ d < 16 → Z.shiftr (u8 (Z.shiftl d 4)) 4 = d.
Proof.
  intros ?. rewrite Z.shiftr_div_pow2, Z.shiftl_mul_pow2 by lia.
  rewrite u8_id by lia. rewrite Z.div_mul; lia.
Qed.

Lemma is_bytes_before h : is_bytes (before_cksum h).
Proof. unfold before_cksum. repeat apply Forall_app_2; apply is_bytes_int_bytes. Qed.

Lemma is_bytes_after h : is_bytes (after_cksum h).
Proof.
  apply Forall_app_2; [apply is_bytes_int_bytes|]. apply Forall_replicate. lia.
Qed.

Lemma length_before h : length (before_cksum h) = 16%nat.
Proof. done. Qed.

Lemma len_after h : 5 ≤ doff h → len (after_cksum h) = 4 * doff h - 18.
Proof.
  intros ?. unfold after_cksum, LENGTH. rewrite len_app, len_replicate by lia. unfold len.
  rewrite length_int_bytes. lia.
Qed.

(** [serialize] writes the fields in order and pads up to the data offset. *)
Lemma serialize_layout h :
  5 ≤ doff h →
  serialize h = Ok (before_cksum h ++ NetUnparser.int_bytes 2 (cksum h) ++ after_cksum h).
Proof.
  intros Hd. unfold serialize. destruct (doff h <? 5) eqn:E; [lia|]. f_equal.
  unfold NetUnparser.u16, NetUnparser.u32, NetUnparser.u8. cbn [app].
  rewrite resize_ge by (rewrite !length_app, !length_int_bytes; lia).
  unfold before_cksum, after_cksum, LENGTH. rewrite !length_app, !length_int_bytes, <- !app_assoc.
  do 10 f_equal. lia.
Qed.

Lemma header_parse_layout h p rest :
  ok h → 5 ≤ doff h ≤ 15 →
  at_input p (before_cksum h ++ NetUnparser.int_bytes 2 (cksum h) ++ after_cksum h ++ rest) →
  ∃ p', parse p = Ok (NoError, h, p') ∧ at_input p' rest.
Proof.
  intros (? & ? & ? & ? & ? & ? & ? & ?) Hd. unfold before_cksum, after_cksum.
  rewrite <- !app_assoc. intros Hp. unfold parse.
  repeat parse_field.
  destruct (flags_roundtrip h) as (-> & -> & -> & -> & -> & ->). rewrite doff_roundtrip by lia.
  destruct (doff h <? 5) eqn:E; [lia|]. unfold LENGTH in *.
  rewrite u64_id by lia.
  replace (doff h * 4 - 20) with (len (replicate (Z.to_nat (4 * doff h - 20)) 0))
    by (rewrite len_replicate; lia).
  eapply remove_prefix_step; [eassumption|]. intros p' Hp'.
  destruct (at_input_error _ _ Hp') as [-> _]. eexists. split; [|done].
  destruct h as [? ? [?] [?]]; done.
Qed.

(** The header parser reads any input: it never throws. *)
Lemma header_parse_safe e p :
  safe e p → ∃ r h p', parse p = Ok (r, h, p') ∧ safe e p'.
Proof.
  intros Hp. unfold parse. do 9 parse_any. destruct (_ <? 5) eqn:E; [by eauto|].
  focus_parse. eapply remove_prefix_safe_step; [eassumption|apply u64_bound|]. intros p' Hp'.
  destruct (NetParser.error p'); by eauto.
Qed.

Lemma header_ok_cksum h c : ok h → 0 ≤ c < 2 ^ 16 → ok (h <| cksum := c |>).
Proof. unfold ok. cbn. tauto. Qed.

Lemma word_sum_int_bytes v : 0 ≤ v < 2 ^ 16 → word_sum false (NetUnparser.int_bytes 2 v) = v.
Proof.
  intros Hv. pose proof (int_bytes_id 2 v Hv) as H. cbn [NetUnparser.int_bytes] in *.
  unfold be_value in H. cbn in H. cbn. lia.
Qed.

End tcp_wire.

Section segment_wire.
Context (s : TCPSegment.t) (ck : Z).

Let h0 := (TCPSegment.header s) <| TCPHeader.cksum := 0 |>.
Let sent_cksum : Z :=
  InternetChecksum.value (InternetChecksum.add (InternetChecksum.make ck)
    ((TCPHeader.before_cksum h0 ++ NetUnparser.int_bytes 2 0 ++ TCPHeader.after_cksum h0) ++
      Buffer.str (TCPSegment.payload s))).
Let h1 := h0 <| TCPHeader.cksum := sent_cksum |>.

(** The bytes [serialize] puts on the wire. *)
Lemma segment_layout :
  TCPSegment.ok s →
  ∃ out, TCPSegment.serialize s ck = Ok out ∧
    BufferList.concatenate out =
      (TCPHeader.before_cksum h1 ++ NetUnparser.int_bytes 2 sent_cksum ++ TCPHeader.after_cksum h1) ++
      Buffer.str (TCPSegment.payload s).
Proof.
  intros (Hok & Hd & _). unfold TCPSegment.serialize. fold h0.
  rewrite (serialize_layout h0) by (cbn; lia). cbn [mbind outcome_bind].
  rewrite <- add_app. change (TCPHeader.cksum h0) with 0. fold sent_cksum. fold h1.
  rewrite (serialize_layout h1) by (cbn; lia). cbn [mbind outcome_bind].
  eexists. split; [done|]. rewrite !concatenate_append. unfold BufferList.of_string, BufferList.of_buffer.
  cbn [BufferList.concatenate]. by rewrite !app_nil_r.
Qed.

Lemma len_header : 5 ≤ TCPHeader.doff (TCPSegment.header s) →
  len (TCPHeader.before_cksum h1) + 2 + len (TCPHeader.after_cksum h1) =
  4 * TCPHeader.doff (TCPSegment.header s).
Proof.
  intros Hd. rewrite (len_after h1) by done. unfold len at 1. rewrite length_before. cbn. lia.
Qed.

(** The sums involved fit in 32 bits. *)
Lemma segment_sum_bound v :
  TCPSegment.ok s →
  is_bytes ((TCPHeader.before_cksum h1 ++ NetUnparser.int_bytes 2 v ++ TCPHeader.after_cksum h1) ++
    Buffer.str (TCPSegment.payload s)) ∧
  word_sum false ((TCPHeader.before_cksum h1 ++ NetUnparser.int_bytes 2 v ++
    TCPHeader.after_cksum h1) ++ Buffer.str (TCPSegment.payload s)) ≤ 2 ^ 32 - 12000000.
Proof.
  intros (Hok & Hd & Hwf & Hb & Hl).
  assert (Hbs : is_bytes ((TCPHeader.before_cksum h1 ++ NetUnparser.int_bytes 2 v ++
    TCPHeader.after_cksum h1) ++ Buffer.str (TCPSegment.payload s))).
  { rewrite !is_bytes_app.
    split_and!; [apply is_bytes_before|apply is_bytes_int_bytes|apply is_bytes_after|done]. }
  split; [done|]. pose proof (word_sum_le false _ Hbs) as Hle. rewrite !len_app in Hle.
  pose proof len_header. unfold len in Hle at 2. rewrite length_int_bytes in Hle. lia.
Qed.

Lemma segment_checksum_valid :
  TCPSegment.ok s → 0 ≤ ck < 2 ^ 23 →
  InternetChecksum.value (InternetChecksum.add (InternetChecksum.make ck)
    ((TCPHeader.before_cksum h1 ++ NetUnparser.int_bytes 2 sent_cksum ++ TCPHeader.after_cksum h1) ++
      Buffer.str (TCPSegment.payload s))) = 0.
Proof.
  intros Hok Hck. pose proof (segment_sum_bound 0 Hok) as [Hb0 Hs0].
  destruct Hok as (_ & Hd & Hwf & Hb & Hl).
  rewrite <- !app_assoc in *.
  apply (field_completes ck (TCPHeader.before_cksum h1) (NetUnparser.int_bytes 2 0)
    (NetUnparser.int_bytes 2 sent_cksum)).
  - apply is_bytes_before.
  - apply is_bytes_int_bytes.
  - apply is_bytes_int_bytes.
  - apply is_bytes_app. split; [apply is_bytes_after|done].
  - by rewrite length_before.
  - apply length_int_bytes.
  - apply length_int_bytes.
  - done.
  - lia.
  - lia.
  - rewrite word_sum_int_bytes by apply u16_bound. unfold sent_cksum. by rewrite <- !app_assoc.
Qed.

Lemma segment_parse_layout s0 b :
  TCPSegment.ok s → 0 ≤ ck < 2 ^ 23 → Buffer.wf b →
  Buffer.str b =
    (TCPHeader.before_cksum h1 ++ NetUnparser.int_bytes 2 sent_cksum ++ TCPHeader.after_cksum h1) ++
    Buffer.str (TCPSegment.payload s) →
  ∃ s', TCPSegment.parse s0 b ck = Ok (NoError, s') ∧ TCPSegment.header s' = h1 ∧
    Buffer.str (TCPSegment.payload s') = Buffer.str (TCPSegment.payload s).
Proof.
  intros Hok Hck Hwf Hs. unfold TCPSegment.parse.
  rewrite Hs, segment_checksum_valid by done. cbn [negb Z.eqb].
  pose proof (segment_sum_bound sent_cksum Hok) as [Hb _].
  destruct Hok as (Hh & Hd & _).
  destruct (header_parse_layout h1 (NetParser.make b) (Buffer.str (TCPSegment.payload s)))
    as (p' & -> & Hp').
  - apply header_ok_cksum; [apply header_ok_cksum; [done|lia]|apply u16_bound].
  - done.
  - change (TCPHeader.cksum h1) with sent_cksum. rewrite <- !app_assoc in *. rewrite <- Hs. apply at_input_make; [done|]. by rewrite Hs.
  - cbn [mbind outcome_bind]. destruct (at_input_error _ _ Hp') as [_ ->].
    eexists. split; [done|]. split; [done|]. by destruct Hp' as (_ & _ & ?).
Qed.

End segment_wire.

(** What a segment serializes to parses back. *)
Lemma segment_parses_back (s s0 : TCPSegment.t) (ck : Z) :
  TCPSegment.ok s → 0 ≤ ck < 2 ^ 23 →
  ∃ out, TCPSegment.serialize s ck = Ok out ∧
  ∃ s' c, TCPSegment.parse s0 (Buffer.of_string (BufferList.concatenate out)) ck = Ok (NoError, s') ∧
    0 ≤ c < 2 ^ 16 ∧
    TCPSegment.header s' = (TCPSegment.header s) <| TCPHeader.cksum := c |> ∧
    Buffer.str (TCPSegment.payload s') = Buffer.str (TCPSegment.payload s).
Proof.
  intros Hok Hck. destruct (segment_layout s ck Hok) as (out & -> & Hout).
  exists out. split; [done|].
  destruct (segment_parse_layout s ck s0 (Buffer.of_string (BufferList.concatenate out)))
    as (s' & Hp & Hh & Hpl); try done.
  - apply wf_of_string. rewrite Hout. destruct Hok as (_ & Hd & _ & _ & Hl).
    pose proof (len_header s ck (proj1 Hd)). rewrite !len_app in *. unfold len at 2.
    rewrite length_int_bytes. lia.
  - eexists s', _. split; [done|]. rewrite Hh. split; [|done]. apply u16_bound.
Qed.

(** ** Properties *)

(** C21: what a segment serializes to parses back: for a segment whose header has
    5 to 15 words and whose payload fits in a datagram, [serialize] succeeds, and
    parsing its bytes with the same pseudo-header sum reports no error and gives
    the same header, with the checksum filled in, and the same payload. *)
Theorem tcp_segment_roundtrip (s s0 : TCPSegment.t) (ck : Z) :
  TCPSegment.ok s → 0 ≤ ck < 2 ^ 23 →
  ∃ out, TCPSegment.serialize s ck = Ok out ∧
  ∃ s' c, TCPSegment.parse s0 (Buffer.of_string (BufferList.concatenate out)) ck = Ok (NoError, s') ∧
    0 ≤ c < 2 ^ 16 ∧
    TCPSegment.header s' = (TCPSegment.header s) <| TCPHeader.cksum := c |> ∧
    Buffer.str (TCPSegment.payload s') = Buffer.str (TCPSegment.payload s).
Proof. apply segment_parses_back. Qed.

Definition example_segment : TCPSegment.t :=
  TCPSegment.mk
    (TCPHeader.mk 5000 80 (mkWrappingInt32 4294967295) (mkWrappingInt32 7) 6 false true false false
       true false 64000 9 0)
    (Buffer.of_string [104; 105; 33]).

Lemma tcp_segment_roundtrip_witness :
  ∃ out, TCPSegment.serialize example_segment 1000 = Ok out ∧
  ∃ s' c, TCPSegment.parse TCPSegment.default
            (Buffer.of_string (BufferList.concatenate out)) 1000 = Ok (NoError, s') ∧
    0 ≤ c < 2 ^ 16 ∧
    TCPSegment.header s' = (TCPSegment.header example_segment) <| TCPHeader.cksum := c |> ∧
    Buffer.str (TCPSegment.payload s') = [104; 105; 33].
Proof.
  apply (tcp_segment_roundtrip example_segment TCPSegment.default 1000); [|lia].
  unfold TCPSegment.ok, TCPHeader.ok, seq_ok, Buffer.wf, len. simpl. split_and!; try lia.
  repeat constructor; lia.
Defined.

(** C22: a corrupted byte is caught: if a received string of less than 2^16 bytes
    parses with any result but [BadChecksum], then the string with one byte
    changed is rejected with [BadChecksum] and the segment is left as it was. *)
Theorem tcp_one_byte_corruption_rejected (s0 : TCPSegment.t) (data : bytes) (ck : Z) (i : nat)
    (b b' : Z) (r : ParseResult) (s' : TCPSegment.t) :
  is_bytes data → len data < 2 ^ 16 → 0 ≤ ck < 2 ^ 23 →
  TCPSegment.parse s0 (Buffer.of_string data) ck = Ok (r, s') → r ≠ BadChecksum →
  data !! i = Some b → 0 ≤ b' < 2 ^ 8 → b' ≠ b →
  TCPSegment.parse s0 (Buffer.of_string (<[i:=b']> data)) ck = Ok (BadChecksum, s0).
Proof.
  intros Hd Hl Hck Hp Hr Hi Hb' Hne. unfold TCPSegment.parse in *. rewrite str_of_string in *.
  destruct (negb _) eqn:E in Hp; [naive_solver|]. apply negb_false_iff, Z.eqb_eq in E.
  pose proof (word_sum_le false _ Hd).
  assert (Hv := one_byte_detected ck data i b b' Hd (proj1 Hck) ltac:(lia) Hi Hb' Hne E).
  apply Z.eqb_neq in Hv. by rewrite Hv.
Qed.

Definition example_wire : bytes :=
  Eval vm_compute in
    match TCPSegment.serialize example_segment 1000 with
    | Ok out => BufferList.concatenate out
    | _ => []
    end.

Lemma tcp_one_byte_corruption_rejected_witness :
  TCPSegment.parse TCPSegment.default (Buffer.of_string (<[3%nat:=81]> example_wire)) 1000 =
  Ok (BadChecksum, TCPSegment.default).
Proof.
  eapply (tcp_one_byte_corruption_rejected TCPSegment.default example_wire 1000 3 80 81);
    [repeat constructor; lia|done|lia|vm_compute; reflexivity|done|done|lia|lia].
Defined.

(** [TCPSegment::parse] returns on every input and reports only [NoError],
    [BadChecksum] or [PacketTooShort]: the [HeaderTooShort] that
    [TCPHeader::parse] returns for a data offset below five is dropped. *)
Theorem tcp_parse_reports (s0 : TCPSegment.t) (b : Buffer.t) (ck : Z) :
  Buffer.wf b → is_bytes (Buffer.str b) →
  ∃ r s', TCPSegment.parse s0 b ck = Ok (r, s') ∧
    (r = NoError ∨ r = BadChecksum ∨ r = PacketTooShort) ∧ (r = BadChecksum → s' = s0).
Proof.
  intros Hwf Hb. unfold TCPSegment.parse. destruct (negb _); [by eauto 10|].
  destruct (header_parse_safe NoError (NetParser.make b)) as (r & h & p' & -> & Hp').
  { by apply safe_make. }
  cbn [mbind outcome_bind]. do 2 eexists. split; [done|].
  destruct Hp' as [_ He]. unfold NetParser.get_error. intuition congruence.
Qed.

Lemma tcp_parse_reports_witness :
  ∃ r s', TCPSegment.parse TCPSegment.default (Buffer.of_string [255; 255]) 0 = Ok (r, s') ∧
    (r = NoError ∨ r = BadChecksum ∨ r = PacketTooShort) ∧ (r = BadChecksum → s' = TCPSegment.default).
Proof.
  apply (tcp_parse_reports TCPSegment.default (Buffer.of_string [255; 255]) 0).
  - apply wf_of_string. unfold len. simpl. lia.
  - repeat constructor; lia.
Defined.
