(* ===== verification/ipv4.v ===== *)
(** * IPv4 headers and datagrams

    Models [libsponge/tcp_helpers/ipv4_header.{hh,cc}] and
    [libsponge/tcp_helpers/ipv4_datagram.{hh,cc}].  The printing methods
    [to_string] and [summary] are in [printers.v]. *)

From S2P Require Import prelude buffer parser internet_checksum tcp_segment.

Module IPv4Header.

Definition LENGTH : Z := 20.
Definition DEFAULT_TTL : Z := 128.
Definition PROTO_TCP : Z := 6.

(** The fields of [struct IPv4Header]; [len_] is the field [len]. *)
Record t := mk {
  ver : Z;
  hlen : Z;
  tos : Z;
  len_ : Z;
  id : Z;
  df : bool;
  mf : bool;
  offset : Z;
  ttl : Z;
  proto : Z;
  cksum : Z;
  src : Z;
  dst : Z
}.

#[global] Instance eta_t : Eta t := λ h,
  mk (ver h) (hlen h) (tos h) (len_ h) (id h) (df h) (mf h) (offset h) (ttl h) (proto h) (cksum h)
     (src h) (dst h).

(** The default member initializers. *)
Definition default : t :=
  mk 4 (LENGTH / 4) 0 0 0 true false 0 DEFAULT_TTL PROTO_TCP 0 0 0.

(** The fields are assigned one by one, all of them once there are [LENGTH]
    bytes; otherwise the header keeps its contents. *)
Definition parse (h : t) (p : NetParser.t) : outcome (ParseResult * t * NetParser.t) :=
  let original_serialized_version := NetParser.buffer p in
  let data_size := Buffer.size (NetParser.buffer p) in
  if data_size <? LENGTH then Ok (PacketTooShort, h, p)
  else
    '(first_byte, p) ← NetParser.u8 p;
    let ver := Z.shiftr first_byte 4 in
    let hlen := Z.land first_byte 15 in
    '(tos, p) ← NetParser.u8 p;
    '(len_, p) ← NetParser.u16 p;
    '(id, p) ← NetParser.u16 p;
    '(fo_val, p) ← NetParser.u16 p;
    let df := negb (Z.land fo_val 16384 =? 0) in
    let mf := negb (Z.land fo_val 8192 =? 0) in
    let offset := Z.land fo_val 8191 in
    '(ttl, p) ← NetParser.u8 p;
    '(proto, p) ← NetParser.u8 p;
    '(cksum, p) ← NetParser.u16 p;
    '(src, p) ← NetParser.u32 p;
    '(dst, p) ← NetParser.u32 p;
    let h := mk ver hlen tos len_ id df mf offset ttl proto cksum src dst in
    if data_size <? 4 * hlen then Ok (PacketTooShort, h, p)
    else if negb (ver =? 4) then Ok (WrongIPVersion, h, p)
    else if hlen <? 5 then Ok (HeaderTooShort, h, p)
    else if negb (data_size =? len_) then Ok (TruncatedPacket, h, p)
    else
      p ← NetParser.remove_prefix p (u64 (hlen * 4 - LENGTH));
      if NetParser.error p then Ok (NetParser.get_error p, h, p)
      else
        let check := InternetChecksum.make 0 in
        let check := InternetChecksum.add check
                       (take (Z.to_nat (4 * hlen)) (Buffer.str original_serialized_version)) in
        if negb (InternetChecksum.value check =? 0) then Ok (BadChecksum, h, p)
        else Ok (NoError, h, p).

Definition first_byte (h : t) : Z := u8 (Z.lor (Z.shiftl (ver h) 4) (Z.land (hlen h) 15)).

Definition fo_val (h : t) : Z :=
  u16 (Z.lor (Z.lor (if df h then 16384 else 0) (if mf h then 8192 else 0)) (Z.land (offset h) 8191)).

Definition serialize (h : t) : outcome bytes :=
  if negb (ver h =? 4) then Throw runtime_error
  else if 4 * hlen h <? LENGTH then Throw runtime_error
  else
    let ret := [] in
    let ret := NetUnparser.u8 ret (first_byte h) in
    let ret := NetUnparser.u8 ret (tos h) in
    let ret := NetUnparser.u16 ret (len_ h) in
    let ret := NetUnparser.u16 ret (id h) in
    let ret := NetUnparser.u16 ret (fo_val h) in
    let ret := NetUnparser.u8 ret (ttl h) in
    let ret := NetUnparser.u8 ret (proto h) in
    let ret := NetUnparser.u16 ret (cksum h) in
    let ret := NetUnparser.u32 ret (src h) in
    let ret := NetUnparser.u32 ret (dst h) in
    Ok (resize (Z.to_nat (4 * hlen h)) 0 ret).

Definition payload_length (h : t) : Z := u16 (len_ h - 4 * hlen h).

Definition pseudo_cksum (h : t) : Z :=
  let pcksum := u32 (Z.shiftr (src h) 16 + Z.land (src h) 65535) in
  let pcksum := u32 (pcksum + u32 (Z.shiftr (dst h) 16 + Z.land (dst h) 65535)) in
  let pcksum := u32 (pcksum + proto h) in
  u32 (pcksum + payload_length h).

(** Every field holds a value of its type; the fragment offset has 13 bits and
    the header length 4 on the wire. *)
Definition ok (h : t) : Prop :=
  ver h = 4 ∧ 5 ≤ hlen h ≤ 15 ∧ 0 ≤ tos h < 2 ^ 8 ∧ 0 ≤ len_ h < 2 ^ 16 ∧ 0 ≤ id h < 2 ^ 16 ∧
  0 ≤ offset h < 2 ^ 13 ∧ 0 ≤ ttl h < 2 ^ 8 ∧ 0 ≤ proto h < 2 ^ 8 ∧ 0 ≤ cksum h < 2 ^ 16 ∧
  0 ≤ src h < 2 ^ 32 ∧ 0 ≤ dst h < 2 ^ 32.

(** The bytes of the header before and after the checksum field. *)
Definition before_cksum (h : t) : bytes :=
  NetUnparser.int_bytes 1 (first_byte h) ++ NetUnparser.int_bytes 1 (tos h) ++
  NetUnparser.int_bytes 2 (len_ h) ++ NetUnparser.int_bytes 2 (id h) ++
  NetUnparser.int_bytes 2 (fo_val h) ++ NetUnparser.int_bytes 1 (ttl h) ++
  NetUnparser.int_bytes 1 (proto h).

Definition after_cksum (h : t) : bytes :=
  NetUnparser.int_bytes 4 (src h) ++ NetUnparser.int_bytes 4 (dst h) ++
  replicate (Z.to_nat (4 * hlen h - LENGTH)) 0.

End IPv4Header.

Module IPv4Datagram.

(** The members of [class IPv4Datagram]. *)
Record t := mk {
  header : IPv4Header.t;
  payload : BufferList.t
}.

#[global] Instance eta_t : Eta t := λ d, mk (header d) (payload d).

Definition default : t := mk IPv4Header.default [].

Definition parse (d : t) (buffer : Buffer.t) : outcome (ParseResult * t) :=
  let p := NetParser.make buffer in
  '(_, h, p) ← IPv4Header.parse (header d) p;
  let d := mk h (BufferList.of_buffer (NetParser.buffer p)) in
  if negb (BufferList.size (payload d) =? IPv4Header.payload_length h) then Ok (PacketTooShort, d)
  else Ok (NetParser.get_error p, d).

Definition serialize (d : t) : outcome BufferList.t :=
  if negb (BufferList.size (payload d) =? IPv4Header.payload_length (header d))
  then Throw runtime_error
  else
    let header_out := (header d) <| IPv4Header.cksum := 0 |> in
    header_zero_checksum ← IPv4Header.serialize header_out;
    let check := InternetChecksum.make 0 in
    let check := InternetChecksum.add check header_zero_checksum in
    let header_out := header_out <| IPv4Header.cksum := InternetChecksum.value check |> in
    hdr ← IPv4Header.serialize header_out;
    let ret := [] in
    let ret := BufferList.append ret (BufferList.of_string hdr) in
    Ok (BufferList.append ret (payload d)).

(** A datagram whose header describes its payload. *)
Definition ok (d : t) : Prop :=
  IPv4Header.ok (header d) ∧ Forall Buffer.wf (payload d) ∧
  is_bytes (BufferList.concatenate (payload d)) ∧
  IPv4Header.len_ (header d) =
    4 * IPv4Header.hlen (header d) + len (BufferList.concatenate (payload d)).

End IPv4Datagram.

(** ** Lemmas *)

Section ipv4_wire.
Import IPv4Header.

Lemma first_byte_roundtrip h :
  ver h = 4 → 5 ≤ hlen h ≤ 15 →
  Z.shiftr (first_byte h) 4 = 4 ∧ Z.land (first_byte h) 15 = hlen h.
Proof.
  intros Hv Hh. unfold first_byte. rewrite Hv.
  assert (Hc : Forall (λ x,
    Z.shiftr (u8 (Z.lor (Z.shiftl 4 4) (Z.land x 15))) 4 = 4 ∧
    Z.land (u8 (Z.lor (Z.shiftl 4 4) (Z.land x 15))) 15 = x) (seqZ 5 11)) by (repeat constructor).
  rewrite Forall_forall in Hc. apply Hc, elem_of_seqZ. lia.
Qed.

(** The low 13 bits and the two flags do not overlap. *)
Lemma fo_val_eq h :
  0 ≤ offset h < 2 ^ 13 →
  fo_val h = (2 * b2z (df h) + b2z (mf h)) * 2 ^ 13 + offset h.
Proof.
  intros Ho. unfold fo_val. change 8191 with (Z.ones 13).
  rewrite Z.land_ones, Z.mod_small by lia.
  replace (Z.lor (if df h then 16384 else 0) (if mf h then 8192 else 0))
    with (Z.shiftl (2 * b2z (df h) + b2z (mf h)) 13) by (by destruct (df h), (mf h)).
  rewrite Z.lor_comm.
  set (k := 2 * b2z (df h) + b2z (mf h)).
  assert (0 ≤ k ≤ 3) by (unfold k; destruct (df h), (mf h); cbn; lia). clearbody k.
  assert (Hl : Z.lor (offset h) (Z.shiftl k 13) = offset h + Z.shiftl k 13).
  { rewrite <- Z.lxor_lor, <- Z.add_nocarry_lxor; [done|..]; apply Z.bits_inj'; intros i Hi;
      rewrite Z.land_spec, Z.bits_0; destruct (Z.lt_ge_cases i 13).
    1,3: rewrite (Z.shiftl_spec_low k 13 i) by lia; apply andb_false_r.
    all: rewrite <- (Z.mod_small (offset h) (2 ^ 13)) by lia;
      rewrite Z.mod_pow2_bits_high by lia; done. }
  rewrite Hl, Z.shiftl_mul_pow2 by lia. rewrite u16_id; lia.
Qed.

Lemma fo_val_roundtrip h :
  0 ≤ offset h < 2 ^ 13 →
  negb (Z.land (fo_val h) 16384 =? 0) = df h ∧ negb (Z.land (fo_val h) 8192 =? 0) = mf h ∧
  Z.land (fo_val h) 8191 = offset h.
Proof.
  intros Ho. rewrite fo_val_eq by done.
  assert (Hbit : ∀ x n, 0 ≤ n → negb (Z.land x (2 ^ n) =? 0) = Z.testbit x n).
  { intros x n Hn. rewrite Z.testbit_eqb by done.
    destruct (Z.land x (2 ^ n) =? 0) eqn:E.
    - apply Z.eqb_eq in E. assert (Ht : Z.testbit (Z.land x (2 ^ n)) n = false) by (by rewrite E, Z.bits_0).
      rewrite Z.land_spec, Z.pow2_bits_true, andb_true_r in Ht by done.
      rewrite Z.testbit_eqb in Ht by done. by rewrite Ht.
    - apply Z.eqb_neq in E. rewrite <- Z.testbit_eqb by done. symmetry. apply not_false_is_true. intros Ht.
      apply E. apply Z.bits_inj'. intros i Hi. rewrite Z.land_spec, Z.bits_0.
      destruct (decide (i = n)) as [->|]; [by rewrite Ht|].
      by rewrite Z.pow2_bits_false, andb_false_r by lia. }
  change 16384 with (2 ^ 14). change 8192 with (2 ^ 13). change 8191 with (Z.ones 13).
  rewrite !Hbit, Z.land_ones by lia. rewrite !Z.testbit_eqb by lia.
  destruct (df h), (mf h); cbn [b2z]; split_and!;
    try (apply Z.eqb_eq || apply Z.eqb_neq); Z.div_mod_to_equations; lia.
Qed.

Lemma is_bytes_before_cksum h : is_bytes (before_cksum h).
Proof. unfold before_cksum. rewrite !is_bytes_app. split_and!; apply is_bytes_int_bytes. Qed.

Lemma is_bytes_after_cksum h : is_bytes (after_cksum h).
Proof.
  unfold after_cksum. rewrite !is_bytes_app. split_and!; try apply is_bytes_int_bytes.
  apply Forall_replicate. lia.
Qed.

Lemma length_before_cksum h : length (before_cksum h) = 10%nat.
Proof. done. Qed.

Lemma len_after_cksum h : 5 ≤ hlen h → len (after_cksum h) = 4 * hlen h - 12.
Proof.
  intros ?. unfold after_cksum, LENGTH. rewrite !len_app, len_replicate by lia. unfold len.
  rewrite !length_int_bytes. lia.
Qed.

Definition wire (h : t) : bytes :=
  before_cksum h ++ NetUnparser.int_bytes 2 (cksum h) ++ after_cksum h.

Lemma len_wire h : 5 ≤ hlen h → len (wire h) = 4 * hlen h.
Proof.
  intros ?. unfold wire. rewrite !len_app, len_after_cksum by done. unfold len.
  rewrite length_before_cksum, length_int_bytes. lia.
Qed.

Lemma is_bytes_wire h : is_bytes (wire h).
Proof.
  unfold wire. rewrite !is_bytes_app. split_and!;
    [apply is_bytes_before_cksum|apply is_bytes_int_bytes|apply is_bytes_after_cksum].
Qed.

Lemma ipv4_serialize_layout h : ver h = 4 → 5 ≤ hlen h → serialize h = Ok (wire h).
Proof.
  intros Hv Hd. unfold serialize. rewrite Hv. cbn [Z.eqb negb].
  destruct (4 * hlen h <? LENGTH) eqn:E; [unfold LENGTH in E; lia|]. f_equal.
  unfold NetUnparser.u16, NetUnparser.u32, NetUnparser.u8. cbn [app].
  rewrite resize_ge by (rewrite !length_app, !length_int_bytes; lia).
  unfold wire, before_cksum, after_cksum, LENGTH. rewrite !length_app, !length_int_bytes, <- !app_assoc.
  do 11 f_equal. lia.
Qed.

(** What parsing a well-formed header does; its checksum decides the result. *)
Lemma ipv4_header_parse_wire h h0 p rest :
  ok h → at_input p (wire h ++ rest) → len_ h = 4 * hlen h + len rest →
  ∃ p', parse h0 p =
    Ok (if InternetChecksum.value (InternetChecksum.add (InternetChecksum.make 0) (wire h)) =? 0
        then NoError else BadChecksum, h, p') ∧ at_input p' rest.
Proof.
  intros (Hv & Hh & ? & ? & ? & ? & ? & ? & ? & ? & ?) Hp Hl. unfold parse, Buffer.size, NetParser.buffer.
  assert (Hs : Buffer.str (NetParser._buffer p) = wire h ++ rest) by (by destruct Hp as (_ & _ & ?)).
  assert (Hsize : len (wire h ++ rest) = len_ h) by (rewrite len_app, len_wire; lia).
  assert (Htake : take (Z.to_nat (4 * hlen h)) (wire h ++ rest) = wire h).
  { apply take_app_length'. pose proof (len_wire h). unfold len in *. lia. }
  pose proof (len_nonneg rest). rewrite Hs, Hsize.
  remember (wire h ++ rest) as data eqn:Hwire.
  destruct (len_ h <? LENGTH) eqn:E; [unfold LENGTH in E; lia|]. clear E.
  rewrite Hwire in Hp. unfold wire, before_cksum, after_cksum in Hp. rewrite <- !app_assoc in Hp.
  do 10 parse_field.
  destruct (first_byte_roundtrip h Hv Hh) as [-> ->].
  destruct (fo_val_roundtrip h) as (-> & -> & ->); [done|]. rewrite Htake.
  destruct (len_ h <? 4 * hlen h) eqn:E1; [lia|]. cbn [Z.eqb negb].
  destruct (hlen h <? 5) eqn:E2; [lia|]. rewrite Z.eqb_refl. cbn [negb]. unfold LENGTH in *.
  rewrite u64_id by lia.
  replace (hlen h * 4 - 20) with (len (replicate (Z.to_nat (4 * hlen h - 20)) 0))
    by (rewrite len_replicate; lia).
  focus_parse. eapply remove_prefix_step; [eassumption|]. intros p' Hp'.
  destruct (at_input_error _ _ Hp') as [-> _].
  replace (mk _ _ _ _ _ _ _ _ _ _ _ _ _) with h by (by destruct h; simpl in *; subst).
  destruct (_ =? 0); eexists; done.
Qed.

(** Short input leaves the header alone; any other input is read to the end. *)
Lemma ipv4_header_parse_safe h0 p :
  safe NoError p → ∃ r h p', parse h0 p = Ok (r, h, p') ∧ safe NoError p'.
Proof.
  intros Hp. unfold parse. destruct (_ <? LENGTH); [by eauto|]. do 10 parse_any.
  destruct (_ <? _); [by eauto|]. destruct (negb _); [by eauto|]. destruct (_ <? 5); [by eauto|].
  destruct (negb _); [by eauto|].
  focus_parse. eapply remove_prefix_safe_step; [eassumption|apply u64_bound|]. intros p' Hp'.
  destruct (NetParser.error p'); [by eauto|]. destruct (negb _); by eauto.
Qed.

Lemma pseudo_cksum_bound h : ok h → 0 ≤ pseudo_cksum h < 2 ^ 23.
Proof.
  intros (_ & _ & _ & _ & _ & _ & _ & Hp & _ & Hs & Hd). unfold pseudo_cksum.
  pose proof (u16_bound (len_ h - 4 * hlen h)) as Hl. fold (payload_length h) in Hl.
  change 65535 with (Z.ones 16). rewrite !Z.land_ones, !Z.shiftr_div_pow2 by lia.
  unfold u32. Z.div_mod_to_equations. lia.
Qed.

End ipv4_wire.

Section datagram_wire.
Context (d : IPv4Datagram.t).

Lemma payload_length_ok :
  IPv4Datagram.ok d →
  BufferList.size (IPv4Datagram.payload d) = IPv4Header.payload_length (IPv4Datagram.header d) ∧
  len (BufferList.concatenate (IPv4Datagram.payload d)) < 2 ^ 16.
Proof.
  intros ((_ & ? & _ & ? & _) & _ & _ & Hl). pose proof (len_nonneg (BufferList.concatenate (IPv4Datagram.payload d))).
  rewrite bufferlist_size_concatenate by lia. unfold IPv4Header.payload_length. rewrite u16_id; lia.
Qed.

(** Parsing a header and a payload of the length it announces. *)
Lemma datagram_parse_wire h d0 b data :
  IPv4Header.ok h → IPv4Header.len_ h = 4 * IPv4Header.hlen h + len data →
  Buffer.wf b → is_bytes data → Buffer.str b = wire h ++ data →
  ∃ d', IPv4Datagram.parse d0 b = Ok (NoError, d') ∧ IPv4Datagram.header d' = h ∧
    BufferList.concatenate (IPv4Datagram.payload d') = data ∧
    ∃ b', IPv4Datagram.payload d' = [b'] ∧ Buffer.wf b' ∧ Buffer.str b' = data.
Proof.
  intros Hok Hl Hwf Hb Hs. unfold IPv4Datagram.parse.
  destruct (ipv4_header_parse_wire h (IPv4Datagram.header d0) (NetParser.make b) data)
    as (p' & -> & Hp'); [done| |done|].
  { rewrite <- Hs. apply at_input_make; [done|]. rewrite Hs. apply is_bytes_app. split; [apply is_bytes_wire|done]. }
  cbn [mbind outcome_bind]. destruct (at_input_error _ _ Hp') as [_ ->].
  destruct Hp' as ((Hwf' & _) & _ & Ht). unfold todo in Ht.
  assert (Hc : BufferList.concatenate (BufferList.of_buffer (NetParser.buffer p')) = data).
  { cbn. by rewrite app_nil_r. }
  destruct Hok as (_ & ? & _ & ? & _). pose proof (len_nonneg data).
  cbn [IPv4Datagram.payload]. rewrite bufferlist_size_concatenate by (rewrite Hc; lia).
  rewrite Hc. unfold IPv4Header.payload_length. rewrite u16_id by lia.
  destruct (negb _) eqn:E; [lia|]. eexists. split_and!; [done..|]. by eexists.
Qed.

Let h0 := (IPv4Datagram.header d) <| IPv4Header.cksum := 0 |>.
Let sent_cksum : Z :=
  InternetChecksum.value (InternetChecksum.add (InternetChecksum.make 0) (wire h0)).
(** The header [serialize] puts on the wire. *)
Definition sent_header : IPv4Header.t := h0 <| IPv4Header.cksum := sent_cksum |>.

Lemma sent_header_ok : IPv4Datagram.ok d → IPv4Header.ok sent_header.
Proof.
  intros (Hok & _). pose proof (u16_bound (Z.lnot (InternetChecksum.fold_loop 2
    (InternetChecksum._sum (InternetChecksum.add (InternetChecksum.make 0) (wire h0)))))) as Hb.
  fold (InternetChecksum.value (InternetChecksum.add (InternetChecksum.make 0) (wire h0))) in Hb.
  fold sent_cksum in Hb. unfold IPv4Header.ok in *. cbn. tauto.
Qed.

Lemma datagram_layout :
  IPv4Datagram.ok d →
  ∃ out, IPv4Datagram.serialize d = Ok out ∧
    BufferList.concatenate out = wire sent_header ++ BufferList.concatenate (IPv4Datagram.payload d).
Proof.
  intros Hok. unfold IPv4Datagram.serialize. destruct (payload_length_ok Hok) as [-> _].
  rewrite Z.eqb_refl. cbn [negb]. fold h0. destruct Hok as ((Hv & Hh & _) & _).
  rewrite (ipv4_serialize_layout h0) by (cbn; lia). cbn [mbind outcome_bind]. fold sent_cksum. fold sent_header.
  rewrite (ipv4_serialize_layout sent_header) by (cbn; lia). cbn [mbind outcome_bind].
  eexists. split; [done|]. rewrite !concatenate_append. unfold BufferList.of_string.
  cbn [BufferList.concatenate]. by rewrite !app_nil_r.
Qed.

(** The checksum [serialize] writes is the one [IPv4Header::parse] accepts. *)
Lemma sent_cksum_valid :
  IPv4Datagram.ok d →
  InternetChecksum.value (InternetChecksum.add (InternetChecksum.make 0) (wire sent_header)) = 0.
Proof.
  intros (Hok & _). destruct Hok as (_ & Hh & _).
  assert (Hs : word_sum false (wire h0) ≤ (2 ^ 16 - 2 ^ 8) * 60).
  { pose proof (word_sum_le false _ (is_bytes_wire h0)). rewrite len_wire in * by (cbn; lia).
    change (IPv4Header.hlen h0) with (IPv4Header.hlen (IPv4Datagram.header d)) in *. lia. }
  apply (field_completes 0 (IPv4Header.before_cksum sent_header) (NetUnparser.int_bytes 2 0)
    (NetUnparser.int_bytes 2 sent_cksum)).
  - apply is_bytes_before_cksum.
  - apply is_bytes_int_bytes.
  - apply is_bytes_int_bytes.
  - apply is_bytes_after_cksum.
  - by rewrite length_before_cksum.
  - apply length_int_bytes.
  - apply length_int_bytes.
  - done.
  - lia.
  - change (0 + word_sum false (wire h0) + 65535 < 2 ^ 32). lia.
  - by rewrite word_sum_int_bytes by apply u16_bound.
Qed.

End datagram_wire.

(** ** Properties *)

(** C25: what a datagram serializes to parses back: for a datagram whose header
    announces its payload, [serialize] succeeds with a header whose checksum is
    valid, and parsing its bytes gives the same header, with that checksum, and
    the same payload. *)
Theorem ipv4_datagram_roundtrip (d d0 : IPv4Datagram.t) :
  IPv4Datagram.ok d →
  ∃ out, IPv4Datagram.serialize d = Ok out ∧
  ∃ d' c, IPv4Datagram.parse d0 (Buffer.of_string (BufferList.concatenate out)) = Ok (NoError, d') ∧
    IPv4Datagram.header d' = (IPv4Datagram.header d) <| IPv4Header.cksum := c |> ∧
    BufferList.concatenate (IPv4Datagram.payload d') = BufferList.concatenate (IPv4Datagram.payload d) ∧
    ∃ p', IPv4Header.parse IPv4Header.default
            (NetParser.make (Buffer.of_string (BufferList.concatenate out))) =
          Ok (NoError, IPv4Datagram.header d', p').
Proof.
  intros Hok. destruct (datagram_layout d Hok) as (out & -> & Hout). exists out. split; [done|].
  pose proof (sent_header_ok d Hok) as Hh1. destruct (payload_length_ok d Hok) as [_ Hplen].
  pose proof Hok as ((_ & Hh & _) & _ & Hb & Hl).
  assert (Hwf : Buffer.wf (Buffer.of_string (BufferList.concatenate out))).
  { apply wf_of_string. rewrite Hout, len_app, len_wire by (cbn; lia).
    change (IPv4Header.hlen (sent_header d)) with (IPv4Header.hlen (IPv4Datagram.header d)). lia. }
  destruct (datagram_parse_wire (sent_header d) d0 _ (BufferList.concatenate (IPv4Datagram.payload d)) Hh1 Hl Hwf Hb)
    as (d' & Hp & Hh' & Hpl & _); [by rewrite str_of_string|].
  eexists d', _. split; [done|]. rewrite Hh'. split; [done|]. split; [done|].
  destruct (ipv4_header_parse_wire (sent_header d) IPv4Header.default
    (NetParser.make (Buffer.of_string (BufferList.concatenate out)))
    (BufferList.concatenate (IPv4Datagram.payload d))) as (p' & -> & _); [done| |done|].
  { rewrite <- Hout. apply at_input_make; [done|]. rewrite str_of_string, Hout. apply is_bytes_app.
    split; [apply is_bytes_wire|done]. }
  rewrite (sent_cksum_valid d Hok). by exists p'.
Qed.

Definition example_datagram : IPv4Datagram.t :=
  IPv4Datagram.mk (IPv4Header.mk 4 5 0 24 77 true false 300 64 6 0 167772161 3232235777)
    [Buffer.of_string [1; 2; 3]; Buffer.of_string [4]].

Lemma ipv4_datagram_roundtrip_witness :
  ∃ out, IPv4Datagram.serialize example_datagram = Ok out ∧
  ∃ d' c, IPv4Datagram.parse IPv4Datagram.default
            (Buffer.of_string (BufferList.concatenate out)) = Ok (NoError, d') ∧
    IPv4Datagram.header d' = (IPv4Datagram.header example_datagram) <| IPv4Header.cksum := c |> ∧
    BufferList.concatenate (IPv4Datagram.payload d') = [1; 2; 3; 4] ∧
    ∃ p', IPv4Header.parse IPv4Header.default
            (NetParser.make (Buffer.of_string (BufferList.concatenate out))) =
          Ok (NoError, IPv4Datagram.header d', p').
Proof.
  apply (ipv4_datagram_roundtrip example_datagram IPv4Datagram.default).
  split; [unfold IPv4Header.ok; simpl; lia|]. split; [|split; [repeat constructor; lia|done]].
  apply Forall_cons_2; [|apply Forall_cons_2; [|done]]; apply wf_of_string; unfold len; simpl; lia.
Defined.

(** The header checksum is not enforced: [IPv4Datagram::parse] drops the
    result of [IPv4Header::parse], so a datagram whose header is well formed is
    accepted with [NoError] whatever its checksum field holds, although
    [IPv4Header::parse] answers [BadChecksum] unless the checksum is valid. *)
Theorem ipv4_checksum_not_enforced (h : IPv4Header.t) (data : bytes) (d0 : IPv4Datagram.t) :
  IPv4Header.ok h → is_bytes data → IPv4Header.len_ h = 4 * IPv4Header.hlen h + len data →
  ∃ hdr d' p', IPv4Header.serialize h = Ok hdr ∧
    IPv4Header.parse (IPv4Datagram.header d0) (NetParser.make (Buffer.of_string (hdr ++ data))) =
      Ok (if InternetChecksum.value (InternetChecksum.add (InternetChecksum.make 0) hdr) =? 0
          then NoError else BadChecksum, h, p') ∧
    IPv4Datagram.parse d0 (Buffer.of_string (hdr ++ data)) = Ok (NoError, d') ∧
    IPv4Datagram.header d' = h ∧ BufferList.concatenate (IPv4Datagram.payload d') = data.
Proof.
  intros Hok Hb Hl. pose proof Hok as (Hv & Hh & _ & Hlen & _).
  assert (Hwf : Buffer.wf (Buffer.of_string (wire h ++ data))).
  { apply wf_of_string. rewrite len_app, len_wire by lia. lia. }
  destruct (datagram_parse_wire h d0 _ data Hok Hl Hwf Hb) as (d' & Hp & Hd & Hpl & _); [done|].
  destruct (ipv4_header_parse_wire h (IPv4Datagram.header d0)
    (NetParser.make (Buffer.of_string (wire h ++ data))) data) as (p' & Hh' & _); [done| |done|].
  { apply at_input_make; [done|]. apply is_bytes_app. split; [apply is_bytes_wire|done]. }
  exists (wire h), d', p'. rewrite ipv4_serialize_layout by lia. done.
Qed.

Lemma ipv4_checksum_not_enforced_witness :
  ∃ hdr d' p', IPv4Header.serialize (IPv4Datagram.header example_datagram) = Ok hdr ∧
    IPv4Header.parse IPv4Header.default (NetParser.make (Buffer.of_string (hdr ++ [1; 2; 3; 4]))) =
      Ok (if InternetChecksum.value (InternetChecksum.add (InternetChecksum.make 0) hdr) =? 0
          then NoError else BadChecksum, IPv4Datagram.header example_datagram, p') ∧
    IPv4Datagram.parse IPv4Datagram.default (Buffer.of_string (hdr ++ [1; 2; 3; 4])) = Ok (NoError, d') ∧
    IPv4Datagram.header d' = IPv4Datagram.header example_datagram ∧
    BufferList.concatenate (IPv4Datagram.payload d') = [1; 2; 3; 4].
Proof.
  apply (ipv4_checksum_not_enforced (IPv4Datagram.header example_datagram) [1; 2; 3; 4] IPv4Datagram.default).
  - unfold IPv4Header.ok. simpl. lia.
  - repeat constructor; lia.
  - done.
Defined.
