(* ===== verification/ethernet.v ===== *)
(** * Ethernet frames and ARP messages

    Models [libsponge/tcp_helpers/ethernet_header.{hh,cc}],
    [libsponge/tcp_helpers/ethernet_frame.{hh,cc}] and
    [libsponge/tcp_helpers/arp_message.{hh,cc}].  The [to_string] methods are in
    [printers.v]. *)

From S2P Require Import prelude buffer parser ipv4.

(** [std::array<uint8_t, 6>] *)
Abbreviation EthernetAddress := (list Z).

Definition ETHERNET_BROADCAST : EthernetAddress := [255; 255; 255; 255; 255; 255].

(** An array of six bytes. *)
Definition addr_ok (a : EthernetAddress) : Prop := length a = 6%nat ∧ is_bytes a.

(** [for (auto &byte : address) byte = p.u8();] over [n] elements. *)
Fixpoint parse_address (n : nat) (p : NetParser.t) : outcome (EthernetAddress * NetParser.t) :=
  match n with
  | O => Ok ([], p)
  | S n =>
    '(byte, p) ← NetParser.u8 p;
    '(rest, p) ← parse_address n p;
    Ok (byte :: rest, p)
  end.

(** [for (auto &byte : address) NetUnparser::u8(ret, byte);] *)
Definition unparse_address (ret : bytes) (a : EthernetAddress) : bytes := foldl NetUnparser.u8 ret a.

Module EthernetHeader.

Definition LENGTH : Z := 14.
Definition TYPE_IPv4 : Z := 2048.
Definition TYPE_ARP : Z := 2054.

(** The fields of [struct EthernetHeader]. *)
Record t := mk {
  dst : EthernetAddress;
  src : EthernetAddress;
  type : Z
}.

#[global] Instance eta_t : Eta t := λ h, mk (dst h) (src h) (type h).

(** [EthernetHeader{}] is zero-initialized. *)
Definition default : t := mk (replicate 6 0) (replicate 6 0) 0.

Definition parse (h : t) (p : NetParser.t) : outcome (ParseResult * t * NetParser.t) :=
  if Buffer.size (NetParser.buffer p) <? LENGTH then Ok (PacketTooShort, h, p)
  else
    '(dst, p) ← parse_address 6 p;
    '(src, p) ← parse_address 6 p;
    '(type, p) ← NetParser.u16 p;
    Ok (NetParser.get_error p, mk dst src type, p).

Definition serialize (h : t) : bytes :=
  let ret := [] in
  let ret := unparse_address ret (dst h) in
  let ret := unparse_address ret (src h) in
  NetUnparser.u16 ret (type h).

Definition ok (h : t) : Prop := addr_ok (dst h) ∧ addr_ok (src h) ∧ 0 ≤ type h < 2 ^ 16.

End EthernetHeader.

Module EthernetFrame.

(** The members of [class EthernetFrame]. *)
Record t := mk {
  header : EthernetHeader.t;
  payload : BufferList.t
}.

#[global] Instance eta_t : Eta t := λ f, mk (header f) (payload f).

Definition default : t := mk EthernetHeader.default [].

Definition parse (f : t) (buffer : Buffer.t) : outcome (ParseResult * t) :=
  let p := NetParser.make buffer in
  '(_, h, p) ← EthernetHeader.parse (header f) p;
  Ok (NetParser.get_error p, mk h (BufferList.of_buffer (NetParser.buffer p))).

Definition serialize (f : t) : BufferList.t :=
  let ret := [] in
  let ret := BufferList.append ret (BufferList.of_string (EthernetHeader.serialize (header f))) in
  BufferList.append ret (payload f).

Definition ok (f : t) : Prop :=
  EthernetHeader.ok (header f) ∧ is_bytes (BufferList.concatenate (payload f)) ∧
  len (BufferList.concatenate (payload f)) < 2 ^ 32.

End EthernetFrame.

Module ARPMessage.

Definition LENGTH : Z := 28.
Definition TYPE_ETHERNET : Z := 1.
Definition OPCODE_REQUEST : Z := 1.
Definition OPCODE_REPLY : Z := 2.

(** The fields of [struct ARPMessage]. *)
Record t := mk {
  hardware_type : Z;
  protocol_type : Z;
  hardware_address_size : Z;
  protocol_address_size : Z;
  opcode : Z;
  sender_ethernet_address : EthernetAddress;
  sender_ip_address : Z;
  target_ethernet_address : EthernetAddress;
  target_ip_address : Z
}.

#[global] Instance eta_t : Eta t := λ m,
  mk (hardware_type m) (protocol_type m) (hardware_address_size m) (protocol_address_size m)
     (opcode m) (sender_ethernet_address m) (sender_ip_address m) (target_ethernet_address m)
     (target_ip_address m).

(** The default member initializers; [sizeof(EthernetHeader::src)] is 6 and
    [sizeof(IPv4Header::src)] is 4. *)
Definition default : t :=
  mk TYPE_ETHERNET EthernetHeader.TYPE_IPv4 6 4 0 (replicate 6 0) 0 (replicate 6 0) 0.

Definition supported (m : t) : bool :=
  (hardware_type m =? TYPE_ETHERNET) && (protocol_type m =? EthernetHeader.TYPE_IPv4) &&
  (hardware_address_size m =? 6) && (protocol_address_size m =? 4) &&
  ((opcode m =? OPCODE_REQUEST) || (opcode m =? OPCODE_REPLY)).

Definition parse (m : t) (buffer : Buffer.t) : outcome (ParseResult * t) :=
  let p := NetParser.make buffer in
  if Buffer.size (NetParser.buffer p) <? LENGTH then Ok (PacketTooShort, m)
  else
    '(hw, p) ← NetParser.u16 p;
    '(pr, p) ← NetParser.u16 p;
    '(hws, p) ← NetParser.u8 p;
    '(prs, p) ← NetParser.u8 p;
    '(op, p) ← NetParser.u16 p;
    let m := m <| hardware_type := hw |> <| protocol_type := pr |> <| hardware_address_size := hws |>
               <| protocol_address_size := prs |> <| opcode := op |> in
    if negb (supported m) then Ok (Unsupported, m)
    else
      '(sea, p) ← parse_address 6 p;
      '(sip, p) ← NetParser.u32 p;
      '(tea, p) ← parse_address 6 p;
      '(tip, p) ← NetParser.u32 p;
      Ok (NetParser.get_error p,
          m <| sender_ethernet_address := sea |> <| sender_ip_address := sip |>
            <| target_ethernet_address := tea |> <| target_ip_address := tip |>).

Definition serialize (m : t) : outcome bytes :=
  if negb (supported m) then Throw runtime_error
  else
    let ret := [] in
    let ret := NetUnparser.u16 ret (hardware_type m) in
    let ret := NetUnparser.u16 ret (protocol_type m) in
    let ret := NetUnparser.u8 ret (hardware_address_size m) in
    let ret := NetUnparser.u8 ret (protocol_address_size m) in
    let ret := NetUnparser.u16 ret (opcode m) in
    let ret := unparse_address ret (sender_ethernet_address m) in
    let ret := NetUnparser.u32 ret (sender_ip_address m) in
    let ret := unparse_address ret (target_ethernet_address m) in
    Ok (NetUnparser.u32 ret (target_ip_address m)).

Definition ok (m : t) : Prop :=
  supported m = true ∧ addr_ok (sender_ethernet_address m) ∧ 0 ≤ sender_ip_address m < 2 ^ 32 ∧
  addr_ok (target_ethernet_address m) ∧ 0 ≤ target_ip_address m < 2 ^ 32.

End ARPMessage.

(** ** Lemmas *)

Lemma unparse_address_eq a ret : is_bytes a → unparse_address ret a = ret ++ a.
Proof.
  unfold is_bytes, unparse_address. intros H. revert ret.
  induction H as [|b a Hb _ IH]; intros ret; cbn [foldl]; [by rewrite app_nil_r|].
  rewrite IH. unfold NetUnparser.u8. cbn [NetUnparser.int_bytes]. rewrite int_bytes_head.
  change (8 * Z.of_nat 0) with 0. rewrite Z.pow_0_r, Z.div_1_r, Z.mod_small by done.
  by rewrite <- app_assoc.
Qed.

Lemma parse_address_app n p a rest :
  at_input p (a ++ rest) → length a = n →
  ∃ p', parse_address n p = Ok (a, p') ∧ at_input p' rest.
Proof.
  intros Hp <-. revert p Hp. induction a as [|b a IH]; intros p Hp; [by exists p|].
  cbn [parse_address length]. assert (Hb : 0 ≤ b < 2 ^ 8).
  { destruct Hp as (_ & Hb & _). by apply (Forall_inv Hb). }
  focus_parse. apply (parse_step _ 1 p b (a ++ rest)); [|done|].
  { cbn [NetUnparser.int_bytes]. rewrite int_bytes_head.
    change (8 * Z.of_nat 0) with 0. by rewrite Z.pow_0_r, Z.div_1_r, Z.mod_small. }
  intros p1 Hp1. cbv beta iota. destruct (IH p1 Hp1) as (p2 & -> & Hp2). by exists p2.
Qed.

Lemma parse_address_safe e n p :
  safe e p → ∃ a p', parse_address n p = Ok (a, p') ∧ safe e p' ∧ length a = n ∧ is_bytes a.
Proof.
  revert p. induction n as [|n IH]; intros p Hp.
  { exists [], p. split_and!; try done. apply Forall_nil_2. }
  cbn [parse_address]. parse_any. destruct (IH _ Hp0) as (a & p' & -> & Hp' & <- & Ha).
  cbn [mbind outcome_bind]. exists (v :: a), p'. split_and!; try done. by apply Forall_cons_2.
Qed.

(** One step of a parser that reads an address. *)
Lemma parse_address_step {A} (Q : outcome A → Prop) n p a rest (k : bytes * NetParser.t → outcome A) :
  at_input p (a ++ rest) → length a = n →
  (∀ p', at_input p' rest → Q (k (a, p'))) → Q (parse_address n p ≫= k).
Proof. intros Hp Hn Hk. destruct (parse_address_app n p a rest Hp Hn) as (p' & -> & ?). by apply Hk. Qed.

Ltac address_field :=
  match goal with
  | |- context [mbind ?k (parse_address ?n ?p)] =>
    pattern (mbind (M := outcome) k (parse_address n p));
    eapply parse_address_step; [eassumption|done|]
  end;
  let p' := fresh "p" in let Hp' := fresh "Hp" in intros p' Hp'; cbv beta iota zeta.

Lemma ethernet_header_bytes h :
  EthernetHeader.ok h →
  EthernetHeader.serialize h =
    EthernetHeader.dst h ++ EthernetHeader.src h ++ NetUnparser.int_bytes 2 (EthernetHeader.type h).
Proof.
  intros ([_ Hd] & [_ Hs] & _). unfold EthernetHeader.serialize, NetUnparser.u16.
  rewrite !unparse_address_eq by done. cbn [app]. by rewrite app_assoc.
Qed.

Lemma ethernet_header_parse h h0 p rest :
  EthernetHeader.ok h → at_input p (EthernetHeader.serialize h ++ rest) →
  ∃ p', EthernetHeader.parse h0 p = Ok (NoError, h, p') ∧ at_input p' rest.
Proof.
  intros Hok. rewrite ethernet_header_bytes by done. destruct Hok as ([Hd _] & [Hs _] & Ht).
  rewrite <- !app_assoc. intros Hp. unfold EthernetHeader.parse, Buffer.size, NetParser.buffer.
  destruct (_ <? _) eqn:E.
  { destruct Hp as (_ & _ & Htodo). unfold todo in Htodo. rewrite Htodo in E. unfold len in E.
    rewrite !length_app, Hd, Hs, length_int_bytes in E. unfold EthernetHeader.LENGTH in E. lia. }
  address_field. address_field. parse_field. destruct (at_input_error _ _ Hp2) as [_ ->].
  exists p2. by destruct h.
Qed.

(** The bytes of a message, field by field. *)
Definition arp_wire (m : ARPMessage.t) : bytes :=
  NetUnparser.int_bytes 2 (ARPMessage.hardware_type m) ++
  NetUnparser.int_bytes 2 (ARPMessage.protocol_type m) ++
  NetUnparser.int_bytes 1 (ARPMessage.hardware_address_size m) ++
  NetUnparser.int_bytes 1 (ARPMessage.protocol_address_size m) ++
  NetUnparser.int_bytes 2 (ARPMessage.opcode m) ++
  ARPMessage.sender_ethernet_address m ++
  NetUnparser.int_bytes 4 (ARPMessage.sender_ip_address m) ++
  ARPMessage.target_ethernet_address m ++
  NetUnparser.int_bytes 4 (ARPMessage.target_ip_address m) ++ [].

Lemma arp_bytes m : ARPMessage.ok m → ARPMessage.serialize m = Ok (arp_wire m).
Proof.
  intros (Hsup & [_ Hs] & _ & [_ Ht] & _). unfold ARPMessage.serialize. rewrite Hsup. cbn [negb].
  rewrite !unparse_address_eq by done.
  unfold arp_wire, NetUnparser.u16, NetUnparser.u8, NetUnparser.u32. cbn [app].
  rewrite app_nil_r. by rewrite <- !app_assoc.
Qed.

Lemma supported_fields m :
  ARPMessage.supported m = true →
  ARPMessage.hardware_type m = 1 ∧ ARPMessage.protocol_type m = 2048 ∧
  ARPMessage.hardware_address_size m = 6 ∧ ARPMessage.protocol_address_size m = 4 ∧
  (ARPMessage.opcode m = 1 ∨ ARPMessage.opcode m = 2).
Proof.
  unfold ARPMessage.supported, ARPMessage.TYPE_ETHERNET, EthernetHeader.TYPE_IPv4,
    ARPMessage.OPCODE_REQUEST, ARPMessage.OPCODE_REPLY. lia.
Qed.

Lemma is_bytes_arp m : ARPMessage.ok m → is_bytes (arp_wire m).
Proof.
  intros (_ & [_ Hsb] & _ & [_ Htb] & _). unfold arp_wire. rewrite !is_bytes_app.
  split_and!; try apply is_bytes_int_bytes; try done. apply Forall_nil_2.
Qed.

Lemma length_arp m : ARPMessage.ok m → length (arp_wire m) = 28%nat.
Proof.
  intros (_ & [Hs _] & _ & [Ht _] & _). unfold arp_wire.
  by rewrite !length_app, !length_int_bytes, Hs, Ht.
Qed.

Lemma arp_parse_wire m m0 b :
  ARPMessage.ok m → Buffer.wf b → Buffer.str b = arp_wire m → ARPMessage.parse m0 b = Ok (NoError, m).
Proof.
  intros Hok Hwf Hb. pose proof (length_arp m Hok) as Hlen.
  assert (Hp : at_input (NetParser.make b) (arp_wire m)).
  { rewrite <- Hb. apply at_input_make; [done|]. rewrite Hb. by apply is_bytes_arp. }
  unfold ARPMessage.parse, Buffer.size. cbn [NetParser.buffer NetParser.make NetParser._buffer].
  rewrite Hb. destruct (_ <? _) eqn:E; [unfold ARPMessage.LENGTH, len in E; lia|].
  destruct Hok as (Hsup & [Hs _] & Hsip & [Ht _] & Htip). unfold arp_wire in Hp.
  destruct (supported_fields m Hsup) as (? & ? & ? & ? & ?).
  do 5 (parse_field; [lia..|]).
  replace (ARPMessage.supported _) with true by done. cbn [negb].
  address_field. parse_field. address_field. parse_field.
  destruct (at_input_error _ _ Hp8) as [_ ->]. by destruct m.
Qed.

(** A message that parses is one [serialize] would accept. *)
Lemma arp_parse_safe m0 b :
  Buffer.wf b → is_bytes (Buffer.str b) →
  ∃ r m, ARPMessage.parse m0 b = Ok (r, m) ∧ (r = NoError → ARPMessage.ok m) ∧
    (len (Buffer.str b) < 28 → r = PacketTooShort ∧ m = m0).
Proof.
  intros Hwf Hb. unfold ARPMessage.parse, Buffer.size. cbn [NetParser.buffer NetParser.make NetParser._buffer].
  destruct (_ <? _) eqn:E; unfold ARPMessage.LENGTH in E.
  { do 2 eexists. split; [done|]. split; [done|]. done. }
  assert (Hp : safe NoError (NetParser.make b)) by (by apply safe_make).
  do 5 parse_any. destruct (negb _) eqn:Hsup.
  { do 2 eexists. split; [done|]. split; [done|lia]. }
  destruct (parse_address_safe NoError 6 _ Hp4) as (sea & p5 & -> & Hp5 & Hsea). cbn [mbind outcome_bind].
  parse_any. destruct (parse_address_safe NoError 6 _ Hp6) as (tea & p7 & -> & Hp7 & Htea).
  cbn [mbind outcome_bind]. parse_any.
  do 2 eexists. split; [done|]. split; [|lia]. intros _.
  split; [by apply negb_false_iff|]. cbn. done.
Qed.

(** A frame comes off the wire with its payload in one piece. *)
Lemma ethernet_frame_wire f f0 :
  EthernetFrame.ok f →
  ∃ f' b, EthernetFrame.parse f0 (Buffer.of_string (BufferList.concatenate (EthernetFrame.serialize f))) =
        Ok (NoError, f') ∧
    EthernetFrame.header f' = EthernetFrame.header f ∧ EthernetFrame.payload f' = [b] ∧ Buffer.wf b ∧
    Buffer.str b = BufferList.concatenate (EthernetFrame.payload f).
Proof.
  intros (Hh & Hb & Hl). unfold EthernetFrame.serialize. rewrite !concatenate_append.
  unfold BufferList.of_string. cbn [BufferList.concatenate app]. rewrite app_nil_r, str_of_string.
  unfold EthernetFrame.parse.
  assert (Hbs : is_bytes (EthernetHeader.serialize (EthernetFrame.header f) ++
    BufferList.concatenate (EthernetFrame.payload f))).
  { rewrite ethernet_header_bytes by done. destruct Hh as ([_ ?] & [_ ?] & _).
    rewrite !is_bytes_app. split_and!; try done. apply is_bytes_int_bytes. }
  destruct (ethernet_header_parse (EthernetFrame.header f) (EthernetFrame.header f0)
    (NetParser.make (Buffer.of_string (EthernetHeader.serialize (EthernetFrame.header f) ++
      BufferList.concatenate (EthernetFrame.payload f))))
    (BufferList.concatenate (EthernetFrame.payload f))) as (p' & -> & Hp'); [done| |].
  - apply at_input_make; [|done]. apply wf_of_string. rewrite len_app, ethernet_header_bytes by done.
    destruct Hh as ([Hd _] & [Hs _] & _). unfold len at 1.
    rewrite !length_app, Hd, Hs, length_int_bytes. lia.
  - cbn [mbind outcome_bind]. destruct (at_input_error _ _ Hp') as [_ ->].
    destruct Hp' as ([Hw _] & _ & Ht). by eexists _, _.
Qed.

(** ** Properties *)

(** An Ethernet frame parses back from what it serializes to, header and
    payload, with no error. *)
Theorem ethernet_frame_roundtrip (f f0 : EthernetFrame.t) :
  EthernetFrame.ok f →
  ∃ f', EthernetFrame.parse f0 (Buffer.of_string (BufferList.concatenate (EthernetFrame.serialize f))) =
        Ok (NoError, f') ∧
    EthernetFrame.header f' = EthernetFrame.header f ∧
    BufferList.concatenate (EthernetFrame.payload f') = BufferList.concatenate (EthernetFrame.payload f).
Proof.
  intros Hf. destruct (ethernet_frame_wire f f0 Hf) as (f' & b & Hp & Hh & Hpl & _ & Hb). exists f'.
  split_and!; [done|done|]. rewrite Hpl, <- Hb. apply app_nil_r.
Qed.

Definition example_frame : EthernetFrame.t :=
  EthernetFrame.mk (EthernetHeader.mk ETHERNET_BROADCAST [2; 0; 0; 0; 0; 1] EthernetHeader.TYPE_ARP)
    [Buffer.of_string [1; 2]; Buffer.of_string [3]].

Lemma ethernet_frame_roundtrip_witness :
  ∃ f', EthernetFrame.parse EthernetFrame.default
          (Buffer.of_string (BufferList.concatenate (EthernetFrame.serialize example_frame))) =
        Ok (NoError, f') ∧
    EthernetFrame.header f' = EthernetFrame.header example_frame ∧
    BufferList.concatenate (EthernetFrame.payload f') = [1; 2; 3].
Proof.
  apply (ethernet_frame_roundtrip example_frame EthernetFrame.default).
  split; [|split; [repeat constructor; lia|done]].
  split; [|split; [|cbn; unfold EthernetHeader.TYPE_ARP; lia]]; (split; [done|repeat constructor; lia]).
Defined.

(** ARP messages round trip and bad ones are refused: a supported message
    serializes and parses back to itself; parsing returns on every input, gives
    [NoError] only for a message [serialize] supports, and leaves the message
    alone with [PacketTooShort] when there are fewer than 28 bytes. *)
Theorem arp_message_roundtrip (m m0 : ARPMessage.t) (b : Buffer.t) :
  ARPMessage.ok m → Buffer.wf b → is_bytes (Buffer.str b) →
  (∃ bs, ARPMessage.serialize m = Ok bs ∧
     ARPMessage.parse m0 (Buffer.of_string bs) = Ok (NoError, m)) ∧
  (∃ r m', ARPMessage.parse m0 b = Ok (r, m') ∧ (r = NoError → ARPMessage.ok m') ∧
     (len (Buffer.str b) < 28 → r = PacketTooShort ∧ m' = m0)).
Proof.
  intros Hok Hwf Hb. split; [|by apply arp_parse_safe].
  exists (arp_wire m). split; [by apply arp_bytes|]. apply arp_parse_wire; [done| |done].
  apply wf_of_string. unfold len. rewrite length_arp by done. lia.
Qed.

Definition example_arp : ARPMessage.t :=
  ARPMessage.mk 1 2048 6 4 2 [2; 0; 0; 0; 0; 1] 167772161 [2; 0; 0; 0; 0; 2] 167772162.

Lemma arp_message_roundtrip_witness :
  (∃ bs, ARPMessage.serialize example_arp = Ok bs ∧
     ARPMessage.parse ARPMessage.default (Buffer.of_string bs) = Ok (NoError, example_arp)) ∧
  (∃ r m', ARPMessage.parse ARPMessage.default (Buffer.of_string [0; 1]) = Ok (r, m') ∧
     (r = NoError → ARPMessage.ok m') ∧ (2 < 28 → r = PacketTooShort ∧ m' = ARPMessage.default)).
Proof.
  apply (arp_message_roundtrip example_arp ARPMessage.default (Buffer.of_string [0; 1])).
  - split; [done|]. split; [split; [done|repeat constructor; lia]|]. split; [simpl; lia|].
    split; [split; [done|repeat constructor; lia]|simpl; lia].
  - apply wf_of_string. unfold len. simpl. lia.
  - repeat constructor; lia.
Defined.
