(* ===== verification/tcp_receiver.v ===== *)
(** * The receiver: segments in, acknowledgment number and window out

    Models [libsponge/tcp_receiver.hh] and [libsponge/tcp_receiver.cc].  The
    theorems are about a receiver that hears a peer with initial sequence number
    [isn] sending the stream [S]: the segments may come in any order, repeated,
    before or after the SYN, as long as each stays within the window the receiver
    advertises ([peer_segment]). *)

From S2P Require Import prelude byte_stream wrapping_integers stream_reassembler buffer parser tcp_segment.

Module TCPReceiver.

(** The members of [class TCPReceiver]. *)
Record t := mk {
  _reassembler : StreamReassembler.t;
  _capacity : Z;
  _synReceived : bool;
  _finReceived : bool;
  _isn : WrappingInt32
}.

#[global] Instance eta_t : Eta t := λ r,
  mk (_reassembler r) (_capacity r) (_synReceived r) (_finReceived r) (_isn r).

(** [TCPReceiver(capacity)] *)
Definition make (capacity : Z) : t :=
  mk (StreamReassembler.make capacity) capacity false false (mkWrappingInt32 0).

Definition segment_received (r : t) (seg : TCPSegment.t) : outcome t :=
  let head := TCPSegment.header seg in
  if negb (TCPHeader.syn head) && negb (_synReceived r) then Ok r
  else
    let data := Buffer.copy (TCPSegment.payload seg) in
    let eof := false in
    if TCPHeader.syn head && negb (_synReceived r) then
      let r := r <| _synReceived := true |> <| _isn := TCPHeader.seqno head |> in
      let '(r, eof) := if TCPHeader.fin head then (r <| _finReceived := true |>, true) else (r, eof) in
      s ← StreamReassembler.push_substring (_reassembler r) data 0 eof;
      Ok (r <| _reassembler := s |>)
    else
      let '(r, eof) :=
        if _synReceived r && TCPHeader.fin head then (r <| _finReceived := true |>, true) else (r, eof) in
      let checkpoint := StreamReassembler.ack_index (_reassembler r) in
      abs_seqno ← unwrap (TCPHeader.seqno head) (_isn r) checkpoint;
      let stream_idx := u64 (abs_seqno - b2z (_synReceived r)) in
      s ← StreamReassembler.push_substring (_reassembler r) data stream_idx eof;
      Ok (r <| _reassembler := s |>).

Definition ackno (r : t) : option WrappingInt32 :=
  if negb (_synReceived r) then None
  else Some (wrap (u64 (StreamReassembler.ack_index (_reassembler r) + 1 +
                        b2z (StreamReassembler.empty (_reassembler r) && _finReceived r))) (_isn r)).

Definition stream_out (r : t) : ByteStream.t := StreamReassembler.stream_out (_reassembler r).

Definition window_size (r : t) : Z := u64 (_capacity r - ByteStream.buffer_size (stream_out r)).

Definition unassembled_bytes (r : t) : Z := StreamReassembler.unassembled_bytes (_reassembler r).

(** ** Receiving a known stream *)

(** A segment of the stream [S] sent from [isn], with absolute sequence number
    [a], that the peer may send to a receiver in state [r]: it is within 2^31 of
    what the receiver expects; a SYN starts the stream and carries no FIN; any
    other segment carries a slice of [S], once the SYN is known starting in the
    window; a FIN segment fits in the window. *)
Definition peer_segment (S : bytes) (isn : WrappingInt32) (r : t) (a : Z) (seg : TCPSegment.t) : Prop :=
  let head := TCPSegment.header seg in
  let data := Buffer.copy (TCPSegment.payload seg) in
  let s := _reassembler r in
  TCPHeader.seqno head = wrap a isn ∧
  - 2 ^ 31 < a - StreamReassembler.ack_index s ≤ 2 ^ 31 ∧
  if TCPHeader.syn head then
    a = 0 ∧ TCPHeader.fin head = false ∧ StreamReassembler.slice_of S data 0 false
  else
    0 < a ∧ StreamReassembler.slice_of S data (a - 1) (TCPHeader.fin head) ∧
    (_synReceived r = true → StreamReassembler.in_window s data (a - 1) (TCPHeader.fin head)) ∧
    (TCPHeader.fin head = true →
      a - 1 + len data ≤ StreamReassembler.ack_index s + window_size r).

(** The states a receiver gets into. *)
Inductive reach (capacity : Z) (S : bytes) (isn : WrappingInt32) : t → Prop :=
| reach_make : reach capacity S isn (make capacity)
| reach_segment r a seg r' :
    reach capacity S isn r → peer_segment S isn r a seg →
    segment_received r seg = Ok r' → reach capacity S isn r'
| reach_read r n :
    reach capacity S isn r → 0 ≤ n < 2 ^ 64 →
    reach capacity S isn
      (r <| _reassembler ::= λ s, s <| StreamReassembler._output ::= λ o, (ByteStream.read o n).1 |> |>)
| reach_error r :
    reach capacity S isn r →
    reach capacity S isn
      (r <| _reassembler ::= λ s, s <| StreamReassembler._output ::= ByteStream.set_error |> |>).

(** What holds of those states. *)
Record inv (capacity : Z) (S : bytes) (isn : WrappingInt32) (r : t) : Prop := {
  inv_cap : _capacity r = capacity;
  inv_reach : StreamReassembler.reach capacity S (_reassembler r);
  inv_fin : _finReceived r = StreamReassembler._eof (_reassembler r);
  inv_isn : _synReceived r = true → _isn r = isn;
  inv_silent : _synReceived r = false →
    StreamReassembler.ack_index (_reassembler r) = 0 ∧ _finReceived r = false ∧
    ∀ i, ¬ StreamReassembler.received (_reassembler r) i
}.

End TCPReceiver.

(** ** Lemmas *)

Section receiving.
Import TCPReceiver.
Context (capacity : Z) (S : bytes) (isn : WrappingInt32).
Context (Hcap : 0 < capacity < 2 ^ 31) (HS : len S < 2 ^ 63) (Hisn : seq_ok isn).

Lemma window_size_room r :
  inv capacity S isn r → window_size r = StreamReassembler.room (_reassembler r) ∧ 0 ≤ window_size r ≤ capacity.
Proof.
  intros Hi. destruct (reach_inv S HS capacity _ Hcap (inv_reach _ _ _ _ Hi)) as [Hr Hc].
  pose proof (StreamReassembler.inv_mid _ _ Hr) as Hm. destruct (room_eq S _ Hm) as [? Hroom].
  unfold window_size, stream_out, StreamReassembler.stream_out.
  rewrite (buffered_room S _ Hm), Hc, (inv_cap _ _ _ _ Hi). rewrite u64_id; lia.
Qed.

Lemma window_size_free r : inv capacity S isn r → window_size r = capacity - ByteStream.buffer_size (stream_out r).
Proof.
  intros Hi. destruct (reach_inv S HS capacity _ Hcap (inv_reach _ _ _ _ Hi)) as [Hr Hc].
  pose proof (buffered_room S _ (StreamReassembler.inv_mid _ _ Hr)) as Hb.
  rewrite (proj1 (window_size_room r Hi)). unfold stream_out, StreamReassembler.stream_out. lia.
Qed.

(** The owner reads [n] bytes of the inbound stream. *)
Definition owner_reads (r : t) (n : Z) : t :=
  r <| _reassembler ::= λ s, s <| StreamReassembler._output ::= λ o, (ByteStream.read o n).1 |> |>.

Lemma reading_opens r n :
  inv capacity S isn r → 0 ≤ n ≤ ByteStream.buffer_size (stream_out r) →
  window_size (owner_reads r n) = window_size r + n.
Proof.
  intros Hi Hn. pose proof (window_size_free r Hi) as Hf. pose proof (window_size_room r Hi) as [_ Hw].
  assert (Hread : ByteStream.buffer_size (ByteStream.read (stream_out r) n).1 = ByteStream.buffer_size (stream_out r) - n).
  { unfold ByteStream.read, ByteStream.buffer_size in *. destruct (_ >? _) eqn:E; [lia|]. cbn. rewrite len_drop by lia. lia. }
  change (window_size (owner_reads r n)) with (u64 (_capacity r - ByteStream.buffer_size (ByteStream.read (stream_out r) n).1)).
  rewrite Hread, (inv_cap _ _ _ _ Hi), u64_id; lia.
Qed.

(** A segment wholly beyond the buffer, not marked final, changes nothing. *)
Lemma push_far s data index :
  StreamReassembler.inv S s →
  StreamReassembler.unass_base s + StreamReassembler._capacity s ≤ index < 2 ^ 64 →
  StreamReassembler.push_substring s data index false = Ok s.
Proof.
  intros Hi Hx. pose proof (StreamReassembler.inv_mid _ _ Hi) as Hm. pose proof (StreamReassembler.mid_base _ _ Hm). pose proof (StreamReassembler.mid_cap _ _ Hm).
  unfold StreamReassembler.push_substring.
  destruct (_ && (_ =? 0)) eqn:E.
  - apply andb_prop in E as [[_ He]%andb_prop Hz]. pose proof (StreamReassembler.inv_ended _ _ Hi) as Hend.
    rewrite He, Hz in Hend. destruct s as [? ? ? ? ? o ?]. cbn in *. f_equal. f_equal.
    by destruct o; cbn in *; subst.
  - rewrite u64_id by lia. by destruct (_ >=? _) eqn:E2; [|lia].
Qed.

Lemma fin_set r (b : bool) :
  (if b then (r <| _finReceived := true |>, true) else (r, false)) =
  (r <| _finReceived := _finReceived r || b |>, b).
Proof. by destruct r as [? ? ? [] ?], b. Qed.

(** What the handler does with a segment once the SYN is known: the flag and the
    reassembler, nothing else. *)
Lemma push_segment r r' data index eof s' :
  inv capacity S isn r → StreamReassembler.slice_of S data index eof →
  StreamReassembler.in_window (_reassembler r) data index eof →
  (eof = true → index + len data ≤ StreamReassembler.ack_index (_reassembler r) + window_size r) →
  StreamReassembler.push_substring (_reassembler r) data index eof = Ok s' →
  r' = r <| _synReceived := true |> <| _isn := isn |>
         <| _finReceived := _finReceived r || eof |> <| _reassembler := s' |> →
  inv capacity S isn r'.
Proof.
  intros Hi Hsl Hwin Hfin Hp ->. destruct (reach_inv S HS capacity _ Hcap (inv_reach _ _ _ _ Hi)) as [Hr Hc].
  destruct (push_substring_spec S HS _ data index _ Hr Hsl Hwin) as (s1 & Hp' & _ & Heof & _).
  rewrite Hp in Hp'. injection Hp' as <-. constructor; cbn; try done.
  - apply Hi.
  - exact (StreamReassembler.reach_push capacity S _ data index eof s' (inv_reach _ _ _ _ Hi) Hsl Hwin Hp).
  - rewrite Heof, (inv_fin _ _ _ _ Hi). unfold eof_after. destruct eof; [|done].
    specialize (Hfin eq_refl). destruct (window_size_room r Hi) as [Hw _]. rewrite Hw in Hfin.
    unfold StreamReassembler.ack_index in Hfin. f_equal. lia.
Qed.

(** What any segment does to a receiver: the right edge of the window stays, bytes
    are never forgotten, and what is new comes from the segment. *)
Record grown (a : Z) (seg : TCPSegment.t) (r r' : t) : Prop := {
  grown_edge : StreamReassembler.ack_index (_reassembler r') + window_size r' =
    StreamReassembler.ack_index (_reassembler r) + window_size r;
  grown_keeps i : StreamReassembler.received (_reassembler r) i →
    StreamReassembler.received (_reassembler r') i;
  grown_new i : StreamReassembler.received (_reassembler r') i →
    StreamReassembler.received (_reassembler r) i ∨
    Z.max 0 (a - 1) ≤ i < Z.max 0 (a - 1) + len (Buffer.copy (TCPSegment.payload seg));
  grown_fin : _finReceived r' = true → _finReceived r = true ∨ TCPHeader.fin (TCPSegment.header seg) = true;
  grown_fin_keeps : _finReceived r = true → _finReceived r' = true;
  grown_fin_set : _synReceived r = true → TCPHeader.syn (TCPSegment.header seg) = false →
    TCPHeader.fin (TCPSegment.header seg) = true → _finReceived r' = true
}.

Lemma grown_refl a seg r : _synReceived r = TCPHeader.syn (TCPSegment.header seg) → grown a seg r r.
Proof. intros E. constructor; auto. congruence. Qed.

(** The edge of a receiver in terms of its reassembler. *)
Lemma edge_room r :
  inv capacity S isn r → StreamReassembler.ack_index (_reassembler r) + window_size r =
    StreamReassembler.unass_base (_reassembler r) + StreamReassembler.room (_reassembler r).
Proof. intros Hi. by rewrite (proj1 (window_size_room r Hi)). Qed.

Lemma push_grown r r' a seg index eof :
  let data := Buffer.copy (TCPSegment.payload seg) in
  inv capacity S isn r → inv capacity S isn r' → index = Z.max 0 (a - 1) →
  StreamReassembler.unass_base (_reassembler r') + StreamReassembler.room (_reassembler r') =
    StreamReassembler.unass_base (_reassembler r) + StreamReassembler.room (_reassembler r) →
  (∀ i, StreamReassembler.received (_reassembler r') i ↔
    StreamReassembler.received (_reassembler r) i ∨
    (index ≤ i < index + len data ∧
     i < StreamReassembler.unass_base (_reassembler r) + StreamReassembler.room (_reassembler r))) →
  _finReceived r' = _finReceived r || eof → (eof = true → TCPHeader.fin (TCPSegment.header seg) = true) →
  (TCPHeader.syn (TCPSegment.header seg) = false → eof = TCPHeader.fin (TCPSegment.header seg)) →
  grown a seg r r'.
Proof.
  intros data Hi Hi' Hx Hedge Hrec Hf Hfin Heof. constructor.
  - by rewrite !edge_room.
  - intros i Hr. apply Hrec. by left.
  - intros i [?|[? _]]%Hrec; [by left|right]. by rewrite <- Hx.
  - rewrite Hf. intros [?|?]%orb_prop; auto.
  - rewrite Hf. by intros ->.
  - intros _ Hs Hfin'. by rewrite Hf, Heof, Hfin', orb_true_r.
Qed.

Lemma segment_received_spec r a seg :
  inv capacity S isn r → peer_segment S isn r a seg →
  ∃ r', segment_received r seg = Ok r' ∧ inv capacity S isn r' ∧
    _synReceived r' = _synReceived r || TCPHeader.syn (TCPSegment.header seg) ∧
    (_synReceived r = true → TCPHeader.syn (TCPSegment.header seg) = false →
     ∀ i, StreamReassembler.received (_reassembler r') i ↔
       StreamReassembler.received (_reassembler r) i ∨
       (a - 1 ≤ i < a - 1 + len (Buffer.copy (TCPSegment.payload seg)) ∧
        i < StreamReassembler.ack_index (_reassembler r) + window_size r)) ∧
    grown a seg r r'.
Proof.
  intros Hi. destruct (reach_inv S HS capacity _ Hcap (inv_reach _ _ _ _ Hi)) as [Hr Hc].
  pose proof (StreamReassembler.inv_mid _ _ Hr) as Hm. destruct (room_eq S _ Hm) as [? Hroom].
  pose proof (StreamReassembler.mid_base _ _ Hm). pose proof (StreamReassembler.mid_cap _ _ Hm).
  destruct (window_size_room r Hi) as [Hw _].
  unfold peer_segment, segment_received. set (head := TCPSegment.header seg).
  set (data := Buffer.copy _). intros (Hseq & Hnear & Hp).
  unfold StreamReassembler.ack_index in *.
  destruct (TCPHeader.syn head) eqn:Hhs, (_synReceived r) eqn:Hsyn; cbn [negb andb orb].
  - destruct Hp as (-> & -> & Hsl). cbn [negb andb]. rewrite (inv_isn _ _ _ _ Hi Hsyn), Hseq.
    rewrite Hsyn, unwrap_wrap by lia. cbn [mbind outcome_bind b2z].
    change (u64 (0 - 1)) with (2 ^ 64 - 1). rewrite push_far by (done || lia).
    exists r. split_and!; try done; [by destruct r|apply grown_refl; fold head; congruence].
  - destruct Hp as (-> & -> & Hsl). destruct (inv_silent _ _ _ _ Hi Hsyn) as (Hack & Hnf & Hnone).
    unfold StreamReassembler.ack_index in *.
    assert (Hwin : StreamReassembler.in_window (_reassembler r) data 0 false) by (split; [left; lia|done]).
    destruct (push_substring_spec S HS _ data 0 _ Hr Hsl Hwin) as (s' & Hpush & _ & _ & _ & Hedge & Hrec).
    cbn [upd]. cbn [_reassembler]. rewrite Hpush.
    cbn [mbind outcome_bind]. eexists. split; [done|].
    set (r' := mk _ _ _ _ _).
    assert (Hi' : inv capacity S isn r').
    { apply (push_segment r _ data 0 false s'); try done. unfold r'. cbn. rewrite Hnf, Hseq. f_equal.
      apply wrap_of_offset; [done|]. unfold seq_offset. by rewrite Z.sub_diag. }
    split; [done|]. split_and!; try done. apply (push_grown r r' 0 seg 0 false); try done; [cbn; by rewrite Hnf|]. fold head. congruence.
  - destruct Hp as (Ha & Hsl & Hwin & Hfin). specialize (Hwin eq_refl).
    rewrite fin_set. cbn -[StreamReassembler.push_substring unwrap data head].
    rewrite (inv_isn _ _ _ _ Hi Hsyn), Hseq, ?Hsyn. rewrite unwrap_wrap by lia.
    cbn [mbind outcome_bind b2z]. rewrite u64_id by lia.
    destruct (push_substring_spec S HS _ data (a - 1) _ Hr Hsl Hwin) as (s' & Hpush & _ & _ & _ & Hedge & Hrec).
    rewrite Hpush. cbn [mbind outcome_bind]. eexists. split; [done|]. set (r' := mk _ _ _ _ _).
    assert (Hi' : inv capacity S isn r')
      by (apply (push_segment r _ data (a - 1) (TCPHeader.fin head) s'); done).
    split_and!; try done.
    + intros _ _ i. cbn. rewrite Hw. apply Hrec.
    + apply (push_grown r r' a seg (a - 1) (TCPHeader.fin head)); try done. lia.
  - exists r. split_and!; try done. apply grown_refl. fold head. congruence.
Qed.

Lemma inv_read r n :
  inv capacity S isn r → 0 ≤ n < 2 ^ 64 →
  inv capacity S isn
    (r <| _reassembler ::= λ s, s <| StreamReassembler._output ::= λ o, (ByteStream.read o n).1 |> |>).
Proof.
  intros Hi Hn. constructor; cbn; try apply Hi.
  by apply StreamReassembler.reach_read; [apply Hi|].
Qed.

Lemma inv_error r :
  inv capacity S isn r →
  inv capacity S isn
    (r <| _reassembler ::= λ s, s <| StreamReassembler._output ::= ByteStream.set_error |> |>).
Proof.
  intros Hi. constructor; cbn; try apply Hi. by apply StreamReassembler.reach_error, Hi.
Qed.

Lemma inv_init : inv capacity S isn (make capacity).
Proof.
  constructor; cbn; try done; [apply StreamReassembler.reach_make|].
  intros _. split_and!; try done. intros i [?|[_ Hr]]; [cbn in *; lia|].
  cbn in Hr. by apply lookup_replicate in Hr as [? _].
Qed.

Lemma receiver_reach_inv r : reach capacity S isn r → inv capacity S isn r.
Proof.
  induction 1 as [|r a seg r' _ Hi Hseg Hrec|r n _ Hi Hn|r _ Hi].
  - apply inv_init.
  - destruct (segment_received_spec r a seg Hi Hseg) as (r1 & Hr1 & Hi1 & _). congruence.
  - by apply inv_read.
  - by apply inv_error.
Qed.

(** The acknowledgment counts the SYN, the assembled bytes and, once the whole
    stream is assembled, the FIN. *)
Lemma ackno_spec r :
  inv capacity S isn r → _synReceived r = true →
  let k := StreamReassembler.ack_index (_reassembler r) in
  ackno r = Some (wrap (1 + k + b2z (_finReceived r && (k =? len S))) isn).
Proof.
  intros Hi Hsyn k. destruct (reach_inv S HS capacity _ Hcap (inv_reach _ _ _ _ Hi)) as [Hr Hc].
  pose proof (StreamReassembler.mid_base _ _ (StreamReassembler.inv_mid _ _ Hr)).
  unfold ackno. rewrite Hsyn, (inv_isn _ _ _ _ Hi Hsyn). cbn [negb]. f_equal.
  assert (Heq : StreamReassembler.empty (_reassembler r) && _finReceived r = _finReceived r && (k =? len S)).
  { rewrite andb_comm. destruct (_finReceived r) eqn:Hf; [|done]. cbn [andb].
    rewrite (inv_fin _ _ _ _ Hi) in Hf.
    pose proof (size_zero_complete S HS _ (StreamReassembler.inv_mid _ _ Hr) (StreamReassembler.inv_eof _ _ Hr Hf)) as Hz.
    unfold StreamReassembler.empty, k, StreamReassembler.ack_index. lia. }
  rewrite Heq. unfold k, StreamReassembler.ack_index in *. 
  set (f := b2z _). assert (0 ≤ f ≤ 1) by (unfold f, b2z; case_match; lia). clearbody f.
  rewrite u64_id by lia. f_equal. lia.
Qed.

(** The output is closed exactly when the FIN is acknowledged. *)
Lemma input_ended_spec r :
  inv capacity S isn r →
  ByteStream.input_ended (stream_out r) =
    _finReceived r && (StreamReassembler.ack_index (_reassembler r) =? len S).
Proof.
  intros Hi. destruct (reach_inv S HS capacity _ Hcap (inv_reach _ _ _ _ Hi)) as [Hr _].
  unfold stream_out, StreamReassembler.stream_out. rewrite (StreamReassembler.inv_ended _ _ Hr), (inv_fin _ _ _ _ Hi).
  destruct (StreamReassembler._eof (_reassembler r)) eqn:He; [|done]. cbn [andb].
  pose proof (size_zero_complete S HS _ (StreamReassembler.inv_mid _ _ Hr) (StreamReassembler.inv_eof _ _ Hr He)).
  unfold StreamReassembler.ack_index. lia.
Qed.

End receiving.

(** ** Properties *)

Section receiver_properties.
Import TCPReceiver.

(** C4: the receiver acknowledges exactly what it has, if its peer sends one stream
    [S] from one initial number and keeps to [peer_segment]: a segment is within 2^31
    numbers of what is expected; a SYN carries no FIN; any other segment carries a
    slice of [S] that starts in the window or at its right edge, or lies beyond the
    whole buffer; and a FIN comes with a segment that fits in the window and, if it has
    no payload, comes in order.  Then nothing is acknowledged before the SYN, and
    afterwards one number for the SYN, one for each byte up to the first missing one,
    and one for the FIN once all of [S] is assembled.  Those bytes, in order, are what
    the receiver has written to its output, and the output is closed exactly when the
    FIN is acknowledged. *)
Theorem receiver_ackno_exact (capacity : Z) (S : bytes) (isn : WrappingInt32) (r : t) :
  0 < capacity < 2 ^ 31 → len S < 2 ^ 63 → seq_ok isn → reach capacity S isn r →
  let k := StreamReassembler.ack_index (_reassembler r) in
  let complete := _finReceived r && (k =? len S) in
  ackno r = (if _synReceived r then Some (wrap (1 + k + b2z complete) isn) else None) ∧
  ¬ StreamReassembler.received (_reassembler r) k ∧
  (∀ i, 0 ≤ i < k → StreamReassembler.received (_reassembler r) i) ∧
  (∃ a, ByteStreamSpec.sim capacity (stream_out r) a ∧
        ByteStreamSpec.accepted a = take (Z.to_nat k) S) ∧
  ByteStream.input_ended (stream_out r) = complete.
Proof.
  intros Hc HS Hisn Hreach k complete.
  pose proof (receiver_reach_inv capacity S isn Hc HS Hisn r Hreach) as Hi.
  destruct (reach_inv S HS capacity _ Hc (inv_reach _ _ _ _ Hi)) as [Hr Hcap].
  destruct (ack_index_first_missing S _ Hr) as [H1 H2].
  destruct (StreamReassembler.mid_out _ _ (StreamReassembler.inv_mid _ _ Hr)) as (a & Hsim & Hacc).
  split_and!; [|done|done|exists a; by rewrite <- Hcap|].
  - destruct (_synReceived r) eqn:Hsyn; [by apply (ackno_spec capacity S isn)|].
    unfold ackno. by rewrite Hsyn.
  - by apply (input_ended_spec capacity S isn).
Qed.

(** A receiver of the stream [7; 8] that has heard the SYN, and the segment with
    the last byte. *)
Definition last_isn : WrappingInt32 := mkWrappingInt32 4294967295.

Definition first_segment : TCPSegment.t :=
  TCPSegment.mk (TCPHeader.default <| TCPHeader.seqno := last_isn |> <| TCPHeader.syn := true |>)
    Buffer.default.

Definition last_segment : TCPSegment.t :=
  TCPSegment.mk
    (TCPHeader.default <| TCPHeader.seqno := mkWrappingInt32 1 |> <| TCPHeader.fin := true |>)
    (Buffer.of_string [8]).

Definition synced : t :=
  Eval vm_compute in
    match segment_received (make 4) first_segment with Ok r => r | _ => make 4 end.

Lemma synced_reach : reach 4 [7; 8] last_isn synced.
Proof.
  apply (reach_segment 4 [7; 8] last_isn (make 4) 0 first_segment);
    [apply reach_make| |vm_compute; reflexivity].
  split; [vm_compute; reflexivity|]. split; [vm_compute; intuition congruence|].
  split; [done|]. split; [done|]. split_and!; [lia|vm_compute; done| |done].
  intros j Hj. unfold len in Hj. simpl in Hj. lia.
Qed.

Lemma last_segment_peer : peer_segment [7; 8] last_isn synced 2 last_segment.
Proof.
  split; [vm_compute; reflexivity|]. split; [vm_compute; intuition congruence|].
  split; [lia|]. split; [|split].
  - split_and!; [lia|vm_compute; done| |done]. intros j Hj. unfold len in Hj. simpl in Hj.
    assert (j = 0) as -> by lia. done.
  - intros _. split; [left; vm_compute; done|]. intros _. split; [vm_compute; done|by left].
  - intros _. vm_compute. done.
Qed.

(** The last byte and the FIN have come before the first byte. *)
Definition waiting : t :=
  Eval vm_compute in match segment_received synced last_segment with Ok r => r | _ => synced end.

Lemma waiting_reach : reach 4 [7; 8] last_isn waiting.
Proof.
  apply (reach_segment 4 [7; 8] last_isn synced 2 last_segment);
    [apply synced_reach|apply last_segment_peer|vm_compute; reflexivity].
Qed.

Lemma receiver_ackno_exact_witness :
  ackno waiting = Some (wrap 1 last_isn) ∧ ¬ StreamReassembler.received (_reassembler waiting) 0 ∧
  _finReceived waiting = true ∧ ByteStream.input_ended (stream_out waiting) = false.
Proof.
  destruct (receiver_ackno_exact 4 [7; 8] last_isn waiting) as (Ha & Hm & _ & _ & He);
    [lia|unfold len; simpl; lia|unfold seq_ok; simpl; lia|apply waiting_reach|].
  split; [exact Ha|]. split; [exact Hm|]. split; [reflexivity|exact He].
Defined.

(** C5: every segment the peer may send ([peer_segment]) is handled: the handler
    returns, and once the SYN is known a segment without SYN adds exactly its bytes up
    to the right edge of the advertised window.  The window is the capacity less what
    the output stream holds, and is within the capacity; a segment leaves its right
    edge where it is, and when the owner reads [n] bytes the window grows by [n], so
    that its right edge never moves left. *)
Theorem receiver_accepts_window (capacity : Z) (S : bytes) (isn : WrappingInt32) (r : t) (a : Z)
    (seg : TCPSegment.t) :
  0 < capacity < 2 ^ 31 → len S < 2 ^ 63 → seq_ok isn → reach capacity S isn r →
  peer_segment S isn r a seg →
  let edge r := StreamReassembler.ack_index (_reassembler r) + window_size r in
  0 ≤ window_size r ≤ capacity ∧ window_size r = capacity - ByteStream.buffer_size (stream_out r) ∧
  (∀ n, 0 ≤ n ≤ ByteStream.buffer_size (stream_out r) →
     window_size (owner_reads r n) = window_size r + n ∧ edge (owner_reads r n) = edge r + n) ∧
  ∃ r', segment_received r seg = Ok r' ∧ reach capacity S isn r' ∧ edge r' = edge r ∧
    (_synReceived r = true → TCPHeader.syn (TCPSegment.header seg) = false →
     ∀ i, StreamReassembler.received (_reassembler r') i ↔
       StreamReassembler.received (_reassembler r) i ∨
       (a - 1 ≤ i < a - 1 + len (Buffer.copy (TCPSegment.payload seg)) ∧ i < edge r)).
Proof.
  intros Hc HS Hisn Hreach Hseg edge.
  pose proof (receiver_reach_inv capacity S isn Hc HS Hisn r Hreach) as Hi.
  destruct (window_size_room capacity S isn Hc HS r Hi) as [_ Hw]. split; [done|].
  split; [by apply (window_size_free capacity S isn)|]. split.
  { intros n Hn. unfold edge. rewrite (reading_opens capacity S isn Hc HS r n Hi Hn). split; [done|].
    change (StreamReassembler.ack_index (_reassembler (owner_reads r n)))
      with (StreamReassembler.ack_index (_reassembler r)). lia. }
  destruct (segment_received_spec capacity S isn Hc HS Hisn r a seg Hi Hseg) as (r' & Hr' & _ & _ & Hrec & Hg).
  exists r'. split_and!; [done|by apply (reach_segment _ _ _ r a seg)|apply Hg|done].
Qed.

Lemma receiver_accepts_window_witness :
  window_size synced = 4 - ByteStream.buffer_size (stream_out synced) ∧
  ∃ r', segment_received synced last_segment = Ok r' ∧ reach 4 [7; 8] last_isn r' ∧
    StreamReassembler.ack_index (_reassembler r') + window_size r' = 4 ∧
    ∀ i, StreamReassembler.received (_reassembler r') i ↔
       StreamReassembler.received (_reassembler synced) i ∨ (1 ≤ i < 2 ∧ i < 4).
Proof.
  destruct (receiver_accepts_window 4 [7; 8] last_isn synced 2 last_segment) as (_ & Hw & _ & r' & Hr' & Hreach & He & Hrec);
    [lia|unfold len; simpl; lia|unfold seq_ok; simpl; lia|apply synced_reach|apply last_segment_peer|].
  split; [exact Hw|]. exists r'. split; [exact Hr'|]. split; [exact Hreach|]. split; [exact He|].
  exact (Hrec eq_refl eq_refl).
Defined.

(** The receiver after a SYN and a final segment that is one byte too long. *)
Definition syn_segment : TCPSegment.t :=
  TCPSegment.mk (TCPHeader.default <| TCPHeader.syn := true |>) Buffer.default.

Definition long_final_segment : TCPSegment.t :=
  TCPSegment.mk
    (TCPHeader.default <| TCPHeader.seqno := mkWrappingInt32 1 |> <| TCPHeader.fin := true |>)
    (Buffer.of_string [7; 8; 9]).

Definition after_truncated_fin : t :=
  Eval vm_compute in
    match (r ← segment_received (make 2) syn_segment; segment_received r long_final_segment) with
    | Ok r => r
    | _ => make 2
    end.

(** A FIN on a segment that does not fit in the window is acknowledged too
    early.  A receiver of two bytes that gets a SYN and then three bytes with a
    FIN keeps two bytes, yet acknowledges a third sequence number: the byte it
    cut off. *)
Theorem truncated_fin_acks_a_lost_byte :
  ∃ r, (r ← segment_received (make 2) syn_segment; segment_received r long_final_segment) = Ok r ∧
    ByteStream.buffer (stream_out r) = [7; 8] ∧
    StreamReassembler.ack_index (_reassembler r) = 2 ∧
    ackno r = Some (wrap (1 + 3) (mkWrappingInt32 0)).
Proof. exists after_truncated_fin. split_and!; vm_compute; reflexivity. Qed.

End receiver_properties.
