(* ===== verification/tcp_sender.v ===== *)
(** * The sender: stream in, segments out, retransmission

    Models [libsponge/tcp_sender.hh] and [libsponge/tcp_sender.cc], with the
    constants of [libsponge/tcp_helpers/tcp_config.hh].  The random initial
    sequence number is an argument of the constructor.  [std::queue] is a list
    whose head is the front; [front()] of an empty queue is [UB].  The loop of
    [fill_window] runs on one unit of fuel more than there are bytes to send,
    which is proved to be enough. *)

From S2P Require Import prelude byte_stream wrapping_integers buffer parser tcp_segment.

Module TCPConfig.

Definition DEFAULT_CAPACITY : Z := 64000.
Definition MAX_PAYLOAD_SIZE : Z := 1000.
Definition TIMEOUT_DFLT : Z := 1000.
Definition MAX_RETX_ATTEMPTS : Z := 8.

(** The fields of [class TCPConfig]. *)
Record t := mk {
  rt_timeout : Z;
  recv_capacity : Z;
  send_capacity : Z;
  fixed_isn : option WrappingInt32
}.

Definition default : t := mk TIMEOUT_DFLT DEFAULT_CAPACITY DEFAULT_CAPACITY None.

(** Each field holds a value of its type that the code can work with: positive
    capacities an [int] holds. *)
Definition ok (c : t) : Prop :=
  0 < rt_timeout c < 2 ^ 16 ∧ 0 < recv_capacity c < 2 ^ 31 ∧ 0 < send_capacity c < 2 ^ 31 ∧
  match fixed_isn c with Some isn => seq_ok isn | None => True end.

End TCPConfig.

Module TCPSender.

(** The members of [class TCPSender]. *)
Record t := mk {
  _isn : WrappingInt32;
  _segments_out : list TCPSegment.t;
  _initial_retransmission_timeout : Z;
  _stream : ByteStream.t;
  _next_seqno : Z;
  _syn_sent : bool;
  _fin_sent : bool;
  _bytes_in_flight : Z;
  _receiver_window_size : Z;
  _receiver_free_space : Z;
  _consecutive_retransmissions : Z;
  _rto : Z;
  _time_elapsed : Z;
  _timer_running : bool;
  _segments_outstanding : list TCPSegment.t
}.

#[global] Instance eta_t : Eta t := λ s,
  mk (_isn s) (_segments_out s) (_initial_retransmission_timeout s) (_stream s) (_next_seqno s)
     (_syn_sent s) (_fin_sent s) (_bytes_in_flight s) (_receiver_window_size s)
     (_receiver_free_space s) (_consecutive_retransmissions s) (_rto s) (_time_elapsed s)
     (_timer_running s) (_segments_outstanding s).

(** [TCPSender(capacity, retx_timeout, fixed_isn)]; [random] is what
    [random_device()()] returns. *)
Definition make (capacity retx_timeout : Z) (fixed_isn : option WrappingInt32) (random : Z) : t :=
  mk (default (mkWrappingInt32 random) fixed_isn) [] retx_timeout (ByteStream.make capacity) 0
     false false 0 0 0 0 retx_timeout 0 false [].

Definition bytes_in_flight (s : t) : Z := _bytes_in_flight s.
Definition stream_in (s : t) : ByteStream.t := _stream s.
Definition consecutive_retransmissions (s : t) : Z := _consecutive_retransmissions s.
Definition segments_out (s : t) : list TCPSegment.t := _segments_out s.
Definition next_seqno_absolute (s : t) : Z := _next_seqno s.
Definition next_seqno (s : t) : WrappingInt32 := wrap (_next_seqno s) (_isn s).

Definition _send_segment (s : t) (seg : TCPSegment.t) : t :=
  let seg := seg <| TCPSegment.header ::= λ h,
               h <| TCPHeader.seqno := wrap (_next_seqno s) (_isn s) |> |> in
  let length := TCPSegment.length_in_sequence_space seg in
  let s := s <| _next_seqno ::= λ n, u64 (n + length) |> in
  let s := s <| _bytes_in_flight ::= λ n, u64 (n + length) |> in
  let s := if _syn_sent s then s <| _receiver_free_space ::= λ n, u16 (n - length) |> else s in
  let s := s <| _segments_out ::= λ q, q ++ [seg] |> in
  let s := s <| _segments_outstanding ::= λ q, q ++ [seg] |> in
  if negb (_timer_running s) then s <| _timer_running := true |> <| _time_elapsed := 0 |> else s.

(** [while (_receiver_free_space) { ... }] *)
Fixpoint fill_loop (fuel : nat) (s : t) : outcome t :=
  match fuel with
  | O => Diverge
  | S fuel =>
    if negb (_receiver_free_space s =? 0) then
      let seg := TCPSegment.default in
      let payload_size :=
        Z.min (Z.min (ByteStream.buffer_size (_stream s)) (_receiver_free_space s))
          TCPConfig.MAX_PAYLOAD_SIZE in
      let '(stream, data) := ByteStream.read (_stream s) payload_size in
      let s := s <| _stream := stream |> in
      let seg := seg <| TCPSegment.payload := Buffer.of_string data |> in
      let '(s, seg) :=
        if ByteStream.eof (_stream s) && (_receiver_free_space s >? payload_size)
        then (s <| _fin_sent := true |>,
              seg <| TCPSegment.header ::= λ h, h <| TCPHeader.fin := true |> |>)
        else (s, seg) in
      let s := _send_segment s seg in
      if ByteStream.buffer_empty (_stream s) then Ok s else fill_loop fuel s
    else Ok s
  end.

(** [_segments_outstanding.front().header().syn], when there is a front. *)
Definition front_is_syn (s : t) : bool :=
  match _segments_outstanding s with
  | [] => false
  | seg :: _ => TCPHeader.syn (TCPSegment.header seg)
  end.

Definition fill_window (s : t) : outcome t :=
  if negb (_syn_sent s) then
    let s := s <| _syn_sent := true |> in
    let seg := TCPSegment.default in
    let seg := seg <| TCPSegment.header ::= λ h, h <| TCPHeader.syn := true |> |> in
    Ok (_send_segment s seg)
  else if front_is_syn s then Ok s
  else if (ByteStream.buffer_size (_stream s) =? 0) && negb (ByteStream.eof (_stream s)) then Ok s
  else if _fin_sent s then Ok s
  else if negb (_receiver_window_size s =? 0) then
    fill_loop (S (length (ByteStream.buffer (_stream s)))) s
  else if _receiver_free_space s =? 0 then
    let seg := TCPSegment.default in
    if ByteStream.eof (_stream s) then
      let seg := seg <| TCPSegment.header ::= λ h, h <| TCPHeader.fin := true |> |> in
      let s := s <| _fin_sent := true |> in
      Ok (_send_segment s seg)
    else if negb (ByteStream.buffer_empty (_stream s)) then
      let '(stream, data) := ByteStream.read (_stream s) 1 in
      let s := s <| _stream := stream |> in
      let seg := seg <| TCPSegment.payload := Buffer.of_string data |> in
      Ok (_send_segment s seg)
    else Ok s
  else Ok s.

Definition _ack_valid (s : t) (abs_ackno : Z) : outcome bool :=
  match _segments_outstanding s with
  | [] => Ok (abs_ackno <=? _next_seqno s)
  | seg :: _ =>
    if abs_ackno <=? _next_seqno s then
      front ← unwrap (TCPHeader.seqno (TCPSegment.header seg)) (_isn s) (_next_seqno s);
      Ok (abs_ackno >=? front)
    else Ok false
  end.

(** [while (!_segments_outstanding.empty()) { ... }]; [outstanding] is the queue
    of [s]. *)
Fixpoint ack_loop (outstanding : list TCPSegment.t) (abs_ackno : Z) (s : t) : outcome t :=
  match outstanding with
  | [] => Ok s
  | seg :: rest =>
    seqno ← unwrap (TCPHeader.seqno (TCPSegment.header seg)) (_isn s) (_next_seqno s);
    let length := TCPSegment.length_in_sequence_space seg in
    if u64 (seqno + length) <=? abs_ackno then
      let s := s <| _bytes_in_flight ::= λ n, u64 (n - length) |> in
      let s := s <| _segments_outstanding := rest |> in
      let s := s <| _time_elapsed := 0 |> in
      let s := s <| _rto := _initial_retransmission_timeout s |> in
      let s := s <| _consecutive_retransmissions := 0 |> in
      ack_loop rest abs_ackno s
    else Ok s
  end.

Definition ack_received (s : t) (ackno : WrappingInt32) (window_size : Z) : outcome t :=
  abs_ackno ← unwrap ackno (_isn s) (_next_seqno s);
  valid ← _ack_valid s abs_ackno;
  if negb valid then Ok s
  else
    let s := s <| _receiver_window_size := window_size |> in
    let s := s <| _receiver_free_space := window_size |> in
    s ← ack_loop (_segments_outstanding s) abs_ackno s;
    s ← match _segments_outstanding s with
        | [] => Ok s
        | seg :: _ =>
          front ← unwrap (TCPHeader.seqno (TCPSegment.header seg)) (_isn s) (_next_seqno s);
          Ok (s <| _receiver_free_space :=
                u16 (u64 (abs_ackno + window_size - front - _bytes_in_flight s)) |>)
        end;
    let s := if _bytes_in_flight s =? 0 then s <| _timer_running := false |> else s in
    fill_window s.

Definition tick (s : t) (ms_since_last_tick : Z) : outcome t :=
  if negb (_timer_running s) then Ok s
  else
    let s := s <| _time_elapsed ::= λ n, u32 (n + ms_since_last_tick) |> in
    if _time_elapsed s >=? _rto s then
      front ← or_UB (head (_segments_outstanding s));
      let s := s <| _segments_out ::= λ q, q ++ [front] |> in
      let s :=
        if negb (_receiver_window_size s =? 0) || TCPHeader.syn (TCPSegment.header front)
        then s <| _consecutive_retransmissions ::= λ n, u16 (n + 1) |>
               <| _rto ::= λ n, u32 (Z.shiftl n 1) |>
        else s in
      Ok (s <| _time_elapsed := 0 |>)
    else Ok s.

Definition send_empty_segment (s : t) : t :=
  let seg := TCPSegment.default in
  let seg := seg <| TCPSegment.header ::= λ h,
               h <| TCPHeader.seqno := wrap (_next_seqno s) (_isn s) |> |> in
  s <| _segments_out ::= λ q, q ++ [seg] |>.

(** ** What the sender has put on the wire *)

(** [seg] carries the part of the sent bytes [D] that starts at absolute sequence
    number [p]: the SYN is number 0, byte [i] of [D] is number [i + 1], and a FIN
    comes after all of [D], once the sender has sent it. *)
Definition carries (isn : WrappingInt32) (D : bytes) (fin_sent : bool) (p : Z) (seg : TCPSegment.t)
    : Prop :=
  let h := TCPSegment.header seg in
  let data := Buffer.str (TCPSegment.payload seg) in
  TCPHeader.seqno h = wrap p isn ∧
  if TCPHeader.syn h then p = 0 ∧ TCPHeader.fin h = false ∧ data = []
  else ∃ pre post, D = pre ++ data ++ post ∧ p = 1 + len pre ∧
    (TCPHeader.fin h = true → fin_sent = true ∧ post = []).

(** The segments follow one another from number [p] up to number [e]; each takes
    up sequence space. *)
Fixpoint laid_out (isn : WrappingInt32) (D : bytes) (fin_sent : bool) (p : Z)
    (segs : list TCPSegment.t) (e : Z) : Prop :=
  match segs with
  | [] => p = e
  | seg :: segs =>
    carries isn D fin_sent p seg ∧ 0 < TCPSegment.length_in_sequence_space seg ∧
    laid_out isn D fin_sent (p + TCPSegment.length_in_sequence_space seg) segs e
  end.

(** An acknowledgment: no payload, no SYN, no FIN. *)
Definition bare (seg : TCPSegment.t) : Prop := TCPSegment.length_in_sequence_space seg = 0.

(** The invariant of a sender whose stream has the history [a]. *)
Record inv (cap : Z) (a : ByteStreamSpec.t) (s : t) : Prop := {
  inv_stream : ByteStreamSpec.sim cap (_stream s) a;
  inv_next : _next_seqno s =
    b2z (_syn_sent s) + len (ByteStreamSpec.delivered a) + b2z (_fin_sent s);
  inv_syn : _syn_sent s = false →
    _fin_sent s = false ∧ ByteStreamSpec.delivered a = [] ∧ _segments_outstanding s = [];
  inv_flight : 0 ≤ _bytes_in_flight s;
  inv_outstanding :
    laid_out (_isn s) (ByteStreamSpec.delivered a) (_fin_sent s)
      (_next_seqno s - _bytes_in_flight s) (_segments_outstanding s) (_next_seqno s);
  inv_timer : _timer_running s = bool_decide (_segments_outstanding s ≠ []);
  inv_free : 0 ≤ _receiver_free_space s < 2 ^ 16;
  inv_out : Forall (λ seg, bare seg ∨
    ∃ p, carries (_isn s) (ByteStreamSpec.delivered a) (_fin_sent s) p seg) (_segments_out s)
}.

(** The numbers are in the range where 32-bit sequence numbers are not ambiguous:
    the stream is shorter than 2^62 bytes and less than 1 GiB is in flight. *)
Definition in_range (a : ByteStreamSpec.t) (s : t) : Prop :=
  len (ByteStreamSpec.accepted a) < 2 ^ 62 ∧ _bytes_in_flight s < 2 ^ 30.

(** What a sender's owner does with it. *)
Inductive event :=
| Write (data : bytes)
| EndInput
| Fill
| Ack (ackno : WrappingInt32) (window_size : Z)
| Tick (ms : Z)
| Empty
| Dequeue.

Definition handle (s : t) (e : event) : outcome t :=
  match e with
  | Write data => Ok (s <| _stream ::= λ st, (ByteStream.write st data).1 |>)
  | EndInput => Ok (s <| _stream ::= ByteStream.end_input |>)
  | Fill => fill_window s
  | Ack ackno w => ack_received s ackno w
  | Tick ms => tick s ms
  | Empty => Ok (send_empty_segment s)
  | Dequeue => Ok (s <| _segments_out ::= tail |>)
  end.

(** The bytes a write adds to the stream: those that fit. *)
Definition written (s : t) (e : event) : bytes :=
  match e with
  | Write data => take (Z.to_nat (ByteStream.remaining_capacity (_stream s))) data
  | _ => []
  end.

(** A window is a [uint16_t]; the sequence numbers stay unambiguous. *)
Definition event_ok (A : bytes) (s : t) (e : event) : Prop :=
  len A < 2 ^ 62 ∧ _bytes_in_flight s < 2 ^ 30 ∧
  match e with Ack _ w => 0 ≤ w < 2 ^ 16 | _ => True end.

(** The states of a sender whose stream has accepted the bytes [A]. *)
Inductive reach (cap : Z) : bytes → t → Prop :=
| reach_make retx_timeout fixed_isn random :
    reach cap [] (make cap retx_timeout fixed_isn random)
| reach_event A s e s' :
    reach cap A s → event_ok A s e → handle s e = Ok s' → reach cap (A ++ written s e) s'.

End TCPSender.

(** ** Lemmas *)

Section layout.
Import TCPSender.
Implicit Types (isn : WrappingInt32) (D : bytes) (seg : TCPSegment.t).

Lemma carries_grow isn D x fs fs' p seg :
  carries isn D fs p seg → (fs = true → fs' = true ∧ x = []) → carries isn (D ++ x) fs' p seg.
Proof.
  unfold carries. destruct (TCPHeader.syn _); [naive_solver|].
  intros (Hs & pre & post & -> & -> & Hf) Hx. split; [done|]. exists pre, (post ++ x).
  split_and!; [by rewrite <- !app_assoc|done|]. intros [Hfs ->]%Hf. by destruct (Hx Hfs) as [-> ->].
Qed.

Lemma laid_out_grow isn D x fs fs' p segs e :
  laid_out isn D fs p segs e → (fs = true → fs' = true ∧ x = []) →
  laid_out isn (D ++ x) fs' p segs e.
Proof.
  intros H Hx. revert p H. induction segs as [|seg segs IH]; intros p; [done|].
  intros (Hc & Hl & H). split_and!; [by apply (carries_grow isn D x fs)|done|by apply IH].
Qed.

Lemma laid_out_snoc isn D fs p segs e seg :
  laid_out isn D fs p segs e → carries isn D fs e seg →
  0 < TCPSegment.length_in_sequence_space seg →
  laid_out isn D fs p (segs ++ [seg]) (e + TCPSegment.length_in_sequence_space seg).
Proof.
  intros H Hc Hl. revert p H. induction segs as [|seg' segs IH]; intros p H; cbn in *; [by subst|].
  destruct H as (? & ? & ?). split_and!; try done. by apply IH.
Qed.

Lemma laid_out_le isn D fs p segs e : laid_out isn D fs p segs e → p ≤ e ∧ (segs ≠ [] → p < e).
Proof.
  revert p. induction segs as [|seg segs IH]; intros p; cbn; [intros ->; done|].
  intros (_ & Hl & [H _]%IH). split; [lia|]. intros _. lia.
Qed.

End layout.

Section sending.
Import TCPSender.
Context (cap : Z) (Hcap : 0 < cap < 2 ^ 31).
Implicit Types (a : ByteStreamSpec.t) (s : t).

(** The segment the code builds for a payload, with or without a FIN. *)
Definition data_segment (b : Buffer.t) (f : bool) : TCPSegment.t :=
  TCPSegment.mk (TCPHeader.default <| TCPHeader.fin := f |>) b.

(** The history after the sender reads the next [n] bytes. *)
Definition read_on (a : ByteStreamSpec.t) (data : bytes) : ByteStreamSpec.t :=
  a <| ByteStreamSpec.delivered ::= λ d, d ++ data |>.

(** The sender after it has read [n] bytes and noted whether it sends the FIN. *)
Definition taken (s : t) (n : Z) (f : bool) : t :=
  s <| _stream := (ByteStream.read (_stream s) n).1 |> <| _fin_sent := f |>.

Lemma delivered_le a s :
  inv cap a s → len (ByteStreamSpec.accepted a) =
    len (ByteStreamSpec.delivered a) + len (ByteStream.buffer (_stream s)).
Proof. intros Hi. by rewrite (ByteStreamSpec.sim_split _ _ _ (inv_stream _ _ _ Hi)), len_app. Qed.

Lemma flight_le_next a s : inv cap a s → _bytes_in_flight s ≤ _next_seqno s.
Proof.
  intros Hi. pose proof (inv_outstanding _ _ _ Hi) as Hl. pose proof (inv_next _ _ _ Hi) as Hn.
  assert (0 ≤ _next_seqno s).
  { rewrite Hn. pose proof (len_nonneg (ByteStreamSpec.delivered a)).
    destruct (_syn_sent s), (_fin_sent s); cbn; lia. }
  destruct (_segments_outstanding s) as [|seg segs]; cbn in Hl; [lia|].
  destruct Hl as ((_ & Hc) & _). destruct (TCPHeader.syn _); [lia|].
  destruct Hc as (pre & post & _ & Hp & _). pose proof (len_nonneg pre). lia.
Qed.

Lemma length_data_segment b f :
  len (Buffer.str b) < 2 ^ 63 →
  TCPSegment.length_in_sequence_space (data_segment b f) = len (Buffer.str b) + b2z f.
Proof.
  intros Hl. unfold TCPSegment.length_in_sequence_space. cbn [data_segment TCPSegment.payload
    TCPSegment.header]. cbn [TCPHeader.syn TCPHeader.fin TCPHeader.default upd].
  pose proof (len_nonneg (Buffer.str b)). change (b2z false) with 0.
  rewrite u64_id; destruct f; cbn [b2z]; lia.
Qed.

(** The segment [_send_segment] queues. *)
Definition stamped (s : t) (seg : TCPSegment.t) : TCPSegment.t :=
  seg <| TCPSegment.header ::= λ h, h <| TCPHeader.seqno := wrap (_next_seqno s) (_isn s) |> |>.

Lemma length_stamped s seg :
  TCPSegment.length_in_sequence_space (stamped s seg) = TCPSegment.length_in_sequence_space seg.
Proof. done. Qed.

Lemma send_segment_eq s seg :
  let n := TCPSegment.length_in_sequence_space seg in
  _syn_sent s = true → 0 ≤ _next_seqno s + n < 2 ^ 64 → 0 ≤ _bytes_in_flight s + n < 2 ^ 64 →
  _send_segment s seg =
    s <| _next_seqno := _next_seqno s + n |> <| _bytes_in_flight := _bytes_in_flight s + n |>
      <| _receiver_free_space := u16 (_receiver_free_space s - n) |>
      <| _segments_out := _segments_out s ++ [stamped s seg] |>
      <| _segments_outstanding := _segments_outstanding s ++ [stamped s seg] |>
      <| _timer_running := true |>
      <| _time_elapsed := if _timer_running s then _time_elapsed s else 0 |>.
Proof.
  intros n Hsyn H1 H2. unfold _send_segment. cbv zeta. fold (stamped s seg).
  rewrite length_stamped. fold n. generalize (stamped s seg). clearbody n. intros seg'.
  destruct s; cbn in *. rewrite Hsyn. cbn. rewrite !u64_id by done. by destruct _timer_running0.
Qed.

(** Sending a segment that continues what is in flight keeps the invariant. *)
Lemma send_inv a a' s s1 seg :
  let n := TCPSegment.length_in_sequence_space seg in
  inv cap a s → len (ByteStreamSpec.accepted a) < 2 ^ 62 → 0 < n → n < 2 ^ 63 →
  s1 = s <| _stream := _stream s1 |> <| _syn_sent := true |> <| _fin_sent := _fin_sent s1 |> →
  ByteStreamSpec.sim cap (_stream s1) a' →
  (∃ x, ByteStreamSpec.delivered a' = ByteStreamSpec.delivered a ++ x) →
  _fin_sent s = false →
  carries (_isn s) (ByteStreamSpec.delivered a') (_fin_sent s1) (_next_seqno s) (stamped s seg) →
  _next_seqno s + n = 1 + len (ByteStreamSpec.delivered a') + b2z (_fin_sent s1) →
  inv cap a' (_send_segment s1 seg).
Proof.
  intros n Hi HA Hn Hn63 Hs1 Hsim [x Hx] Hfin Hc Hnext.
  pose proof (delivered_le a s Hi) as Hacc. pose proof (flight_le_next a s Hi) as Hfl.
  pose proof (inv_flight _ _ _ Hi). pose proof (inv_next _ _ _ Hi) as Hnext0.
  rewrite Hfin in Hnext0. pose proof (len_nonneg (ByteStream.buffer (_stream s))).
  assert (0 ≤ b2z (_syn_sent s) ≤ 1) by (by destruct (_syn_sent s)). cbn [b2z] in Hnext0.
  assert (E : _next_seqno s1 = _next_seqno s ∧ _bytes_in_flight s1 = _bytes_in_flight s ∧
    _isn s1 = _isn s ∧ _segments_outstanding s1 = _segments_outstanding s ∧
    _segments_out s1 = _segments_out s ∧ _syn_sent s1 = true).
  { rewrite Hs1. done. }
  destruct E as (E1 & E2 & E3 & E4 & E5 & E6).
  assert (Est : stamped s1 seg = stamped s seg) by (unfold stamped; by rewrite E1, E3).
  rewrite send_segment_eq by (rewrite ?E1, ?E2; done || lia). fold n. rewrite Est.
  clear Hs1 Est. constructor; cbn.
  - done.
  - rewrite E1, E6. exact Hnext.
  - by rewrite E6.
  - lia.
  - rewrite E1, E2, E3, E4.
    replace (_next_seqno s + n - (_bytes_in_flight s + n)) with (_next_seqno s - _bytes_in_flight s) by lia.
    apply laid_out_snoc; [|done|done]. rewrite Hx.
    apply (laid_out_grow _ _ _ (_fin_sent s)); [apply Hi|congruence].
  - symmetry. apply bool_decide_eq_true_2. by destruct (_segments_outstanding s1).
  - apply u16_bound.
  - rewrite E5, E3. apply Forall_app. split; [|apply Forall_singleton; right; by eexists].
    eapply Forall_impl; [apply (inv_out _ _ _ Hi)|]. cbn. intros seg' [?|[p Hp]]; [by left|right].
    exists p. rewrite Hx. apply (carries_grow _ _ _ (_fin_sent s)); [done|congruence].
Qed.

(** Reading [n] bytes and sending them, possibly with the FIN. *)
Lemma send_data a s n f b :
  inv cap a s → len (ByteStreamSpec.accepted a) < 2 ^ 62 → _syn_sent s = true → _fin_sent s = false →
  0 ≤ n ≤ len (ByteStream.buffer (_stream s)) → 0 < n ∨ f = true →
  let data := take (Z.to_nat n) (ByteStream.buffer (_stream s)) in
  Buffer.str b = data →
  let s' := _send_segment (taken s n f) (data_segment b f) in
  inv cap (read_on a data) s' ∧
  s' = s <| _stream := (_stream s) <| ByteStream.buffer ::= drop (Z.to_nat n) |>
                         <| ByteStream.read_bytes ::= λ r, u64 (r + n) |> |>
    <| _fin_sent := f |> <| _next_seqno := _next_seqno s + (n + b2z f) |>
    <| _bytes_in_flight := _bytes_in_flight s + (n + b2z f) |>
    <| _receiver_free_space := u16 (_receiver_free_space s - (n + b2z f)) |>
    <| _segments_out := _segments_out s ++ [stamped s (data_segment b f)] |>
    <| _segments_outstanding := _segments_outstanding s ++ [stamped s (data_segment b f)] |>
    <| _timer_running := true |>
    <| _time_elapsed := if _timer_running s then _time_elapsed s else 0 |>.
Proof.
  intros Hi HA Hsyn Hfin Hn Hnf data Hb s'.
  pose proof (delivered_le a s Hi) as Hacc. pose proof (flight_le_next a s Hi) as Hfl.
  pose proof (inv_flight _ _ _ Hi). pose proof (inv_next _ _ _ Hi) as Hnext.
  rewrite Hsyn, Hfin in Hnext. cbn [b2z] in Hnext. pose proof (len_nonneg (ByteStreamSpec.delivered a)).
  assert (Hlen : len data = n) by (unfold data; rewrite len_take; lia).
  assert (Hb2z : 0 ≤ b2z f ≤ 1) by (by destruct f).
  assert (Hread : (ByteStream.read (_stream s) n).1 = (_stream s) <| ByteStream.buffer ::= drop (Z.to_nat n) |>
    <| ByteStream.read_bytes ::= λ r, u64 (r + n) |>).
  { unfold ByteStream.read. by destruct (_ >? _) eqn:E; [lia|]. }
  assert (Hseg : TCPSegment.length_in_sequence_space (data_segment b f) = n + b2z f).
  { rewrite length_data_segment; rewrite Hb, Hlen; lia. }
  split.
  - apply (send_inv a _ s); try rewrite Hseg; try done.
    + destruct Hnf as [?| ->]; cbn; lia.
    + lia.
    + clear - Hsyn. unfold taken. destruct s; cbn in *. by rewrite Hsyn.
    + cbn [taken upd _stream]. rewrite Hread. unfold read_on.
      pose proof (sim_deliver cap (_stream s) a n (inv_stream _ _ _ Hi) Hn) as Hd.
      by rewrite (sim_pending cap _ _ (inv_stream _ _ _ Hi)) in Hd.
    + by eexists.
    + split; [done|]. cbn. exists (ByteStreamSpec.delivered a), []. rewrite app_nil_r.
      rewrite Hb. split_and!; [done|lia|]. done.
    + cbn. rewrite len_app, Hnext, Hlen. lia.
  - unfold s'. rewrite send_segment_eq; rewrite ?Hseg; [|done|cbn; lia|cbn; lia].
    unfold taken. rewrite Hread. done.
Qed.

(** What sending new data leaves alone, and how the numbers move together. *)
Record advanced (a : ByteStreamSpec.t) (s : t) (a' : ByteStreamSpec.t) (s' : t) : Prop := {
  adv_inv : inv cap a' s';
  adv_accepted : ByteStreamSpec.accepted a' = ByteStreamSpec.accepted a;
  adv_ended : ByteStreamSpec.ended a' = ByteStreamSpec.ended a;
  adv_isn : _isn s' = _isn s;
  adv_syn : _syn_sent s = true → _syn_sent s' = true;
  adv_window : _receiver_window_size s' = _receiver_window_size s;
  adv_rto : _rto s' = _rto s;
  adv_initial : _initial_retransmission_timeout s' = _initial_retransmission_timeout s;
  adv_retx : _consecutive_retransmissions s' = _consecutive_retransmissions s;
  adv_base : _next_seqno s' - _bytes_in_flight s' = _next_seqno s - _bytes_in_flight s;
  adv_next : _next_seqno s ≤ _next_seqno s';
  adv_queue : ∃ q, _segments_outstanding s' = _segments_outstanding s ++ q ∧
                   _segments_out s' = _segments_out s ++ q;
  adv_grow : ∃ x, ByteStreamSpec.delivered a' = ByteStreamSpec.delivered a ++ x ∧
                  (_fin_sent s = true → _fin_sent s' = true ∧ x = []);
  adv_fin : _fin_sent s' = true → _fin_sent s = true ∨
    ByteStreamSpec.ended a' = true ∧ ByteStreamSpec.accepted a' = ByteStreamSpec.delivered a'
}.

Lemma advanced_refl a s : inv cap a s → advanced a s a s.
Proof.
  intros Hi. constructor; try done; [exists []; by rewrite !app_nil_r| |by left].
  exists []. by rewrite app_nil_r.
Qed.

(** Once all that was accepted has been taken, there is nothing more to take. *)
Lemma exhausted a s x :
  inv cap a s → (∃ d, ByteStreamSpec.delivered a = d ++ x ∧ ByteStreamSpec.accepted a = d) → x = [].
Proof.
  intros Hi (d & Hd & Ha). pose proof (delivered_le a s Hi) as Hl. rewrite Hd, Ha, len_app in Hl.
  apply len_zero_nil. pose proof (len_nonneg x). pose proof (len_nonneg (ByteStream.buffer (_stream s))). lia.
Qed.

Lemma advanced_trans a1 s1 a2 s2 a3 s3 :
  advanced a1 s1 a2 s2 → advanced a2 s2 a3 s3 → advanced a1 s1 a3 s3.
Proof.
  intros H1 H2. destruct (adv_queue _ _ _ _ H1) as (q1 & Hq1 & Hq1').
  destruct (adv_queue _ _ _ _ H2) as (q2 & Hq2 & Hq2').
  destruct (adv_grow _ _ _ _ H1) as (x1 & Hx1 & Hf1). destruct (adv_grow _ _ _ _ H2) as (x2 & Hx2 & Hf2).
  pose proof (exhausted a3 s3 x2 (adv_inv _ _ _ _ H2)) as Hex.
  destruct H1 as [? ? ? ? ? ? ? ? ? ? ? _ _ Hfin1], H2 as [? ? ? ? ? ? ? ? ? ? ? _ _ Hfin2].
  constructor; try congruence; try lia; auto.
  - exists (q1 ++ q2). rewrite Hq2, Hq1, Hq2', Hq1'. by rewrite !app_assoc.
  - exists (x1 ++ x2). rewrite Hx2, Hx1, app_assoc. split; [done|].
    intros [Hs2 ->]%Hf1. by destruct (Hf2 Hs2) as [-> ->].
  - intros [Hs2|?]%Hfin2; [|by right]. destruct (Hfin1 Hs2) as [?|[He Ha]]; [by left|]. right.
    split; [congruence|]. rewrite Hex in Hx2 by (exists (ByteStreamSpec.delivered a2); split; congruence).
    rewrite app_nil_r in Hx2. congruence.
Qed.

Lemma send_data_advanced a s n f b :
  inv cap a s → len (ByteStreamSpec.accepted a) < 2 ^ 62 → _syn_sent s = true → _fin_sent s = false →
  0 ≤ n ≤ len (ByteStream.buffer (_stream s)) → 0 < n ∨ f = true →
  (f = true → drop (Z.to_nat n) (ByteStream.buffer (_stream s)) = [] ∧
    ByteStream.input_ended (_stream s) = true) →
  let data := take (Z.to_nat n) (ByteStream.buffer (_stream s)) in
  Buffer.str b = data →
  let s' := _send_segment (taken s n f) (data_segment b f) in
  advanced a s (read_on a data) s' ∧ _next_seqno s' = _next_seqno s + (n + b2z f) ∧
  _receiver_free_space s' = u16 (_receiver_free_space s - (n + b2z f)) ∧ _fin_sent s' = f ∧
  ByteStream.buffer (_stream s') = drop (Z.to_nat n) (ByteStream.buffer (_stream s)) ∧
  ByteStream.input_ended (_stream s') = ByteStream.input_ended (_stream s).
Proof.
  intros Hi HA Hsyn Hfin Hn Hnf Hlast data Hb s'.
  destruct (send_data a s n f b Hi HA Hsyn Hfin Hn Hnf Hb) as [Hi' Hs']. fold data in Hi', Hs'. fold s' in Hi', Hs'.
  assert (0 ≤ b2z f ≤ 1) by (by destruct f).
  clearbody s'. split; [constructor|]; rewrite ?Hs'; cbn; try done; [by rewrite Hs' in Hi'|lia|lia|by eexists|..].
  - exists data. by rewrite Hfin.
  - intros [Hd He]%Hlast. right. rewrite <- (ByteStreamSpec.sim_ended _ _ _ (inv_stream _ _ _ Hi)).
    split; [done|]. rewrite (ByteStreamSpec.sim_split _ _ _ (inv_stream _ _ _ Hi)).
    unfold data. rewrite <- (take_drop (Z.to_nat n) (ByteStream.buffer (_stream s))) at 1. by rewrite Hd, app_nil_r.
Qed.

Lemma taken_same s n : _fin_sent s = false → s <| _stream := (ByteStream.read (_stream s) n).1 |> = taken s n false.
Proof. intros H. unfold taken. destruct s. cbn in *. by rewrite H. Qed.

(** One round of the loop of [fill_window]. *)
Lemma fill_loop_unfold fuel s :
  _fin_sent s = false →
  fill_loop (S fuel) s =
    if _receiver_free_space s =? 0 then Ok s
    else
      let n := Z.min (Z.min (len (ByteStream.buffer (_stream s))) (_receiver_free_space s)) 1000 in
      let data := take (Z.to_nat n) (ByteStream.buffer (_stream s)) in
      let f := (len (drop (Z.to_nat n) (ByteStream.buffer (_stream s))) =? 0) &&
               ByteStream.input_ended (_stream s) && (_receiver_free_space s >? n) in
      let s' := _send_segment (taken s n f) (data_segment (Buffer.of_string data) f) in
      if ByteStream.buffer_empty (_stream s') then Ok s' else fill_loop fuel s'.
Proof.
  intros Hfin. cbn [fill_loop]. unfold TCPConfig.MAX_PAYLOAD_SIZE, ByteStream.buffer_size.
  destruct (_receiver_free_space s =? 0) eqn:E0; [done|]. cbn [negb]. cbv zeta.
  set (n := Z.min _ 1000). set (data := take _ _).
  assert (Hread : ByteStream.read (_stream s) n =
    ((_stream s) <| ByteStream.buffer ::= drop (Z.to_nat n) |>
       <| ByteStream.read_bytes ::= λ r, u64 (r + n) |>, data)).
  { unfold ByteStream.read. destruct (_ >? _) eqn:E; [unfold n in E; lia|done]. }
  assert (Htaken : ∀ f, taken s n f = s <| _stream := (_stream s) <| ByteStream.buffer ::= drop (Z.to_nat n) |>
       <| ByteStream.read_bytes ::= λ r, u64 (r + n) |> |> <| _fin_sent := f |>).
  { intros f. unfold taken. by rewrite Hread. }
  rewrite Hread, Htaken. unfold ByteStream.eof, ByteStream.buffer_empty, ByteStream.input_ended.
  cbn -[n data _send_segment fill_loop].
  destruct (_ && _); [done|].
  by rewrite Hfin.
Qed.

Lemma fill_loop_spec fuel a s :
  inv cap a s → len (ByteStreamSpec.accepted a) < 2 ^ 62 → _syn_sent s = true → _fin_sent s = false →
  ByteStream.buffer (_stream s) ≠ [] ∨ ByteStream.input_ended (_stream s) = true →
  (length (ByteStream.buffer (_stream s)) < fuel)%nat →
  ∃ a' s', fill_loop fuel s = Ok s' ∧ advanced a s a' s' ∧
    _next_seqno s' + _receiver_free_space s' = _next_seqno s + _receiver_free_space s ∧
    (_receiver_free_space s' = 0 ∨
     ByteStream.buffer (_stream s') = [] ∧ _fin_sent s' = ByteStream.input_ended (_stream s')).
Proof.
  revert a s. induction fuel as [|fuel IH]; intros a s Hi HA Hsyn Hfin Hwork Hfuel; [lia|].
  rewrite fill_loop_unfold by done. pose proof (inv_free _ _ _ Hi) as Hfree.
  destruct (_receiver_free_space s =? 0) eqn:E0.
  { exists a, s. split; [done|]. split; [by apply advanced_refl|]. split; [done|]. left. lia. }
  cbv zeta. set (n := Z.min _ 1000). set (f := _ && (_receiver_free_space s >? n)).
  pose proof (len_nonneg (ByteStream.buffer (_stream s))) as Hbl.
  assert (Hn : 0 ≤ n ≤ len (ByteStream.buffer (_stream s))) by (unfold n; lia).
  assert (Hnf : 0 < n ∨ f = true).
  { destruct (decide (ByteStream.buffer (_stream s) = [])) as [Hb|Hb].
    - right. assert (n = 0) as Hn0 by (rewrite Hb, (@len_nil Z) in Hn; lia). unfold f. rewrite Hn0, Hb.
      destruct Hwork as [?| ->]; [done|]. rewrite drop_nil, (@len_nil Z). cbn. lia.
    - left. assert (len (ByteStream.buffer (_stream s)) ≠ 0) by (by intros ?%len_zero_nil).
      unfold n. lia. }
  assert (Hroom : n + b2z f ≤ _receiver_free_space s).
  { assert (Hle : n ≤ _receiver_free_space s) by (unfold n; lia). unfold f. clear -Hle. clearbody n.
    destruct (_ >? n) eqn:E; rewrite ?andb_false_r, ?andb_true_r; [|cbn; lia].
    destruct (_ && _); cbn; lia. }
  assert (Hlast : f = true → drop (Z.to_nat n) (ByteStream.buffer (_stream s)) = [] ∧
    ByteStream.input_ended (_stream s) = true).
  { unfold f. intros [[Hd%Z.eqb_eq%len_zero_nil He]%andb_prop _]%andb_prop. done. }
  destruct (send_data_advanced a s n f (Buffer.of_string (take (Z.to_nat n) (ByteStream.buffer (_stream s))))
    Hi HA Hsyn Hfin Hn Hnf Hlast eq_refl) as (Hadv & Hnx & Hfr & Hfs & Hbuf & Hend).
  set (s' := _send_segment _ _) in *. set (a' := read_on _ _) in *. clearbody s' a'.
  assert (0 ≤ b2z f ≤ 1) by (by destruct f). rewrite u16_id in Hfr by lia.
  unfold ByteStream.buffer_empty. rewrite Hbuf. destruct (len (drop _ _) =? 0) eqn:Eb.
  - exists a', s'. split; [done|]. split; [done|]. split; [lia|].
    apply Z.eqb_eq, len_zero_nil in Eb. rewrite Hbuf, Hend, Hfs. unfold f. rewrite Eb. cbn [andb].
    destruct (_ >? n) eqn:E; rewrite ?andb_true_r; [by right|left].
    assert (f = false) as Hf by (unfold f; by rewrite andb_false_r). rewrite Hf in *. cbn in *. lia.
  - assert (Hf : f = false) by done.
    rewrite len_drop in Eb by lia. rewrite Hf in *. cbn [b2z] in *.
    destruct (IH a' s') as (a2 & s2 & Hl & Hadv2 & Hsum & Hdone).
    + apply Hadv.
    + by rewrite (adv_accepted _ _ _ _ Hadv).
    + by apply (adv_syn _ _ _ _ Hadv).
    + done.
    + left. rewrite Hbuf. intros Hb. apply (f_equal len) in Hb. rewrite len_drop, (@len_nil Z) in Hb by lia. lia.
    + rewrite Hbuf, length_drop. unfold len in *. lia.
    + exists a2, s2. split; [done|]. split; [by apply (advanced_trans a s a' s')|]. split; [lia|done].
Qed.

Lemma read_nothing a s :
  inv cap a s → (ByteStream.read (_stream s) 0).1 = _stream s.
Proof.
  intros Hi. pose proof (ByteStreamSpec.sim_read _ _ _ (inv_stream _ _ _ Hi)) as Hr.
  unfold ByteStream.bytes_read in Hr. unfold ByteStream.read.
  destruct (0 >? _) eqn:E; [pose proof (len_nonneg (ByteStream.buffer (_stream s))); lia|].
  destruct (_stream s); cbn in *. rewrite Hr, Z.add_0_r. unfold u64. by rewrite Z.mod_mod by lia.
Qed.

Lemma send_syn a s :
  inv cap a s → len (ByteStreamSpec.accepted a) < 2 ^ 62 → _syn_sent s = false →
  let seg := TCPSegment.default <| TCPSegment.header ::= λ h, h <| TCPHeader.syn := true |> |> in
  let s' := _send_segment (s <| _syn_sent := true |>) seg in
  advanced a s a s' ∧ _next_seqno s' = _next_seqno s + 1 ∧
  _receiver_free_space s' = u16 (_receiver_free_space s - 1).
Proof.
  intros Hi HA Hsyn seg s'. destruct (inv_syn _ _ _ Hi Hsyn) as (Hf & Hd & Ho).
  pose proof (inv_next _ _ _ Hi) as Hn. rewrite Hsyn, Hf, Hd in Hn. cbn in Hn.
  change (0 + len (@nil Z) + 0) with 0 in Hn. pose proof (inv_flight _ _ _ Hi).
  pose proof (flight_le_next a s Hi).
  assert (Hi' : inv cap a s').
  { apply (send_inv a a s); try done.
    - apply (inv_stream _ _ _ Hi).
    - exists []. by rewrite app_nil_r.
    - change (TCPSegment.length_in_sequence_space seg) with 1. cbn. by rewrite Hd, Hf, Hn. }
  assert (Hs' : s' = _send_segment (s <| _syn_sent := true |>) seg) by done. clearbody s'.
  rewrite send_segment_eq in Hs';
    [|done|change (TCPSegment.length_in_sequence_space seg) with 1; cbn; lia..].
  change (TCPSegment.length_in_sequence_space seg) with 1 in Hs'.
  split; [constructor|]; rewrite ?Hs'; cbn; try done; [by rewrite Hs' in Hi'|lia|lia|by eexists| |by left].
  exists []. by rewrite app_nil_r.
Qed.

(** How far one call of [fill_window] may go. *)
Definition within_window (s s' : t) : Prop :=
  _next_seqno s' ≤ _next_seqno s + Z.max 1 (_receiver_free_space s) ∧
  (_syn_sent s = true → _receiver_window_size s ≠ 0 →
   _next_seqno s' ≤ _next_seqno s + _receiver_free_space s) ∧
  (_syn_sent s = true → _receiver_window_size s = 0 → _receiver_free_space s ≠ 0 →
   _next_seqno s' = _next_seqno s) ∧
  _receiver_free_space s' = u16 (_receiver_free_space s - (_next_seqno s' - _next_seqno s)).

(** A full window is probed with one number. *)
Lemma probe_spec a s :
  inv cap a s → len (ByteStreamSpec.accepted a) < 2 ^ 62 → _syn_sent s = true → _fin_sent s = false →
  _receiver_free_space s = 0 →
  ByteStream.buffer (_stream s) ≠ [] ∨ ByteStream.input_ended (_stream s) = true →
  ∃ a' s',
    (let seg := TCPSegment.default in
     if ByteStream.eof (_stream s) then
       let seg := seg <| TCPSegment.header ::= λ h, h <| TCPHeader.fin := true |> |> in
       let s := s <| _fin_sent := true |> in
       Ok (_send_segment s seg)
     else if negb (ByteStream.buffer_empty (_stream s)) then
       let '(stream, data) := ByteStream.read (_stream s) 1 in
       let s := s <| _stream := stream |> in
       let seg := seg <| TCPSegment.payload := Buffer.of_string data |> in
       Ok (_send_segment s seg)
     else Ok s) = Ok s' ∧
    advanced a s a' s' ∧ _next_seqno s' = _next_seqno s + 1 ∧ _receiver_free_space s' = u16 (-1).
Proof.
  intros Hi HA Hsyn Hfin H0 Hdata. pose proof (len_nonneg (ByteStream.buffer (_stream s))). cbv zeta.
  destruct (ByteStream.eof (_stream s)) eqn:Eeof.
  - destruct (send_data_advanced a s 0 true Buffer.default) as (Hadv & Hnx & Hfr & _); try done; [by right|..].
    { intros _. apply andb_prop in Eeof as [?%Z.eqb_eq%len_zero_nil ?]. done. }
    unfold taken in *. rewrite (read_nothing a s Hi), H0 in *.
    eexists _, _. split; [|split; [exact Hadv|]]; [by destruct s|]. by rewrite Hnx, Hfr.
  - unfold ByteStream.eof, ByteStream.buffer_empty, ByteStream.buffer_size in *.
    destruct (len _ =? 0) eqn:Eb.
    { apply Z.eqb_eq, len_zero_nil in Eb. destruct Hdata as [?|He]; [done|]. unfold ByteStream.input_ended in *. by rewrite He in Eeof. }
    cbn [negb].
    destruct (send_data_advanced a s 1 false (Buffer.of_string (take 1 (ByteStream.buffer (_stream s)))))
      as (Hadv & Hnx & Hfr & _); try done; [lia|by left|].
    rewrite <- taken_same, H0 in * by done.
    unfold ByteStream.read in *. destruct (1 >? _) eqn:E1; [unfold ByteStream.buffer_size in *; lia|].
    eexists _, _. split; [|split; [exact Hadv|]]; [done|]. by rewrite Hnx, Hfr.
Qed.

(** [fill_window] always returns and keeps the invariant. *)
Lemma fill_window_spec a s :
  inv cap a s → len (ByteStreamSpec.accepted a) < 2 ^ 62 →
  ∃ a' s', fill_window s = Ok s' ∧ advanced a s a' s' ∧ within_window s s'.
Proof.
  intros Hi HA. unfold fill_window. pose proof (inv_free _ _ _ Hi).
  destruct (_syn_sent s) eqn:Hsyn; cbn [negb].
  2:{ destruct (send_syn a s Hi HA Hsyn) as (? & Hnx & Hfr). eexists a, _. split; [done|]. split; [done|].
      unfold within_window. rewrite Hsyn, Hnx, Hfr. split_and!; try done; [lia|f_equal; lia]. }
  assert (Hskip : ∃ a' s', Ok s = Ok s' ∧ advanced a s a' s' ∧ within_window s s').
  { exists a, s. split; [done|]. split; [by apply advanced_refl|]. unfold within_window.
    rewrite u16_id by lia. lia. }
  destruct (front_is_syn s); [done|].
  destruct (_ && negb _) eqn:Ework; [done|]. destruct (_fin_sent s) eqn:Hfin; [done|].
  destruct (negb (_receiver_window_size s =? 0)) eqn:Ewin.
  { destruct (fill_loop_spec (S (length (ByteStream.buffer (_stream s)))) a s)
      as (a' & s' & Hl & Hadv & Hsum & _); try done; [|lia|].
    - unfold ByteStream.eof, ByteStream.buffer_empty, ByteStream.buffer_size, ByteStream.input_ended in *.
      destruct (len _ =? 0) eqn:E; cbn [andb negb] in Ework; [right; by apply negb_false_iff|].
      left. intros Hb. by rewrite Hb in E.
    - exists a', s'. split; [done|]. split; [done|].
      pose proof (inv_free _ _ _ (adv_inv _ _ _ _ Hadv)). unfold within_window. rewrite u16_id; lia. }
  apply negb_false_iff, Z.eqb_eq in Ewin.
  destruct (_receiver_free_space s =? 0) eqn:E0; [|done].
  destruct (probe_spec a s Hi HA Hsyn Hfin) as (a' & s' & Hp & Hadv & Hnx & Hfr); [lia| |].
  - unfold ByteStream.eof, ByteStream.buffer_empty, ByteStream.buffer_size, ByteStream.input_ended in *.
    destruct (len _ =? 0) eqn:E; cbn [andb negb] in Ework; [right; by apply negb_false_iff|].
    left. intros Hb. by rewrite Hb in E.
  - exists a', s'. split; [exact Hp|]. split; [done|]. unfold within_window. rewrite Hnx, Hfr.
    split_and!; try done; try lia. f_equal. lia.
Qed.

(** With the window open, [fill_window] stops only when the free space is used up
    or there is nothing left to send. *)
Lemma fill_window_room a s :
  inv cap a s → len (ByteStreamSpec.accepted a) < 2 ^ 62 →
  _syn_sent s = true → front_is_syn s = false → _fin_sent s = false → _receiver_window_size s ≠ 0 →
  ∃ a' s', fill_window s = Ok s' ∧ advanced a s a' s' ∧
    _next_seqno s' - _next_seqno s = _receiver_free_space s - _receiver_free_space s' ∧
    0 ≤ _receiver_free_space s' ≤ _receiver_free_space s ∧
    (_receiver_free_space s' = 0 ∨
     ByteStream.buffer (_stream s') = [] ∧ _fin_sent s' = ByteStream.input_ended (_stream s')).
Proof.
  intros Hi HA Hsyn Hfront Hfin Hwin.
  unfold fill_window. rewrite Hsyn, Hfront, Hfin. cbn [negb].
  pose proof (inv_free _ _ _ Hi) as Hfree.
  destruct (_ && negb _) eqn:Ework.
  - exists a, s. split_and!; try done; [by apply advanced_refl|lia..|]. right.
    apply andb_prop in Ework as [Eb Ee]. apply Z.eqb_eq, len_zero_nil in Eb. split; [done|].
    rewrite Hfin. unfold ByteStream.eof, ByteStream.buffer_empty in Ee. rewrite Eb in Ee.
    by destruct (ByteStream.end_write _) eqn:E in Ee.
  - destruct (_receiver_window_size s =? 0) eqn:Ew; [lia|]. cbn [negb].
    destruct (fill_loop_spec (S (length (ByteStream.buffer (_stream s)))) a s)
      as (a' & s' & Hl & Hadv & Hsum & Hend); try done; [|lia|].
    + unfold ByteStream.eof, ByteStream.buffer_empty, ByteStream.buffer_size, ByteStream.input_ended in *.
      destruct (len _ =? 0) eqn:E; cbn [andb negb] in Ework; [right; by apply negb_false_iff|].
      left. intros Hb. by rewrite Hb in E.
    + exists a', s'. pose proof (inv_free _ _ _ (adv_inv _ _ _ _ Hadv)).
      pose proof (adv_next _ _ _ _ Hadv). split_and!; try done; lia.
Qed.

(** The number the code recovers for the front of the queue. *)
Lemma unwrap_front isn D fs p seg segs next :
  laid_out isn D fs p (seg :: segs) next → 0 ≤ p → next - p < 2 ^ 31 → next < 2 ^ 63 →
  unwrap (TCPHeader.seqno (TCPSegment.header seg)) isn next = Ok p.
Proof.
  intros Hl Hp Hd Hn. pose proof (laid_out_le _ _ _ _ _ _ Hl) as [Hle _].
  destruct Hl as ((-> & _) & _). apply unwrap_wrap; lia.
Qed.

(** The state after the segments before number [p'] have been acknowledged. *)
Definition acked (s : t) (popped rest : list TCPSegment.t) (p' : Z) : t :=
  match popped with
  | [] => s
  | _ => s <| _bytes_in_flight := _next_seqno s - p' |> <| _segments_outstanding := rest |>
           <| _time_elapsed := 0 |> <| _rto := _initial_retransmission_timeout s |>
           <| _consecutive_retransmissions := 0 |>
  end.

(** The loop of [ack_received] drops exactly the segments that end at or before
    the acknowledged number. *)
Lemma ack_loop_spec D segs s p abs :
  let next := _next_seqno s in
  laid_out (_isn s) D (_fin_sent s) p segs next → segs = _segments_outstanding s →
  _bytes_in_flight s = next - p →
  0 ≤ p → next - p < 2 ^ 31 → next < 2 ^ 63 →
  ∃ popped rest p', segs = popped ++ rest ∧
    ack_loop segs abs s = Ok (acked s popped rest p') ∧
    laid_out (_isn s) D (_fin_sent s) p' rest next ∧ p ≤ p' ∧
    (p ≤ abs → p' ≤ abs) ∧ (popped = [] → p' = p) ∧
    match rest with [] => p' = next | seg :: _ => abs < p' + TCPSegment.length_in_sequence_space seg end.
Proof.
  cbv zeta. revert s p. induction segs as [|seg segs IH]; intros s p Hl Hq Hb Hp Hd Hn; cbn [ack_loop].
  { exists [], [], p. cbn in Hl. by split_and!. }
  rewrite (unwrap_front _ _ _ _ _ _ _ Hl) by done. cbn [mbind outcome_bind].
  destruct Hl as (Hc & Hpos & Hl). pose proof (laid_out_le _ _ _ _ _ _ Hl) as [Hle _].
  set (n := TCPSegment.length_in_sequence_space seg) in *. rewrite u64_id by lia.
  destruct (p + n <=? abs) eqn:E.
  - set (s1 := _ <| _consecutive_retransmissions := 0 |>).
    assert (Hs1 : s1 = s <| _bytes_in_flight := _next_seqno s - (p + n) |> <| _segments_outstanding := segs |>
      <| _time_elapsed := 0 |> <| _rto := _initial_retransmission_timeout s |>
      <| _consecutive_retransmissions := 0 |>).
    { unfold s1. cbn. rewrite Hb, u64_id by lia. by replace (_next_seqno s - (p + n)) with (_next_seqno s - p - n) by lia. }
    clearbody s1.
    destruct (IH s1 (p + n)) as (popped & rest & p' & Hsegs & Hloop & Hl' & Hpp & Habs & Hnil & Hrest);
      try (rewrite ?Hs1; cbn; done || lia).
    exists (seg :: popped), rest, p'. rewrite Hloop, Hsegs. split_and!; try done.
    + rewrite Hs1. destruct popped; [|done]. cbn. by rewrite Hnil, Hsegs by done.
    + by rewrite Hs1 in Hl'.
    + lia.
    + intros _. apply Habs. lia.
    + destruct rest; [by rewrite Hs1 in Hrest|done].
  - exists [], (seg :: segs), p. split_and!; try done. fold n. lia.
Qed.

Lemma next_in_range a s : inv cap a s → in_range a s → 0 ≤ _next_seqno s ≤ 2 ^ 62 + 1.
Proof.
  intros Hi [HA _]. rewrite (inv_next _ _ _ Hi). pose proof (delivered_le a s Hi).
  pose proof (len_nonneg (ByteStreamSpec.delivered a)). pose proof (len_nonneg (ByteStream.buffer (_stream s))).
  destruct (_syn_sent s), (_fin_sent s); cbn [b2z]; lia.
Qed.

(** A sender that differs only in its window, its timer and in having dropped the
    front of its queue. *)
Record dropped (s s2 : t) (rest : list TCPSegment.t) (p' : Z) : Prop := {
  drop_isn : _isn s2 = _isn s;
  drop_out : _segments_out s2 = _segments_out s;
  drop_initial : _initial_retransmission_timeout s2 = _initial_retransmission_timeout s;
  drop_stream : _stream s2 = _stream s;
  drop_next : _next_seqno s2 = _next_seqno s;
  drop_syn : _syn_sent s2 = _syn_sent s;
  drop_fin : _fin_sent s2 = _fin_sent s;
  drop_flight : _bytes_in_flight s2 = _next_seqno s - p';
  drop_queue : _segments_outstanding s2 = rest;
  drop_rto : _rto s2 = _rto s ∨ _rto s2 = _initial_retransmission_timeout s;
  drop_retx : _consecutive_retransmissions s2 = _consecutive_retransmissions s ∧
              p' = _next_seqno s - _bytes_in_flight s ∨ _consecutive_retransmissions s2 = 0
}.

Lemma dropped_inv a s s2 popped rest p' :
  inv cap a s → dropped s s2 rest p' → _segments_outstanding s = popped ++ rest →
  laid_out (_isn s) (ByteStreamSpec.delivered a) (_fin_sent s) p' rest (_next_seqno s) →
  _timer_running s2 = bool_decide (rest ≠ []) → 0 ≤ _receiver_free_space s2 < 2 ^ 16 →
  inv cap a s2.
Proof.
  intros Hi [E1 E2 E3 E4 E5 E6 E7 E8 E9 _ _] Hq Hl Ht Hf.
  pose proof (laid_out_le _ _ _ _ _ _ Hl) as [Hle _].
  constructor; rewrite ?E1, ?E2, ?E4, ?E5, ?E6, ?E7, ?E8, ?E9; try apply Hi; try done.
  - intros Hs. destruct (inv_syn _ _ _ Hi Hs) as (? & ? & Ho). split_and!; try done.
    rewrite Ho in Hq. by destruct popped, rest.
  - lia.
  - by replace (_next_seqno s - (_next_seqno s - p')) with p' by lia.
Qed.

Lemma acked_dropped s w popped rest p' :
  _segments_outstanding s = popped ++ rest →
  (popped = [] → p' = _next_seqno s - _bytes_in_flight s) →
  dropped s (acked (s <| _receiver_window_size := w |> <| _receiver_free_space := w |>) popped rest p')
    rest p' ∧
  _timer_running (acked (s <| _receiver_window_size := w |> <| _receiver_free_space := w |>) popped rest p')
    = _timer_running s ∧
  _receiver_window_size
    (acked (s <| _receiver_window_size := w |> <| _receiver_free_space := w |>) popped rest p') = w ∧
  _receiver_free_space
    (acked (s <| _receiver_window_size := w |> <| _receiver_free_space := w |>) popped rest p') = w.
Proof.
  intros Hq Hnil. destruct popped; (split; [constructor|]; try done); [|by left|left; by split; [|apply Hnil]|by right..].
  cbn. rewrite Hnil by done. lia.
Qed.

(** What the middle of [ack_received] leaves for [fill_window]: the timer runs iff
    something is outstanding. *)
Lemma settle_inv a s s2 popped rest p' :
  inv cap a s → dropped s s2 rest p' → _segments_outstanding s = popped ++ rest →
  laid_out (_isn s) (ByteStreamSpec.delivered a) (_fin_sent s) p' rest (_next_seqno s) →
  _timer_running s2 = _timer_running s → 0 ≤ _receiver_free_space s2 < 2 ^ 16 →
  inv cap a (if _bytes_in_flight s2 =? 0 then s2 <| _timer_running := false |> else s2).
Proof.
  intros Hi Hd Hq Hl Ht Hf. pose proof (laid_out_le _ _ _ _ _ _ Hl) as [Hle Hlt].
  pose proof (drop_flight _ _ _ _ Hd) as Hb. destruct (_bytes_in_flight s2 =? 0) eqn:E.
  - apply (dropped_inv a s _ popped rest p'); try done; [destruct Hd; by constructor|].
    symmetry. apply bool_decide_eq_false_2. intros Hne. specialize (Hlt Hne). lia.
  - apply (dropped_inv a s _ popped rest p'); try done.
    assert (Hrest : rest ≠ []) by (intros ->; cbn in Hl; lia).
    rewrite Ht, (inv_timer _ _ _ Hi), Hq. by destruct popped, rest.
Qed.

(** The oldest number in flight. *)
Definition base (s : t) : Z := _next_seqno s - _bytes_in_flight s.

(** An acknowledgment the sender acts on. *)
Definition current (s : t) (abs : Z) : bool :=
  (abs <=? _next_seqno s) && (bool_decide (_segments_outstanding s = []) || (base s <=? abs)).

Lemma ack_valid_spec a s abs :
  inv cap a s → in_range a s → _ack_valid s abs = Ok (current s abs).
Proof.
  intros Hi Hr. pose proof (next_in_range a s Hi Hr). destruct Hr as [_ Hr].
  pose proof (inv_outstanding _ _ _ Hi) as Hl. pose proof (flight_le_next a s Hi).
  unfold _ack_valid, current, base in *. destruct (_segments_outstanding s) as [|seg segs].
  - rewrite bool_decide_eq_true_2 by done. by rewrite andb_true_r.
  - rewrite bool_decide_eq_false_2 by done. cbn [orb].
    destruct (abs <=? _next_seqno s); [|done]. cbn [andb].
    rewrite (unwrap_front _ _ _ _ _ _ _ Hl) by lia. cbn. f_equal. lia.
Qed.

(** The state [ack_received] hands to [fill_window]: the segments that end at or
    before the acknowledged number are gone, the window is the new one and the
    free space is what is left of it after the numbers in flight, in 16 bits. *)
Record settled (a : ByteStreamSpec.t) (s : t) (abs w : Z) (s3 : t) (popped rest : list TCPSegment.t)
    (p' : Z) : Prop := {
  set_inv : inv cap a s3;
  set_queue : _segments_outstanding s = popped ++ rest;
  set_layout : laid_out (_isn s) (ByteStreamSpec.delivered a) (_fin_sent s) p' rest (_next_seqno s);
  set_dropped : dropped s s3 rest p';
  set_acked : base s ≤ p' ∧ (base s ≤ abs → p' ≤ abs);
  set_front : match rest with
              | [] => p' = _next_seqno s
              | seg :: _ => abs < p' + TCPSegment.length_in_sequence_space seg
              end;
  set_window : _receiver_window_size s3 = w;
  set_free : _receiver_free_space s3 = match rest with [] => w | _ => u16 (abs + w - _next_seqno s) end
}.

Lemma ack_received_spec a s ackno w :
  inv cap a s → in_range a s → 0 ≤ w < 2 ^ 16 →
  ∃ abs, unwrap ackno (_isn s) (_next_seqno s) = Ok abs ∧ 0 ≤ abs ∧
    if current s abs
    then ∃ s3 popped rest p', ack_received s ackno w = fill_window s3 ∧
           settled a s abs w s3 popped rest p'
    else ack_received s ackno w = Ok s.
Proof.
  intros Hi Hr Hw. pose proof (next_in_range a s Hi Hr).
  destruct (unwrap_spec ackno (_isn s) (_next_seqno s)) as (abs & Hu & Habs & _); [lia|].
  exists abs. split; [done|]. split; [lia|]. unfold ack_received. rewrite Hu. cbn [mbind outcome_bind].
  rewrite (ack_valid_spec a s abs Hi Hr). cbn [mbind outcome_bind].
  destruct (current s abs) eqn:Hcur; cbn [negb]; [|done]. destruct Hr as [HA Hbif].
  set (s1 := s <| _receiver_window_size := w |> <| _receiver_free_space := w |>).
  pose proof (flight_le_next a s Hi). pose proof (inv_flight _ _ _ Hi).
  destruct (ack_loop_spec (ByteStreamSpec.delivered a) (_segments_outstanding s1) s1 (base s) abs)
    as (popped & rest & p' & Hq & Hloop & Hl & Hpp & Hpa & Hnil & Hrest);
    try (unfold base; cbn; done || lia); [apply (inv_outstanding _ _ _ Hi)|].
  change (_segments_outstanding s1) with (_segments_outstanding s) in *.
  change (_isn s1) with (_isn s) in *. change (_fin_sent s1) with (_fin_sent s) in *.
  change (_next_seqno s1) with (_next_seqno s) in *.
  rewrite Hloop. cbn [mbind outcome_bind].
  destruct (acked_dropped s w popped rest p' Hq Hnil) as (Hd & Ht & Hwin & Hfr). fold s1 in Hd, Ht, Hwin, Hfr.
  set (s2 := acked s1 popped rest p') in *. clearbody s2.
  pose proof (laid_out_le _ _ _ _ _ _ Hl) as [Hle _].
  assert (Hgo : ∀ s2', dropped s s2' rest p' → _timer_running s2' = _timer_running s →
    _receiver_window_size s2' = w →
    _receiver_free_space s2' = match rest with [] => w | _ => u16 (abs + w - _next_seqno s) end →
    ∃ s3 popped rest p', fill_window (if _bytes_in_flight s2' =? 0 then s2' <| _timer_running := false |> else s2')
      = fill_window s3 ∧ settled a s abs w s3 popped rest p').
  { intros s2' Hd' Ht' Hw' Hf'. eexists _, popped, rest, p'. split; [done|].
    assert (0 ≤ _receiver_free_space s2' < 2 ^ 16) by (rewrite Hf'; destruct rest; [done|apply u16_bound]).
    constructor; try done.
    - by apply (settle_inv a s s2' popped rest p').
    - destruct (_ =? 0); [|done]. destruct Hd'. by constructor.
    - by destruct (_ =? 0).
    - by destruct (_ =? 0). }
  rewrite (drop_queue _ _ _ _ Hd). destruct rest as [|seg rest]; [cbn [mbind outcome_bind]; by apply Hgo|].
  rewrite (drop_isn _ _ _ _ Hd), (drop_next _ _ _ _ Hd).
  rewrite (unwrap_front _ _ _ _ _ _ _ Hl) by (unfold base in *; lia). cbn [mbind outcome_bind].
  apply Hgo; [destruct Hd; by constructor|done|done|].
  cbn [_receiver_free_space upd]. rewrite (drop_flight _ _ _ _ Hd).
  unfold u16, u64. rewrite Z.mod_mod_divide by (by exists (2 ^ 48)). f_equal. lia.
Qed.

(** An acknowledgment either drops nothing or ends the series of retransmissions. *)
Lemma ack_received_retx a s ackno w s' :
  inv cap a s → in_range a s → 0 ≤ w < 2 ^ 16 → ack_received s ackno w = Ok s' →
  _consecutive_retransmissions s' = _consecutive_retransmissions s ∧ base s' = base s ∨
  _consecutive_retransmissions s' = 0.
Proof.
  intros Hi Hr Hw Hs. destruct (ack_received_spec a s ackno w Hi Hr Hw) as (abs & _ & _ & H).
  destruct (current s abs); [|left; split; congruence].
  destruct H as (s3 & popped & rest & p' & Heq & Hset). rewrite Heq in Hs.
  destruct (fill_window_spec a s3 (set_inv _ _ _ _ _ _ _ _ Hset) (proj1 Hr)) as (a' & s1 & Hf & Hadv & _).
  rewrite Hs in Hf. injection Hf as <-. pose proof (set_dropped _ _ _ _ _ _ _ _ Hset) as Hd.
  rewrite (adv_retx _ _ _ _ Hadv). unfold base. rewrite (adv_base _ _ _ _ Hadv), (drop_next _ _ _ _ Hd), (drop_flight _ _ _ _ Hd).
  destruct (drop_retx _ _ _ _ Hd) as [[? ->]|?]; [left|by right]. split; [done|lia].
Qed.

(** Retransmission: with the timer running there is a segment to send again. *)
Lemma tick_spec a s ms :
  inv cap a s →
  ∃ s', tick s ms = Ok s' ∧ inv cap a s' ∧ _next_seqno s' = _next_seqno s ∧
    _bytes_in_flight s' = _bytes_in_flight s ∧ _stream s' = _stream s ∧
    _segments_outstanding s' = _segments_outstanding s ∧
    match _segments_outstanding s with
    | [] => s' = s
    | front :: _ =>
      if _rto s <=? u32 (_time_elapsed s + ms) then
        let backoff := negb (_receiver_window_size s =? 0) || TCPHeader.syn (TCPSegment.header front) in
        _segments_out s' = _segments_out s ++ [front] ∧ _time_elapsed s' = 0 ∧
        _rto s' = (if backoff then u32 (2 * _rto s) else _rto s) ∧
        _consecutive_retransmissions s' =
          (if backoff then u16 (_consecutive_retransmissions s + 1) else _consecutive_retransmissions s) ∧
        _receiver_window_size s' = _receiver_window_size s
      else _segments_out s' = _segments_out s ∧ _time_elapsed s' = u32 (_time_elapsed s + ms) ∧
        _rto s' = _rto s ∧ _consecutive_retransmissions s' = _consecutive_retransmissions s ∧
        _receiver_window_size s' = _receiver_window_size s
    end.
Proof.
  intros [I1 I2 I3 I4 I5 I6 I7 I8].
  destruct s as [isn out irto st next syn fin bif win free cr rto te tm q].
  unfold tick. cbn in *. subst tm. destruct q as [|front segs].
  { rewrite bool_decide_eq_false_2 by (by intros []). cbn [negb]. eexists. split; [done|].
    split; [by constructor|]. by split_and!. }
  rewrite bool_decide_eq_true_2 by done. cbn.
  rewrite Z.geb_leb, Z.shiftl_mul_pow2, (Z.mul_comm rto) by lia. change (2 ^ 1) with 2.
  assert (Hout : Forall (λ seg, bare seg ∨ ∃ p, carries isn (ByteStreamSpec.delivered a) fin p seg) (out ++ [front])).
  { apply Forall_app. split; [done|]. apply Forall_singleton. right. destruct I5 as [? _]. by eexists. }
  destruct (rto <=? _); [destruct (negb _ || _)|]; (eexists; split; [reflexivity|];
    split; [constructor; cbn; done|cbn; by split_and!]).
Qed.

Lemma send_empty_inv a s : inv cap a s → inv cap a (send_empty_segment s).
Proof.
  intros [I1 I2 I3 I4 I5 I6 I7 I8]. constructor; cbn; try done.
  apply Forall_app. split; [done|]. apply Forall_singleton. left. done.
Qed.

Lemma make_inv retx fixed random : inv cap ByteStreamSpec.init (make cap retx fixed random).
Proof. constructor; cbn; try done. apply sim_init. lia. Qed.

(** The owner writes to the stream or ends it. *)
Lemma stream_inv a s c :
  inv cap a s → match c with ByteStream.Write _ | ByteStream.EndInput | ByteStream.SetError => True | _ => False end →
  inv cap (ByteStreamSpec.step cap a c).1 (s <| _stream ::= λ st, (ByteStream.exec st c).1 |>).
Proof.
  intros [I1 I2 I3 I4 I5 I6 I7 I8] Hc.
  destruct (sim_step cap ltac:(lia) (_stream s) a c) as [Hs _]; [by destruct c|done|].
  assert (Hd : ByteStreamSpec.delivered (ByteStreamSpec.step cap a c).1 = ByteStreamSpec.delivered a)
    by (by destruct c).
  constructor; cbn -[ByteStream.exec ByteStreamSpec.step]; rewrite ?Hd; done.
Qed.

(** The owner takes segments off the outbound queue. *)
Lemma drain_inv a s q :
  inv cap a s → (∀ seg, seg ∈ q → seg ∈ _segments_out s) → inv cap a (s <| _segments_out := q |>).
Proof.
  intros [I1 I2 I3 I4 I5 I6 I7 I8] Hq. constructor; cbn; try done.
  rewrite Forall_forall in *. eauto.
Qed.

(** Every event is handled, whatever it is, and keeps the invariant. *)
Lemma handle_spec a s e :
  inv cap a s → event_ok (ByteStreamSpec.accepted a) s e →
  ∃ a' s', handle s e = Ok s' ∧ inv cap a' s' ∧
    ByteStreamSpec.accepted a' = ByteStreamSpec.accepted a ++ written s e.
Proof.
  intros Hi (HA & Hb & He). assert (Hr : in_range a s) by done.
  assert (Hfit := ByteStreamSpec.sim_fit _ _ _ (inv_stream _ _ _ Hi)).
  assert (Hcp := ByteStreamSpec.sim_cap _ _ _ (inv_stream _ _ _ Hi)).
  destruct e; cbn [handle written]; rewrite ?app_nil_r.
  - eexists _, _. split; [done|]. pose proof (stream_inv a s (ByteStream.Write data) Hi I) as Hs.
    split.
    + exact Hs.
    + cbn. rewrite (sim_pending cap _ _ (inv_stream _ _ _ Hi)). unfold ByteStream.remaining_capacity.
      rewrite Hcp, u64_id; [done|]. pose proof (len_nonneg (ByteStream.buffer (_stream s))). lia.
  - eexists _, _. split; [done|]. split; [exact (stream_inv a s ByteStream.EndInput Hi I)|done].
  - destruct (fill_window_spec a s Hi HA) as (a' & s' & Hf & Hadv & _).
    exists a', s'. split_and!; [done|apply Hadv|apply Hadv].
  - destruct (ack_received_spec a s ackno window_size Hi Hr He) as (abs & _ & _ & H).
    destruct (current s abs).
    + destruct H as (s3 & popped & rest & p' & Heq & Hset). rewrite Heq.
      destruct (fill_window_spec a s3 (set_inv _ _ _ _ _ _ _ _ Hset) HA) as (a' & s' & Hf & Hadv & _).
      exists a', s'. split_and!; [done|apply Hadv|apply Hadv].
    + by exists a, s.
  - destruct (tick_spec a s ms Hi) as (s' & Ht & Hi' & _). by exists a, s'.
  - exists a, (send_empty_segment s). split; [done|]. split; [by apply send_empty_inv|done].
  - eexists a, _. split; [done|]. split; [|done]. apply (drain_inv a s (tail (_segments_out s)) Hi).
    intros seg Hseg. destruct (_segments_out s); [done|]. by apply list_elem_of_further.
Qed.

Lemma sender_reach_inv A s : reach cap A s → ∃ a, inv cap a s ∧ ByteStreamSpec.accepted a = A.
Proof.
  induction 1 as [|A s e s' _ (a & Hi & HA) Hok Hh]; [eexists; split; [apply make_inv|done]|].
  subst A. destruct (handle_spec a s e Hi Hok) as (a' & s1 & Hs1 & Hi' & HA').
  exists a'. split; [congruence|done].
Qed.

(** The sequence space of a list of segments. *)
Definition total_length (segs : list TCPSegment.t) : Z :=
  foldr (λ seg n, TCPSegment.length_in_sequence_space seg + n) 0 segs.

Lemma total_length_app l k : total_length (l ++ k) = total_length l + total_length k.
Proof. unfold total_length. induction l as [|seg l IH]; cbn; [done|]. rewrite IH. lia. Qed.

Lemma laid_out_total isn D fs p segs e : laid_out isn D fs p segs e → p + total_length segs = e.
Proof.
  unfold total_length. revert p. induction segs as [|seg segs IH]; intros p; cbn; [intros ->; lia|].
  intros (_ & _ & H%IH). lia.
Qed.

End sending.

(** ** Properties *)

Section sender_properties.
Import TCPSender.

(** C6: the sender never gets stuck and its books balance.  In every state it
    reaches, every call returns (no [front()] of an empty queue, no endless
    loop); the bytes in flight are the sequence space of the outstanding
    segments; the next sequence number counts the SYN, the bytes taken from the
    stream and the FIN; and the timer runs exactly while something is
    outstanding. *)
Theorem sender_never_stuck (cap : Z) (A : bytes) (s : t) (e : event) :
  0 < cap < 2 ^ 31 → reach cap A s → event_ok A s e →
  (∃ s', handle s e = Ok s' ∧ reach cap (A ++ written s e) s') ∧
  _bytes_in_flight s = total_length (_segments_outstanding s) ∧
  _next_seqno s = b2z (_syn_sent s) + (len A - ByteStream.buffer_size (_stream s)) + b2z (_fin_sent s) ∧
  (_timer_running s = true ↔ _segments_outstanding s ≠ []).
Proof.
  intros Hcap Hreach Hok. destruct (sender_reach_inv cap Hcap A s Hreach) as (a & Hi & <-).
  destruct (handle_spec cap Hcap a s e Hi Hok) as (a' & s' & Hs' & _).
  split; [exists s'; split; [done|by apply (reach_event cap _ s e)]|].
  pose proof (laid_out_total _ _ _ _ _ _ (inv_outstanding _ _ _ Hi)).
  split; [lia|]. split.
  - rewrite (inv_next _ _ _ Hi), (delivered_le cap a s Hi). unfold ByteStream.buffer_size. lia.
  - rewrite (inv_timer _ _ _ Hi). apply bool_decide_eq_true.
Qed.

(** C7: everything the sender puts on the wire is a piece of its stream: each
    queued segment is a bare acknowledgment, or its sequence number, flags and
    payload are those of the stream at that position, where the bytes sent are a
    prefix of the bytes accepted; and the outstanding segments cover the unacknowledged
    numbers without gap or overlap. *)
Theorem sender_sends_slices (cap : Z) (A : bytes) (s : t) :
  0 < cap < 2 ^ 31 → reach cap A s →
  ∃ D, A = D ++ ByteStream.buffer (_stream s) ∧
    Forall (λ seg, bare seg ∨ ∃ p, carries (_isn s) D (_fin_sent s) p seg) (_segments_out s) ∧
    laid_out (_isn s) D (_fin_sent s) (_next_seqno s - _bytes_in_flight s)
      (_segments_outstanding s) (_next_seqno s).
Proof.
  intros Hcap Hreach. destruct (sender_reach_inv cap Hcap A s Hreach) as (a & Hi & <-).
  exists (ByteStreamSpec.delivered a).
  split; [apply (ByteStreamSpec.sim_split _ _ _ (inv_stream _ _ _ Hi))|].
  split; [apply (inv_out _ _ _ Hi)|apply (inv_outstanding _ _ _ Hi)].
Qed.

(** C8: [fill_window] fills the window.  Once the SYN is acknowledged and the
    receiver has advertised a non-empty window, it sends no more than the free
    space, accounts for it exactly, and stops only when the free space is used up
    or the stream is empty, having sent the FIN if the stream has ended. *)
Theorem fill_window_fills (cap : Z) (A : bytes) (s : t) :
  0 < cap < 2 ^ 31 → reach cap A s → len A < 2 ^ 62 →
  _syn_sent s = true → front_is_syn s = false → _fin_sent s = false →
  0 < _receiver_window_size s →
  ∃ s', fill_window s = Ok s' ∧
    _next_seqno s' - _next_seqno s = _receiver_free_space s - _receiver_free_space s' ∧
    0 ≤ _receiver_free_space s' ≤ _receiver_free_space s ∧
    (_receiver_free_space s' = 0 ∨
     ByteStream.buffer (_stream s') = [] ∧ _fin_sent s' = ByteStream.input_ended (_stream s')).
Proof.
  intros Hcap Hreach HA Hsyn Hfront Hfin Hwin.
  destruct (sender_reach_inv cap Hcap A s Hreach) as (a & Hi & <-).
  destruct (fill_window_room cap a s Hi HA Hsyn Hfront Hfin ltac:(lia)) as (a' & s' & ? & _ & ?).
  by exists s'.
Qed.

(** C9: the sender respects the advertised window.  On an acknowledgment of
    number [abs] with window [w] that does not shrink the window below what is
    already in flight, the sender drops exactly the segments that end at or
    before [abs], and sends nothing beyond [abs + w]; a zero window is probed with
    at most one number. *)
Theorem ack_respects_window (cap : Z) (A : bytes) (s : t) (abs w : Z) :
  0 < cap < 2 ^ 31 → reach cap A s → len A < 2 ^ 62 → _bytes_in_flight s < 2 ^ 30 →
  0 ≤ w < 2 ^ 16 → base s ≤ abs ≤ _next_seqno s → _next_seqno s ≤ abs + w →
  ∃ s' dropped rest new, ack_received s (wrap abs (_isn s)) w = Ok s' ∧
    _segments_outstanding s = dropped ++ rest ∧ _segments_outstanding s' = rest ++ new ∧
    total_length dropped ≤ abs - base s ∧
    match rest with
    | [] => True
    | seg :: _ => abs - base s < total_length dropped + TCPSegment.length_in_sequence_space seg
    end ∧
    _next_seqno s ≤ _next_seqno s' ≤ Z.max (_next_seqno s + 1) (abs + w) ∧
    (0 < w → _syn_sent s = true → _next_seqno s' ≤ abs + w) ∧
    _receiver_window_size s' = w.
Proof.
  intros Hcap Hreach HA Hb Hw Habs Hedge. destruct (sender_reach_inv cap Hcap A s Hreach) as (a & Hi & <-).
  assert (Hr : in_range a s) by done. pose proof (next_in_range cap a s Hi Hr).
  pose proof (flight_le_next cap a s Hi). pose proof (inv_flight _ _ _ Hi).
  destruct (ack_received_spec cap a s (wrap abs (_isn s)) w Hi Hr Hw) as (abs' & Hu & _ & Hack).
  rewrite unwrap_wrap in Hu by (unfold base in *; lia). injection Hu as <-.
  replace (current s abs) with true in Hack.
  2:{ unfold current. symmetry. apply andb_true_intro. split; [lia|]. apply orb_true_intro. right. lia. }
  destruct Hack as (s3 & popped & rest & p' & Heq & Hset).
  destruct (fill_window_spec cap a s3 (set_inv _ _ _ _ _ _ _ _ _ Hset) HA) as (a' & s' & Hf & Hadv & Hwithin).
  destruct Hset as [_ Hq Hl Hd [Hp1 Hp2] Hfront Hwin Hfree].
  assert (Hfr : _receiver_free_space s3 = abs + w - _next_seqno s).
  { rewrite Hfree. destruct rest; [cbn in Hl; lia|]. apply u16_id. lia. }
  destruct (adv_queue _ _ _ _ _ Hadv) as (new & Hnew & _).
  exists s', popped, rest, new.
  pose proof (inv_outstanding _ _ _ Hi) as Hlay. fold (base s) in Hlay. rewrite Hq in Hlay.
  apply laid_out_total in Hlay, Hl. rewrite total_length_app in Hlay.
  pose proof (adv_next _ _ _ _ _ Hadv). destruct Hwithin as (Hw1 & Hw2 & _).
  rewrite (drop_next _ _ _ _ Hd), (drop_syn _ _ _ _ Hd) in *.
  split; [congruence|]. split; [done|]. split; [by rewrite Hnew, (drop_queue _ _ _ _ Hd)|].
  split; [lia|]. split; [destruct rest; [done|lia]|]. split; [lia|].
  split; [intros; rewrite Hfr in *; lia|]. by rewrite (adv_window _ _ _ _ _ Hadv).
Qed.

(** Ticks one after the other. *)
Fixpoint ticks (s : t) (mss : list Z) : outcome t :=
  match mss with [] => Ok s | ms :: mss => s ← tick s ms; ticks s mss end.

(** The retransmission timer by itself: the times between ticks add up until they
    reach the timeout; then the timer goes off and starts again from zero, with twice
    the timeout if [backoff].  The result is how often it went off and the time since. *)
Fixpoint timer (backoff : bool) (rto elapsed : Z) (mss : list Z) : nat * Z :=
  match mss with
  | [] => (O, elapsed)
  | ms :: mss =>
    if rto <=? elapsed + ms
    then let '(n, e) := timer backoff (if backoff then 2 * rto else rto) 0 mss in (S n, e)
    else timer backoff rto (elapsed + ms) mss
  end.

Definition total_time (mss : list Z) : Z := foldr Z.add 0 mss.

Lemma total_time_nonneg mss : Forall (Z.le 0) mss → 0 ≤ total_time mss.
Proof. induction 1; cbn; [done|]. fold (total_time l). lia. Qed.

(** It goes off exactly if the time suffices. *)
Lemma timer_silent backoff rto elapsed mss :
  Forall (Z.le 0) mss → mss ≠ [] → (timer backoff rto elapsed mss).1 = O ↔ elapsed + total_time mss < rto.
Proof.
  intros Hm. revert elapsed. induction Hm as [|ms mss Hms Hm IH]; intros elapsed Hne; [done|].
  pose proof (total_time_nonneg mss Hm). cbn. fold (total_time mss). destruct (Z.leb_spec rto (elapsed + ms)).
  - destruct (timer _ _ 0 mss). cbn. split; [done|lia].
  - destruct mss as [|m mss]; [cbn; split; [intros _|done]; lia|]. rewrite IH by done. lia.
Qed.

(** Each time takes twice as long as the time before. *)
Lemma timer_doubles rto elapsed mss :
  Forall (Z.le 0) mss → 0 < rto → 0 ≤ elapsed →
  rto * (2 ^ Z.of_nat (timer true rto elapsed mss).1 - 1) ≤ elapsed + total_time mss.
Proof.
  intros Hm. revert rto elapsed. induction Hm as [|ms mss Hms Hm IH]; intros rto elapsed Hr He; [cbn; lia|].
  cbn. fold (total_time mss). destruct (Z.leb_spec rto (elapsed + ms)).
  - specialize (IH (2 * rto) 0 ltac:(lia) ltac:(lia)). destruct (timer true (2 * rto) 0 mss) as [n e].
    cbn [fst] in *. rewrite Nat2Z.inj_succ, Z.pow_succ_r by lia. nia.
  - specialize (IH rto (elapsed + ms) Hr ltac:(lia)). lia.
Qed.

(** The sender's ticks run that timer. *)
Lemma ticks_run_timer cap a s front segs mss :
  0 < cap < 2 ^ 31 → inv cap a s → _segments_outstanding s = front :: segs → Forall (Z.le 0) mss →
  0 < _rto s < 2 ^ 32 → 0 ≤ _time_elapsed s → _time_elapsed s + total_time mss < 2 ^ 31 →
  0 ≤ _consecutive_retransmissions s → _consecutive_retransmissions s + len mss < 2 ^ 16 →
  let backoff := negb (_receiver_window_size s =? 0) || TCPHeader.syn (TCPSegment.header front) in
  let '(n, e) := timer backoff (_rto s) (_time_elapsed s) mss in
  ∃ s', ticks s mss = Ok s' ∧ _segments_out s' = _segments_out s ++ replicate n front ∧
    _rto s' = (if backoff then _rto s * 2 ^ Z.of_nat n else _rto s) ∧
    _consecutive_retransmissions s' = _consecutive_retransmissions s + (if backoff then Z.of_nat n else 0) ∧
    _time_elapsed s' = e ∧ _segments_outstanding s' = _segments_outstanding s.
Proof.
  intros Hcap Hi Hq Hm. revert s Hi Hq. induction Hm as [|ms mss Hms Hm IH]; intros s Hi Hq Hr He Ht Hc Hcn backoff.
  { exists s. cbn. rewrite app_nil_r. split_and!; try done; destruct backoff; lia. }
  pose proof (total_time_nonneg mss Hm) as Hsum. rewrite len_cons in Hcn. pose proof (len_nonneg mss) as Hlen.
  cbn [total_time foldr] in Ht. fold (total_time mss) in Ht.
  destruct (tick_spec cap a s ms Hi) as (s1 & Htick & Hi1 & _ & _ & _ & Hq1 & H). rewrite Hq in Hq1, H.
  rewrite u32_id in H by lia. cbn [timer ticks]. rewrite Htick. cbn [mbind outcome_bind].
  destruct (Z.leb_spec (_rto s) (_time_elapsed s + ms)); fold backoff in H;
    destruct H as (Ho1 & He1 & Hr1 & Hc1 & Hw1); specialize (IH s1 Hi1 Hq1); rewrite Hw1 in IH; fold backoff in IH.
  - rewrite u32_id in Hr1 by lia. rewrite u16_id in Hc1 by lia.
    specialize (IH ltac:(destruct backoff; lia) ltac:(lia) ltac:(lia) ltac:(destruct backoff; lia) ltac:(destruct backoff; lia)).
    rewrite Hr1, He1 in IH. cbv zeta in IH. destruct (timer backoff _ 0 mss) as [n e].
    destruct IH as (s' & Hs' & Ho & Hr' & Hc' & He' & Hq'). exists s'. rewrite Nat2Z.inj_succ, Z.pow_succ_r by lia.
    split_and!; [done| | | |done|congruence].
    + by rewrite Ho, Ho1, <- app_assoc.
    + rewrite Hr'. destruct backoff; lia.
    + rewrite Hc', Hc1. destruct backoff; lia.
  - specialize (IH ltac:(lia) ltac:(lia) ltac:(lia) ltac:(lia) ltac:(lia)). rewrite Hr1, He1 in IH. cbv zeta in IH.
    destruct (timer backoff _ _ mss) as [n e]. rewrite Ho1, Hc1, Hq1, <- Hq in IH. exact IH.
Qed.

(** C10: retransmission with exponential backoff.  While a segment is outstanding the
    ticks of the owner, of whatever lengths, run one timer: their times add up, also
    to what had elapsed before, and each time they reach the timeout the oldest
    outstanding segment, and nothing else, is sent once more and the time starts again
    from zero.  If the window is open, or the SYN is unanswered, each expiration
    doubles the timeout and counts one retransmission; with a closed window neither
    changes.  So nothing is sent exactly if all the time together is less than the
    timeout, and [n] retransmissions with backoff take at least [2^n - 1] times the
    first timeout.  The times are below 2^31 ms in all, where the 32-bit counters do
    not wrap. *)
Theorem tick_backs_off (cap : Z) (A : bytes) (s : t) (front : TCPSegment.t)
    (segs : list TCPSegment.t) (mss : list Z) :
  0 < cap < 2 ^ 31 → reach cap A s → _segments_outstanding s = front :: segs → Forall (Z.le 0) mss →
  0 < _rto s < 2 ^ 32 → 0 ≤ _time_elapsed s → _time_elapsed s + total_time mss < 2 ^ 31 →
  0 ≤ _consecutive_retransmissions s → _consecutive_retransmissions s + len mss < 2 ^ 16 →
  let backoff := negb (_receiver_window_size s =? 0) || TCPHeader.syn (TCPSegment.header front) in
  ∃ s' n, ticks s mss = Ok s' ∧ timer backoff (_rto s) (_time_elapsed s) mss = (n, _time_elapsed s') ∧
    _segments_out s' = _segments_out s ++ replicate n front ∧
    _rto s' = (if backoff then _rto s * 2 ^ Z.of_nat n else _rto s) ∧
    _consecutive_retransmissions s' = _consecutive_retransmissions s + (if backoff then Z.of_nat n else 0) ∧
    _segments_outstanding s' = _segments_outstanding s ∧
    (mss ≠ [] → n = O ↔ _time_elapsed s + total_time mss < _rto s) ∧
    (backoff = true → _rto s * (2 ^ Z.of_nat n - 1) ≤ _time_elapsed s + total_time mss).
Proof.
  intros Hcap Hreach Hq Hm Hr He Ht Hc Hcn backoff.
  destruct (sender_reach_inv cap Hcap A s Hreach) as (a & Hi & _).
  pose proof (ticks_run_timer cap a s front segs mss Hcap Hi Hq Hm Hr He Ht Hc Hcn) as H. cbv zeta in H. fold backoff in H.
  pose proof (timer_silent backoff (_rto s) (_time_elapsed s) mss Hm) as Hn.
  pose proof (timer_doubles (_rto s) (_time_elapsed s) mss Hm ltac:(lia) He) as Hd.
  destruct (timer backoff _ _ mss) as [n e] eqn:E. destruct H as (s' & Hs' & Ho & Hr' & Hc' & <- & Hq').
  exists s', n. split_and!; try done. intros Hb. by rewrite <- Hb, E in Hd.
Qed.

(** A sender whose peer has acknowledged the SYN with a window of four, after its
    owner has written six bytes. *)
Definition four_sent : t :=
  Eval vm_compute in
    match (s ← fill_window (make 100 1000 (Some (mkWrappingInt32 0)) 0);
           s ← ack_received s (mkWrappingInt32 1) 4;
           s ← handle s (Write [1; 2; 3; 4; 5; 6]);
           fill_window s) with
    | Ok s => s
    | _ => make 100 1000 None 0
    end.

(** A window that shrinks makes the sender overrun it.  With four bytes in
    flight, an acknowledgment of nothing new that reduces the window to two makes
    the free space wrap around to 65534, and the sender at once sends the bytes
    that lie beyond both windows. *)
Theorem shrunk_window_is_overrun :
  _next_seqno four_sent = 5 ∧ _bytes_in_flight four_sent = 4 ∧
  ∃ s', ack_received four_sent (mkWrappingInt32 1) 2 = Ok s' ∧
    _next_seqno s' = 7 ∧ 1 + 4 < _next_seqno s' ∧ _receiver_free_space s' = 65532.
Proof.
  split; [done|]. split; [done|]. eexists. split; [vm_compute; reflexivity|]. done.
Qed.

(** A run of events, each checked to be allowed. *)
Fixpoint run (A : bytes) (s : t) (es : list event) : option (bytes * t) :=
  match es with
  | [] => Some (A, s)
  | e :: es =>
    if (len A <? 2 ^ 62) && (_bytes_in_flight s <? 2 ^ 30) &&
       match e with Ack _ w => (0 <=? w) && (w <? 2 ^ 16) | _ => true end
    then match handle s e with Ok s' => run (A ++ written s e) s' es | _ => None end
    else None
  end.

Lemma run_reach cap es A s A' s' : reach cap A s → run A s es = Some (A', s') → reach cap A' s'.
Proof.
  revert A s. induction es as [|e es IH]; intros A s Hr; cbn [run]; [by intros [= -> ->]|].
  destruct (_ && match e with Ack _ _ => _ | _ => _ end) eqn:Hok; [|done].
  destruct (handle s e) as [s1| | |] eqn:Hh; try done. apply IH.
  apply (reach_event cap A s e); [done| |done]. unfold event_ok. destruct e; lia.
Qed.

Lemma four_sent_reach : reach 100 [1; 2; 3; 4; 5; 6] four_sent.
Proof.
  apply (run_reach 100 [Fill; Ack (mkWrappingInt32 1) 4; Write [1; 2; 3; 4; 5; 6]; Fill] []
    (make 100 1000 (Some (mkWrappingInt32 0)) 0)); [apply reach_make|vm_compute; reflexivity].
Qed.

Lemma sender_never_stuck_witness :
  (∃ s', handle four_sent (Ack (mkWrappingInt32 5) 10) = Ok s' ∧ reach 100 [1; 2; 3; 4; 5; 6] s') ∧
  _bytes_in_flight four_sent = total_length (_segments_outstanding four_sent) ∧
  _next_seqno four_sent = 1 + (6 - 2) + 0 ∧
  (_timer_running four_sent = true ↔ _segments_outstanding four_sent ≠ []).
Proof.
  apply (sender_never_stuck 100 [1; 2; 3; 4; 5; 6] four_sent (Ack (mkWrappingInt32 5) 10));
    [lia|apply four_sent_reach|]. unfold event_ok, len. simpl. lia.
Defined.

Lemma sender_sends_slices_witness :
  ∃ D, [1; 2; 3; 4; 5; 6] = D ++ ByteStream.buffer (_stream four_sent) ∧
    Forall (λ seg, bare seg ∨ ∃ p, carries (_isn four_sent) D (_fin_sent four_sent) p seg)
      (_segments_out four_sent) ∧
    laid_out (_isn four_sent) D (_fin_sent four_sent) 1 (_segments_outstanding four_sent) 5.
Proof. apply (sender_sends_slices 100 [1; 2; 3; 4; 5; 6] four_sent); [lia|apply four_sent_reach]. Defined.

(** The same sender before it fills the window. *)
Definition six_written : t :=
  Eval vm_compute in
    match run [] (make 100 1000 (Some (mkWrappingInt32 0)) 0)
            [Fill; Ack (mkWrappingInt32 1) 4; Write [1; 2; 3; 4; 5; 6]] with
    | Some (_, s) => s
    | None => make 100 1000 None 0
    end.

Lemma fill_window_fills_witness :
  ∃ s', fill_window six_written = Ok s' ∧
    _next_seqno s' - 1 = 4 - _receiver_free_space s' ∧ 0 ≤ _receiver_free_space s' ≤ 4 ∧
    (_receiver_free_space s' = 0 ∨
     ByteStream.buffer (_stream s') = [] ∧ _fin_sent s' = ByteStream.input_ended (_stream s')).
Proof.
  apply (fill_window_fills 100 [1; 2; 3; 4; 5; 6] six_written); try done.
  apply (run_reach 100 [Fill; Ack (mkWrappingInt32 1) 4; Write [1; 2; 3; 4; 5; 6]] []
    (make 100 1000 (Some (mkWrappingInt32 0)) 0)); [apply reach_make|vm_compute; reflexivity].
Defined.

Lemma ack_respects_window_witness :
  ∃ s' dropped rest new, ack_received four_sent (wrap 1 (mkWrappingInt32 0)) 5 = Ok s' ∧
    _segments_outstanding four_sent = dropped ++ rest ∧ _segments_outstanding s' = rest ++ new ∧
    total_length dropped ≤ 1 - 1 ∧
    match rest with
    | [] => True
    | seg :: _ => 1 - 1 < total_length dropped + TCPSegment.length_in_sequence_space seg
    end ∧
    5 ≤ _next_seqno s' ≤ Z.max (5 + 1) (1 + 5) ∧
    (0 < 5 → _syn_sent four_sent = true → _next_seqno s' ≤ 1 + 5) ∧
    _receiver_window_size s' = 5.
Proof.
  apply (ack_respects_window 100 [1; 2; 3; 4; 5; 6] four_sent 1 5);
    [lia|apply four_sent_reach|unfold len; simpl; lia|simpl; lia|lia|unfold base; simpl; lia|simpl; lia].
Defined.

Definition four_front : TCPSegment.t :=
  Eval vm_compute in default TCPSegment.default (head (_segments_outstanding four_sent)).

Lemma tick_backs_off_witness :
  ∃ s' n, ticks four_sent [400; 600; 1999; 1; 500] = Ok s' ∧
    timer true 1000 0 [400; 600; 1999; 1; 500] = (n, _time_elapsed s') ∧
    _segments_out s' = _segments_out four_sent ++ replicate n four_front ∧ _rto s' = 1000 * 2 ^ Z.of_nat n ∧
    _consecutive_retransmissions s' = 0 + Z.of_nat n ∧ n = 2%nat.
Proof.
  destruct (tick_backs_off 100 [1; 2; 3; 4; 5; 6] four_sent four_front [] [400; 600; 1999; 1; 500])
    as (s' & n & H1 & H2 & H3 & H4 & H5 & _);
    [lia|apply four_sent_reach|reflexivity|repeat constructor; lia|simpl; lia|simpl; lia|simpl; lia|simpl; lia|unfold len; simpl; lia|].
  exists s', n. split; [exact H1|]. split; [exact H2|]. split; [exact H3|]. split; [exact H4|]. split; [exact H5|].
  revert H2. vm_compute. by intros [= <- _].
Defined.

End sender_properties.

(** ** What is sent can be put on the wire *)

Section sendable_segments.
Import TCPSender.

(** A segment that serializes, with a payload that fits one packet. *)
Definition sendable (seg : TCPSegment.t) : Prop :=
  TCPSegment.ok seg ∧ len (Buffer.str (TCPSegment.payload seg)) ≤ TCPConfig.MAX_PAYLOAD_SIZE.

(** All segments the sender holds are such, and the bytes it will send are bytes. *)
Record ready_to_send (s : t) : Prop := {
  rs_free : 0 ≤ _receiver_free_space s;
  rs_stream : is_bytes (ByteStream.buffer (_stream s));
  rs_queues : Forall sendable (_segments_out s ++ _segments_outstanding s)
}.

Lemma default_sendable : sendable TCPSegment.default.
Proof.
  split; [|done]. change TCPSegment.default with (TCPSegment.mk (TCPHeader.default <| TCPHeader.doff := 5 |>) Buffer.default).
  split; [unfold TCPHeader.ok, seq_ok; cbn; lia|]. split; [cbn; lia|]. split; [exact I|]. by split; [constructor|].
Qed.

Lemma payload_sendable data :
  is_bytes data → len data ≤ TCPConfig.MAX_PAYLOAD_SIZE →
  sendable (TCPSegment.default <| TCPSegment.payload := Buffer.of_string data |>).
Proof.
  intros Hb Hl. destruct default_sendable as [(Hh & Hd & _) _]. unfold TCPConfig.MAX_PAYLOAD_SIZE in *.
  split; [|done]. split; [done|]. split; [done|]. split; [apply wf_of_string; lia|]. split; [done|change (len data < 2 ^ 16); lia].
Qed.

(** Changing the flags or the numbers of a header. *)
Lemma sendable_header seg h :
  sendable seg → TCPHeader.ok h → TCPHeader.doff h = TCPHeader.doff (TCPSegment.header seg) →
  sendable (seg <| TCPSegment.header := h |>).
Proof. intros [(? & ? & ? & ? & ?) ?] Hh Hd. split; [|done]. split; [done|]. cbn. rewrite Hd. done. Qed.

Lemma queues_snoc (P : TCPSegment.t → Prop) l k seg :
  P seg → Forall P (l ++ k) → Forall P ((l ++ [seg]) ++ k ++ [seg]).
Proof. rewrite !Forall_app, !Forall_singleton. naive_solver. Qed.

Lemma stamp_sendable seg n : sendable seg → seq_ok n → sendable (seg <| TCPSegment.header ::= λ h, h <| TCPHeader.seqno := n |> |>).
Proof.
  intros Hs Hn. apply (sendable_header seg ((TCPSegment.header seg) <| TCPHeader.seqno := n |>)); [done| |done].
  destruct Hs as [(Hh & _) _]. unfold TCPHeader.ok in *. cbn. tauto.
Qed.

Lemma send_segment_ready s seg : sendable seg → ready_to_send s → ready_to_send (_send_segment s seg).
Proof.
  intros Hseg []. unfold _send_segment. cbv zeta. destruct (_syn_sent _); destruct (negb _); constructor; cbn in *; try done;
    try (by apply u16_bound); (apply queues_snoc; [|done]); by apply stamp_sendable; [|apply wrap_ok].
Qed.

Lemma read_ready s n st data :
  0 ≤ n ≤ TCPConfig.MAX_PAYLOAD_SIZE → ready_to_send s → ByteStream.read (_stream s) n = (st, data) →
  ready_to_send (s <| _stream := st |>) ∧ sendable (TCPSegment.default <| TCPSegment.payload := Buffer.of_string data |>).
Proof.
  intros Hn [? Hb ?]. unfold ByteStream.read.
  destruct (_ >? _); intros [= <- <-];
    (split; [constructor; cbn; try done|apply payload_sendable]); try done.
  - by constructor.
  - by apply Forall_drop.
  - by apply Forall_take.
  - unfold len. rewrite length_take. lia.
Qed.

Lemma fill_loop_ready fuel s s' : ready_to_send s → fill_loop fuel s = Ok s' → ready_to_send s'.
Proof.
  revert s. induction fuel as [|fuel IH]; intros s Hs; cbn [fill_loop]; [done|].
  destruct (negb _); [|by intros [= <-]]. set (n := Z.min _ _).
  assert (0 ≤ n ≤ TCPConfig.MAX_PAYLOAD_SIZE) as Hn.
  { pose proof (rs_free s Hs). pose proof (len_nonneg (ByteStream.buffer (_stream s))).
    unfold n, ByteStream.buffer_size, TCPConfig.MAX_PAYLOAD_SIZE. lia. }
  clearbody n. destruct (ByteStream.read (_stream s) n) as [st data] eqn:Hr.
  destruct (read_ready s n st data Hn Hs Hr) as [H1 Hd].
  assert (Hgo : ∀ s2 seg, ready_to_send s2 → sendable seg →
    (let s := _send_segment s2 seg in
     if ByteStream.buffer_empty (_stream s) then Ok s else fill_loop fuel s) = Ok s' → ready_to_send s').
  { intros s2 seg Hs2 Hseg. cbv zeta. pose proof (send_segment_ready s2 seg Hseg Hs2).
    destruct (ByteStream.buffer_empty _); [by intros [= <-]|by apply IH]. }
  cbv zeta. destruct (_ && _); apply Hgo; try done. destruct H1. by constructor.
Qed.

Lemma fill_window_ready s s' : ready_to_send s → fill_window s = Ok s' → ready_to_send s'.
Proof.
  intros Hs. unfold fill_window. destruct (negb (_syn_sent s)).
  { intros [= <-]. apply send_segment_ready; [apply default_sendable|]. destruct Hs. by constructor. }
  destruct (front_is_syn s); [by intros [= <-]|]. destruct (_ && _); [by intros [= <-]|].
  destruct (_fin_sent s); [by intros [= <-]|]. destruct (negb _); [by apply fill_loop_ready|].
  destruct (_ =? 0); [|by intros [= <-]]. destruct (ByteStream.eof _).
  { intros [= <-]. apply send_segment_ready; [apply default_sendable|]. destruct Hs. by constructor. }
  destruct (negb _); [|by intros [= <-]]. destruct (ByteStream.read _ 1) as [st data] eqn:Hr.
  apply read_ready in Hr as [H1 Hd]; [|done..]. intros [= <-]. by apply send_segment_ready.
Qed.

Lemma queues_drop (P : TCPSegment.t → Prop) l seg k : Forall P (l ++ seg :: k) → Forall P (l ++ k).
Proof. rewrite !Forall_app, Forall_cons. naive_solver. Qed.

Lemma ack_loop_ready q abs s s' :
  ready_to_send s → q = _segments_outstanding s → ack_loop q abs s = Ok s' → ready_to_send s'.
Proof.
  revert s. induction q as [|seg q IH]; intros s Hs Hq; cbn [ack_loop]; [by intros [= <-]|].
  destruct (unwrap _ _ _); try done. cbn [mbind outcome_bind]. destruct (_ <=? _); [|by intros [= <-]].
  apply IH; [|done]. destruct Hs as [? ? Hqs]. rewrite <- Hq in Hqs. constructor; cbn; try done. by eapply queues_drop.
Qed.

Lemma ack_received_ready s ackno w s' :
  ready_to_send s → 0 ≤ w → ack_received s ackno w = Ok s' → ready_to_send s'.
Proof.
  intros Hs Hw. unfold ack_received. destruct (unwrap ackno _ _) as [abs| | |]; try done. cbn [mbind outcome_bind].
  destruct (_ack_valid s abs) as [[]| | |]; try done; cbn [mbind outcome_bind negb]; [|by intros [= <-]].
  set (s1 := s <| _receiver_window_size := w |> <| _receiver_free_space := w |>).
  assert (H1 : ready_to_send s1) by (destruct Hs; by constructor). clearbody s1.
  destruct (ack_loop _ abs s1) as [s2| | |] eqn:Hl; try done. cbn [mbind outcome_bind].
  apply ack_loop_ready in Hl; [|done..].
  assert (Hgo : ∀ s3, ready_to_send s3 →
    fill_window (if _bytes_in_flight s3 =? 0 then s3 <| _timer_running := false |> else s3) = Ok s' → ready_to_send s').
  { intros s3 H3. apply fill_window_ready. destruct (_ =? 0); [|done]. destruct H3. by constructor. }
  destruct (_segments_outstanding s2) as [|seg q]; cbn [mbind outcome_bind]; [by apply Hgo|].
  destruct (unwrap _ _ _); try done. cbn [mbind outcome_bind]. apply Hgo.
  destruct Hl. constructor; cbn; try done. apply u16_bound.
Qed.

Lemma tick_ready s ms s' : ready_to_send s → tick s ms = Ok s' → ready_to_send s'.
Proof.
  intros Hs. unfold tick. destruct (negb _); [by intros [= <-]|]. cbv zeta.
  destruct (_ >=? _); [|intros [= <-]; destruct Hs; by constructor].
  destruct (_segments_outstanding s) as [|front q] eqn:Eq; cbn; rewrite Eq; cbn; [done|].
  destruct Hs as [? ? Hqs]. rewrite Eq in Hqs.
  assert (Hqs' : Forall sendable ((_segments_out s ++ [front]) ++ front :: q)).
  { apply Forall_app in Hqs as [? Hc]. pose proof (Forall_inv Hc). rewrite !Forall_app, Forall_singleton. done. }
  destruct (_ || _); intros [= <-]; constructor; cbn; rewrite ?Eq; done.
Qed.

Lemma empty_ready s : ready_to_send s → ready_to_send (send_empty_segment s).
Proof.
  intros [? ? Hqs]. constructor; try done. cbn. rewrite !Forall_app, Forall_singleton in *. destruct Hqs.
  split_and!; try done. apply (stamp_sendable TCPSegment.default); [apply default_sendable|apply wrap_ok].
Qed.

Lemma make_ready cap timeout fixed_isn random : ready_to_send (make cap timeout fixed_isn random).
Proof. constructor; cbn; [done|constructor|constructor]. Qed.

End sendable_segments.
