(* ===== verification/tcp_state.v ===== *)
(** * Summaries of a connection's state

    Models [libsponge/tcp_helpers/tcp_state.hh] and
    [libsponge/tcp_helpers/tcp_state.cc]: the summary of a sender, of a receiver
    and of a connection, and the official TCP states they stand for.  [name],
    which prints a summary, is in [printers.v]. *)

From stdpp Require Import strings.
From S2P Require Import prelude byte_stream wrapping_integers tcp_receiver tcp_sender.

Module TCPReceiverStateSummary.

Definition ERROR : string := "error (connection was reset)".
Definition LISTEN : string := "waiting for SYN: ackno is empty".
Definition SYN_RECV : string := "SYN received (ackno exists), and input to stream hasn't ended".
Definition FIN_RECV : string := "input to stream has ended".

End TCPReceiverStateSummary.

Module TCPSenderStateSummary.

Definition ERROR : string := "error (connection was reset)".
Definition CLOSED : string := "waiting for stream to begin (no SYN sent)".
Definition SYN_SENT : string := "stream started but nothing acknowledged".
Definition SYN_ACKED : string := "stream ongoing".
Definition FIN_SENT : string := "stream finished (FIN sent) but not fully acknowledged".
Definition FIN_ACKED : string := "stream finished and fully acknowledged".

End TCPSenderStateSummary.

Module TCPState.

(** The members of [class TCPState]. *)
Record t := mk {
  _sender : string;
  _receiver : string;
  _active : bool;
  _linger_after_streams_finish : bool
}.

(** [operator==] and [operator!=] *)
Definition eqb (s other : t) : bool :=
  Bool.eqb (_active s) (_active other) &&
  Bool.eqb (_linger_after_streams_finish s) (_linger_after_streams_finish other) &&
  bool_decide (_sender s = _sender other) && bool_decide (_receiver s = _receiver other).

Definition neqb (s other : t) : bool := negb (eqb s other).

(** [enum class State] *)
Inductive State :=
| LISTEN
| SYN_RCVD
| SYN_SENT
| ESTABLISHED
| CLOSE_WAIT
| LAST_ACK
| FIN_WAIT_1
| FIN_WAIT_2
| CLOSING
| TIME_WAIT
| CLOSED
| RESET.

#[global] Instance State_eq_dec : EqDecision State.
Proof. solve_decision. Defined.

(** [TCPState(State)] *)
Definition of_state (state : State) : t :=
  match state with
  | LISTEN => mk TCPSenderStateSummary.CLOSED TCPReceiverStateSummary.LISTEN true true
  | SYN_RCVD => mk TCPSenderStateSummary.SYN_SENT TCPReceiverStateSummary.SYN_RECV true true
  | SYN_SENT => mk TCPSenderStateSummary.SYN_SENT TCPReceiverStateSummary.LISTEN true true
  | ESTABLISHED => mk TCPSenderStateSummary.SYN_ACKED TCPReceiverStateSummary.SYN_RECV true true
  | CLOSE_WAIT => mk TCPSenderStateSummary.SYN_ACKED TCPReceiverStateSummary.FIN_RECV true false
  | LAST_ACK => mk TCPSenderStateSummary.FIN_SENT TCPReceiverStateSummary.FIN_RECV true false
  | CLOSING => mk TCPSenderStateSummary.FIN_SENT TCPReceiverStateSummary.FIN_RECV true true
  | FIN_WAIT_1 => mk TCPSenderStateSummary.FIN_SENT TCPReceiverStateSummary.SYN_RECV true true
  | FIN_WAIT_2 => mk TCPSenderStateSummary.FIN_ACKED TCPReceiverStateSummary.SYN_RECV true true
  | TIME_WAIT => mk TCPSenderStateSummary.FIN_ACKED TCPReceiverStateSummary.FIN_RECV true true
  | RESET => mk TCPSenderStateSummary.ERROR TCPReceiverStateSummary.ERROR false false
  | CLOSED => mk TCPSenderStateSummary.FIN_ACKED TCPReceiverStateSummary.FIN_RECV false false
  end.

(** [state_summary(const TCPReceiver &)] *)
Definition receiver_summary (receiver : TCPReceiver.t) : string :=
  if ByteStream.error (TCPReceiver.stream_out receiver) then TCPReceiverStateSummary.ERROR
  else if bool_decide (TCPReceiver.ackno receiver = None) then TCPReceiverStateSummary.LISTEN
  else if ByteStream.input_ended (TCPReceiver.stream_out receiver) then TCPReceiverStateSummary.FIN_RECV
  else TCPReceiverStateSummary.SYN_RECV.

(** [state_summary(const TCPSender &)] *)
Definition sender_summary (sender : TCPSender.t) : string :=
  if ByteStream.error (TCPSender.stream_in sender) then TCPSenderStateSummary.ERROR
  else if TCPSender.next_seqno_absolute sender =? 0 then TCPSenderStateSummary.CLOSED
  else if TCPSender.next_seqno_absolute sender =? TCPSender.bytes_in_flight sender
  then TCPSenderStateSummary.SYN_SENT
  else if negb (ByteStream.eof (TCPSender.stream_in sender)) then TCPSenderStateSummary.SYN_ACKED
  else if TCPSender.next_seqno_absolute sender <?
          u64 (ByteStream.bytes_written (TCPSender.stream_in sender) + 2)
  then TCPSenderStateSummary.SYN_ACKED
  else if negb (TCPSender.bytes_in_flight sender =? 0) then TCPSenderStateSummary.FIN_SENT
  else TCPSenderStateSummary.FIN_ACKED.

(** [TCPState(sender, receiver, active, linger)] *)
Definition of_parts (sender : TCPSender.t) (receiver : TCPReceiver.t) (active linger : bool) : t :=
  mk (sender_summary sender) (receiver_summary receiver) active (if active then linger else false).

End TCPState.

(** ** Lemmas *)

Section state_facts.
Import TCPState.

Lemma state_eqb_eq s s' : eqb s s' = true ↔ s = s'.
Proof.
  unfold eqb. destruct s, s'; cbn. rewrite !andb_true_iff, !bool_decide_eq_true, !Bool.eqb_true_iff.
  naive_solver.
Qed.

Lemma of_state_inj st st' : of_state st = of_state st' → st = st'.
Proof. by destruct st, st'. Qed.

(** The sender's summary says where its numbers are. *)
Lemma sender_summary_spec cap a s :
  0 < cap < 2 ^ 31 → TCPSender.inv cap a s → len (ByteStreamSpec.accepted a) < 2 ^ 62 →
  ByteStream.error (TCPSender._stream s) = false →
  sender_summary s =
    if negb (TCPSender._syn_sent s) then TCPSenderStateSummary.CLOSED
    else if TCPSender._next_seqno s =? TCPSender._bytes_in_flight s then TCPSenderStateSummary.SYN_SENT
    else if negb (TCPSender._fin_sent s) then TCPSenderStateSummary.SYN_ACKED
    else if negb (ByteStream.eof (TCPSender._stream s)) then TCPSenderStateSummary.SYN_ACKED
    else if negb (TCPSender._bytes_in_flight s =? 0) then TCPSenderStateSummary.FIN_SENT
    else TCPSenderStateSummary.FIN_ACKED.
Proof.
  intros Hcap Hi HA He. pose proof (delivered_le cap a s Hi) as Hd.
  pose proof (TCPSender.inv_next _ _ _ Hi) as Hn. pose proof (TCPSender.inv_syn _ _ _ Hi) as Hs.
  pose proof (ByteStreamSpec.sim_written _ _ _ (TCPSender.inv_stream _ _ _ Hi)) as Hw.
  pose proof (len_nonneg (ByteStreamSpec.delivered a)). pose proof (len_nonneg (ByteStream.buffer (TCPSender._stream s))).
  unfold sender_summary, TCPSender.stream_in, TCPSender.next_seqno_absolute, TCPSender.bytes_in_flight.
  rewrite He. destruct (TCPSender._syn_sent s) eqn:Esyn; cbn [negb b2z] in *.
  2:{ destruct (Hs eq_refl) as (Hf & Hde & _). rewrite Hn, Hf, Hde. done. }
  replace (TCPSender._next_seqno s =? 0) with false by (destruct (TCPSender._fin_sent s); cbn [b2z] in *; lia).
  destruct (_ =? TCPSender._bytes_in_flight s); [done|].
  destruct (ByteStream.eof (TCPSender._stream s)) eqn:Eeof; cbn [negb].
  - unfold ByteStream.eof, ByteStream.buffer_empty in Eeof. apply andb_prop in Eeof as [Eb _].
    apply Z.eqb_eq in Eb. rewrite Hw, (u64_id (len _)) by lia.
    rewrite u64_id by lia. destruct (TCPSender._fin_sent s); cbn [negb b2z] in *.
    + by replace (_ <? _) with false by lia.
    + by replace (_ <? _) with true by lia.
  - by destruct (negb _).
Qed.

End state_facts.

(** ** Properties *)

Section state_properties.
Import TCPState.

(** A summary stands for at most one official TCP state, and the sender's
    part of it means what it says: in a sender that has not failed, CLOSED is "no
    SYN sent", SYN_SENT "nothing acknowledged", FIN_SENT "the FIN is sent, the
    stream is empty, and something after the SYN is still in flight", and
    FIN_ACKED the same with nothing in flight. *)
Theorem state_summary_meaning (cap : Z) (A : bytes) (s : TCPSender.t) (st st' : State) (x : t) :
  0 < cap < 2 ^ 31 → TCPSender.reach cap A s → len A < 2 ^ 62 →
  ByteStream.error (TCPSender.stream_in s) = false →
  (eqb x (of_state st) = true → eqb x (of_state st') = true → st = st') ∧
  (sender_summary s = TCPSenderStateSummary.CLOSED ↔ TCPSender._syn_sent s = false) ∧
  (sender_summary s = TCPSenderStateSummary.SYN_SENT ↔
     TCPSender._syn_sent s = true ∧ TCPSender.next_seqno_absolute s = TCPSender.bytes_in_flight s) ∧
  (sender_summary s = TCPSenderStateSummary.FIN_SENT ↔
     TCPSender._syn_sent s = true ∧ TCPSender._fin_sent s = true ∧
     ByteStream.eof (TCPSender.stream_in s) = true ∧ TCPSender.bytes_in_flight s ≠ 0 ∧
     TCPSender.next_seqno_absolute s ≠ TCPSender.bytes_in_flight s) ∧
  (sender_summary s = TCPSenderStateSummary.FIN_ACKED ↔
     TCPSender._syn_sent s = true ∧ TCPSender._fin_sent s = true ∧
     ByteStream.eof (TCPSender.stream_in s) = true ∧ TCPSender.bytes_in_flight s = 0).
Proof.
  intros Hcap Hreach HA He. split.
  { rewrite !state_eqb_eq. intros -> ?. by apply of_state_inj. }
  destruct (sender_reach_inv cap Hcap A s Hreach) as (a & Hi & <-).
  rewrite (sender_summary_spec cap a s Hcap Hi HA He).
  pose proof (TCPSender.inv_next _ _ _ Hi) as Hn. pose proof (len_nonneg (ByteStreamSpec.delivered a)).
  unfold TCPSender.next_seqno_absolute, TCPSender.bytes_in_flight, TCPSender.stream_in.
  assert (Hpos : TCPSender._syn_sent s = true → 0 < TCPSender._next_seqno s).
  { intros Hsyn. rewrite Hsyn in Hn. destruct (TCPSender._fin_sent s); cbn [b2z] in *; lia. }
  clear -Hpos. destruct (TCPSender._syn_sent s); cbn [negb]; [|naive_solver].
  specialize (Hpos eq_refl).
  destruct (Z.eqb_spec (TCPSender._next_seqno s) (TCPSender._bytes_in_flight s)) as [E|E].
  { split_and!; split; intros H; try done; naive_solver lia. }
  destruct (TCPSender._fin_sent s); cbn [negb]; [|split_and!; split; naive_solver].
  destruct (ByteStream.eof _); cbn [negb]; [|split_and!; split; naive_solver].
  destruct (Z.eqb_spec (TCPSender._bytes_in_flight s) 0); cbn [negb]; split_and!; split; naive_solver.
Qed.

Lemma state_summary_meaning_witness :
  sender_summary four_sent = TCPSenderStateSummary.CLOSED ↔ TCPSender._syn_sent four_sent = false.
Proof.
  apply (state_summary_meaning 100 [1; 2; 3; 4; 5; 6] four_sent LISTEN LISTEN (of_state LISTEN));
    [lia|apply four_sent_reach|unfold len; simpl; lia|done].
Defined.

End state_properties.
