(* ===== verification/tcp_connection.v ===== *)
(** * A TCP endpoint

    Models [libsponge/tcp_connection.hh] and [libsponge/tcp_connection.cc]: the
    connection that joins a sender and a receiver, one definition per method,
    destructor included.  The warning the destructor prints is left out. *)

From S2P Require Import prelude byte_stream wrapping_integers stream_reassembler buffer parser tcp_segment tcp_receiver tcp_sender tcp_state.

Module TCPConnection.

(** The members of [class TCPConnection]. *)
Record t := mk {
  _cfg : TCPConfig.t;
  _receiver : TCPReceiver.t;
  _sender : TCPSender.t;
  _segments_out : list TCPSegment.t;
  _linger_after_streams_finish : bool;
  _time_since_last_segment_received_counter : Z;
  _active : bool
}.

#[global] Instance eta_t : Eta t := λ c,
  mk (_cfg c) (_receiver c) (_sender c) (_segments_out c) (_linger_after_streams_finish c)
     (_time_since_last_segment_received_counter c) (_active c).

(** [TCPConnection(cfg)]; [random] is what the sender draws when [cfg] fixes no
    initial sequence number. *)
Definition make (cfg : TCPConfig.t) (random : Z) : t :=
  mk cfg (TCPReceiver.make (TCPConfig.recv_capacity cfg))
     (TCPSender.make (TCPConfig.send_capacity cfg) (TCPConfig.rt_timeout cfg)
        (TCPConfig.fixed_isn cfg) random)
     [] true 0 true.

Definition remaining_outbound_capacity (c : t) : Z :=
  ByteStream.remaining_capacity (TCPSender.stream_in (_sender c)).
Definition bytes_in_flight (c : t) : Z := TCPSender.bytes_in_flight (_sender c).
Definition unassembled_bytes (c : t) : Z := TCPReceiver.unassembled_bytes (_receiver c).
Definition time_since_last_segment_received (c : t) : Z := _time_since_last_segment_received_counter c.
Definition active (c : t) : bool := _active c.
Definition inbound_stream (c : t) : ByteStream.t := TCPReceiver.stream_out (_receiver c).
Definition segments_out (c : t) : list TCPSegment.t := _segments_out c.
Definition state (c : t) : TCPState.t :=
  TCPState.of_parts (_sender c) (_receiver c) (active c) (_linger_after_streams_finish c).

(** [_sender.stream_in().set_error(); _receiver.stream_out().set_error();] *)
Definition set_errors (c : t) : t :=
  let c := c <| _sender ::= λ s, s <| TCPSender._stream ::= ByteStream.set_error |> |> in
  c <| _receiver ::= λ r, r <| TCPReceiver._reassembler ::= λ s,
         s <| StreamReassembler._output ::= ByteStream.set_error |> |> |>.

Definition set_ack_and_windowsize (c : t) (segment : TCPSegment.t) : TCPSegment.t :=
  let ackno := TCPReceiver.ackno (_receiver c) in
  let segment :=
    match ackno with
    | Some ackno => segment <| TCPSegment.header ::= λ h,
                      h <| TCPHeader.ack := true |> <| TCPHeader.ackno := ackno |> |>
    | None => segment
    end in
  let window_size := TCPReceiver.window_size (_receiver c) in
  segment <| TCPSegment.header ::= λ h, h <| TCPHeader.win := u16 window_size |> |>.

(** [while (!_sender.segments_out().empty()) { ... }]; [queue] is the sender's. *)
Fixpoint real_send_loop (queue : list TCPSegment.t) (isSend : bool) (c : t) : t * bool :=
  match queue with
  | [] => (c, isSend)
  | segment :: queue =>
    let c := c <| _sender ::= λ s, s <| TCPSender._segments_out := queue |> |> in
    let segment := set_ack_and_windowsize c segment in
    real_send_loop queue true (c <| _segments_out ::= λ q, q ++ [segment] |>)
  end.

Definition real_send (c : t) : t * bool :=
  real_send_loop (TCPSender.segments_out (_sender c)) false c.

(** [segments_out().front()] then [pop()] of the sender's queue. *)
Definition dequeue (c : t) : outcome (TCPSegment.t * t) :=
  front ← or_UB (head (TCPSender.segments_out (_sender c)));
  Ok (front, c <| _sender ::= λ s, s <| TCPSender._segments_out ::= tail |> |>).

Definition check_inbound_ended (c : t) : bool :=
  (TCPReceiver.unassembled_bytes (_receiver c) =? 0) &&
  ByteStream.input_ended (TCPReceiver.stream_out (_receiver c)).

Definition check_outbound_ended (c : t) : bool :=
  ByteStream.eof (TCPSender.stream_in (_sender c)) &&
  (TCPSender.next_seqno_absolute (_sender c) =?
   u64 (ByteStream.bytes_written (TCPSender.stream_in (_sender c)) + 2)) &&
  (TCPSender.bytes_in_flight (_sender c) =? 0).

Definition segment_received (c : t) (seg : TCPSegment.t) : outcome t :=
  let c := c <| _time_since_last_segment_received_counter := 0 |> in
  if TCPHeader.rst (TCPSegment.header seg) then
    let c := set_errors c in
    Ok (c <| _active := false |>)
  else
    r ← TCPReceiver.segment_received (_receiver c) seg;
    let c := c <| _receiver := r |> in
    let c :=
      if check_inbound_ended c && negb (ByteStream.eof (TCPSender.stream_in (_sender c)))
      then c <| _linger_after_streams_finish := false |> else c in
    c ← (if TCPHeader.ack (TCPSegment.header seg) then
           s ← TCPSender.ack_received (_sender c) (TCPHeader.ackno (TCPSegment.header seg))
                 (TCPHeader.win (TCPSegment.header seg));
           Ok (real_send (c <| _sender := s |>)).1
         else Ok c);
    if TCPSegment.length_in_sequence_space seg >? 0 then
      s ← TCPSender.fill_window (_sender c);
      let '(c, isSend) := real_send (c <| _sender := s |>) in
      if negb isSend then
        let c := c <| _sender ::= TCPSender.send_empty_segment |> in
        '(ACKSeg, c) ← dequeue c;
        let ACKSeg := set_ack_and_windowsize c ACKSeg in
        Ok (c <| _segments_out ::= λ q, q ++ [ACKSeg] |>)
      else Ok c
    else Ok c.

Definition connect (c : t) : outcome t :=
  s ← TCPSender.fill_window (_sender c);
  Ok (real_send (c <| _sender := s |>)).1.

Definition write (c : t) (data : bytes) : outcome (t * Z) :=
  if len data =? 0 then Ok (c, 0)
  else
    let '(stream, actually_write) := ByteStream.write (TCPSender.stream_in (_sender c)) data in
    let c := c <| _sender ::= λ s, s <| TCPSender._stream := stream |> |> in
    s ← TCPSender.fill_window (_sender c);
    Ok ((real_send (c <| _sender := s |>)).1, actually_write).

Definition end_input_stream (c : t) : outcome t :=
  let c := c <| _sender ::= λ s, s <| TCPSender._stream ::= ByteStream.end_input |> |> in
  s ← TCPSender.fill_window (_sender c);
  Ok (real_send (c <| _sender := s |>)).1.

Definition send_RST (c : t) : outcome t :=
  let c := c <| _sender ::= TCPSender.send_empty_segment |> in
  '(RSTSeg, c) ← dequeue c;
  let RSTSeg := set_ack_and_windowsize c RSTSeg in
  let RSTSeg := RSTSeg <| TCPSegment.header ::= λ h, h <| TCPHeader.rst := true |> |> in
  Ok (c <| _segments_out ::= λ q, q ++ [RSTSeg] |>).

Definition tick (c : t) (ms_since_last_tick : Z) : outcome t :=
  let c := c <| _time_since_last_segment_received_counter ::= λ n, u64 (n + ms_since_last_tick) |> in
  s ← TCPSender.tick (_sender c) ms_since_last_tick;
  let c := c <| _sender := s |> in
  c ← (if len (TCPSender.segments_out (_sender c)) >? 0 then
         '(retxSeg, c) ← dequeue c;
         let retxSeg := set_ack_and_windowsize c retxSeg in
         let '(c, retxSeg) :=
           if TCPSender.consecutive_retransmissions (_sender c) >? TCPConfig.MAX_RETX_ATTEMPTS then
             ((set_errors c) <| _active := false |>,
              retxSeg <| TCPSegment.header ::= λ h, h <| TCPHeader.rst := true |> |>)
           else (c, retxSeg) in
         Ok (c <| _segments_out ::= λ q, q ++ [retxSeg] |>)
       else Ok c);
  if check_inbound_ended c && check_outbound_ended c then
    if negb (_linger_after_streams_finish c) then Ok (c <| _active := false |>)
    else if _time_since_last_segment_received_counter c >=? 10 * TCPConfig.rt_timeout (_cfg c)
    then Ok (c <| _active := false |>)
    else Ok c
  else Ok c.

(** [~TCPConnection()]: what is left in the outbound queue when the object goes. *)
Definition destroy (c : t) : outcome t :=
  if active c then
    let c := set_errors c in
    c ← send_RST c;
    Ok (c <| _active := false |>)
  else Ok c.

(** ** An endpoint and its owner *)

(** What happens to a connection.  A segment comes with the absolute sequence
    number its sender gave it. *)
Inductive event :=
| Connect
| WriteData (data : bytes)
| EndInput
| Segment (a : Z) (seg : TCPSegment.t)
| Tick (ms : Z)
| Read (n : Z)
| Dequeue
| Destroy.

Definition handle (c : t) (e : event) : outcome t :=
  match e with
  | Connect => connect c
  | WriteData data => '(c, _) ← write c data; Ok c
  | EndInput => end_input_stream c
  | Segment _ seg => segment_received c seg
  | Tick ms => tick c ms
  | Read n =>
    Ok (c <| _receiver ::= λ r, r <| TCPReceiver._reassembler ::= λ s,
               s <| StreamReassembler._output ::= λ o, (ByteStream.read o n).1 |> |> |>)
  | Dequeue => Ok (c <| _segments_out ::= tail |>)
  | Destroy => destroy c
  end.

(** The sequence numbers are in the range where their 32-bit form is unambiguous,
    and a segment without RST is one the peer, which sends [S] from [isn], may
    send now. *)
Definition event_ok (S : bytes) (isn : WrappingInt32) (c : t) (e : event) : Prop :=
  TCPSender._next_seqno (_sender c) < 2 ^ 61 ∧ TCPSender._bytes_in_flight (_sender c) < 2 ^ 30 ∧
  match e with
  | Segment a seg =>
    0 ≤ TCPHeader.win (TCPSegment.header seg) < 2 ^ 16 ∧
    (TCPHeader.rst (TCPSegment.header seg) = false → TCPReceiver.peer_segment S isn (_receiver c) a seg)
  | Read n => 0 ≤ n < 2 ^ 64
  | _ => True
  end.

Inductive reach (cfg : TCPConfig.t) (S : bytes) (isn : WrappingInt32) : t → Prop :=
| reach_make random : reach cfg S isn (make cfg random)
| reach_event c e c' :
    reach cfg S isn c → event_ok S isn c e → handle c e = Ok c' → reach cfg S isn c'.

(** Both halves keep their invariants, and the sender's queue is empty between
    calls: whatever the sender produced has been passed on. *)
Record inv (cfg : TCPConfig.t) (S : bytes) (isn : WrappingInt32) (a : ByteStreamSpec.t) (c : t) : Prop := {
  inv_cfg : _cfg c = cfg;
  inv_receiver : TCPReceiver.inv (TCPConfig.recv_capacity cfg) S isn (_receiver c);
  inv_sender : TCPSender.inv (TCPConfig.send_capacity cfg) a (_sender c);
  inv_drained : TCPSender._segments_out (_sender c) = []
}.

(** In LISTEN: no SYN was sent and none received. *)
Definition listening (c : t) : bool :=
  negb (TCPSender._syn_sent (_sender c)) && negb (TCPReceiver._synReceived (_receiver c)).

(** The header of an outgoing segment repeats what receiver [r] has to say. *)
Definition acknowledges (r : TCPReceiver.t) (seg : TCPSegment.t) : Prop :=
  TCPHeader.win (TCPSegment.header seg) = u16 (TCPReceiver.window_size r) ∧
  match TCPReceiver.ackno r with
  | Some n => TCPHeader.ack (TCPSegment.header seg) = true ∧ TCPHeader.ackno (TCPSegment.header seg) = n
  | None => True
  end.

End TCPConnection.

(** ** Lemmas *)

Section endpoint.
Import TCPConnection.
Context (cfg : TCPConfig.t) (S : bytes) (isn : WrappingInt32).
Context (Hcfg : TCPConfig.ok cfg) (HS : len S < 2 ^ 63) (Hisn : seq_ok isn).
Implicit Types (c : t) (a : ByteStreamSpec.t).

Lemma set_ack_receiver c c' seg :
  _receiver c = _receiver c' → set_ack_and_windowsize c seg = set_ack_and_windowsize c' seg.
Proof. unfold set_ack_and_windowsize. by intros ->. Qed.

Lemma set_ack_acknowledges c seg : acknowledges (_receiver c) (set_ack_and_windowsize c seg).
Proof. unfold acknowledges, set_ack_and_windowsize. by destruct (TCPReceiver.ackno _). Qed.

(** [real_send] moves the sender's whole queue, stamped, to the connection's. *)
Record sent (c : t) (q : list TCPSegment.t) (c' : t) : Prop := {
  sent_cfg : _cfg c' = _cfg c;
  sent_receiver : _receiver c' = _receiver c;
  sent_linger : _linger_after_streams_finish c' = _linger_after_streams_finish c;
  sent_time : _time_since_last_segment_received_counter c' = _time_since_last_segment_received_counter c;
  sent_active : _active c' = _active c;
  sent_out : _segments_out c' = _segments_out c ++ map (set_ack_and_windowsize c) q
}.

Lemma real_send_loop_spec q b c :
  TCPSender._segments_out (_sender c) = q →
  sent c q (real_send_loop q b c).1 ∧
  _sender (real_send_loop q b c).1 = (_sender c) <| TCPSender._segments_out := [] |> ∧
  (real_send_loop q b c).2 = b || bool_decide (q ≠ []).
Proof.
  revert b c. induction q as [|seg q IH]; intros b c Hq; cbn [real_send_loop].
  - split; [constructor; try done; by rewrite app_nil_r|]. split; [|by destruct b].
    cbn [fst]. destruct (_sender c); cbn in *. by subst.
  - set (c1 := _ <| _segments_out ::= _ |>).
    assert (E : TCPSender._segments_out (_sender c1) = q) by done.
    destruct (IH true c1 E) as ([E1 E2 E3 E4 E5 E6] & E7 & E8).
    split; [constructor|split]; try (rewrite ?E1, ?E2, ?E3, ?E4, ?E5, ?E7; done).
    + rewrite E6. unfold c1. cbn. by rewrite <- app_assoc.
    + rewrite E8. by rewrite orb_true_r.
Qed.

Lemma real_send_spec c :
  let q := TCPSender._segments_out (_sender c) in
  sent c q (real_send c).1 ∧
  _sender (real_send c).1 = (_sender c) <| TCPSender._segments_out := [] |> ∧
  (real_send c).2 = bool_decide (q ≠ []).
Proof. by apply (real_send_loop_spec _ false). Qed.

Lemma send_capacity_ok : 0 < TCPConfig.send_capacity cfg < 2 ^ 31.
Proof. apply Hcfg. Qed.

Lemma recv_capacity_ok : 0 < TCPConfig.recv_capacity cfg < 2 ^ 31.
Proof. apply Hcfg. Qed.

Lemma accepted_le_next a s :
  TCPSender.inv (TCPConfig.send_capacity cfg) a s →
  len (ByteStreamSpec.accepted a) ≤ TCPSender._next_seqno s + TCPConfig.send_capacity cfg.
Proof.
  intros Hi. rewrite (delivered_le _ a s Hi). pose proof (TCPSender.inv_next _ _ _ Hi).
  pose proof (ByteStreamSpec.sim_fit _ _ _ (TCPSender.inv_stream _ _ _ Hi)).
  destruct (TCPSender._syn_sent s), (TCPSender._fin_sent s); cbn [b2z] in *; lia.
Qed.

Lemma accepted_in_range a s :
  TCPSender.inv (TCPConfig.send_capacity cfg) a s → TCPSender._next_seqno s < 2 ^ 61 →
  len (ByteStreamSpec.accepted a) < 2 ^ 62.
Proof. intros Hi Hn. pose proof (accepted_le_next a s Hi). pose proof send_capacity_ok. lia. Qed.

(** Passing on what a sender with a good state has produced. *)
Lemma send_on a c s q :
  TCPReceiver.inv (TCPConfig.recv_capacity cfg) S isn (_receiver c) → _cfg c = cfg →
  TCPSender.inv (TCPConfig.send_capacity cfg) a s → TCPSender._segments_out s = q →
  let c' := (real_send (c <| _sender := s |>)).1 in
  inv cfg S isn a c' ∧ sent c q c' ∧ _sender c' = s <| TCPSender._segments_out := [] |> ∧
  (real_send (c <| _sender := s |>)).2 = bool_decide (q ≠ []).
Proof.
  intros Hr Hc Hs Hq c'. destruct (real_send_spec (c <| _sender := s |>)) as (Hsent & Hsend & Hb).
  fold c' in Hsent, Hsend. change (_sender (c <| _sender := s |>)) with s in *. rewrite Hq in Hsent, Hb.
  assert (Hsent' : sent c q c').
  { destruct Hsent as [E1 E2 E3 E4 E5 E6]. constructor; try done. }
  split_and!; try done. destruct Hsent as [E1 E2 E3 E4 E5 E6]. constructor.
  - by rewrite E1.
  - by rewrite E2.
  - rewrite Hsend. apply drain_inv; [done|]. intros seg Hseg. by inversion Hseg.
  - by rewrite Hsend.
Qed.

(** [_sender.fill_window(); real_send();] *)
Lemma fill_and_send a c :
  TCPReceiver.inv (TCPConfig.recv_capacity cfg) S isn (_receiver c) → _cfg c = cfg →
  TCPSender.inv (TCPConfig.send_capacity cfg) a (_sender c) →
  TCPSender._segments_out (_sender c) = [] → len (ByteStreamSpec.accepted a) < 2 ^ 62 →
  ∃ a' s q, TCPSender.fill_window (_sender c) = Ok s ∧
    inv cfg S isn a' (real_send (c <| _sender := s |>)).1 ∧
    sent c q (real_send (c <| _sender := s |>)).1 ∧
    (real_send (c <| _sender := s |>)).2 = bool_decide (q ≠ []) ∧
    ByteStreamSpec.accepted a' = ByteStreamSpec.accepted a ∧ ByteStreamSpec.ended a' = ByteStreamSpec.ended a ∧
    (TCPSender._syn_sent (_sender c) = false →
     TCPSender._bytes_in_flight s = TCPSender._next_seqno s - TCPSender._next_seqno (_sender c)).
Proof.
  intros Hr Hc Hi Hdr HA.
  destruct (fill_window_spec _ a _ Hi HA) as (a' & s & Hf & Hadv & _).
  destruct (adv_queue _ _ _ _ _ Hadv) as (q & Hq1 & Hq2). rewrite Hdr in Hq2.
  destruct (send_on a' c s q Hr Hc (adv_inv _ _ _ _ _ Hadv) Hq2) as (Hi' & Hsent & _ & Hb).
  exists a', s, q. split_and!; try done; [apply Hadv..|].
  intros Hsyn. pose proof (adv_base _ _ _ _ _ Hadv).
  destruct (TCPSender.inv_syn _ _ _ Hi Hsyn) as (? & ? & Ho).
  pose proof (TCPSender.inv_outstanding _ _ _ Hi) as Hl. rewrite Ho in Hl. cbn in Hl. lia.
Qed.

Lemma sent_acknowledges c q c' :
  sent c q c' → Forall (acknowledges (_receiver c')) (map (set_ack_and_windowsize c) q).
Proof.
  intros H. rewrite (sent_receiver _ _ _ H). apply Forall_forall. intros seg Hseg.
  apply list_elem_of_fmap in Hseg as (seg' & -> & _). apply set_ack_acknowledges.
Qed.

(** What every call achieves: it keeps the invariant and appends segments that
    acknowledge what the receiver then has. *)
Definition appends (c c' : t) (q : list TCPSegment.t) : Prop :=
  _segments_out c' = _segments_out c ++ q ∧ Forall (acknowledges (_receiver c')) q.

Lemma sent_appends c q c' : sent c q c' → ∃ q', appends c c' q' ∧ (q ≠ [] → q' ≠ []).
Proof.
  intros H. eexists. split; [split; [apply (sent_out _ _ _ H)|by apply sent_acknowledges]|].
  by destruct q.
Qed.

Lemma appends_trans c1 c2 c3 q1 q2 :
  appends c1 c2 q1 → appends c2 c3 q2 → _receiver c3 = _receiver c2 → appends c1 c3 (q1 ++ q2).
Proof.
  intros [H1 H2] [H3 H4] Hr. split; [by rewrite H3, H1, app_assoc|].
  apply Forall_app. split; [by rewrite Hr|done].
Qed.

(** Taking the segment [send_empty_segment] has just queued. *)
Lemma dequeue_empty a c :
  inv cfg S isn a c →
  ∃ seg c', dequeue (c <| _sender ::= TCPSender.send_empty_segment |>) = Ok (seg, c') ∧
    inv cfg S isn a c' ∧ sent c [] c'.
Proof.
  intros [I1 I2 I3 I4]. unfold dequeue.
  assert (Hh : ∃ seg, head (TCPSender.segments_out (_sender (c <| _sender ::= TCPSender.send_empty_segment |>)))
    = Some seg) by (cbn; rewrite I4; by eexists).
  destruct Hh as [seg Hh]. rewrite Hh. cbn [or_UB mbind outcome_bind].
  do 2 eexists. split; [reflexivity|]. split; [constructor; try done|].
  - change (TCPSender.inv (TCPConfig.send_capacity cfg) a
      ((TCPSender.send_empty_segment (_sender c)) <| TCPSender._segments_out ::= tail |>)).
    apply (drain_inv _ a (TCPSender.send_empty_segment (_sender c))); [by apply send_empty_inv|].
    intros seg0 Hseg. cbn in Hseg |- *. rewrite I4 in *. cbn in *. by inversion Hseg.
  - cbn. by rewrite I4.
  - constructor; try done. cbn. by rewrite app_nil_r.
Qed.

Lemma set_errors_inv a c :
  inv cfg S isn a c → inv cfg S isn (a <| ByteStreamSpec.failed := true |>) (set_errors c).
Proof.
  intros [I1 I2 I3 I4]. constructor; try done.
  - change (TCPReceiver.inv (TCPConfig.recv_capacity cfg) S isn ((_receiver c) <| TCPReceiver._reassembler ::=
      λ s, s <| StreamReassembler._output ::= ByteStream.set_error |> |>)). by apply inv_error.
  - exact (stream_inv _ send_capacity_ok a (_sender c) ByteStream.SetError I3 I).
Qed.

Lemma set_errors_sent c : sent (set_errors c) [] (set_errors c).
Proof. constructor; try done. by rewrite app_nil_r. Qed.

Lemma set_errors_receiver c seg : acknowledges (_receiver (set_errors c)) seg ↔ acknowledges (_receiver c) seg.
Proof. done. Qed.

(** The end of [segment_received]: answer a segment that takes up sequence space. *)
Lemma reply_spec a c seg :
  inv cfg S isn a c → len (ByteStreamSpec.accepted a) < 2 ^ 62 →
  ∃ a' c' q,
    (if TCPSegment.length_in_sequence_space seg >? 0 then
       s ← TCPSender.fill_window (_sender c);
       let '(c, isSend) := real_send (c <| _sender := s |>) in
       if negb isSend then
         let c := c <| _sender ::= TCPSender.send_empty_segment |> in
         '(ACKSeg, c) ← dequeue c;
         let ACKSeg := set_ack_and_windowsize c ACKSeg in
         Ok (c <| _segments_out ::= λ q, q ++ [ACKSeg] |>)
       else Ok c
     else Ok c) = Ok c' ∧
    inv cfg S isn a' c' ∧ appends c c' q ∧ _receiver c' = _receiver c ∧ _active c' = _active c ∧
    _linger_after_streams_finish c' = _linger_after_streams_finish c ∧
    _time_since_last_segment_received_counter c' = _time_since_last_segment_received_counter c ∧
    (0 < TCPSegment.length_in_sequence_space seg → q ≠ []).
Proof.
  intros Hi HA. destruct (_ >? 0) eqn:E.
  2:{ exists a, c, []. split; [done|]. split_and!; try done; [split; [by rewrite app_nil_r|done]|lia]. }
  destruct Hi as [I1 I2 I3 I4].
  destruct (fill_and_send a c I2 I1 I3 I4 HA) as (a' & s & q & -> & Hi' & Hsent & Hb & _).
  cbn [mbind outcome_bind]. destruct (real_send _) as [c1 b] eqn:Er. cbn [fst snd] in *. subst b.
  destruct (sent_appends _ _ _ Hsent) as (q' & Happ & Hne).
  pose proof Hsent as [E1 E2 E3 E4 E5 _].
  destruct (decide (q = [])) as [->|Hq].
  - rewrite bool_decide_eq_false_2 by (intros H; by apply H). cbn [negb]. cbv zeta.
    destruct (dequeue_empty a' c1 Hi') as (ack & c2 & -> & Hi2 & Hsent2). cbn [mbind outcome_bind].
    pose proof Hsent2 as [F1 F2 F3 F4 F5 F6]. cbn [map] in F6. rewrite app_nil_r in F6.
    exists a', (c2 <| _segments_out ::= λ q, q ++ [set_ack_and_windowsize c2 ack] |>),
      (q' ++ [set_ack_and_windowsize c2 ack]).
    split; [done|]. split; [destruct Hi2; by constructor|].
    split; [apply (appends_trans c c1); [done| |done]; split; [cbn; by rewrite F6|]|].
    { apply Forall_singleton. exact (set_ack_acknowledges c2 ack). }
    cbn. split_and!; try congruence. intros _. by destruct q'.
  - rewrite bool_decide_eq_true_2 by done. cbn [negb].
    exists a', c1, q'. split_and!; try done. intros _. by apply Hne.
Qed.

(** The middle of [segment_received]: the sender gets the acknowledgment and what it
    then sends goes out. *)
Lemma acknowledge_spec a c seg :
  inv cfg S isn a c →
  len (ByteStreamSpec.accepted a) < 2 ^ 62 → TCPSender._bytes_in_flight (_sender c) < 2 ^ 30 →
  0 ≤ TCPHeader.win (TCPSegment.header seg) < 2 ^ 16 →
  ∃ a' c' q,
    (if TCPHeader.ack (TCPSegment.header seg) then
       s ← TCPSender.ack_received (_sender c) (TCPHeader.ackno (TCPSegment.header seg))
             (TCPHeader.win (TCPSegment.header seg));
       Ok (real_send (c <| _sender := s |>)).1
     else Ok c) = Ok c' ∧
    inv cfg S isn a' c' ∧ len (ByteStreamSpec.accepted a') < 2 ^ 62 ∧ appends c c' q ∧
    _receiver c' = _receiver c ∧ _active c' = _active c ∧
    _time_since_last_segment_received_counter c' = _time_since_last_segment_received_counter c.
Proof.
  intros Hi HA Hb Hwin. destruct (TCPHeader.ack _).
  2:{ exists a, c, []. split; [done|]. split_and!; try done. split; [by rewrite app_nil_r|done]. }
  destruct (handle_spec _ send_capacity_ok a (_sender c)
    (TCPSender.Ack (TCPHeader.ackno (TCPSegment.header seg)) (TCPHeader.win (TCPSegment.header seg))))
    as (a' & s & Hs & His & HA'); [apply Hi|done|].
  cbn [TCPSender.handle] in Hs. rewrite Hs. cbn [mbind outcome_bind].
  cbn [TCPSender.written] in HA'. rewrite app_nil_r in HA'.
  destruct (send_on a' c s _ (inv_receiver _ _ _ _ _ Hi) (inv_cfg _ _ _ _ _ Hi) His eq_refl)
    as (Hi2 & Hsent & _ & _).
  destruct (sent_appends _ _ _ Hsent) as (q' & Happ & _). destruct Hsent as [E1 E2 E3 E4 E5 _].
  exists a', (real_send (c <| _sender := s |>)).1, q'. split; [done|].
  split_and!; try done; congruence.
Qed.

Lemma connection_segment_spec a c n seg :
  inv cfg S isn a c → event_ok S isn c (Segment n seg) →
  ∃ a' c' q, segment_received c seg = Ok c' ∧ inv cfg S isn a' c' ∧ appends c c' q ∧
    if TCPHeader.rst (TCPSegment.header seg) then
      c' = (set_errors (c <| _time_since_last_segment_received_counter := 0 |>)) <| _active := false |>
    else
      TCPReceiver.segment_received (_receiver c) seg = Ok (_receiver c') ∧ _active c' = _active c ∧
      _time_since_last_segment_received_counter c' = 0 ∧
      (0 < TCPSegment.length_in_sequence_space seg → q ≠ []).
Proof.
  intros Hi (Hn & Hb & Hwin & Hpeer). unfold segment_received.
  set (c0 := c <| _time_since_last_segment_received_counter := 0 |>).
  assert (Hi0 : inv cfg S isn a c0) by (destruct Hi; by constructor).
  destruct (TCPHeader.rst _).
  { eexists _, _, []. split; [done|]. split; [|split; [|done]].
    - pose proof (set_errors_inv a c0 Hi0) as [? ? ? ?]. by constructor.
    - split; [cbn; by rewrite app_nil_r|done]. }
  specialize (Hpeer eq_refl).
  destruct (tcp_receiver.segment_received_spec _ S isn recv_capacity_ok HS Hisn (_receiver c) n seg
    (inv_receiver _ _ _ _ _ Hi) Hpeer) as (r & Hr & Hri & _).
  change (_receiver c0) with (_receiver c). rewrite Hr. cbn [mbind outcome_bind].
  set (c1 := if _ && _ then _ else _).
  assert (Hc1 : inv cfg S isn a c1 ∧ _receiver c1 = r ∧ _active c1 = _active c ∧
    _segments_out c1 = _segments_out c ∧ _sender c1 = _sender c ∧
    _time_since_last_segment_received_counter c1 = 0).
  { destruct Hi as [? ? ? ?]. unfold c1. destruct (_ && _); (split; [by constructor|done]). }
  clearbody c1. destruct Hc1 as (Hi1 & Er & Ea & Eo & Es & Et).
  pose proof (accepted_in_range a _ (inv_sender _ _ _ _ _ Hi) Hn) as HA.
  destruct (acknowledge_spec a c1 seg Hi1) as (a2 & c2 & q2 & -> & Hi2 & HA2 & Happ2 & Er2 & Ea2 & Et2);
    [done|by rewrite Es|done|].
  cbn [mbind outcome_bind].
  destruct (reply_spec a2 c2 seg Hi2 HA2) as (a3 & c3 & q3 & Heq & Hi3 & Happ3 & Er3 & Ea3 & _ & Et3 & Hne).
  exists a3, c3, (q2 ++ q3). split; [exact Heq|]. split; [done|]. split.
  { pose proof (appends_trans _ _ _ _ _ Happ2 Happ3 Er3) as [Ho ?]. split; [by rewrite Ho, Eo|done]. }
  split; [rewrite Er3, Er2, Er; done|]. split_and!; try congruence.
  intros Hlen. specialize (Hne Hlen). by destruct q2, q3.
Qed.

(** The connection has finished for good: both streams have ended and the last
    acknowledgments need not be repeated any more. *)
Definition finished (c : t) : bool :=
  check_inbound_ended c && check_outbound_ended c &&
  (negb (_linger_after_streams_finish c) ||
   (10 * TCPConfig.rt_timeout (_cfg c) <=? _time_since_last_segment_received_counter c)).

(** The tail of [tick]. *)
Lemma finish_spec_tick c :
  (if check_inbound_ended c && check_outbound_ended c then
     if negb (_linger_after_streams_finish c) then Ok (c <| _active := false |>)
     else if _time_since_last_segment_received_counter c >=? 10 * TCPConfig.rt_timeout (_cfg c)
     then Ok (c <| _active := false |>)
     else Ok c
   else Ok c) = Ok (c <| _active := _active c && negb (finished c) |>).
Proof.
  unfold finished. rewrite Z.geb_leb. destruct (_ && _); cbn [andb orb negb];
    [|rewrite andb_true_r; by destruct c].
  destruct (_linger_after_streams_finish c); cbn [andb orb negb]; [|by rewrite andb_false_r].
  destruct (_ <=? _); cbn [negb]; [by rewrite andb_false_r|]. rewrite andb_true_r. by destruct c.
Qed.

(** The middle of [tick]: pass on a retransmission, and give up after too many. *)
Lemma retransmit_spec a c s :
  TCPReceiver.inv (TCPConfig.recv_capacity cfg) S isn (_receiver c) → _cfg c = cfg →
  TCPSender.inv (TCPConfig.send_capacity cfg) a s →
  (length (TCPSender._segments_out s) ≤ 1)%nat →
  let c1 := c <| _sender := s |> in
  let gave_up := bool_decide (TCPSender._segments_out s ≠ []) &&
    (TCPSender._consecutive_retransmissions s >? TCPConfig.MAX_RETX_ATTEMPTS) in
  ∃ a' c' q,
    (if len (TCPSender.segments_out (_sender c1)) >? 0 then
       '(retxSeg, c) ← dequeue c1;
       let retxSeg := set_ack_and_windowsize c retxSeg in
       let '(c, retxSeg) :=
         if TCPSender.consecutive_retransmissions (_sender c) >? TCPConfig.MAX_RETX_ATTEMPTS then
           ((set_errors c) <| _active := false |>,
            retxSeg <| TCPSegment.header ::= λ h, h <| TCPHeader.rst := true |> |>)
         else (c, retxSeg) in
       Ok (c <| _segments_out ::= λ q, q ++ [retxSeg] |>)
     else Ok c1) = Ok c' ∧
    inv cfg S isn a' c' ∧ appends c c' q ∧ length q = length (TCPSender._segments_out s) ∧
    Forall (λ seg, TCPHeader.rst (TCPSegment.header seg) = true) (if gave_up then q else []) ∧
    _active c' = _active c && negb gave_up ∧
    finished c' = finished c1.
Proof.
  intros Hr Hc Hs Hlen c1 gave_up. subst gave_up.
  change (TCPSender.segments_out (_sender c1)) with (TCPSender._segments_out s).
  destruct (TCPSender._segments_out s) as [|seg [|]] eqn:Eq; [| |cbn in Hlen; lia].
  - exists a, c1, []. rewrite bool_decide_eq_false_2 by (intros H; by apply H). cbn [andb negb].
    rewrite andb_true_r. split; [done|]. split; [by constructor|]. split; [split; [cbn; by rewrite app_nil_r|done]|].
    split_and!; done.
  - rewrite bool_decide_eq_true_2 by done. cbn [andb]. unfold dequeue.
    change (TCPSender.segments_out (_sender c1)) with (TCPSender._segments_out s). rewrite Eq.
    change (len [seg] >? 0) with true. cbn [head or_UB mbind outcome_bind].
    set (c2 := c1 <| _sender ::= _ |>).
    assert (Hi2 : inv cfg S isn a c2).
    { constructor; try done; [|cbn; by rewrite Eq].
      change (TCPSender.inv (TCPConfig.send_capacity cfg) a (s <| TCPSender._segments_out ::= tail |>)).
      apply (drain_inv _ a s); [done|]. rewrite Eq. intros seg0 Hseg. by inversion Hseg. }
    change (TCPSender.consecutive_retransmissions (_sender c2)) with (TCPSender._consecutive_retransmissions s).
    destruct (_ >? TCPConfig.MAX_RETX_ATTEMPTS).
    + eexists _, _, [_]. split; [reflexivity|]. split.
      { pose proof (set_errors_inv a c2 Hi2) as [? ? ? ?]. by constructor. }
      split; [split; [reflexivity|apply Forall_singleton; exact (set_ack_acknowledges c2 seg)]|].
      split; [done|]. split; [by apply Forall_singleton|]. split; [cbn; by rewrite andb_false_r|done].
    + eexists _, _, [_]. split; [reflexivity|]. split; [destruct Hi2; by constructor|].
      split; [split; [reflexivity|apply Forall_singleton; exact (set_ack_acknowledges c2 seg)]|].
      split; [done|]. split; [done|]. split; [cbn; by rewrite andb_true_r|done].
Qed.

(** What the two checks mean. *)
Lemma check_inbound_spec a c :
  inv cfg S isn a c → check_inbound_ended c =
    TCPReceiver._finReceived (_receiver c) && (StreamReassembler.ack_index (TCPReceiver._reassembler (_receiver c)) =? len S).
Proof.
  intros [_ Hr _ _]. rewrite <- (input_ended_spec _ S isn recv_capacity_ok HS _ Hr). unfold check_inbound_ended.
  destruct (reach_inv S HS _ _ recv_capacity_ok (TCPReceiver.inv_reach _ _ _ _ Hr)) as [Hi _].
  unfold TCPReceiver.stream_out, StreamReassembler.stream_out, TCPReceiver.unassembled_bytes, StreamReassembler.unassembled_bytes.
  rewrite (StreamReassembler.inv_ended _ _ Hi). destruct (_ =? 0); cbn; [done|by rewrite andb_false_r].
Qed.

Lemma check_outbound_spec a c :
  inv cfg S isn a c → TCPSender._next_seqno (_sender c) < 2 ^ 61 → check_outbound_ended c =
    ByteStream.eof (TCPSender.stream_in (_sender c)) && TCPSender._fin_sent (_sender c) &&
    bool_decide (TCPSender._segments_outstanding (_sender c) = []).
Proof.
  intros [_ _ Hs _] Hn. pose proof (accepted_in_range a _ Hs Hn) as HA. unfold check_outbound_ended.
  unfold TCPSender.next_seqno_absolute, TCPSender.bytes_in_flight, TCPSender.stream_in.
  pose proof (TCPSender.inv_stream _ _ _ Hs) as Hsim. pose proof (len_nonneg (ByteStreamSpec.accepted a)).
  rewrite (ByteStreamSpec.sim_written _ _ _ Hsim), (u64_id (len _)) by lia. rewrite u64_id by lia.
  destruct (ByteStream.eof _) eqn:He; [|done]. cbn [andb].
  assert (Hd : ByteStreamSpec.accepted a = ByteStreamSpec.delivered a).
  { rewrite (ByteStreamSpec.sim_split _ _ _ Hsim). apply andb_prop in He as [He%Z.eqb_eq _].
    by rewrite (len_zero_nil _ He), app_nil_r. }
  pose proof (TCPSender.inv_next _ _ _ Hs) as Hnx. rewrite <- Hd in Hnx.
  assert (Hfin : TCPSender._fin_sent (_sender c) = true → TCPSender._syn_sent (_sender c) = true).
  { intros Hf. destruct (TCPSender._syn_sent (_sender c)) eqn:E; [done|].
    destruct (TCPSender.inv_syn _ _ _ Hs E) as [Hf' _]. congruence. }
  pose proof (TCPSender.inv_outstanding _ _ _ Hs) as Hl. apply laid_out_le in Hl as Hle. f_equal.
  - destruct (TCPSender._fin_sent (_sender c)); [rewrite Hfin in Hnx by done; cbn in Hnx; lia|].
    destruct (TCPSender._syn_sent (_sender c)); cbn in Hnx; lia.
  - destruct (TCPSender._segments_outstanding (_sender c)) eqn:Eo; [cbn in Hl|]; case_bool_decide; try done; [lia|].
    destruct Hle as [_ Hle]. specialize (Hle ltac:(done)). lia.
Qed.

Lemma connection_tick_spec a c ms :
  inv cfg S isn a c →
  ∃ a' c' q s, tick c ms = Ok c' ∧ inv cfg S isn a' c' ∧ appends c c' q ∧
    TCPSender.tick (_sender c) ms = Ok s ∧ (length q ≤ 1)%nat ∧
    let gave_up := bool_decide (q ≠ []) && (TCPSender._consecutive_retransmissions s >? 8) in
    Forall (λ seg, TCPHeader.rst (TCPSegment.header seg) = true) (if gave_up then q else []) ∧
    _active c' = _active c && negb gave_up && negb (finished
      (c <| _time_since_last_segment_received_counter ::= λ n, u64 (n + ms) |>)).
Proof.
  intros Hi. destruct Hi as [I1 I2 I3 I4].
  destruct (tick_spec _ a (_sender c) ms I3) as (s & Hs & His & Hnx & Hbif & Hst & Hq & H).
  assert (Hlen : (length (TCPSender._segments_out s) ≤ 1)%nat).
  { destruct (TCPSender._segments_outstanding (_sender c)); [rewrite H, I4; cbn; lia|].
    destruct (_ <=? _); destruct H as (Ho & _); rewrite Ho, I4; cbn; lia. }
  clear H. set (c0 := c <| _time_since_last_segment_received_counter ::= λ n, u64 (n + ms) |>).
  destruct (retransmit_spec a c0 s I2 I1 His Hlen) as (a' & c' & q & Heq & Hi' & Happ & Hlq & Hrst & Hact & Hfin).
  unfold tick. fold c0. change (_sender c0) with (_sender c). rewrite Hs. cbn [mbind outcome_bind].
  exists a', (c' <| _active := _active c' && negb (finished c') |>), q, s.
  split; [|split; [|split]].
  - rewrite <- finish_spec_tick.
    match type of Heq with ?l = _ => match goal with |- ?x ≫= _ = _ => change x with l end end.
    rewrite Heq. done.
  - destruct Hi'. by constructor.
  - exact Happ.
  - split; [done|]. split; [lia|].
    assert (Eq : bool_decide (TCPSender._segments_out s ≠ []) = bool_decide (q ≠ [])).
    { destruct (TCPSender._segments_out s), q; done. }
    rewrite Eq in *. split; [done|]. cbn [_active upd]. rewrite Hact, Hfin. f_equal. f_equal.
    unfold finished, check_outbound_ended, TCPSender.stream_in, TCPSender.next_seqno_absolute,
      TCPSender.bytes_in_flight. change (_sender (c0 <| _sender := s |>)) with s.
    by rewrite Hnx, Hbif, Hst.
Qed.

(** The end of [connect], [write] and [end_input_stream], [c] being the connection
    before the call. *)
Lemma fill_appends a c c0 :
  TCPReceiver.inv (TCPConfig.recv_capacity cfg) S isn (_receiver c0) → _cfg c0 = cfg →
  TCPSender.inv (TCPConfig.send_capacity cfg) a (_sender c0) → TCPSender._segments_out (_sender c0) = [] →
  TCPSender._next_seqno (_sender c0) < 2 ^ 61 → _segments_out c0 = _segments_out c →
  ∃ a' s q, TCPSender.fill_window (_sender c0) = Ok s ∧
    inv cfg S isn a' (real_send (c0 <| _sender := s |>)).1 ∧ appends c (real_send (c0 <| _sender := s |>)).1 q.
Proof.
  intros H1 H2 H3 H4 H5 H6.
  destruct (fill_and_send a c0 H1 H2 H3 H4 (accepted_in_range _ _ H3 H5)) as (a' & s & q & Hf & Hi' & Hsent & _).
  destruct (sent_appends _ _ _ Hsent) as (q' & [Ho Hq'] & _). exists a', s, q'. split; [done|]. split; [done|].
  split; [by rewrite Ho, H6|done].
Qed.

(** Every event is handled and keeps the invariant; all but [Dequeue] only append
    to the outbound queue. *)
Lemma connection_handle_spec a c e :
  inv cfg S isn a c → event_ok S isn c e →
  ∃ a' c' q, handle c e = Ok c' ∧ inv cfg S isn a' c' ∧ (e ≠ Dequeue → appends c c' q).
Proof.
  intros Hi Hok. pose proof Hok as (Hn & _ & He). destruct Hi as [I1 I2 I3 I4] eqn:EHi.
  pose proof (accepted_in_range a _ I3 Hn) as HA.
  destruct e; cbn [handle].
  - destruct (fill_appends a c c) as (a' & s & q & Hf & Hi' & Happ); try done. unfold connect. rewrite Hf.
    eexists a', _, q. done.
  - unfold write. destruct (len data =? 0).
    { eexists a, c, []. split; [done|]. split; [done|]. intros _. split; [by rewrite app_nil_r|done]. }
    destruct (ByteStream.write _ data) as [stream k] eqn:Ew. cbv zeta.
    pose proof (stream_inv _ send_capacity_ok a (_sender c) (ByteStream.Write data) I3 I) as Hs.
    set (c0 := c <| _sender ::= _ |>).
    destruct (fill_appends (ByteStreamSpec.step (TCPConfig.send_capacity cfg) a (ByteStream.Write data)).1 c c0)
      as (a' & s & q & Hf & Hi' & Happ); try done.
    { unfold TCPSender.stream_in in Ew. cbn -[ByteStreamSpec.step] in Hs |- *.
      unfold ByteStream.write in Ew. injection Ew as <- _. exact Hs. }
    rewrite Hf. eexists a', _, q. done.
  - unfold end_input_stream. cbv zeta. set (c0 := c <| _sender ::= _ |>).
    destruct (fill_appends (ByteStreamSpec.step (TCPConfig.send_capacity cfg) a ByteStream.EndInput).1 c c0)
      as (a' & s & q & Hf & Hi' & Happ); try done.
    { exact (stream_inv _ send_capacity_ok a (_sender c) ByteStream.EndInput I3 I). }
    rewrite Hf. eexists a', _, q. done.
  - destruct (connection_segment_spec a c a0 seg Hi Hok) as (a' & c' & q & Hs & Hi' & Happ & _).
    exists a', c', q. done.
  - destruct (connection_tick_spec a c ms Hi) as (a' & c' & q & s & Hs & Hi' & Happ & _).
    exists a', c', q. done.
  - eexists a, _, []. split; [done|]. split; [|intros _; split; [cbn; by rewrite app_nil_r|done]].
    constructor; try done. by apply inv_read.
  - eexists a, _, []. split; [done|]. split; [by constructor|done].
  - unfold destroy. destruct (active c).
    2:{ exists a, c, []. split; [done|]. split; [done|]. intros _. split; [by rewrite app_nil_r|done]. }
    unfold send_RST. cbv zeta.
    destruct (dequeue_empty _ _ (set_errors_inv a c Hi)) as (seg & c2 & -> & Hi2 & Hsent2).
    cbn [mbind outcome_bind]. destruct Hsent2 as [F1 F2 F3 F4 F5 F6].
    eexists _, _, [_]. split; [reflexivity|]. split; [destruct Hi2; by constructor|].
    intros _. split; [cbn; cbn in F6; rewrite F6, app_nil_r; reflexivity|].
    apply Forall_singleton. exact (set_ack_acknowledges c2 seg).
Qed.

Lemma connection_reach_inv c : reach cfg S isn c → ∃ a, inv cfg S isn a c.
Proof.
  induction 1 as [random|c e c' _ [a Hi] Hok Hh].
  - exists ByteStreamSpec.init. constructor; try done; cbn [_receiver _sender make].
    + by apply inv_init.
    + apply make_inv, send_capacity_ok.
  - destruct (connection_handle_spec a c e Hi Hok) as (a' & c1 & q & Hc1 & Hi' & _).
    exists a'. congruence.
Qed.

End endpoint.

(** Ending the outbound stream of a connection in a good state. *)
Lemma end_input_returns cfg S isn a c :
  TCPConfig.ok cfg → TCPConnection.inv cfg S isn a c → len (ByteStreamSpec.accepted a) < 2 ^ 62 →
  ∃ a' c', TCPConnection.end_input_stream c = Ok c' ∧ TCPConnection.inv cfg S isn a' c' ∧
    ByteStreamSpec.accepted a' = ByteStreamSpec.accepted a ∧ ByteStreamSpec.ended a' = true.
Proof.
  intros Hcfg [I1 I2 I3 I4] HA. unfold TCPConnection.end_input_stream. cbv zeta. set (c0 := upd _ _ c).
  pose proof (stream_inv _ (send_capacity_ok cfg Hcfg) a _ ByteStream.EndInput I3 I) as Hs.
  destruct (fill_and_send cfg S isn _ c0 I2 I1 Hs I4 HA) as (a' & s & q & Hf & Hi' & _ & _ & Ha' & He' & _).
  rewrite Hf. by eexists a', _.
Qed.

Lemma write_returns cfg S isn a c data :
  TCPConfig.ok cfg → TCPConnection.inv cfg S isn a c →
  len (ByteStreamSpec.accepted a) + len data < 2 ^ 62 → len data ≤ TCPConnection.remaining_outbound_capacity c →
  ∃ a' c', TCPConnection.write c data = Ok (c', len data) ∧ TCPConnection.inv cfg S isn a' c' ∧
    ByteStreamSpec.accepted a' = ByteStreamSpec.accepted a ++ data ∧ ByteStreamSpec.ended a' = ByteStreamSpec.ended a.
Proof.
  intros Hcfg Hi HA Hfit. destruct Hi as [I1 I2 I3 I4] eqn:EHi. pose proof (len_nonneg data).
  unfold TCPConnection.write. destruct (Z.eqb_spec (len data) 0) as [E|Hne].
  { exists a, c. rewrite E. split; [done|]. split; [done|]. by rewrite (len_zero_nil data), app_nil_r. }
  pose proof (stream_inv _ (send_capacity_ok cfg Hcfg) a _ (ByteStream.Write data) I3 I) as Hs.
  assert (Hroom : take (Z.to_nat (TCPConfig.send_capacity cfg - len (ByteStreamSpec.pending a))) data = data).
  { pose proof (TCPSender.inv_stream _ _ _ I3) as Hsim. rewrite (sim_pending _ _ _ Hsim). apply take_ge.
    pose proof (send_capacity_ok cfg Hcfg). unfold TCPConnection.remaining_outbound_capacity, TCPSender.stream_in in Hfit.
    rewrite remaining_capacity_wf, (ByteStreamSpec.sim_cap _ _ _ Hsim) in Hfit by (by eapply sim_wf; [|done]; lia).
    unfold len in *. lia. }
  unfold TCPConnection.remaining_outbound_capacity, TCPSender.stream_in, ByteStream.remaining_capacity in *.
  unfold ByteStream.write. set (m := Z.min _ _). assert (Hm : m = len data) by (unfold m; lia).
  clearbody m. subst m. cbv zeta. set (c0 := upd _ _ c).
  destruct (fill_and_send cfg S isn (ByteStreamSpec.step (TCPConfig.send_capacity cfg) a (ByteStream.Write data)).1 c0)
    as (a' & s & q & Hf & Hi' & _ & _ & Ha' & He' & _); try done.
  - cbn -[ByteStreamSpec.step] in Hs |- *. unfold ByteStream.write in Hs. rewrite Z.min_r in Hs by lia. exact Hs.
  - cbn. rewrite Hroom, len_app. lia.
  - rewrite Hf. cbn [mbind outcome_bind]. eexists a', _. split; [done|]. split; [done|].
    rewrite Ha', He'. cbn. by rewrite Hroom.
Qed.

Section opening.
Import TCPConnection.
Context (cfg : TCPConfig.t) (random : Z) (Hcfg : TCPConfig.ok cfg).

Let s0 := _sender (make cfg random).

(** The SYN a new sender sends. *)
Definition first_syn : TCPSegment.t :=
  stamped s0 (TCPSegment.default <| TCPSegment.header ::= λ h, h <| TCPHeader.syn := true |> |>).

(** The first [fill_window] of a connection sends the SYN and nothing else. *)
Lemma first_fill :
  ∃ s, TCPSender.fill_window s0 = Ok s ∧ TCPSender._segments_out s = [first_syn] ∧
    TCPSender._next_seqno s = 1 ∧ TCPSender._bytes_in_flight s = 1 ∧ TCPSender._stream s = TCPSender._stream s0.
Proof.
  eexists. split; [reflexivity|].
  rewrite send_segment_eq; [|done|done|done]. done.
Qed.

Lemma real_send_state c s q :
  TCPSender._segments_out s = q → TCPSender._next_seqno s = 1 → TCPSender._bytes_in_flight s = 1 →
  ByteStream.error (TCPSender._stream s) = false →
  let c' := (real_send (c <| _sender := s |>)).1 in
  state c' = TCPState.mk TCPSenderStateSummary.SYN_SENT (TCPState.receiver_summary (_receiver c))
    (_active c) (if _active c then _linger_after_streams_finish c else false).
Proof.
  intros Hq Hn Hb He c'. destruct (real_send_spec (c <| _sender := s |>)) as ([E1 E2 E3 E4 E5 E6] & Es & _).
  unfold state, TCPState.of_parts, active. subst c'. rewrite E2, E3, E5, Es. cbn [_receiver _active
    _linger_after_streams_finish _sender upd]. f_equal.
  unfold TCPState.sender_summary, TCPSender.stream_in, TCPSender.next_seqno_absolute, TCPSender.bytes_in_flight.
  cbn [TCPSender._stream TCPSender._next_seqno TCPSender._bytes_in_flight]. by rewrite He, Hn, Hb.
Qed.

(** A segment the receiver ignores, without ACK, in a connection whose sender has
    something to send. *)
Lemma ignored_then_filled c seg s :
  TCPReceiver.segment_received (_receiver c) seg = Ok (_receiver c) → check_inbound_ended c = false →
  TCPHeader.rst (TCPSegment.header seg) = false → TCPHeader.ack (TCPSegment.header seg) = false →
  0 < TCPSegment.length_in_sequence_space seg → TCPSender.fill_window (_sender c) = Ok s →
  TCPSender._next_seqno s = 1 → TCPSender._bytes_in_flight s = 1 →
  ByteStream.error (TCPSender._stream s) = false → TCPSender._segments_out s ≠ [] →
  ∃ c', segment_received c seg = Ok c' ∧
    state c' = TCPState.mk TCPSenderStateSummary.SYN_SENT (TCPState.receiver_summary (_receiver c))
      (_active c) (if _active c then _linger_after_streams_finish c else false) ∧
    _segments_out c' = _segments_out c ++ map (set_ack_and_windowsize c) (TCPSender._segments_out s).
Proof.
  intros Hr Hin Hrst Hack Hlen Hf Hn Hb He Hq. unfold segment_received. rewrite Hrst.
  change (TCPReceiver.segment_received _ seg) with (TCPReceiver.segment_received (_receiver c) seg).
  rewrite Hr. cbn [mbind outcome_bind].
  change (check_inbound_ended _) with (check_inbound_ended c). rewrite Hin, Hack.
  cbn [andb mbind outcome_bind]. replace (_ >? 0) with true by lia.
  set (c0 := c <| _time_since_last_segment_received_counter := 0 |> <| _receiver := _receiver c |>).
  change (_sender c0) with (_sender c). rewrite Hf. cbn [mbind outcome_bind].
  pose proof (real_send_state c0 s _ eq_refl Hn Hb He) as Hstate.
  destruct (real_send_spec (c0 <| _sender := s |>)) as (Hsent & _ & Hsend).
  change (TCPSender._segments_out (_sender (c0 <| _sender := s |>))) with (TCPSender._segments_out s) in *.
  destruct (real_send (c0 <| _sender := s |>)) as [c1 b]. cbn [fst snd] in *. cbv iota beta.
  rewrite Hsend, bool_decide_eq_true_2 by done. cbn [negb]. exists c1. split; [done|]. split; [done|].
  by rewrite (sent_out _ _ _ Hsent).
Qed.

End opening.

(** ** What a connection sends can be put on the wire *)

Section connection_sends.
Import TCPConnection.

















(** A run of calls, whatever their order and their arguments. *)
Fixpoint handles (c : t) (es : list event) : outcome t :=
  match es with [] => Ok c | e :: es => c ← handle c e; handles c es end.

End connection_sends.

(** ** Properties *)

Section connection_properties.
Import TCPConnection.

(** C16: a connection never gets stuck.  Whatever its owner and a peer that
    stays in the window do, in whatever order, every call returns: no [front()] of
    an empty queue, no out-of-range access, no endless loop; the sender's queue is
    empty after every call; and every segment a call queues repeats the
    acknowledgment number and the window of the receiver as the call leaves it. *)
Theorem connection_never_stuck (cfg : TCPConfig.t) (S : bytes) (isn : WrappingInt32) (c : t) (e : event) :
  TCPConfig.ok cfg → len S < 2 ^ 63 → seq_ok isn → reach cfg S isn c → event_ok S isn c e →
  ∃ c', handle c e = Ok c' ∧ reach cfg S isn c' ∧ TCPSender._segments_out (_sender c') = [] ∧
    (e ≠ Dequeue → ∃ q, _segments_out c' = _segments_out c ++ q ∧
       Forall (acknowledges (_receiver c')) q).
Proof.
  intros Hcfg HS Hisn Hreach Hok.
  destruct (connection_reach_inv cfg S isn Hcfg HS Hisn c Hreach) as [a Hi].
  destruct (connection_handle_spec cfg S isn Hcfg HS Hisn a c e Hi Hok) as (a' & c' & q & Hc' & Hi' & Happ).
  exists c'. split; [done|]. split; [by apply (reach_event cfg S isn c e)|].
  split; [apply (inv_drained _ _ _ _ _ Hi')|]. intros He. exists q. by apply Happ.
Qed.

(** C17: what a segment does to a connection that has left LISTEN, or that leaves it
    because the segment is a SYN.  A segment with RST puts both streams in error, ends
    the connection and sends nothing; any other segment that the peer may send
    ([TCPReceiver.peer_segment]) goes to the receiver, resets the idle clock, does not
    change whether the connection is active, and, if it takes up sequence space, is
    answered by at least one segment; the answers carry the receiver's window and, once
    it has one, its acknowledgment number.  (In LISTEN the code acts on a RST and on
    data too, which the tests and the protocol do not allow.) *)
Theorem connection_answers_segments (cfg : TCPConfig.t) (S : bytes) (isn : WrappingInt32) (c : t)
    (a : Z) (seg : TCPSegment.t) :
  TCPConfig.ok cfg → len S < 2 ^ 63 → seq_ok isn → reach cfg S isn c →
  event_ok S isn c (Segment a seg) →
  (listening c = true → TCPHeader.syn (TCPSegment.header seg) = true ∧ TCPHeader.rst (TCPSegment.header seg) = false) →
  ∃ c' q, segment_received c seg = Ok c' ∧ _segments_out c' = _segments_out c ++ q ∧
    if TCPHeader.rst (TCPSegment.header seg) then
      q = [] ∧ active c' = false ∧ ByteStream.error (inbound_stream c') = true ∧
      ByteStream.error (TCPSender.stream_in (_sender c')) = true
    else
      TCPReceiver.segment_received (_receiver c) seg = Ok (_receiver c') ∧
      active c' = active c ∧ time_since_last_segment_received c' = 0 ∧
      Forall (acknowledges (_receiver c')) q ∧
      (0 < TCPSegment.length_in_sequence_space seg → q ≠ []).
Proof.
  intros Hcfg HS Hisn Hreach Hok _.
  destruct (connection_reach_inv cfg S isn Hcfg HS Hisn c Hreach) as [h Hi].
  destruct (connection_segment_spec cfg S isn Hcfg HS Hisn h c a seg Hi Hok)
    as (h' & c' & q & Hc' & _ & [Ho Hq] & H).
  destruct (TCPHeader.rst _).
  - exists c', []. split; [done|]. rewrite H. split; [cbn; by rewrite app_nil_r|]. done.
  - exists c', q. destruct H as (? & ? & ? & ?). split_and!; done.
Qed.

(** C18: when a connection ends.  Consider a connection whose peer sends the stream [S] and
    keeps to [TCPReceiver.peer_segment], with less than 2^61 numbers used ([reach],
    [event_ok]).  A tick sends at most one segment, the retransmission;
    the connection stops being active exactly when that was the retransmission after
    eight without an answer, which then carries RST, or when both streams are over and
    either there is no need to linger or nothing has been received for ten
    retransmission timeouts.  The inbound stream is over when the FIN and all the bytes
    of the peer's stream have come; the outbound stream when it was ended and read to
    the end, the FIN was sent and no segment is outstanding. *)
Theorem connection_tick_lifecycle (cfg : TCPConfig.t) (S : bytes) (isn : WrappingInt32) (c : t) (ms : Z) :
  TCPConfig.ok cfg → len S < 2 ^ 63 → seq_ok isn → reach cfg S isn c → event_ok S isn c (Tick ms) →
  ∃ c' q s, tick c ms = Ok c' ∧ _segments_out c' = _segments_out c ++ q ∧ (length q ≤ 1)%nat ∧
    TCPSender.tick (_sender c) ms = Ok s ∧
    let gave_up := bool_decide (q ≠ []) && (TCPSender.consecutive_retransmissions s >? 8) in
    let idle := u64 (time_since_last_segment_received c + ms) in
    let inbound_over := TCPReceiver._finReceived (_receiver c) &&
      (StreamReassembler.ack_index (TCPReceiver._reassembler (_receiver c)) =? len S) in
    let outbound_over := ByteStream.eof (TCPSender.stream_in (_sender c)) && TCPSender._fin_sent (_sender c) &&
      bool_decide (TCPSender._segments_outstanding (_sender c) = []) in
    active c' = active c && negb gave_up && negb (inbound_over && outbound_over &&
      (negb (_linger_after_streams_finish c) || (10 * TCPConfig.rt_timeout cfg <=? idle))) ∧
    (gave_up = true → Forall (λ seg, TCPHeader.rst (TCPSegment.header seg) = true) q).
Proof.
  intros Hcfg HS Hisn Hreach (Hn & _).
  destruct (connection_reach_inv cfg S isn Hcfg HS Hisn c Hreach) as [h Hi].
  destruct (connection_tick_spec cfg S isn Hcfg h c ms Hi)
    as (h' & c' & q & s & Hc' & _ & [Ho _] & Hs & Hlen & Hrst & Hact).
  exists c', q, s. do 4 (split; [done|]). cbv zeta. split.
  - unfold active. rewrite Hact, <- (check_inbound_spec cfg S isn Hcfg HS h c Hi), <- (check_outbound_spec cfg S isn Hcfg h c Hi Hn).
    unfold finished. rewrite <- (inv_cfg _ _ _ _ _ Hi). done.
  - intros Hg. unfold TCPSender.consecutive_retransmissions in Hg. by rewrite Hg in Hrst.
Qed.

(** A connection in LISTEN does not ignore a RST: it puts its streams in error and
    ends. *)
Theorem rst_ends_listening_connection (cfg : TCPConfig.t) (random : Z) (seg : TCPSegment.t) :
  TCPHeader.rst (TCPSegment.header seg) = true →
  state (make cfg random) = TCPState.of_state TCPState.LISTEN ∧
  ∃ c', segment_received (make cfg random) seg = Ok c' ∧ state c' = TCPState.of_state TCPState.RESET.
Proof. intros Hr. split; [done|]. unfold segment_received. rewrite Hr. by eexists. Qed.


(** A listening connection can be made to open by a stray segment.  A
    segment without SYN that takes up sequence space is ignored by the receiver
    of a new connection, but the connection answers it with its own SYN, and
    leaves LISTEN for SYN_SENT. *)
Theorem stray_segment_opens_connection (cfg : TCPConfig.t) (random : Z) (seg : TCPSegment.t) :
  let head := TCPSegment.header seg in
  TCPHeader.syn head = false → TCPHeader.rst head = false → TCPHeader.ack head = false →
  0 < TCPSegment.length_in_sequence_space seg →
  state (make cfg random) = TCPState.of_state TCPState.LISTEN ∧
  ∃ c', segment_received (make cfg random) seg = Ok c' ∧
    state c' = TCPState.of_state TCPState.SYN_SENT ∧
    map (λ s, TCPHeader.syn (TCPSegment.header s)) (_segments_out c') = [true].
Proof.
  intros head Hsyn Hrst Hack Hlen. split; [done|].
  destruct (first_fill cfg random) as (s & Hf & Hq & Hn & Hb & Hst).
  destruct (ignored_then_filled (make cfg random) seg s) as (c1 & Hc1 & Hstate & Hout); try done.
  - unfold TCPReceiver.segment_received. fold head. by rewrite Hsyn.
  - by rewrite Hst.
  - by rewrite Hq.
  - exists c1. split; [done|]. split; [done|]. by rewrite Hout, Hq.
Qed.

(** A small configuration, a peer's SYN and a stray byte. *)
Definition small_cfg : TCPConfig.t := TCPConfig.mk 1000 10 10 (Some (mkWrappingInt32 7)).

Definition peer_syn : TCPSegment.t :=
  TCPSegment.mk (TCPHeader.default <| TCPHeader.syn := true |>) Buffer.default.

Definition stray : TCPSegment.t := TCPSegment.mk TCPHeader.default (Buffer.of_string [1]).

Lemma small_cfg_ok : TCPConfig.ok small_cfg.
Proof. unfold TCPConfig.ok, seq_ok. simpl. lia. Qed.

Lemma connection_never_stuck_witness :
  ∃ c', handle (make small_cfg 0) Connect = Ok c' ∧ reach small_cfg [] (mkWrappingInt32 0) c' ∧
    TCPSender._segments_out (_sender c') = [] ∧
    (Connect ≠ Dequeue → ∃ q, _segments_out c' = [] ++ q ∧ Forall (acknowledges (_receiver c')) q).
Proof.
  apply (connection_never_stuck small_cfg [] (mkWrappingInt32 0) (make small_cfg 0) Connect).
  - apply small_cfg_ok.
  - unfold len. simpl. lia.
  - unfold seq_ok. simpl. lia.
  - apply reach_make.
  - unfold event_ok. simpl. lia.
Defined.

Lemma connection_answers_segments_witness :
  ∃ c' q, segment_received (make small_cfg 0) peer_syn = Ok c' ∧ _segments_out c' = [] ++ q ∧
    TCPReceiver.segment_received (_receiver (make small_cfg 0)) peer_syn = Ok (_receiver c') ∧
    active c' = true ∧ time_since_last_segment_received c' = 0 ∧
    Forall (acknowledges (_receiver c')) q ∧
    (0 < TCPSegment.length_in_sequence_space peer_syn → q ≠ []).
Proof.
  apply (connection_answers_segments small_cfg [] (mkWrappingInt32 0) (make small_cfg 0) 0 peer_syn).
  - apply small_cfg_ok.
  - unfold len. simpl. lia.
  - unfold seq_ok. simpl. lia.
  - apply reach_make.
  - split; [simpl; lia|]. split; [simpl; lia|]. split; [simpl; lia|]. intros _.
    split; [done|]. split; [simpl; lia|]. split; [done|]. split; [done|].
    split_and!; [lia|unfold len; simpl; lia| |done]. intros j Hj. unfold len in Hj. simpl in Hj. lia.
  - done.
Defined.

(** A conversation without data: the owner connects and ends its stream; the peer
    answers the SYN, then sends its FIN and acknowledges the owner's. *)
Definition syn_ack : TCPSegment.t :=
  TCPSegment.mk (TCPHeader.default <| TCPHeader.syn := true |> <| TCPHeader.ack := true |>
    <| TCPHeader.ackno := mkWrappingInt32 8 |> <| TCPHeader.win := 10 |>) Buffer.default.

Definition fin_ack : TCPSegment.t :=
  TCPSegment.mk (TCPHeader.default <| TCPHeader.seqno := mkWrappingInt32 1 |> <| TCPHeader.fin := true |>
    <| TCPHeader.ack := true |> <| TCPHeader.ackno := mkWrappingInt32 9 |> <| TCPHeader.win := 10 |>) Buffer.default.

Definition after (es : list event) : t :=
  match handles (make small_cfg 0) es with Ok c => c | _ => make small_cfg 0 end.

Definition opened : t := Eval vm_compute in after [Connect; Segment 0 syn_ack].
Definition half_closed : t := Eval vm_compute in after [Connect; Segment 0 syn_ack; EndInput].
Definition closed : t := Eval vm_compute in after [Connect; Segment 0 syn_ack; EndInput; Segment 1 fin_ack].

Lemma empty_slice index eof : 0 ≤ index → (eof = true → index = 0) → StreamReassembler.slice_of [] [] index eof.
Proof. intros Hi He. split_and!; [done|done| |]; [intros j Hj; unfold len in Hj; simpl in Hj; lia|]. intros ->. cbn. by rewrite He. Qed.

Lemma opened_reach : reach small_cfg [] (mkWrappingInt32 0) opened.
Proof.
  eapply (reach_event _ _ _ _ (Segment 0 syn_ack)); [eapply (reach_event _ _ _ _ Connect); [apply (reach_make _ _ _ 0)|vm_compute; done|vm_compute; reflexivity]| |vm_compute; reflexivity].
  split; [done|]. split; [done|]. split; [done|]. intros _. split; [done|]. split; [done|]. split; [done|]. split; [done|].
  by apply empty_slice.
Qed.

Lemma closed_reach : reach small_cfg [] (mkWrappingInt32 0) closed.
Proof.
  eapply (reach_event _ _ _ half_closed (Segment 1 fin_ack)); [|split; [done|]; split; [done|]; split; [done|]|vm_compute; reflexivity].
  { eapply (reach_event _ _ _ opened EndInput); [apply opened_reach|done|vm_compute; reflexivity]. }
  intros _. split; [done|]. split; [done|]. split; [done|]. split; [by apply empty_slice|]. split; [|done].
  intros _. split; [left; vm_compute; done|]. intros _. split; [vm_compute; done|right; vm_compute; done].
Qed.

Lemma connection_tick_lifecycle_witness :
  ∃ c', tick closed 9999 = Ok c' ∧ active c' = true ∧ ∃ c', tick closed 10000 = Ok c' ∧ active c' = false.
Proof.
  destruct (connection_tick_lifecycle small_cfg [] (mkWrappingInt32 0) closed 9999) as (c1 & _ & _ & H1 & _);
    [apply small_cfg_ok|done|done|apply closed_reach|done|].
  destruct (connection_tick_lifecycle small_cfg [] (mkWrappingInt32 0) closed 10000) as (c2 & q & s & H2 & Hq & _ & Hs & Ha & _);
    [apply small_cfg_ok|done|done|apply closed_reach|done|].
  exists c1. split; [exact H1|]. split; [vm_compute in H1; by injection H1 as <-|]. exists c2. split; [exact H2|].
  rewrite Ha. vm_compute in Hs. injection Hs as <-. by rewrite andb_false_r.
Defined.




Lemma stray_segment_opens_connection_witness :
  state (make small_cfg 0) = TCPState.of_state TCPState.LISTEN ∧
  ∃ c', segment_received (make small_cfg 0) stray = Ok c' ∧
    state c' = TCPState.of_state TCPState.SYN_SENT ∧
    map (λ s, TCPHeader.syn (TCPSegment.header s)) (_segments_out c') = [true].
Proof. by apply (stray_segment_opens_connection small_cfg 0 stray). Defined.

End connection_properties.
