(* ===== verification/tcp_link.v ===== *)
(** * A sender and a receiver over an unreliable network

    One direction of a TCP connection, put together the way
    [libsponge/tcp_connection.cc] puts it together: what the application writes
    goes into the sender's stream, the segments the sender queues go out at once
    ([real_send]), each acknowledgment carries the receiver's [ackno] and
    [window_size] ([set_ack_and_windowsize]) and goes into the sender's
    [ack_received].  The network loses, repeats, delays and reorders segments;
    it may lose acknowledgments, and delivers the others in order. *)

From S2P Require Import prelude byte_stream wrapping_integers stream_reassembler buffer parser tcp_segment tcp_receiver tcp_sender tcp_state tcp_connection.

Module Link.

(** The bytes the application has still to write; the sender; the segments ever
    sent, each with the sender's [next_seqno_absolute] at that time; the receiver;
    the acknowledgments on their way back, oldest first. *)
Record t := mk {
  todo : bytes;
  sender : TCPSender.t;
  wire : list (Z * TCPSegment.t);
  receiver : TCPReceiver.t;
  acks : list (WrappingInt32 * Z)
}.

#[global] Instance eta_t : Eta t := λ l, mk (todo l) (sender l) (wire l) (receiver l) (acks l).

(** An application that will send [S]. *)
Definition make (send_capacity recv_capacity retx_timeout : Z) (isn : WrappingInt32) (S : bytes) : t :=
  mk S (TCPSender.make send_capacity retx_timeout (Some isn) 0) [] (TCPReceiver.make recv_capacity) [].

(** What the sender has queued goes out. *)
Definition real_send (l : t) (s : TCPSender.t) : t :=
  l <| sender := s <| TCPSender._segments_out := [] |> |>
    <| wire ::= λ w, w ++ map (pair (TCPSender.next_seqno_absolute s)) (TCPSender.segments_out s) |>.

Inductive event :=
| Write (n : nat)          (* the application writes its next [n] bytes *)
| EndInput                 (* the application has written everything *)
| Fill
| Tick (ms : Z)
| Deliver (i : nat)        (* the network delivers a copy of segment [i] of the wire *)
| Read (n : nat)           (* the receiving application reads *)
| Acknowledge
| LoseAck (i : nat)
| DeliverAck.

Definition step (l : t) (e : event) : outcome t :=
  match e with
  | Write n =>
    let '(stream, m) := ByteStream.write (TCPSender.stream_in (sender l)) (take n (todo l)) in
    Ok (l <| sender ::= λ s, s <| TCPSender._stream := stream |> |>
          <| todo ::= drop (Z.to_nat m) |>)
  | EndInput =>
    match todo l with
    | [] => Ok (l <| sender ::= λ s, s <| TCPSender._stream ::= ByteStream.end_input |> |>)
    | _ => Ok l
    end
  | Fill => s ← TCPSender.fill_window (sender l); Ok (real_send l s)
  | Tick ms => s ← TCPSender.tick (sender l) ms; Ok (real_send l s)
  | Deliver i =>
    match wire l !! i with
    | Some (_, seg) => r ← TCPReceiver.segment_received (receiver l) seg; Ok (l <| receiver := r |>)
    | None => Ok l
    end
  | Read n =>
    Ok (l <| receiver ::= λ r, r <| TCPReceiver._reassembler ::= λ s,
          s <| StreamReassembler._output ::= λ o,
            (ByteStream.read o (Z.min (Z.of_nat n) (ByteStream.buffer_size o))).1 |> |> |>)
  | Acknowledge =>
    match TCPReceiver.ackno (receiver l) with
    | Some ackno => Ok (l <| acks ::= λ q, q ++ [(ackno, u16 (TCPReceiver.window_size (receiver l)))] |>)
    | None => Ok l
    end
  | LoseAck i => Ok (l <| acks ::= delete i |>)
  | DeliverAck =>
    match acks l with
    | [] => Ok l
    | (ackno, w) :: q =>
      s ← TCPSender.ack_received (sender l) ackno w;
      Ok (real_send (l <| acks := q |>) s)
    end
  end.

(** A segment that carries the FIN and nothing else. *)
Definition bare_fin (seg : TCPSegment.t) : bool :=
  TCPHeader.fin (TCPSegment.header seg) && (Buffer.size (TCPSegment.payload seg) =? 0).

(** What the network promises: it holds no segment back while the sender moves on
    by 2^30 numbers; and it does not let a bare FIN overtake the last byte of the
    stream. *)
Definition enabled (l : t) (e : event) : bool :=
  match e with
  | Deliver i =>
    match wire l !! i with
    | Some (n, seg) =>
      (TCPSender.next_seqno_absolute (sender l) <=? n + 2 ^ 30) &&
      (negb (bare_fin seg) ||
       (StreamReassembler.ack_index (TCPReceiver._reassembler (receiver l)) + 2 =?
        TCPSender.next_seqno_absolute (sender l)))
    | None => true
    end
  | _ => true
  end.

(** Running a schedule that the network allows. *)
Fixpoint run (l : t) (es : list event) : option t :=
  match es with
  | [] => Some l
  | e :: es =>
    if enabled l e then match step l e with Ok l => run l es | _ => None end else None
  end.

(** The states a link for the stream [S] gets into. *)
Inductive reach (send_capacity recv_capacity retx_timeout : Z) (isn : WrappingInt32) (S : bytes) :
    t → Prop :=
| reach_make : reach send_capacity recv_capacity retx_timeout isn S
    (make send_capacity recv_capacity retx_timeout isn S)
| reach_step l e l' :
    reach send_capacity recv_capacity retx_timeout isn S l → enabled l e = true →
    step l e = Ok l' → reach send_capacity recv_capacity retx_timeout isn S l'.

(** ** The invariant *)

(** The sender's view of the window after an acknowledgment of number [L] with
    window [W]: it has sent up to the right edge at most, or one number more to
    probe an empty window. *)
Record windowed (s : TCPSender.t) (L W : Z) : Prop := {
  win_range : 0 ≤ W < 2 ^ 16;
  win_size : TCPSender._receiver_window_size s = W;
  win_free : TCPSender._receiver_free_space s = u16 (L + W - TCPSender._next_seqno s);
  win_next : TCPSender._next_seqno s ≤ L + W ∨ W = 0 ∧ TCPSender._next_seqno s = L + 1;
  win_base : base s ≤ L ≤ TCPSender._next_seqno s;
  win_slack : L ≤ base s + 2 ^ 16;
  win_syn : TCPSender._syn_sent s = false → L = 0 ∧ W = 0
}.

(** The acknowledgments under way never go back: neither their numbers nor their
    right edges; [K] and [edge] are what the receiver would say now. *)
Fixpoint chain (isn : WrappingInt32) (L E : Z) (q : list (WrappingInt32 * Z)) (K edge : Z) : Prop :=
  match q with
  | [] => L ≤ K ∧ E ≤ edge
  | (ackno, w) :: q =>
    ∃ abs, ackno = wrap abs isn ∧ 1 ≤ abs ∧ 0 ≤ w < 2 ^ 16 ∧ L ≤ abs ∧ E ≤ abs + w ∧
      chain isn abs (abs + w) q K edge
  end.

(** The timeouts are values of an [unsigned int]. *)
Definition rto_ok (s : TCPSender.t) : Prop :=
  0 ≤ TCPSender._rto s < 2 ^ 32 ∧ 0 ≤ TCPSender._initial_retransmission_timeout s < 2 ^ 32.

(** The absolute number the receiver acknowledges. *)
Definition ack_abs (S : bytes) (r : TCPReceiver.t) : Z :=
  let k := StreamReassembler.ack_index (TCPReceiver._reassembler r) in
  if TCPReceiver._synReceived r
  then 1 + k + b2z (TCPReceiver._finReceived r && (k =? len S)) else 0.

(** A segment sent when the next number was [n]. *)
Definition on_wire (isn : WrappingInt32) (D : bytes) (fin_sent : bool) (next : Z)
    (x : Z * TCPSegment.t) : Prop :=
  ∃ p, TCPSender.carries isn D fin_sent p x.2 ∧ x.1 - 2 ^ 30 < p ∧
    0 < TCPSegment.length_in_sequence_space x.2 ∧
    p + TCPSegment.length_in_sequence_space x.2 ≤ x.1 ≤ next.

Record inv (send_capacity recv_capacity : Z) (isn : WrappingInt32) (S : bytes)
    (a : ByteStreamSpec.t) (L W : Z) (l : t) : Prop := {
  li_sender : TCPSender.inv send_capacity a (sender l);
  li_isn : TCPSender._isn (sender l) = isn;
  li_todo : ByteStreamSpec.accepted a ++ todo l = S;
  li_ended : ByteStreamSpec.ended a = true → todo l = [];
  li_fin : TCPSender._fin_sent (sender l) = true →
    ByteStreamSpec.ended a = true ∧ ByteStreamSpec.accepted a = ByteStreamSpec.delivered a;
  li_out : TCPSender._segments_out (sender l) = [];
  li_small : Forall (λ seg, TCPSegment.length_in_sequence_space seg ≤ 2 ^ 16)
    (TCPSender._segments_outstanding (sender l));
  li_rto : rto_ok (sender l);
  li_window : windowed (sender l) L W;
  li_receiver : TCPReceiver.inv recv_capacity S isn (receiver l);
  li_syn_received : TCPReceiver._synReceived (receiver l) = true → TCPSender._syn_sent (sender l) = true;
  li_received i : StreamReassembler.received (TCPReceiver._reassembler (receiver l)) i →
    i < len (ByteStreamSpec.delivered a);
  li_fin_received : TCPReceiver._finReceived (receiver l) = true → TCPSender._fin_sent (sender l) = true;
  li_wire : Forall (on_wire isn (ByteStreamSpec.delivered a) (TCPSender._fin_sent (sender l))
    (TCPSender._next_seqno (sender l))) (wire l);
  li_acks : chain isn L (L + W) (acks l) (ack_abs S (receiver l))
    (ack_abs S (receiver l) + TCPReceiver.window_size (receiver l))
}.

End Link.

(** ** Lemmas on the sender *)

Section evolution.
Import TCPSender.
Context (cap : Z) (Hcap : 0 < cap < 2 ^ 31).
Implicit Types (a : ByteStreamSpec.t) (s : t).

(** Where an outstanding segment lies. *)
Lemma outstanding_position isn D fs p segs e seg :
  laid_out isn D fs p segs e → seg ∈ segs →
  ∃ p', carries isn D fs p' seg ∧ p ≤ p' ∧ 0 < TCPSegment.length_in_sequence_space seg ∧
    p' + TCPSegment.length_in_sequence_space seg ≤ e.
Proof.
  revert p. induction segs as [|seg' segs IH]; intros p; [by intros _ ?%elem_of_nil|].
  intros (Hc & Hl & H) [->|Hin]%elem_of_cons.
  - apply laid_out_le in H as [H _]. exists p. split_and!; [done|lia|lia|lia].
  - destruct (IH _ H Hin) as (p' & ? & ? & ? & ?). exists p'. split_and!; [done|lia|lia|lia].
Qed.

Lemma laid_out_app isn D fs p l k e :
  laid_out isn D fs p (l ++ k) e → laid_out isn D fs (p + total_length l) k e ∧ 0 ≤ total_length l.
Proof.
  revert p. induction l as [|seg l IH]; intros p; cbn; [by rewrite Z.add_0_r|].
  intros (_ & ? & [H ?]%IH). unfold total_length in *. cbn. split; [|lia].
  by replace (p + (TCPSegment.length_in_sequence_space seg + foldr _ 0 l))
    with (p + TCPSegment.length_in_sequence_space seg + foldr (λ seg n,
      TCPSegment.length_in_sequence_space seg + n) 0 l) by lia.
Qed.

(** What a call on the sender does, as far as the other end can tell. *)
Record evolves a s a' s' : Prop := {
  ev_inv : inv cap a' s';
  ev_accepted : ByteStreamSpec.accepted a' = ByteStreamSpec.accepted a;
  ev_ended : ByteStreamSpec.ended a' = ByteStreamSpec.ended a;
  ev_isn : _isn s' = _isn s;
  ev_syn : _syn_sent s = true → _syn_sent s' = true;
  ev_next : _next_seqno s ≤ _next_seqno s';
  ev_out : ∃ q, _segments_out s' = _segments_out s ++ q ∧ ∀ seg, seg ∈ q → seg ∈ _segments_outstanding s';
  ev_grow : ∃ x, ByteStreamSpec.delivered a' = ByteStreamSpec.delivered a ++ x ∧
                 (_fin_sent s = true → _fin_sent s' = true ∧ x = []);
  ev_fin : _fin_sent s' = true → _fin_sent s = true ∨
    ByteStreamSpec.ended a' = true ∧ ByteStreamSpec.accepted a' = ByteStreamSpec.delivered a';
  ev_small : ∀ seg, seg ∈ _segments_outstanding s' →
    seg ∈ _segments_outstanding s ∨ TCPSegment.length_in_sequence_space seg ≤ 2 ^ 16;
  ev_rto : Link.rto_ok s → Link.rto_ok s'
}.

Lemma u16_sub x d : u16 (u16 x - d) = u16 (x - d).
Proof. unfold u16. by rewrite Zminus_mod_idemp_l. Qed.

Lemma evolves_fill a s :
  inv cap a s → len (ByteStreamSpec.accepted a) < 2 ^ 62 →
  ∃ a' s', fill_window s = Ok s' ∧ evolves a s a' s' ∧ base s' = base s ∧
    _receiver_window_size s' = _receiver_window_size s ∧ within_window s s'.
Proof.
  intros Hi HA. destruct (fill_window_spec cap a s Hi HA) as (a' & s' & Hf & Hadv & Hw).
  exists a', s'. split; [done|]. split; [|split; [apply Hadv|split; [apply Hadv|done]]].
  destruct (adv_queue _ _ _ _ _ Hadv) as (q & Hq & Ho).
  constructor; try apply Hadv.
  - exists q. split; [done|]. intros seg Hin. rewrite Hq. apply elem_of_app. by right.
  - intros seg. rewrite Hq. intros [?|Hin]%elem_of_app; [by left|right].
    pose proof (inv_outstanding _ _ _ (adv_inv _ _ _ _ _ Hadv)) as Hl. rewrite Hq in Hl.
    apply laid_out_app in Hl as [Hl _]. rewrite (adv_base _ _ _ _ _ Hadv) in Hl.
    rewrite (laid_out_total _ _ _ _ _ _ (inv_outstanding _ _ _ Hi)) in Hl.
    destruct (outstanding_position _ _ _ _ _ _ seg Hl Hin) as (p & _ & ? & ? & ?).
    pose proof (inv_free _ _ _ Hi). destruct Hw as [Hw _]. lia.
  - unfold Link.rto_ok. by rewrite (adv_rto _ _ _ _ _ Hadv), (adv_initial _ _ _ _ _ Hadv).
Qed.

Lemma windowed_fill a s s' L W :
  inv cap a s → Link.windowed s L W → base s' = base s → _next_seqno s ≤ _next_seqno s' →
  (_syn_sent s = true → _syn_sent s' = true) →
  _receiver_window_size s' = _receiver_window_size s → within_window s s' → Link.windowed s' L W.
Proof.
  intros Hi [Hr Hs Hf Hn Hb Hsl Hsyn] Hbase Hnext Hsyn' Hwin (Hw1 & Hw2 & Hw3 & Hw4).
  pose proof (inv_next _ _ _ Hi) as Hnx.
  constructor; rewrite ?Hbase; try done; try lia.
  - rewrite Hw4, Hf, u16_sub. f_equal. lia.
  - rewrite Hf in *. destruct (_syn_sent s) eqn:E.
    + specialize (Hw2 eq_refl). specialize (Hw3 eq_refl). rewrite Hs in *.
      destruct (decide (W = 0)) as [->|Hne].
      * destruct Hn as [Hn|[_ Hn]].
        -- rewrite u16_id in * by lia. lia.
        -- replace (L + 0 - _next_seqno s) with (-1) in * by lia. rewrite Hw3 by done. by right.
      * rewrite u16_id in * by lia. lia.
    + destruct (Hsyn eq_refl) as [-> ->]. destruct (inv_syn _ _ _ Hi E) as (Hf' & Hd & _).
      rewrite Hf', Hd in Hnx. change (_next_seqno s = 0) in Hnx. rewrite Hnx in *. change (u16 (0 + 0 - 0)) with 0 in *.
      destruct (decide (_next_seqno s' = 0)); [left|right]; lia.
Qed.

(** An acknowledgment that goes back neither in its number nor in its right edge
    is acted on: the segments it covers are dropped, and the window is the new
    one. *)
Lemma evolves_ack a s L W abs w :
  inv cap a s → len (ByteStreamSpec.accepted a) < 2 ^ 62 → _bytes_in_flight s < 2 ^ 30 →
  (∀ seg, seg ∈ _segments_outstanding s → TCPSegment.length_in_sequence_space seg ≤ 2 ^ 16) →
  Link.windowed s L W → _syn_sent s = true →
  L ≤ abs ≤ _next_seqno s → 0 ≤ w < 2 ^ 16 → L + W ≤ abs + w →
  ∃ a' s', ack_received s (wrap abs (_isn s)) w = Ok s' ∧ evolves a s a' s' ∧
    Link.windowed s' abs w ∧ base s ≤ base s' ∧
    match _segments_outstanding s with
    | [] => True
    | seg :: _ => base s + TCPSegment.length_in_sequence_space seg ≤ abs →
        base s + TCPSegment.length_in_sequence_space seg ≤ base s'
    end.
Proof.
  intros Hi HA Hb Hsmall Hw Hsyn Habs Hwr Hedge.
  assert (Hr : in_range a s) by done. pose proof (next_in_range cap a s Hi Hr).
  pose proof (inv_flight _ _ _ Hi). destruct Hw as [Hr0 Hsz Hfr Hnx Hbs Hsl Hsy].
  pose proof (flight_le_next cap a s Hi).
  destruct (ack_received_spec cap a s (wrap abs (_isn s)) w Hi Hr Hwr) as (abs' & Hu & _ & Hack).
  rewrite unwrap_wrap in Hu by (unfold base in *; lia). injection Hu as <-.
  replace (current s abs) with true in Hack.
  2:{ unfold current. symmetry. apply andb_true_intro. split; [lia|]. apply orb_true_intro. right. lia. }
  destruct Hack as (s3 & popped & rest & p' & Heq & Hset).
  destruct (evolves_fill a s3 (set_inv _ _ _ _ _ _ _ _ _ Hset) HA) as (a' & s' & Hf & Hev & Hbase & Hwin & Hwithin).
  exists a', s'. split; [congruence|].
  assert (Hw3 : Link.windowed s3 abs w).
  { destruct Hset as [_ Hq Hl Hd [Hp1 Hp2] Hfront Hws Hfs].
    destruct Hd as [_ _ _ _ En Es _ Eb Eq _]. unfold base in *.
    assert (Hrest : rest = [] → abs = _next_seqno s) by (intros ->; lia).
    constructor; unfold base; rewrite ?En, ?Es, ?Eb; try done; try lia.
    - destruct rest; [rewrite Hrest in * by done; rewrite Hfs, u16_id; lia|done].
    - destruct rest as [|seg rest]; [rewrite Hrest in * by done; lia|].
      assert (TCPSegment.length_in_sequence_space seg ≤ 2 ^ 16).
      { apply Hsmall. rewrite Hq. set_solver. }
      lia. }
  destruct Hev as [? Ha He Hisn Hsyn' Hnext (q & Ho & Hoin) (x & Hx & Hxf) Hfin Hsm Hrto].
  assert (Hb3 : base s3 = p').
  { unfold base. destruct Hset as [_ _ _ Hd _ _ _ _].
    rewrite (drop_flight _ _ _ _ Hd), (drop_next _ _ _ _ Hd). clear. lia. }
  split; [|split; [|split]].
  - destruct Hset as [_ Hq Hl Hd _ _ _ _]. destruct Hd as [Ei Eo Ein Est En Es Ef Eb Eq Ert].
    constructor; rewrite <- ?Es, <- ?Ef, <- ?Eo, <- ?En; eauto; [congruence| |].
    2:{ intros [? ?]. apply Hrto. unfold Link.rto_ok. rewrite Ein. by destruct Ert as [->| ->]. }
    intros seg Hin. destruct (Hsm seg Hin) as [Hin3|?]; [left|by right]. rewrite Hq. rewrite Eq in Hin3. set_solver.
  - apply (windowed_fill a s3 s' abs w); try done. apply Hset.
  - rewrite Hbase, Hb3. apply Hset.
  - destruct Hset as [_ Hq Hl Hd [Hp1 Hp2] Hfront _ _].
    destruct (_segments_outstanding s) as [|seg segs] eqn:Eo; [done|]. intros Hcov.
    pose proof (inv_outstanding _ _ _ Hi) as Hlay. rewrite Eo in Hlay. fold (base s) in Hlay.
    destruct popped as [|seg' popped]; simplify_eq/=.
    + destruct Hl as (_ & _ & Hl%laid_out_total), Hlay as (_ & _ & Hlay%laid_out_total). lia.
    + destruct Hlay as (_ & _ & Hlay). pose proof (laid_out_app _ _ _ _ _ _ _ Hlay) as [_ ?].
      apply laid_out_total in Hlay, Hl. rewrite total_length_app in Hlay. lia.
Qed.

Lemma tick_same s ms s' :
  tick s ms = Ok s' → _isn s' = _isn s ∧ _syn_sent s' = _syn_sent s ∧ _fin_sent s' = _fin_sent s ∧
    _receiver_window_size s' = _receiver_window_size s ∧ _receiver_free_space s' = _receiver_free_space s.
Proof.
  unfold tick. intros H. case_tests; inv_ok; subst; try done; cbn; case_tests; done.
Qed.

Lemma tick_rto s ms s' : tick s ms = Ok s' → Link.rto_ok s → Link.rto_ok s'.
Proof.
  unfold tick, Link.rto_ok. intros H Hr. case_tests; inv_ok; subst; try done; cbn; case_tests; try done.
  split; [apply u32_bound|apply Hr].
Qed.

Lemma evolves_tick a s ms L W :
  inv cap a s → Link.windowed s L W →
  ∃ s', tick s ms = Ok s' ∧ evolves a s a s' ∧ Link.windowed s' L W.
Proof.
  intros Hi [Hr Hs Hf Hn Hb Hsl Hsyn].
  destruct (tick_spec cap a s ms Hi) as (s' & Ht & Hi' & Hnx & Hfl & Hst & Hq & Hout).
  destruct (tick_same s ms s' Ht) as (Ei & Es & Ef & Ew & Efr). exists s'. split; [done|].
  split; [constructor|constructor]; unfold base in *; rewrite ?Es, ?Ef, ?Ei, ?Hnx, ?Hfl; try done; try lia.
  - rewrite Hq. destruct (_segments_outstanding s) as [|front segs].
    + subst s'. exists []. rewrite app_nil_r. set_solver.
    + destruct (_ <=? _); destruct Hout as (Ho & _); rewrite Ho.
      * exists [front]. set_solver.
      * exists []. rewrite app_nil_r. set_solver.
  - exists []. rewrite app_nil_r. auto.
  - rewrite Hq. by left.
  - intros [? ?]. by apply (tick_rto s ms).
Qed.

End evolution.

(** ** Lemmas on the link *)

Section linking.
Import Link.
Context (send_capacity recv_capacity retx_timeout : Z) (isn : WrappingInt32) (S : bytes).
Context (Hsc : 0 < send_capacity < 2 ^ 31) (Hrc : 0 < recv_capacity < 2 ^ 16).
Context (Hrto : 0 ≤ retx_timeout < 2 ^ 32) (Hisn : seq_ok isn) (HS : len S < 2 ^ 61).
Implicit Types (a : ByteStreamSpec.t) (l : t) (r : TCPReceiver.t).

Local Abbreviation linv := (inv send_capacity recv_capacity isn S).
Local Abbreviation index_of l := (StreamReassembler.ack_index (TCPReceiver._reassembler (receiver l))).

Lemma chain_weaken L E L' E' q K K' d d' :
  chain isn L E q K d → L' ≤ L → E' ≤ E → K ≤ K' → d ≤ d' → chain isn L' E' q K' d'.
Proof.
  revert L E L' E'. induction q as [|[ackno w] q IH]; cbn; intros L E L' E'; [lia|].
  intros (abs & ? & ? & ? & ? & ? & H) ? ? ? ?. exists abs. split_and!; try done; try lia.
  by apply (IH abs (abs + w)).
Qed.

Lemma chain_end L E q K d : chain isn L E q K d → L ≤ K ∧ E ≤ d.
Proof.
  revert L E. induction q as [|[ackno w] q IH]; cbn; intros L E; [done|].
  intros (abs & _ & _ & _ & ? & ? & H%IH). lia.
Qed.

Lemma chain_snoc L E q K w :
  chain isn L E q K (K + w) → 1 ≤ K → 0 ≤ w < 2 ^ 16 →
  chain isn L E (q ++ [(wrap K isn, w)]) K (K + w).
Proof.
  intros H HK Hw. revert L E H. induction q as [|[ackno w'] q IH]; cbn; intros L E.
  - intros [? ?]. exists K. split_and!; try done; lia.
  - intros (abs & ? & ? & ? & ? & ? & H). exists abs. split_and!; try done; try lia. by apply IH.
Qed.

Lemma chain_delete L E q K d i : chain isn L E q K d → chain isn L E (delete i q) K d.
Proof.
  revert L E i. induction q as [|[ackno w] q IH]; intros L E i H; [done|].
  destruct H as (abs & ? & ? & ? & ? & ? & H). destruct i as [|i]; cbn.
  - eapply chain_weaken; [exact H|lia..].
  - exists abs. split_and!; try done; try lia. by apply IH.
Qed.

(** The whole stream, once the FIN is out. *)
Lemma fin_all a L W l :
  linv a L W l → TCPSender._fin_sent (sender l) = true → ByteStreamSpec.delivered a = S ∧ todo l = [].
Proof.
  intros Hi [He Ha]%(li_fin _ _ _ _ _ _ _ _ Hi). pose proof (li_ended _ _ _ _ _ _ _ _ Hi He) as Ht.
  split; [|done]. rewrite <- Ha, <- (li_todo _ _ _ _ _ _ _ _ Hi), Ht. by rewrite app_nil_r.
Qed.

Lemma delivered_prefix a L W l :
  linv a L W l → ∃ rest, S = ByteStreamSpec.delivered a ++ rest.
Proof.
  intros Hi. pose proof (li_todo _ _ _ _ _ _ _ _ Hi) as Ht.
  rewrite (ByteStreamSpec.sim_split _ _ _ (TCPSender.inv_stream _ _ _ (li_sender _ _ _ _ _ _ _ _ Hi))) in Ht.
  rewrite <- app_assoc in Ht. by eexists.
Qed.

Lemma accepted_bound a L W l : linv a L W l → len (ByteStreamSpec.accepted a) < 2 ^ 62.
Proof.
  intros Hi. pose proof (li_todo _ _ _ _ _ _ _ _ Hi) as Ht. apply (f_equal len) in Ht.
  rewrite len_app in Ht. pose proof (len_nonneg (todo l)). lia.
Qed.

Lemma receiver_index a L W l :
  linv a L W l → 0 ≤ index_of l ≤ len (ByteStreamSpec.delivered a) ∧ index_of l ≤ len S ∧
    0 ≤ TCPReceiver.window_size (receiver l) ≤ recv_capacity.
Proof.
  intros Hi. pose proof (li_receiver _ _ _ _ _ _ _ _ Hi) as Hr.
  destruct (reach_inv S ltac:(lia) recv_capacity _ ltac:(lia) (TCPReceiver.inv_reach _ _ _ _ Hr)) as [Hsr _].
  destruct (ack_index_first_missing S _ Hsr) as [_ Hrec].
  pose proof (StreamReassembler.mid_base _ _ (StreamReassembler.inv_mid _ _ Hsr)).
  destruct (window_size_room recv_capacity S isn ltac:(lia) ltac:(lia) _ Hr) as [_ ?].
  unfold StreamReassembler.ack_index in *. split_and!; try lia.
  pose proof (len_nonneg (ByteStreamSpec.delivered a)).
  destruct (Z.le_gt_cases (index_of l) (len (ByteStreamSpec.delivered a))) as [?|Hgt]; [done|].
  unfold StreamReassembler.ack_index in *.
  pose proof (li_received _ _ _ _ _ _ _ _ Hi _ (Hrec (len (ByteStreamSpec.delivered a)) ltac:(lia))). lia.
Qed.

Lemma sender_next a L W l :
  linv a L W l → TCPSender._next_seqno (sender l) =
    b2z (TCPSender._syn_sent (sender l)) + len (ByteStreamSpec.delivered a) +
    b2z (TCPSender._fin_sent (sender l)).
Proof. intros Hi. apply (TCPSender.inv_next _ _ _ (li_sender _ _ _ _ _ _ _ _ Hi)). Qed.

(** The receiver acknowledges no number that was not sent, and the sender stays
    within what the receiver can take, give or take the one number of a probe. *)
Lemma ack_abs_next a L W l :
  linv a L W l → 0 ≤ ack_abs S (receiver l) ≤ TCPSender._next_seqno (sender l).
Proof.
  intros Hi. destruct (receiver_index a L W l Hi) as (Hk & Hk' & _). rewrite (sender_next a L W l Hi).
  pose proof (len_nonneg (ByteStreamSpec.delivered a)).
  unfold ack_abs. destruct (TCPReceiver._synReceived _) eqn:Hs.
  - rewrite (li_syn_received _ _ _ _ _ _ _ _ Hi Hs). destruct (TCPReceiver._finReceived _) eqn:Hf.
    + rewrite (li_fin_received _ _ _ _ _ _ _ _ Hi Hf). cbn [andb b2z].
      destruct (_ =? _); cbn [b2z]; lia.
    + cbn [andb b2z]. destruct (TCPSender._fin_sent _); cbn [b2z]; lia.
  - destruct (TCPSender._syn_sent _), (TCPSender._fin_sent _); cbn [b2z]; lia.
Qed.

Lemma next_edge a L W l :
  linv a L W l →
  TCPSender._next_seqno (sender l) ≤ 2 + index_of l + TCPReceiver.window_size (receiver l).
Proof.
  intros Hi. destruct (receiver_index a L W l Hi) as (Hk & Hk' & Hw).
  destruct (chain_end _ _ _ _ _ (li_acks _ _ _ _ _ _ _ _ Hi)) as [HL HE].
  pose proof (win_next _ _ _ (li_window _ _ _ _ _ _ _ _ Hi)).
  pose proof (win_range _ _ _ (li_window _ _ _ _ _ _ _ _ Hi)).
  unfold ack_abs in *. destruct (TCPReceiver._synReceived _) eqn:Hs; [|lia].
  destruct (TCPReceiver._finReceived _ && _) eqn:Hf; cbn [b2z] in *; [|lia].
  apply andb_prop in Hf as [Hf Hkl%Z.eqb_eq].
  pose proof (li_fin_received _ _ _ _ _ _ _ _ Hi Hf) as Hfs.
  destruct (fin_all a L W l Hi Hfs) as [HD _]. rewrite (sender_next a L W l Hi), Hfs, HD.
  destruct (TCPSender._syn_sent _); cbn [b2z]; lia.
Qed.

Lemma flight_small a L W l : linv a L W l → TCPSender._bytes_in_flight (sender l) < 2 ^ 30.
Proof.
  intros Hi. destruct (li_window _ _ _ _ _ _ _ _ Hi). unfold base in *. lia.
Qed.

(** The sender moves, and what it queues goes out. *)
Lemma real_send_inv a L W l a' s' L' W' q :
  linv a L W l → evolves send_capacity a (sender l) a' s' → windowed s' L' W' →
  chain isn L' (L' + W') q (ack_abs S (receiver l))
    (ack_abs S (receiver l) + TCPReceiver.window_size (receiver l)) →
  linv a' L' W' (real_send (l <| acks := q |>) s').
Proof.
  intros Hi [Hs Ha He Hs' Hsyn Hnext (out & Ho & Hoin) (x & Hx & Hxf) Hfin Hsm Hro] Hw Hch.
  assert (Hfl : TCPSender._bytes_in_flight s' < 2 ^ 30) by (destruct Hw; unfold base in *; lia).
  rewrite (li_out _ _ _ _ _ _ _ _ Hi) in Ho. cbn in Ho.
  constructor; cbn -[ack_abs TCPReceiver.window_size]; try apply Hi; try done.
  - apply (drain_inv send_capacity a' s' [] Hs). by intros ? ?%elem_of_nil.
  - rewrite Hs'. apply Hi.
  - rewrite Ha. apply Hi.
  - rewrite He. apply Hi.
  - intros [Hf|?]%Hfin; [|done]. destruct (li_fin _ _ _ _ _ _ _ _ Hi Hf) as [? Heq].
    destruct (Hxf Hf) as [_ ->]. rewrite app_nil_r in Hx. split; congruence.
  - apply Forall_forall. intros seg [Hin|?]%Hsm; [|done].
    by apply (proj1 (Forall_forall _ _) (li_small _ _ _ _ _ _ _ _ Hi)).
  - by apply Hro, Hi.
  - destruct Hw. by constructor.
  - intros Hr. apply Hsyn, (li_syn_received _ _ _ _ _ _ _ _ Hi Hr).
  - intros i Hr%(li_received _ _ _ _ _ _ _ _ Hi). rewrite Hx, len_app. pose proof (len_nonneg x). lia.
  - intros Hr%(li_fin_received _ _ _ _ _ _ _ _ Hi). by apply Hxf.
  - unfold TCPSender.segments_out, TCPSender.next_seqno_absolute. rewrite Ho.
    apply Forall_app. split.
    + eapply Forall_impl; [apply (li_wire _ _ _ _ _ _ _ _ Hi)|].
      intros [n seg] (p & Hc & ? & ? & ? & ?). exists p. cbn in *. split; [|lia].
      rewrite Hx. by apply (carries_grow _ _ _ (TCPSender._fin_sent (sender l))).
    + apply Forall_map, Forall_forall. intros seg Hin%Hoin. cbn.
      destruct (outstanding_position _ _ _ _ _ _ seg (TCPSender.inv_outstanding _ _ _ Hs) Hin)
        as (p & Hc & ? & ? & ?).
      exists p. cbn. rewrite Hs', (li_isn _ _ _ _ _ _ _ _ Hi) in Hc. split; [done|lia].
Qed.


(** The payload of a segment on the wire is no longer than the numbers it takes. *)
Lemma payload_length D fs p seg :
  len D < 2 ^ 62 → TCPSender.carries isn D fs p seg → TCPHeader.syn (TCPSegment.header seg) = false →
  TCPSegment.length_in_sequence_space seg =
    len (Buffer.str (TCPSegment.payload seg)) + b2z (TCPHeader.fin (TCPSegment.header seg)).
Proof.
  intros HD [_ Hc] Hsyn. rewrite Hsyn in Hc. destruct Hc as (pre & post & -> & _ & _).
  rewrite !len_app in HD. pose proof (len_nonneg pre). pose proof (len_nonneg post).
  pose proof (len_nonneg (Buffer.str (TCPSegment.payload seg))).
  unfold TCPSegment.length_in_sequence_space, Buffer.size. rewrite Hsyn.
  destruct (TCPHeader.fin _); cbn [b2z]; rewrite u64_id; lia.
Qed.

(** The FIN comes after the whole stream. *)
Lemma fin_position a L W l p seg :
  linv a L W l →
  TCPSender.carries isn (ByteStreamSpec.delivered a) (TCPSender._fin_sent (sender l)) p seg →
  TCPHeader.syn (TCPSegment.header seg) = false → TCPHeader.fin (TCPSegment.header seg) = true →
  p - 1 + len (Buffer.str (TCPSegment.payload seg)) = len S ∧
  TCPSender._next_seqno (sender l) = 2 + len S.
Proof.
  intros Hi [_ Hc] Hsyn Hf. rewrite Hsyn in Hc. destruct Hc as (pre & post & HD & Hpre & Hpost).
  destruct (Hpost Hf) as [Hfs ->]. destruct (fin_all a L W l Hi Hfs) as [HDS _].
  rewrite (sender_next a L W l Hi), Hfs, HDS. rewrite HDS in HD.
  apply (f_equal len) in HD. rewrite !len_app, (@len_nil Z) in HD. split; [lia|].
  destruct (TCPSender._syn_sent _) eqn:Hss; [cbn [b2z]; lia|].
  destruct (TCPSender.inv_syn _ _ _ (li_sender _ _ _ _ _ _ _ _ Hi) Hss). congruence.
Qed.

(** A segment that was sent not too long ago is one the receiver may get. *)
Lemma sent_peer a L W l n p seg :
  linv a L W l →
  TCPSender.carries isn (ByteStreamSpec.delivered a) (TCPSender._fin_sent (sender l)) p seg →
  n - 2 ^ 30 < p → 0 < TCPSegment.length_in_sequence_space seg →
  p + TCPSegment.length_in_sequence_space seg ≤ n ≤ TCPSender._next_seqno (sender l) →
  TCPSender._next_seqno (sender l) ≤ n + 2 ^ 30 →
  (bare_fin seg = true → index_of l + 2 = TCPSender._next_seqno (sender l)) →
  TCPReceiver.peer_segment S isn (receiver l) p seg.
Proof.
  intros Hi Hc Hp Hl Hpn Hage Hbare.
  destruct (receiver_index a L W l Hi) as (Hk & Hk' & Hw). pose proof (next_edge a L W l Hi) as Hedge.
  pose proof (sender_next a L W l Hi) as Hnx. destruct (delivered_prefix a L W l Hi) as [rest HSD].
  assert (HSl : len S = len (ByteStreamSpec.delivered a) + len rest) by (by rewrite HSD, len_app).
  pose proof (len_nonneg rest).
  assert (len (ByteStreamSpec.delivered a) ≤ TCPSender._next_seqno (sender l)).
  { rewrite Hnx. destruct (TCPSender._syn_sent _), (TCPSender._fin_sent _); cbn [b2z]; lia. }
  pose proof Hc as Hc0. destruct Hc as [Hseq Hc].
  assert (Hp0 : 0 ≤ p).
  { destruct (TCPHeader.syn _); [lia|]. destruct Hc as (pre & _ & _ & -> & _). pose proof (len_nonneg pre). lia. }
  split; [done|]. split; [lia|]. unfold Buffer.copy.
  destruct (TCPHeader.syn _) eqn:Hsyn.
  { destruct Hc as (-> & Hf & Hd). split; [done|]. split; [done|]. rewrite Hd.
    split; [lia|]. split; [done|]. split; [|done]. intros j Hj. rewrite (@len_nil Z) in Hj. lia. }
  pose proof (payload_length (ByteStreamSpec.delivered a) _ _ _ ltac:(lia) Hc0 Hsyn) as Hlen.
  set (data := Buffer.str _) in *. set (fin := TCPHeader.fin _) in *.
  assert (Hfin : fin = true → p - 1 + len data = len S ∧ TCPSender._next_seqno (sender l) = 2 + len S)
    by (by apply (fin_position a L W l)).
  destruct Hc as (pre & post & HD & Hpre & _). pose proof (len_nonneg pre). pose proof (len_nonneg data).
  assert (Hfit : 0 ≤ b2z fin) by (by destruct fin).
  split; [lia|]. split; [|split].
  - split; [lia|]. split; [lia|]. split; [|intros Hf; by apply Hfin].
    intros j Hj. rewrite HSD, HD, <- !app_assoc.
    rewrite lookup_app_r by (unfold len in *; lia).
    rewrite lookup_app_l by (unfold len in *; lia). f_equal. unfold len in *. lia.
  - intros _. split; [left; unfold StreamReassembler.ack_index in *|].
    { rewrite <- (proj1 (window_size_room recv_capacity S isn ltac:(lia) ltac:(lia) _ (li_receiver _ _ _ _ _ _ _ _ Hi))).
      lia. }
    intros Hf. destruct (Hfin Hf) as [Hend Hnext]. rewrite Hf in *. cbn [b2z] in *.
    destruct (reach_inv S ltac:(lia) recv_capacity _ ltac:(lia)
      (TCPReceiver.inv_reach _ _ _ _ (li_receiver _ _ _ _ _ _ _ _ Hi))) as [_ ->].
    unfold StreamReassembler.ack_index in *.
    destruct (decide (data = [])) as [Hd|Hd].
    + assert (Hb : bare_fin seg = true).
      { unfold bare_fin, Buffer.size. fold fin data. by rewrite Hf, Hd. }
      specialize (Hbare Hb). rewrite Hd, (@len_nil Z) in *. split; [lia|right; lia].
    + assert (len data ≠ 0) by (by intros ?%len_zero_nil). split; [lia|by left].
  - intros Hf. destruct (Hfin Hf). lia.
Qed.

(** In particular a copy of a segment of the wire, when the network delivers it. *)
Lemma wire_peer a L W l i n seg :
  linv a L W l → wire l !! i = Some (n, seg) → enabled l (Deliver i) = true →
  ∃ p, TCPReceiver.peer_segment S isn (receiver l) p seg ∧ 0 < TCPSender._next_seqno (sender l) ∧
    TCPSender.carries isn (ByteStreamSpec.delivered a) (TCPSender._fin_sent (sender l)) p seg.
Proof.
  intros Hi Hn Hen. cbn [enabled] in Hen. rewrite Hn in Hen. apply andb_prop in Hen as [Hage Hbare].
  apply Z.leb_le in Hage. unfold TCPSender.next_seqno_absolute in *.
  pose proof (Forall_lookup_1 _ _ _ _ (li_wire _ _ _ _ _ _ _ _ Hi) Hn) as (p & Hc & Hp & Hl & Hpn). cbn in Hp, Hl, Hpn, Hc.
  exists p. split; [|split; [|done]].
  - apply (sent_peer a L W l n); try done. intros Hb. rewrite Hb in Hbare. cbn [negb orb] in Hbare. lia.
  - destruct Hc as [_ Hc]. destruct (TCPHeader.syn _); [lia|].
    destruct Hc as (pre & _ & _ & -> & _). pose proof (len_nonneg pre). lia.
Qed.

(** The receiver moves on: it hears a segment, or its owner reads. *)
Lemma receiver_step_inv a L W l r' :
  linv a L W l → TCPReceiver.inv recv_capacity S isn r' →
  (TCPReceiver._synReceived r' = true → TCPSender._syn_sent (sender l) = true) →
  (∀ i, StreamReassembler.received (TCPReceiver._reassembler r') i → i < len (ByteStreamSpec.delivered a)) →
  (TCPReceiver._finReceived r' = true → TCPSender._fin_sent (sender l) = true) →
  ack_abs S (receiver l) ≤ ack_abs S r' →
  ack_abs S (receiver l) + TCPReceiver.window_size (receiver l) ≤
    ack_abs S r' + TCPReceiver.window_size r' →
  linv a L W (l <| receiver := r' |>).
Proof.
  intros Hi Hr Hs Hrec Hf HK HE.
  constructor; cbn -[ack_abs TCPReceiver.window_size]; try apply Hi; try done.
  eapply chain_weaken; [apply Hi|lia..].
Qed.

(** Nothing is forgotten, so the acknowledged number does not go back. *)
Lemma ack_abs_grows p seg r r' :
  TCPReceiver.inv recv_capacity S isn r → TCPReceiver.inv recv_capacity S isn r' →
  grown p seg r r' → TCPReceiver._synReceived r' = TCPReceiver._synReceived r || TCPHeader.syn (TCPSegment.header seg) →
  let k := StreamReassembler.ack_index (TCPReceiver._reassembler r) in
  let k' := StreamReassembler.ack_index (TCPReceiver._reassembler r') in
  k ≤ k' ∧ ack_abs S r ≤ ack_abs S r' ∧
  ack_abs S r + TCPReceiver.window_size r ≤ ack_abs S r' + TCPReceiver.window_size r'.
Proof.
  intros Hr Hr' [Hedge Hkeep _ _ Hfk] Hsyn k k'.
  destruct (reach_inv S ltac:(lia) recv_capacity _ ltac:(lia) (TCPReceiver.inv_reach _ _ _ _ Hr)) as [Hi _].
  destruct (reach_inv S ltac:(lia) recv_capacity _ ltac:(lia) (TCPReceiver.inv_reach _ _ _ _ Hr')) as [Hi' _].
  destruct (ack_index_first_missing S _ Hi) as [_ Hrec]. destruct (ack_index_first_missing S _ Hi') as [Hmiss _].
  pose proof (StreamReassembler.mid_base _ _ (StreamReassembler.inv_mid _ _ Hi)).
  pose proof (StreamReassembler.mid_base _ _ (StreamReassembler.inv_mid _ _ Hi')).
  assert (Hk : k ≤ k').
  { destruct (Z.le_gt_cases k k') as [?|Hgt]; [done|]. destruct Hmiss. apply Hkeep, Hrec.
    unfold k, k', StreamReassembler.ack_index in *. lia. }
  fold k k' in Hedge. unfold ack_abs. fold k k'. rewrite Hsyn. split; [done|].
  destruct (TCPReceiver._synReceived r) eqn:Hs.
  - cbn [orb]. assert (b2z (TCPReceiver._finReceived r && (k =? len S)) ≤ b2z (TCPReceiver._finReceived r' && (k' =? len S))); [|lia].
    destruct (TCPReceiver._finReceived r); [rewrite Hfk by done|]; cbn [andb];
      [|by destruct (TCPReceiver._finReceived r' && _)].
    destruct (k =? len S) eqn:E1, (k' =? len S) eqn:E2; cbn [b2z]; try lia.
    unfold k, k', StreamReassembler.ack_index in *. lia.
  - destruct (TCPReceiver.inv_silent _ _ _ _ Hr Hs) as (Hk0 & _). fold k in Hk0.
    cbn [orb]. destruct (TCPHeader.syn _) eqn:Hh.
    + assert (0 ≤ b2z (TCPReceiver._finReceived r' && (k' =? len S))) by (by destruct (_ && _)). lia.
    + assert (k' = 0); [|lia].
      apply (TCPReceiver.inv_silent _ _ _ _ Hr'). exact Hsyn.
Qed.

Lemma deliver_inv a L W l i :
  linv a L W l → enabled l (Deliver i) = true →
  ∃ l', step l (Deliver i) = Ok l' ∧ linv a L W l'.
Proof.
  intros Hi Hen. cbn [step]. destruct (wire l !! i) as [[n seg]|] eqn:Hn; [|by exists l].
  destruct (wire_peer a L W l i n seg Hi Hn Hen) as (p & Hpeer & Hnext & Hc).
  pose proof (li_receiver _ _ _ _ _ _ _ _ Hi) as Hr.
  destruct (segment_received_spec recv_capacity S isn ltac:(lia) ltac:(lia) Hisn (receiver l) p seg Hr Hpeer)
    as (r' & Hrec & Hr' & Hsyn & _ & Hg).
  rewrite Hrec. cbn [mbind outcome_bind]. eexists. split; [done|].
  destruct (ack_abs_grows p seg _ _ Hr Hr' Hg Hsyn) as (_ & HK & HE).
  apply receiver_step_inv; try done.
  - intros _. destruct (TCPSender._syn_sent _) eqn:Hss; [done|].
    rewrite (sender_next a L W l Hi), Hss in Hnext.
    destruct (TCPSender.inv_syn _ _ _ (li_sender _ _ _ _ _ _ _ _ Hi) Hss) as (Hf & Hd & _).
    rewrite Hf, Hd, (@len_nil Z) in Hnext. done.
  - intros j [Hj|Hj]%(grown_new _ _ _ _ Hg); [by apply (li_received _ _ _ _ _ _ _ _ Hi)|].
    unfold Buffer.copy in Hj. destruct Hc as [_ Hc]. destruct (TCPHeader.syn _).
    + destruct Hc as (-> & _ & Hd). rewrite Hd, (@len_nil Z) in Hj. lia.
    + destruct Hc as (pre & post & -> & -> & _). rewrite !len_app.
      pose proof (len_nonneg post). pose proof (len_nonneg pre). lia.
  - intros [Hf|Hf]%(grown_fin _ _ _ _ Hg); [by apply (li_fin_received _ _ _ _ _ _ _ _ Hi)|].
    destruct Hc as [_ Hc]. destruct (TCPHeader.syn _); [destruct Hc as (_ & ? & _); congruence|].
    destruct Hc as (pre & post & _ & _ & Hpost). by apply Hpost.
Qed.

(** Reading makes exactly that much room. *)
Lemma read_window r n :
  TCPReceiver.inv recv_capacity S isn r →
  let o := TCPReceiver.stream_out r in
  let m := Z.min (Z.of_nat n) (ByteStream.buffer_size o) in
  let r' := r <| TCPReceiver._reassembler ::= λ s, s <| StreamReassembler._output ::= λ o, (ByteStream.read o m).1 |> |> in
  0 ≤ m ≤ recv_capacity ∧ TCPReceiver.window_size r' = TCPReceiver.window_size r + m ∧
  (ByteStream.buffer_size o ≤ Z.of_nat n → TCPReceiver.window_size r' = recv_capacity).
Proof.
  intros Hr o m r'. pose proof (window_size_free recv_capacity S isn ltac:(lia) ltac:(lia) r Hr) as Hf. fold o in Hf.
  pose proof (proj2 (window_size_room recv_capacity S isn ltac:(lia) ltac:(lia) r Hr)).
  assert (Hm : 0 ≤ m ≤ ByteStream.buffer_size o).
  { pose proof (len_nonneg (ByteStream.buffer o)). unfold m, ByteStream.buffer_size. lia. }
  pose proof (reading_opens recv_capacity S isn ltac:(lia) ltac:(lia) r m Hr Hm) as Hw.
  change (TCPReceiver.window_size r' = TCPReceiver.window_size r + m) in Hw. rewrite Hw. unfold m in *. lia.
Qed.

Lemma read_inv a L W l n :
  linv a L W l → ∃ l', step l (Read n) = Ok l' ∧ linv a L W l' ∧ sender l' = sender l ∧
    (ByteStream.buffer_size (TCPReceiver.stream_out (receiver l)) ≤ Z.of_nat n →
     TCPReceiver.window_size (receiver l') = recv_capacity).
Proof.
  intros Hi. pose proof (li_receiver _ _ _ _ _ _ _ _ Hi) as Hr. eexists. split; [done|].
  destruct (read_window (receiver l) n Hr) as (Hm & Hw & Hall). cbv zeta in Hm, Hw, Hall. set (m := Z.min _ _) in *.
  pose proof (inv_read recv_capacity S isn (receiver l) m Hr ltac:(lia)) as Hr'.
  split; [|done].
  apply (receiver_step_inv a L W l _ Hi Hr'); try apply Hi; [done|].
  rewrite Hw. change (ack_abs S (upd _ _ _)) with (ack_abs S (receiver l)). lia.
Qed.

(** The application writes or ends its stream: only the sender's stream changes. *)
Lemma stream_step_inv a a' L W l st x rest :
  linv a L W l → todo l = x ++ rest →
  TCPSender.inv send_capacity a' ((sender l) <| TCPSender._stream := st |>) →
  ByteStreamSpec.accepted a' = ByteStreamSpec.accepted a ++ x →
  ByteStreamSpec.delivered a' = ByteStreamSpec.delivered a →
  (ByteStreamSpec.ended a = true → ByteStreamSpec.ended a' = true) →
  (ByteStreamSpec.ended a' = true → rest = []) →
  linv a' L W (l <| sender ::= λ s, s <| TCPSender._stream := st |> |> <| todo := rest |>).
Proof.
  intros Hi Ht Hs Ha Hd He Hr. destruct (li_window _ _ _ _ _ _ _ _ Hi) as [? ? ? ? ? ? ?].
  constructor; cbn -[ack_abs TCPReceiver.window_size]; rewrite ?Hd; try apply Hi; try done.
  - rewrite Ha, <- (li_todo _ _ _ _ _ _ _ _ Hi), Ht. by rewrite app_assoc.
  - intros [He' Heq]%(li_fin _ _ _ _ _ _ _ _ Hi). split; [by apply He|].
    pose proof (li_ended _ _ _ _ _ _ _ _ Hi He') as Hnil. rewrite Ht in Hnil.
    apply app_nil in Hnil as [-> ->]. by rewrite Ha, app_nil_r.
Qed.

Lemma write_inv a L W l n :
  linv a L W l → ∃ a' l' st, step l (Write n) = Ok l' ∧ linv a' L W l' ∧
    sender l' = (sender l) <| TCPSender._stream := st |> ∧
    ((length (todo l) ≤ n)%nat → todo l = [] ∧ todo l' = [] ∨ ByteStream.buffer st ≠ []).
Proof.
  intros Hi. pose proof (li_sender _ _ _ _ _ _ _ _ Hi) as Hs. cbn [step]. unfold TCPSender.stream_in.
  pose proof (TCPSender.inv_stream _ _ _ Hs) as Hsim.
  pose proof (ByteStreamSpec.sim_fit _ _ _ Hsim). pose proof (ByteStreamSpec.sim_cap _ _ _ Hsim) as Hcap.
  set (data := take n (todo l)). pose proof (stream_inv _ Hsc a _ (ByteStream.Write data) Hs I) as Hs'.
  assert (Hm : (ByteStream.write (TCPSender._stream (sender l)) data).2 =
    len (take (Z.to_nat (send_capacity - len (ByteStreamSpec.pending a))) data)).
  { rewrite write_wf by (apply (sim_wf send_capacity ltac:(lia) _ a Hsim)). cbn.
    rewrite (sim_pending send_capacity _ _ Hsim), Hcap, len_take by lia. done. }
  assert (Hbuf : ByteStream.buffer (ByteStream.write (TCPSender._stream (sender l)) data).1 =
    ByteStream.buffer (TCPSender._stream (sender l)) ++
      take (Z.to_nat (send_capacity - len (ByteStreamSpec.pending a))) data).
  { rewrite write_wf by (apply (sim_wf send_capacity ltac:(lia) _ a Hsim)). cbn.
    by rewrite (sim_pending send_capacity _ _ Hsim), Hcap. }
  cbn [upd ByteStream.exec fst] in Hs'.
  destruct (ByteStream.write _ data) as [st m]. cbn [snd fst] in *. subst m.
  eexists _, _, st. split; [done|]. set (x := take _ data) in *.
  assert (∃ y, todo l = x ++ y) as [y Hy].
  { eexists (drop _ data ++ drop n (todo l)). unfold x. rewrite app_assoc, take_drop. symmetry. apply take_drop. }
  cbn [upd todo]. rewrite Hy. replace (Z.to_nat (len x)) with (length x) by (unfold len; lia).
  rewrite drop_app_length. split; [|split; [done|]].
  2:{ rewrite <- Hy. intros Hn. cbn [todo]. rewrite Hbuf. destruct (decide (x = [])) as [Hx|Hx]; [|right; by intros [_ ?]%app_nil].
      rewrite Hx, app_nil_r. unfold x, data in Hx. rewrite (take_ge (todo l) n) in Hx by lia.
      rewrite (sim_pending send_capacity _ _ Hsim) in Hx.
      destruct (todo l) as [|c k] eqn:Et; [left; split; [done|by destruct x, y]|right]. intros Hb. rewrite Hb, (@len_nil Z) in Hx.
      destruct (Z.to_nat (send_capacity - 0)) eqn:E; [lia|done]. }
  apply (stream_step_inv a _ L W l st x y Hi); [done|exact Hs'|done|done|done|].
  intros He. pose proof (li_ended _ _ _ _ _ _ _ _ Hi He) as Hn. rewrite Hy in Hn. by apply app_nil in Hn as [_ ->].
Qed.

Lemma end_input_inv a L W l :
  linv a L W l → ∃ a' l', step l EndInput = Ok l' ∧ linv a' L W l' ∧
    sender l' = match todo l with
      | [] => (sender l) <| TCPSender._stream ::= ByteStream.end_input |>
      | _ => sender l
      end.
Proof.
  intros Hi. cbn [step]. destruct (todo l) eqn:Ht; [|by exists a, l].
  pose proof (stream_inv _ Hsc a _ ByteStream.EndInput (li_sender _ _ _ _ _ _ _ _ Hi) I) as Hs'.
  eexists _, _. split; [done|].
  pose proof (stream_step_inv a _ L W l _ [] [] Hi Ht Hs') as H.
  destruct l; cbn in *; subst. split; [|done]. apply H; try done. by rewrite app_nil_r.
Qed.

Lemma fill_inv a L W l :
  linv a L W l → ∃ a' l', step l Fill = Ok l' ∧ linv a' L W l'.
Proof.
  intros Hi. pose proof (li_sender _ _ _ _ _ _ _ _ Hi) as Hs. cbn [step].
  destruct (evolves_fill _ a (sender l) Hs (accepted_bound a L W l Hi))
    as (a' & s' & Hf & Hev & Hb & Hw & Hww).
  rewrite Hf. cbn [mbind outcome_bind]. eexists a', _. split; [done|].
  pose proof (real_send_inv a L W l a' s' L W (acks l) Hi Hev) as H. destruct l. apply H; [|apply Hi].
  apply (windowed_fill _ a (sender _) s' L W Hs); try done; [apply Hi|apply Hev|apply Hev].
Qed.

Lemma tick_inv a L W l ms :
  linv a L W l → ∃ l', step l (Tick ms) = Ok l' ∧ linv a L W l'.
Proof.
  intros Hi. cbn [step].
  destruct (evolves_tick _ Hsc a (sender l) ms L W (li_sender _ _ _ _ _ _ _ _ Hi) (li_window _ _ _ _ _ _ _ _ Hi))
    as (s' & Ht & Hev & Hw).
  rewrite Ht. cbn [mbind outcome_bind]. eexists. split; [done|].
  pose proof (real_send_inv a L W l a s' L W (acks l) Hi Hev) as H. destruct l. apply H; [done|apply Hi].
Qed.

(** What the receiver says, as a number and a window. *)
Lemma ackno_abs a L W l :
  linv a L W l → TCPReceiver.ackno (receiver l) =
    (if TCPReceiver._synReceived (receiver l) then Some (wrap (ack_abs S (receiver l)) isn) else None) ∧
  u16 (TCPReceiver.window_size (receiver l)) = TCPReceiver.window_size (receiver l) ∧
  (TCPReceiver._synReceived (receiver l) = true → 1 ≤ ack_abs S (receiver l)).
Proof.
  intros Hi. destruct (receiver_index a L W l Hi) as (? & ? & ?). split; [|split].
  - unfold ack_abs. destruct (TCPReceiver._synReceived _) eqn:Hs.
    + apply (ackno_spec recv_capacity S isn ltac:(lia) ltac:(lia)); [apply Hi|done].
    + unfold TCPReceiver.ackno. by rewrite Hs.
  - apply u16_id. lia.
  - unfold ack_abs. intros ->. destruct (_ && _); cbn [b2z]; lia.
Qed.

Lemma acknowledge_inv a L W l :
  linv a L W l → ∃ l', step l Acknowledge = Ok l' ∧ linv a L W l'.
Proof.
  intros Hi. cbn [step]. destruct (ackno_abs a L W l Hi) as (Ha & Hw & HK). rewrite Ha, Hw.
  destruct (TCPReceiver._synReceived _) eqn:Hs; [|by exists l].
  destruct (receiver_index a L W l Hi) as (? & ? & ?).
  eexists. split; [done|]. constructor; cbn -[ack_abs TCPReceiver.window_size]; try apply Hi; try done.
  apply chain_snoc; [apply Hi|by apply HK|lia].
Qed.

Lemma lose_ack_inv a L W l i : linv a L W l → linv a L W (l <| acks ::= delete i |>).
Proof.
  intros Hi. constructor; cbn -[ack_abs TCPReceiver.window_size]; try apply Hi. by apply chain_delete, Hi.
Qed.

(** An acknowledgment of number [abs] reaches the sender; if it covers the oldest
    outstanding segment, that is dropped. *)
Lemma deliver_ack_sender a L W l abs w q :
  linv a L W l → 1 ≤ abs → 0 ≤ w < 2 ^ 16 → L ≤ abs → L + W ≤ abs + w →
  chain isn abs (abs + w) q (ack_abs S (receiver l))
    (ack_abs S (receiver l) + TCPReceiver.window_size (receiver l)) →
  ∃ a' s', TCPSender.ack_received (sender l) (wrap abs isn) w = Ok s' ∧
    linv a' abs w (real_send (l <| acks := q |>) s') ∧
    TCPSender._next_seqno (sender l) ≤ TCPSender._next_seqno s' ∧ base (sender l) ≤ base s' ∧
    match TCPSender._segments_outstanding (sender l) with
    | [] => True
    | seg :: _ => base (sender l) + TCPSegment.length_in_sequence_space seg ≤ abs →
        base (sender l) + TCPSegment.length_in_sequence_space seg ≤ base s'
    end.
Proof.
  intros Hi Habs Hw HL HE Hch.
  destruct (chain_end _ _ _ _ _ Hch) as [HK _]. pose proof (ack_abs_next a L W l Hi) as Hnext.
  assert (Hsyn : TCPSender._syn_sent (sender l) = true).
  { apply (li_syn_received _ _ _ _ _ _ _ _ Hi). unfold ack_abs in HK.
    destruct (TCPReceiver._synReceived _); [done|lia]. }
  destruct (evolves_ack _ Hsc a (sender l) L W abs w (li_sender _ _ _ _ _ _ _ _ Hi) (accepted_bound a L W l Hi)
    (flight_small a L W l Hi)) as (a' & s' & Hack & Hev & Hwin & Hmono & Hbase); try done; [|apply Hi|lia|].
  { apply Forall_forall, Hi. }
  rewrite (li_isn _ _ _ _ _ _ _ _ Hi) in Hack. exists a', s'. split; [done|].
  split; [by apply (real_send_inv a L W l a' s' abs w q Hi)|]. split; [apply Hev|done].
Qed.

Lemma deliver_ack_at a L W l abs w q :
  linv a L W l → acks l = (wrap abs isn, w) :: q → 1 ≤ abs → 0 ≤ w < 2 ^ 16 → L ≤ abs → L + W ≤ abs + w →
  chain isn abs (abs + w) q (ack_abs S (receiver l))
    (ack_abs S (receiver l) + TCPReceiver.window_size (receiver l)) →
  ∃ a' l', step l DeliverAck = Ok l' ∧ linv a' abs w l' ∧ receiver l' = receiver l ∧ todo l' = todo l ∧
    base (sender l) ≤ base (sender l') ∧
    match TCPSender._segments_outstanding (sender l) with
    | [] => True
    | seg :: _ => base (sender l) + TCPSegment.length_in_sequence_space seg ≤ abs →
        base (sender l) + TCPSegment.length_in_sequence_space seg ≤ base (sender l')
    end.
Proof.
  intros Hi Hq Habs Hw HL HE Hch. cbn [step]. rewrite Hq.
  destruct (deliver_ack_sender a L W l abs w q) as (a' & s' & -> & Hi' & _ & H); try done. cbn [mbind outcome_bind].
  eexists a', _. by split_and!; [done..|apply H|apply H].
Qed.

Lemma deliver_ack_inv a L W l :
  linv a L W l → ∃ a' L' W' l', step l DeliverAck = Ok l' ∧ linv a' L' W' l'.
Proof.
  intros Hi. destruct (acks l) as [|[ackno w] q] eqn:Hq.
  { exists a, L, W, l. split; [|done]. cbn [step]. by rewrite Hq. }
  pose proof (li_acks _ _ _ _ _ _ _ _ Hi) as Hch. rewrite Hq in Hch.
  destruct Hch as (abs & -> & Habs & Hw & HL & HE & Hch).
  destruct (deliver_ack_at a L W l abs w q) as (a' & l' & ? & ? & _); try done. by exists a', abs, w, l'.
Qed.

Lemma make_linv :
  linv ByteStreamSpec.init 0 0 (make send_capacity recv_capacity retx_timeout isn S).
Proof.
  pose proof (inv_init recv_capacity S isn) as Hr.
  constructor; cbn; try done.
  - exact (make_inv send_capacity Hsc retx_timeout (Some isn) 0).
  - constructor; cbn; try done. by left.
  - intros i Hi. by apply (TCPReceiver.inv_silent _ _ _ _ Hr) in Hi.
  - unfold TCPReceiver.window_size. split; [done|]. cbn. rewrite u64_id; change (ByteStream.buffer_size _) with 0; lia.
Qed.

(** Every step returns and keeps the invariant. *)
Lemma step_inv a L W l e :
  linv a L W l → enabled l e = true → ∃ a' L' W' l', step l e = Ok l' ∧ linv a' L' W' l'.
Proof.
  intros Hi He. destruct e.
  - destruct (write_inv a L W l n Hi) as (a' & l' & st & ? & ? & _). by exists a', L, W, l'.
  - destruct (end_input_inv a L W l Hi) as (a' & l' & ? & ? & _). by exists a', L, W, l'.
  - destruct (fill_inv a L W l Hi) as (a' & l' & ? & ?). by exists a', L, W, l'.
  - destruct (tick_inv a L W l ms Hi) as (l' & ? & ?). by exists a, L, W, l'.
  - destruct (deliver_inv a L W l i Hi He) as (l' & ? & ?). by exists a, L, W, l'.
  - destruct (read_inv a L W l n Hi) as (l' & ? & ? & _). by exists a, L, W, l'.
  - destruct (acknowledge_inv a L W l Hi) as (l' & ? & ?). by exists a, L, W, l'.
  - eexists a, L, W, _. split; [done|]. by apply lose_ack_inv.
  - destruct (deliver_ack_inv a L W l Hi) as (a' & L' & W' & l' & ? & ?). by exists a', L', W', l'.
Qed.

Lemma link_reach_inv l :
  reach send_capacity recv_capacity retx_timeout isn S l → ∃ a L W, linv a L W l.
Proof.
  induction 1 as [|l e l' _ (a & L & W & Hi) He Hs]; [eexists _, _, _; apply make_linv|].
  destruct (step_inv a L W l e Hi He) as (a' & L' & W' & l1 & Hs1 & Hi').
  exists a', L', W'. congruence.
Qed.

(** What the invariant says of what has arrived. *)
Lemma link_in_order a L W l :
  linv a L W l →
  let r := receiver l in
  let k := StreamReassembler.ack_index (TCPReceiver._reassembler r) in
  let acked := if TCPReceiver._synReceived r
    then 1 + k + b2z (ByteStream.input_ended (TCPReceiver.stream_out r)) else 0 in
  (∃ a, ByteStreamSpec.sim recv_capacity (TCPReceiver.stream_out r) a ∧
        ByteStreamSpec.accepted a = take (Z.to_nat k) S) ∧
  (ByteStream.input_ended (TCPReceiver.stream_out r) = true → k = len S ∧ todo l = []) ∧
  base (sender l) ≤ acked ∧ TCPSender._next_seqno (sender l) ≤ acked + Z.max 1 (TCPReceiver.window_size r).
Proof.
  intros Hi r k acked. pose proof (li_receiver _ _ _ _ _ _ _ _ Hi) as Hr. fold r in Hr.
  destruct (reach_inv S ltac:(lia) recv_capacity _ ltac:(lia) (TCPReceiver.inv_reach _ _ _ _ Hr)) as [Hsr Hc].
  pose proof (input_ended_spec recv_capacity S isn ltac:(lia) ltac:(lia) r Hr) as Hend. fold k in Hend.
  assert (Hacked : ack_abs S (receiver l) = acked) by (unfold acked; by rewrite Hend).
  destruct (chain_end _ _ _ _ _ (li_acks _ _ _ _ _ _ _ _ Hi)) as [HL Hedge]. rewrite Hacked in HL, Hedge.
  pose proof (li_window _ _ _ _ _ _ _ _ Hi) as Hw. pose proof (win_base _ _ _ Hw).
  split_and!.
  - rewrite <- Hc. apply (StreamReassembler.mid_out _ _ (StreamReassembler.inv_mid _ _ Hsr)).
  - rewrite Hend. intros [Hf Hk%Z.eqb_eq]%andb_prop. split; [done|].
    apply (fin_all a L W l Hi), (li_fin_received _ _ _ _ _ _ _ _ Hi Hf).
  - lia.
  - fold r in Hedge. destruct (win_next _ _ _ Hw) as [?|[? ?]]; lia.
Qed.

(** *** Progress *)

(** [l'] can follow [l]. *)
Definition leads (l l' : t) : Prop := ∃ es, run l es = Some l'.

Lemma leads_refl l : leads l l.
Proof. by exists []. Qed.

Lemma run_app l l' es es' : run l es = Some l' → run l (es ++ es') = run l' es'.
Proof.
  revert l. induction es as [|e es IH]; intros l; cbn; [by intros [= ->]|].
  destruct (enabled l e); [|done]. destruct (step l e); try done. apply IH.
Qed.

Lemma leads_trans l1 l2 l3 : leads l1 l2 → leads l2 l3 → leads l1 l3.
Proof. intros [es H] [es' H']. exists (es ++ es'). by rewrite (run_app _ _ _ _ H). Qed.

Lemma leads_step l e l' : enabled l e = true → step l e = Ok l' → leads l l'.
Proof. intros He Hs. exists [e]. cbn. by rewrite He, Hs. Qed.

Lemma drop_acks a L W l : linv a L W l → leads l (l <| acks := [] |>) ∧ linv a L W (l <| acks := [] |>).
Proof.
  intros Hi. remember (acks l) as q eqn:Hq. revert l Hi Hq.
  induction q as [|x q IH]; intros l Hi Hq.
  { destruct l; cbn in *; subst. split; [apply leads_refl|done]. }
  destruct (IH (l <| acks ::= delete 0%nat |>)) as [Hl Hi']; [by apply lose_ack_inv|cbn; by rewrite <- Hq|].
  split; [|exact Hi']. eapply leads_trans; [|exact Hl]. by apply (leads_step l (LoseAck 0)).
Qed.

(** The network can always get the acknowledgments out of the way, and the reader
    can make room. *)
Lemma quiet a L W l :
  linv a L W l → ∃ l', leads l l' ∧ linv a L W l' ∧ acks l' = [] ∧ sender l' = sender l ∧
    TCPReceiver.window_size (receiver l') = recv_capacity.
Proof.
  intros Hi. destruct (drop_acks a L W l Hi) as [Hl Hi']. set (l1 := l <| acks := [] |>) in *.
  destruct (read_inv a L W l1 (Z.to_nat (ByteStream.buffer_size (TCPReceiver.stream_out (receiver l1)))) Hi')
    as (l2 & Hs & Hi2 & Hsd & Hw).
  exists l2. split; [eapply leads_trans; [exact Hl|by eapply leads_step, Hs]|]. split; [done|].
  split; [cbn [step] in Hs; by injection Hs as <-|]. split; [by rewrite Hsd|]. apply Hw.
  unfold ByteStream.buffer_size, len. lia.
Qed.

(** The receiver answers and the answer arrives. *)
Lemma answer a L W l :
  linv a L W l → acks l = [] → TCPReceiver._synReceived (receiver l) = true →
  let K := ack_abs S (receiver l) in
  ∃ a' l', leads l l' ∧ linv a' K (TCPReceiver.window_size (receiver l)) l' ∧
    receiver l' = receiver l ∧ base (sender l) ≤ base (sender l') ∧
    match TCPSender._segments_outstanding (sender l) with
    | [] => True
    | seg :: _ => base (sender l) + TCPSegment.length_in_sequence_space seg ≤ K →
        base (sender l) + TCPSegment.length_in_sequence_space seg ≤ base (sender l')
    end.
Proof.
  intros Hi Hq Hsyn K. destruct (ackno_abs a L W l Hi) as (Ha & Hw & HK).
  destruct (acknowledge_inv a L W l Hi) as (l1 & Hs1 & Hi1). specialize (HK Hsyn).
  assert (Hl1 : l1 = l <| acks := [(wrap K isn, TCPReceiver.window_size (receiver l))] |>).
  { cbn [step] in Hs1. rewrite Ha, Hw, Hsyn in Hs1. injection Hs1 as <-. destruct l; cbn in *. by subst. }
  destruct (receiver_index a L W l Hi) as (_ & _ & Hwr).
  pose proof (li_acks _ _ _ _ _ _ _ _ Hi) as Hch. rewrite Hq in Hch. destruct Hch as [HL HE].
  destruct (deliver_ack_at a L W l1 K (TCPReceiver.window_size (receiver l)) [] Hi1)
    as (a' & l' & Hs' & Hi' & Hr & Ht & Hb & Hm); subst l1; try done; try (fold K; lia).
  exists a', l'. split; [|done].
  eapply leads_trans; [by eapply (leads_step _ Acknowledge), Hs1|by eapply (leads_step _ DeliverAck), Hs'].
Qed.

(** The oldest outstanding segment starts where the acknowledged numbers end. *)
Lemma front_position a L W l front segs :
  linv a L W l → TCPSender._segments_outstanding (sender l) = front :: segs →
  TCPSender.carries isn (ByteStreamSpec.delivered a) (TCPSender._fin_sent (sender l)) (base (sender l)) front ∧
  0 < TCPSegment.length_in_sequence_space front ∧
  base (sender l) + TCPSegment.length_in_sequence_space front ≤ TCPSender._next_seqno (sender l) ∧
  base (sender l) ≤ ack_abs S (receiver l).
Proof.
  intros Hi Hq. pose proof (TCPSender.inv_outstanding _ _ _ (li_sender _ _ _ _ _ _ _ _ Hi)) as Hl.
  rewrite Hq, (li_isn _ _ _ _ _ _ _ _ Hi) in Hl. destruct Hl as (Hc & Hlen & Hl).
  apply laid_out_le in Hl as [Hl _]. destruct (chain_end _ _ _ _ _ (li_acks _ _ _ _ _ _ _ _ Hi)) as [HL _].
  pose proof (win_base _ _ _ (li_window _ _ _ _ _ _ _ _ Hi)). unfold base in *. split_and!; try done; lia.
Qed.

(** A bare FIN at the front of the queue arrives in order. *)
Lemma front_fin_in_order a L W l front segs :
  linv a L W l → TCPSender._segments_outstanding (sender l) = front :: segs →
  bare_fin front = true → index_of l + 2 = TCPSender._next_seqno (sender l).
Proof.
  intros Hi Hq [Hf Hb%Z.eqb_eq]%andb_prop.
  destruct (front_position a L W l front segs Hi Hq) as (Hc & _ & _ & HK).
  destruct (TCPHeader.syn (TCPSegment.header front)) eqn:Hs.
  { destruct Hc as [_ Hc]. rewrite Hs in Hc. destruct Hc as (_ & ? & _). congruence. }
  destruct (fin_position a L W l _ front Hi Hc Hs Hf) as [Hp ->]. unfold Buffer.size in Hb. rewrite Hb in Hp.
  destruct (receiver_index a L W l Hi) as (? & ? & _). pose proof (len_nonneg S).
  unfold ack_abs in HK. destruct (TCPReceiver._synReceived _); [|lia].
  destruct (_ && (_ =? len S)) eqn:E; cbn [b2z] in HK; lia.
Qed.

(** When there is room, the oldest outstanding segment is wholly acknowledged on
    arrival. *)
Lemma front_acknowledged a L W l front segs r' :
  linv a L W l → 0 < TCPReceiver.window_size (receiver l) →
  TCPSender._segments_outstanding (sender l) = front :: segs →
  TCPReceiver.inv recv_capacity S isn r' → grown (base (sender l)) front (receiver l) r' →
  TCPReceiver._synReceived r' = TCPReceiver._synReceived (receiver l) || TCPHeader.syn (TCPSegment.header front) →
  (TCPReceiver._synReceived (receiver l) = true → TCPHeader.syn (TCPSegment.header front) = false →
   ∀ i, StreamReassembler.received (TCPReceiver._reassembler r') i ↔
     StreamReassembler.received (TCPReceiver._reassembler (receiver l)) i ∨
     (base (sender l) - 1 ≤ i < base (sender l) - 1 + len (Buffer.copy (TCPSegment.payload front)) ∧
      i < index_of l + TCPReceiver.window_size (receiver l))) →
  TCPReceiver._synReceived r' = true ∧
  base (sender l) + TCPSegment.length_in_sequence_space front ≤ ack_abs S r'.
Proof.
  intros Hi Hroom Hq Hr' Hg Hsyn Hrec.
  destruct (front_position a L W l front segs Hi Hq) as (Hc & Hlen & Hnext & HK).
  destruct (ack_abs_grows _ _ _ _ (li_receiver _ _ _ _ _ _ _ _ Hi) Hr' Hg Hsyn) as (Hkk & _ & _).
  destruct (receiver_index a L W l Hi) as (Hk & Hk' & _).
  destruct (TCPHeader.syn (TCPSegment.header front)) eqn:Hs.
  { rewrite orb_true_r in Hsyn. split; [done|]. destruct Hc as [_ Hc]. rewrite Hs in Hc. destruct Hc as (Hb & Hf & Hd).
    unfold ack_abs, TCPSegment.length_in_sequence_space. rewrite Hsyn, Hs, Hf, Hd, Hb. cbn [b2z].
    change (u64 _) with 1. destruct (_ && _); cbn [b2z]; lia. }
  assert (Hb1 : 1 ≤ base (sender l) ∧ base (sender l) - 1 + len (Buffer.str (TCPSegment.payload front)) ≤ len S).
  { destruct Hc as [_ Hc]. rewrite Hs in Hc. destruct Hc as (pre & post & HD & -> & _).
    destruct (delivered_prefix a L W l Hi) as [rest ->]. rewrite HD, !len_app. pose proof (len_nonneg pre).
    pose proof (len_nonneg post). pose proof (len_nonneg rest). lia. }
  assert (Hsr : TCPReceiver._synReceived (receiver l) = true).
  { unfold ack_abs in HK. destruct (TCPReceiver._synReceived (receiver l)); [done|lia]. }
  rewrite Hsr in Hsyn. cbn [orb] in Hsyn. split; [done|]. specialize (Hrec Hsr eq_refl). unfold Buffer.copy in Hrec.
  pose proof (accepted_bound a L W l Hi). pose proof (delivered_le _ a _ (li_sender _ _ _ _ _ _ _ _ Hi)) as Hdl.
  pose proof (len_nonneg (ByteStream.buffer (TCPSender._stream (sender l)))).
  rewrite (payload_length (ByteStreamSpec.delivered a) _ _ _ ltac:(lia) Hc Hs) in *.
  set (data := Buffer.str _) in *. set (k := index_of l) in *.
  set (k' := StreamReassembler.ack_index (TCPReceiver._reassembler r')) in *.
  destruct (reach_inv S ltac:(lia) recv_capacity _ ltac:(lia) (TCPReceiver.inv_reach _ _ _ _ Hr')) as [Hsr' _].
  destruct (ack_index_first_missing S _ Hsr') as [Hmiss _]. fold k' in Hmiss.
  pose proof (StreamReassembler.mid_base _ _ (StreamReassembler.inv_mid _ _ Hsr')) as Hbound.
  change (StreamReassembler.unass_base (TCPReceiver._reassembler r')) with k' in Hbound.
  assert (Hall : base (sender l) - 1 + len data ≤ k').
  { destruct (Z.le_gt_cases (base (sender l) - 1 + len data) k') as [?|Hlt]; [done|]. destruct Hmiss.
    destruct (chain_end _ _ _ _ _ (li_acks _ _ _ _ _ _ _ _ Hi)) as [HL HE].
    pose proof (win_next _ _ _ (li_window _ _ _ _ _ _ _ _ Hi)).
    unfold ack_abs in HK, HL, HE. rewrite Hsr in HK, HL, HE. fold k in HK, HL, HE.
    assert (0 ≤ b2z (TCPHeader.fin (TCPSegment.header front))) by (by destruct (TCPHeader.fin _)).
    apply Hrec. right. destruct (_ && (k =? len S)) eqn:E in HK, HL, HE; cbn [b2z] in *; lia. }
  unfold ack_abs. rewrite Hsyn. fold k'.
  destruct (TCPHeader.fin (TCPSegment.header front)) eqn:Hf.
  - destruct (fin_position a L W l _ front Hi Hc Hs Hf) as [Hp _]. fold data in Hp.
    rewrite (grown_fin_set _ _ _ _ Hg Hsr Hs Hf). cbn [andb b2z].
    replace (k' =? len S) with true by lia. cbn [b2z]. lia.
  - cbn [b2z]. destruct (_ && _); cbn [b2z]; lia.
Qed.

(** The timer can expire, and then the oldest outstanding segment goes out again. *)
Lemma expire a L W l front segs :
  linv a L W l → TCPSender._segments_outstanding (sender l) = front :: segs →
  ∃ l', leads l l' ∧ linv a L W l' ∧ acks l' = acks l ∧ receiver l' = receiver l ∧
    wire l' = wire l ++ [(TCPSender._next_seqno (sender l), front)] ∧
    TCPSender._segments_outstanding (sender l') = front :: segs ∧ base (sender l') = base (sender l) ∧
    TCPSender._next_seqno (sender l') = TCPSender._next_seqno (sender l).
Proof.
  intros Hi Hq. set (s := sender l).
  set (ms := u32 (TCPSender._rto s - TCPSender._time_elapsed s)).
  destruct (tick_inv a L W l ms Hi) as (l' & Hs & Hi'). exists l'.
  split; [by apply (leads_step l (Tick ms))|]. split; [done|]. cbn [step] in Hs.
  destruct (tick_spec send_capacity a s ms (li_sender _ _ _ _ _ _ _ _ Hi))
    as (s' & Ht & _ & Hn & Hf & _ & Hqq & Hout).
  fold s in Hs, Hq. rewrite Ht in Hs. cbn [mbind outcome_bind] in Hs. injection Hs as <-.
  rewrite Hq in Hout, Hqq.
  assert (Hexp : u32 (TCPSender._time_elapsed s + ms) = TCPSender._rto s).
  { destruct (li_rto _ _ _ _ _ _ _ _ Hi) as [Hr _]. fold s in Hr. unfold ms.
    rewrite <- (u32_id (TCPSender._rto s) Hr) at 2. unfold u32. rewrite Z.add_mod_idemp_r by lia. f_equal. lia. }
  rewrite Hexp, Z.leb_refl in Hout. destruct Hout as (Ho & _).
  pose proof (li_out _ _ _ _ _ _ _ _ Hi) as Hnil. fold s in Hnil. rewrite Hnil in Ho.
  cbn. unfold TCPSender.segments_out, TCPSender.next_seqno_absolute, base. cbn. rewrite Ho, Hn, Hf. done.
Qed.

(** The oldest outstanding segment may arrive again, and is then wholly
    acknowledged. *)
Lemma front_delivered a L W l front segs :
  linv a L W l → 0 < TCPReceiver.window_size (receiver l) →
  TCPSender._segments_outstanding (sender l) = front :: segs →
  ∃ r, TCPReceiver.segment_received (receiver l) front = Ok r ∧ TCPReceiver._synReceived r = true ∧
    base (sender l) + TCPSegment.length_in_sequence_space front ≤ ack_abs S r.
Proof.
  intros Hi Hw Hq. pose proof (front_fin_in_order a L W l front segs Hi Hq) as Hbare.
  destruct (front_position a L W l front segs Hi Hq) as (Hc & Hlen & Hnext & _).
  pose proof (flight_small a L W l Hi) as Hfl.
  assert (Hpeer : TCPReceiver.peer_segment S isn (receiver l) (base (sender l)) front).
  { apply (sent_peer a L W l (TCPSender._next_seqno (sender l))); try done; unfold base in *; lia. }
  destruct (segment_received_spec recv_capacity S isn ltac:(lia) ltac:(lia) Hisn (receiver l) _ front
    (li_receiver _ _ _ _ _ _ _ _ Hi) Hpeer) as (r & Hrec & Hr & Hsyn & Hiff & Hg).
  exists r. split; [done|]. by apply (front_acknowledged a L W l front segs r Hi).
Qed.

(** One retransmission, its delivery and the answer: the sender moves on. *)
Lemma retransmit a L W l front segs :
  linv a L W l → acks l = [] → 0 < TCPReceiver.window_size (receiver l) →
  TCPSender._segments_outstanding (sender l) = front :: segs →
  ∃ a' L' W' l', leads l l' ∧ linv a' L' W' l' ∧
    base (sender l) + TCPSegment.length_in_sequence_space front ≤ base (sender l').
Proof.
  intros Hi Ha Hw Hq.
  destruct (expire a L W l front segs Hi Hq) as (l1 & Hl1 & Hi1 & Ha1 & Hr1 & Hwire & Hq1 & Hb1 & Hn1).
  assert (Hlk : wire l1 !! length (wire l) = Some (TCPSender._next_seqno (sender l), front)).
  { rewrite Hwire. apply list_lookup_middle. done. }
  pose proof (front_fin_in_order a L W l1 front segs Hi1 Hq1) as Hbare.
  destruct (front_position a L W l1 front segs Hi1 Hq1) as (Hc & Hlen & Hnext & _).
  pose proof (flight_small a L W l1 Hi1) as Hfl.
  assert (Hen : enabled l1 (Deliver (length (wire l))) = true).
  { cbn [enabled]. rewrite Hlk. unfold TCPSender.next_seqno_absolute. apply andb_true_intro. split; [lia|].
    destruct (bare_fin front); cbn [negb orb]; [specialize (Hbare eq_refl); lia|done]. }
  destruct (deliver_inv a L W l1 _ Hi1 Hen) as (l2 & Hs2 & Hi2).
  destruct (front_delivered a L W l1 front segs Hi1 ltac:(by rewrite Hr1) Hq1) as (r' & Hrec & Hsr & HK).
  assert (Hl2 : l2 = l1 <| receiver := r' |>).
  { cbn [step] in Hs2. rewrite Hlk, Hrec in Hs2. by injection Hs2 as <-. }
  destruct (answer a L W l2 Hi2) as (a' & l3 & Hl3 & Hi3 & _ & _ & Hdrop).
  { subst l2. cbn. by rewrite Ha1. }
  { by subst l2. }
  rewrite Hl2 in Hdrop. cbn [upd sender receiver] in Hdrop. rewrite Hq1, Hb1 in Hdrop.
  eexists a', _, _, l3. split; [|split; [exact Hi3|]].
  - apply (leads_trans _ l1); [done|]. apply (leads_trans _ l2); [|done]. by apply (leads_step l1 (Deliver (length (wire l)))).

  - apply Hdrop. by rewrite <- Hb1.
Qed.

(** A sender with nothing outstanding. *)
Lemma idle_base a L W l :
  linv a L W l → TCPSender._segments_outstanding (sender l) = [] ↔ base (sender l) = TCPSender._next_seqno (sender l).
Proof.
  intros Hi. pose proof (TCPSender.inv_outstanding _ _ _ (li_sender _ _ _ _ _ _ _ _ Hi)) as Hl. fold (base (sender l)) in Hl.
  split; [intros Hq; by rewrite Hq in Hl|]. intros Hb. apply laid_out_le in Hl as [_ Hl].
  destruct (TCPSender._segments_outstanding _); [done|]. specialize (Hl ltac:(done)). lia.
Qed.

Lemma fin_next a L W l :
  linv a L W l → TCPSender._fin_sent (sender l) = true → TCPSender._next_seqno (sender l) = 2 + len S.
Proof.
  intros Hi Hf. rewrite (sender_next a L W l Hi), Hf, (proj1 (fin_all a L W l Hi Hf)).
  destruct (TCPSender._syn_sent _) eqn:Hs; [cbn [b2z]; lia|].
  destruct (TCPSender.inv_syn _ _ _ (li_sender _ _ _ _ _ _ _ _ Hi) Hs). congruence.
Qed.

(** Emptying the stream moves the sender on. *)
Lemma sent_all a s a' s' :
  TCPSender.inv send_capacity a s → advanced send_capacity a s a' s' →
  TCPSender._syn_sent s = true → TCPSender._fin_sent s = false →
  ByteStream.buffer (TCPSender._stream s) ≠ [] ∨ ByteStream.input_ended (TCPSender._stream s) = true →
  ByteStream.buffer (TCPSender._stream s') = [] →
  TCPSender._fin_sent s' = ByteStream.input_ended (TCPSender._stream s') →
  TCPSender._next_seqno s < TCPSender._next_seqno s'.
Proof.
  intros Hs Hadv Hsyn Hfin Hdata Hb Hfe. pose proof (adv_inv _ _ _ _ _ Hadv) as Hs'.
  rewrite (TCPSender.inv_next _ _ _ Hs), (TCPSender.inv_next _ _ _ Hs').
  rewrite Hsyn, (adv_syn _ _ _ _ _ Hadv Hsyn), Hfin, Hfe.
  pose proof (delivered_le _ a s Hs) as Hd. pose proof (delivered_le _ a' s' Hs') as Hd'.
  rewrite (adv_accepted _ _ _ _ _ Hadv), Hb, (@len_nil Z) in Hd'.
  pose proof (len_nonneg (ByteStream.buffer (TCPSender._stream s))).
  destruct Hdata as [Hne|He].
  - assert (len (ByteStream.buffer (TCPSender._stream s)) ≠ 0) by (by intros ?%len_zero_nil).
    destruct (ByteStream.input_ended _); cbn [b2z]; lia.
  - rewrite (ByteStreamSpec.sim_ended _ _ _ (TCPSender.inv_stream _ _ _ Hs')), (adv_ended _ _ _ _ _ Hadv),
      <- (ByteStreamSpec.sim_ended _ _ _ (TCPSender.inv_stream _ _ _ Hs)), He. cbn [b2z]. lia.
Qed.

(** Filling the window of an idle sender that has something to send sends it: into
    the window, or as a probe when the window is full. *)
Lemma fill_moves a L W l :
  linv a L W l → TCPSender._segments_outstanding (sender l) = [] →
  TCPSender._syn_sent (sender l) = false ∨ TCPSender._fin_sent (sender l) = false ∧
    (ByteStream.buffer (TCPSender._stream (sender l)) ≠ [] ∨
     ByteStream.input_ended (TCPSender._stream (sender l)) = true) →
  ∃ s, TCPSender.fill_window (sender l) = Ok s ∧ base s = base (sender l) ∧
    TCPSender._next_seqno (sender l) < TCPSender._next_seqno s.
Proof.
  intros Hi Hq Hwork. pose proof (proj1 (idle_base a L W l Hi) Hq) as Hb. set (s := sender l) in *.
  pose proof (li_sender _ _ _ _ _ _ _ _ Hi) as Hs. fold s in Hs. pose proof (accepted_bound a L W l Hi) as HA.
  destruct (TCPSender._syn_sent s) eqn:Hsyn.
  2:{ destruct (send_syn send_capacity a s Hs HA Hsyn) as (Hadv & Hnx & _).
      eexists. unfold TCPSender.fill_window. rewrite Hsyn. split; [done|]. split; [apply Hadv|]. rewrite Hnx. lia. }
  destruct Hwork as [?|(Hfin & Hdata)]; [done|]. destruct (li_window _ _ _ _ _ _ _ _ Hi) as [HW Hwin Hfree _ HL _ _].
  fold s in Hwin, Hfree, HL. replace (L + W - _) with W in Hfree by lia. rewrite u16_id in Hfree by lia.
  assert (Hfs : TCPSender.front_is_syn s = false) by (unfold TCPSender.front_is_syn; by rewrite Hq).
  destruct (decide (W = 0)) as [HW0|HW0].
  - rewrite HW0 in Hwin, Hfree. destruct (probe_spec send_capacity a s Hs HA Hsyn Hfin Hfree Hdata) as (a1 & s1 & Hp & Hadv & Hnx & _).
    exists s1. split; [|split; [apply Hadv|lia]]. unfold TCPSender.fill_window. rewrite Hsyn, Hfs, Hfin, Hwin, Hfree.
    cbn [negb]. change (0 =? 0) with true. cbn [negb]. replace (_ && negb _) with false; [exact Hp|].
    symmetry. unfold ByteStream.eof, ByteStream.buffer_empty, ByteStream.buffer_size.
    destruct (len _ =? 0) eqn:E; [|done]. apply Z.eqb_eq, len_zero_nil in E. destruct Hdata as [?|He]; [done|].
    unfold ByteStream.input_ended in He. by rewrite He.
  - destruct (fill_window_room send_capacity a s Hs HA Hsyn Hfs Hfin) as (a1 & s1 & Hf & Hadv & Hsum & Hfr & Hend); [lia|].
    exists s1. split; [done|]. split; [apply Hadv|].
    destruct Hend as [?|[Hb' Hfe]]; [lia|]. by apply (sent_all a s a1 s1).
Qed.

Lemma fill_progress a L W l :
  linv a L W l → TCPSender._segments_outstanding (sender l) = [] →
  TCPSender._syn_sent (sender l) = false ∨ TCPSender._fin_sent (sender l) = false ∧
    (ByteStream.buffer (TCPSender._stream (sender l)) ≠ [] ∨
     ByteStream.input_ended (TCPSender._stream (sender l)) = true) →
  ∃ a' l', leads l l' ∧ linv a' L W l' ∧ base (sender l') = base (sender l) ∧
    TCPSender._segments_outstanding (sender l') ≠ [].
Proof.
  intros Hi Hq Hwork. destruct (fill_inv a L W l Hi) as (a' & l' & Hst & Hi'). exists a', l'.
  split; [by apply (leads_step l Fill)|]. split; [done|]. cbn [step] in Hst.
  destruct (fill_moves a L W l Hi Hq Hwork) as (s1 & Hf & Hb & Hn).
  rewrite Hf in Hst. cbn [mbind outcome_bind] in Hst. injection Hst as <-.
  split; [done|]. intros Hnil. apply (idle_base a' L W _ Hi') in Hnil. cbn in Hnil.
  apply (idle_base a L W l Hi) in Hq. unfold base in *. cbn in Hnil. lia.
Qed.

(** The application has something to send, or has ended its stream. *)
Lemma feed a L W l :
  linv a L W l → ∃ a' l', leads l l' ∧ linv a' L W l' ∧
    (∃ st, sender l' = (sender l) <| TCPSender._stream := st |>) ∧
    (ByteStream.buffer (TCPSender._stream (sender l')) ≠ [] ∨
     ByteStream.input_ended (TCPSender._stream (sender l')) = true).
Proof.
  intros Hi. destruct (write_inv a L W l (length (todo l)) Hi) as (a1 & l1 & st & Hs1 & Hi1 & He1 & Hb1).
  specialize (Hb1 ltac:(lia)).
  destruct (end_input_inv a1 L W l1 Hi1) as (a2 & l2 & Hs2 & Hi2 & He2).
  exists a2, l2. split; [|split; [done|]].
  { apply (leads_trans _ l1); [by eapply (leads_step l (Write _)), Hs1|by apply (leads_step l1 EndInput)]. }
  rewrite He2, He1. destruct (todo l1) as [|c k]; [split; [by eexists|by right]|].
  split; [by eexists|]. left. by destruct Hb1 as [[_ ?]|?].
Qed.

(** Everything has been sent and acknowledged. *)
Definition finished (l : t) : Prop :=
  TCPSender._fin_sent (sender l) = true ∧ TCPSender._segments_outstanding (sender l) = [].

(** How much is left to do: the numbers not yet acknowledged, and whether the
    sender is idle. *)
Definition left_over (l : t) : Z :=
  2 * (2 + len S - base (sender l)) + b2z (bool_decide (TCPSender._segments_outstanding (sender l) = [])).

Lemma left_over_nonneg a L W l : linv a L W l → 0 ≤ left_over l.
Proof.
  intros Hi. pose proof (sender_next a L W l Hi) as Hn. destruct (delivered_prefix a L W l Hi) as [rest HS'].
  assert (len S = len (ByteStreamSpec.delivered a) + len rest) by (by rewrite <- len_app, <- HS').
  pose proof (len_nonneg rest). pose proof (TCPSender.inv_flight _ _ _ (li_sender _ _ _ _ _ _ _ _ Hi)).
  assert (base (sender l) ≤ 2 + len S).
  { unfold base. destruct (TCPSender._syn_sent _), (TCPSender._fin_sent _); cbn [b2z] in *; lia. }
  unfold left_over. destruct (bool_decide _); cbn [b2z]; lia.
Qed.

Lemma left_over_base l l' : base (sender l) < base (sender l') → left_over l' < left_over l.
Proof. unfold left_over, b2z. intros ?. case_tests; lia. Qed.

Lemma left_over_busy l l' :
  base (sender l) ≤ base (sender l') → TCPSender._segments_outstanding (sender l) = [] →
  TCPSender._segments_outstanding (sender l') ≠ [] → left_over l' < left_over l.
Proof.
  unfold left_over. intros ? Hq Hq'. rewrite bool_decide_eq_false_2, bool_decide_eq_true_2 by done.
  cbn [b2z]. lia.
Qed.

(** An idle sender that is not finished can be given something to do. *)
Lemma rouse a L W l :
  linv a L W l → TCPSender._segments_outstanding (sender l) = [] → TCPSender._fin_sent (sender l) = false →
  ∃ a' l', leads l l' ∧ linv a' L W l' ∧ left_over l' < left_over l.
Proof.
  intros Hi Hq Hfin. destruct (feed a L W l Hi) as (a1 & l1 & Hl1 & Hi1 & [st Hst] & Hdata).
  destruct (fill_progress a1 L W l1 Hi1) as (a2 & l2 & Hl2 & Hi2 & Hb2 & Hq2); [by rewrite Hst| |].
  - right. split; [by rewrite Hst|done].
  - exists a2, l2. split; [by apply (leads_trans _ l1)|]. split; [done|]. apply left_over_busy; try done.
    rewrite Hb2, Hst. change (base (upd _ _ _)) with (base (sender l)). lia.
Qed.

(** Whatever has happened so far, the network and the applications can make the
    link get closer to its end. *)
Lemma round a L W l :
  linv a L W l → ¬ finished l →
  ∃ a' L' W' l', leads l l' ∧ linv a' L' W' l' ∧ left_over l' < left_over l.
Proof.
  intros Hi Hnf. destruct (quiet a L W l Hi) as (l1 & Hl1 & Hi1 & Ha1 & Hs1 & Hw1).
  assert (Hgo : ∃ a' L' W' l', leads l1 l' ∧ linv a' L' W' l' ∧ left_over l' < left_over l1).
  { destruct (TCPSender._segments_outstanding (sender l1)) as [|front segs] eqn:Hq.
    - destruct (TCPSender._fin_sent (sender l1)) eqn:Hf; [destruct Hnf; by rewrite Hs1 in *|].
      destruct (rouse a L W l1 Hi1 Hq Hf) as (a2 & l2 & Hl2 & Hi2 & Hlt). by exists a2, L, W, l2.
    - destruct (retransmit a L W l1 front segs Hi1 Ha1 ltac:(lia) Hq) as (a2 & L2 & W2 & l2 & Hl2 & Hi2 & Hb2).
      destruct (front_position a L W l1 front segs Hi1 Hq) as (_ & ? & _).
      exists a2, L2, W2, l2. split; [done|]. split; [done|]. apply left_over_base. lia. }
  destruct Hgo as (a2 & L2 & W2 & l2 & Hl2 & Hi2 & Hlt). exists a2, L2, W2, l2.
  split; [by apply (leads_trans _ l1)|]. split; [done|]. unfold left_over in *. by rewrite Hs1 in Hlt.
Qed.

Lemma link_finishes a L W l :
  linv a L W l → ∃ a' L' W' l', leads l l' ∧ linv a' L' W' l' ∧ finished l'.
Proof.
  remember (Z.to_nat (left_over l)) as n eqn:Hn. revert a L W l Hn.
  induction n as [n IH] using lt_wf_ind. intros a L W l -> Hi.
  destruct (decide (TCPSender._fin_sent (sender l) = true ∧ TCPSender._segments_outstanding (sender l) = [])).
  { exists a, L, W, l. split; [apply leads_refl|done]. }
  destruct (round a L W l Hi) as (a1 & L1 & W1 & l1 & Hl1 & Hi1 & Hlt); [done|].
  pose proof (left_over_nonneg a1 L1 W1 l1 Hi1).
  destruct (IH (Z.to_nat (left_over l1)) ltac:(lia) a1 L1 W1 l1 eq_refl Hi1) as (a2 & L2 & W2 & l2 & Hl2 & Hi2 & Hf).
  exists a2, L2, W2, l2. split; [by apply (leads_trans _ l1)|done].
Qed.

(** What it means to be finished. *)
Lemma finished_all a L W l :
  linv a L W l → finished l →
  todo l = [] ∧ StreamReassembler.ack_index (TCPReceiver._reassembler (receiver l)) = len S ∧
  ByteStream.input_ended (TCPReceiver.stream_out (receiver l)) = true ∧
  TCPSender._fin_sent (sender l) = true ∧ TCPSender.bytes_in_flight (sender l) = 0.
Proof.
  intros Hi [Hf Hq]. destruct (fin_all a L W l Hi Hf) as [_ Ht]. split; [done|].
  apply (idle_base a L W l Hi) in Hq. pose proof (fin_next a L W l Hi Hf) as Hn.
  destruct (receiver_index a L W l Hi) as (_ & Hk & _). destruct (chain_end _ _ _ _ _ (li_acks _ _ _ _ _ _ _ _ Hi)) as [HL _].
  pose proof (win_base _ _ _ (li_window _ _ _ _ _ _ _ _ Hi)) as Hb.
  rewrite (input_ended_spec recv_capacity S isn ltac:(lia) ltac:(lia) _ (li_receiver _ _ _ _ _ _ _ _ Hi)).
  unfold ack_abs in HL. pose proof (len_nonneg S). destruct (TCPReceiver._synReceived _); [|lia].
  destruct (_ && (_ =? len S)) eqn:E; cbn [b2z] in HL; [|lia].
  split; [lia|]. split; [done|]. split; [done|]. unfold TCPSender.bytes_in_flight, base in *. lia.
Qed.

End linking.

(** ** Properties *)

Section link_properties.
Import Link.
Context (send_capacity recv_capacity retx_timeout : Z) (isn : WrappingInt32) (S : bytes).

(** The parameters a link works with: the window fits the 16 bits of the header,
    and the stream is too short for its numbers to be ambiguous. *)
Definition link_ok : Prop :=
  0 < send_capacity < 2 ^ 31 ∧ 0 < recv_capacity < 2 ^ 16 ∧ 0 ≤ retx_timeout < 2 ^ 32 ∧
  seq_ok isn ∧ len S < 2 ^ 61.

(** C12: end-to-end safety.  However the network, within what it promises ([enabled]:
    it holds back no segment while the sender moves on by 2^30 numbers, it lets no
    segment that is a bare FIN overtake the last byte, and it keeps acknowledgments in
    order), loses, repeats, delays and reorders segments and loses acknowledgments,
    what the receiver has written to its output is a prefix of what the application
    sends, and the output is closed only when that is everything; the sender has
    dropped only numbers that the receiver acknowledges by now; and it has sent no
    number beyond the receiver's window, but for the one at the right edge of an empty
    window. *)
Theorem link_delivers_in_order (l : t) :
  link_ok → reach send_capacity recv_capacity retx_timeout isn S l →
  let r := receiver l in
  let k := StreamReassembler.ack_index (TCPReceiver._reassembler r) in
  let acked := if TCPReceiver._synReceived r
    then 1 + k + b2z (ByteStream.input_ended (TCPReceiver.stream_out r)) else 0 in
  (∃ a, ByteStreamSpec.sim recv_capacity (TCPReceiver.stream_out r) a ∧
        ByteStreamSpec.accepted a = take (Z.to_nat k) S) ∧
  (ByteStream.input_ended (TCPReceiver.stream_out r) = true → k = len S ∧ todo l = []) ∧
  base (sender l) ≤ acked ∧ TCPSender._next_seqno (sender l) ≤ acked + Z.max 1 (TCPReceiver.window_size r).
Proof.
  intros (Hsc & Hrc & Hrto & Hisn & HS) Hreach.
  destruct (link_reach_inv _ _ _ _ _ Hsc Hrc Hrto Hisn HS l Hreach) as (a & L & W & Hi).
  by apply (link_in_order send_capacity recv_capacity isn S Hrc HS a L W).
Qed.

(** No step gets stuck.  In every state of the link, every call the owner, the
    timer or the network makes returns, at both ends, and leads to another such
    state. *)
Theorem link_never_stuck (l : t) (e : event) :
  link_ok → reach send_capacity recv_capacity retx_timeout isn S l → enabled l e = true →
  ∃ l', step l e = Ok l' ∧ reach send_capacity recv_capacity retx_timeout isn S l'.
Proof.
  intros (Hsc & Hrc & Hrto & Hisn & HS) Hreach He.
  destruct (link_reach_inv _ _ _ _ _ Hsc Hrc Hrto Hisn HS l Hreach) as (a & L & W & Hi).
  destruct (step_inv _ _ _ _ Hsc Hrc Hisn HS a L W l e Hi He) as (_ & _ & _ & l' & Hs & _).
  exists l'. split; [done|]. by apply (reach_step _ _ _ _ _ l e).
Qed.

(** C40: end-to-end liveness of a link.  From every state that the link gets into while
    the network keeps its promises ([enabled]: it holds back no segment while the sender
    moves on by 2^30 numbers, it lets no bare FIN overtake the last byte, and it keeps
    acknowledgments in order), whatever was lost, repeated, delayed or reordered so far,
    some further run, in which the network keeps them too, delivers the whole stream:
    the receiver has written all of it and closed its output, and the sender has had
    everything, the FIN included, acknowledged.  There is no deadlock, of the window or
    of the timer. *)
Theorem link_can_finish (l : t) :
  link_ok → reach send_capacity recv_capacity retx_timeout isn S l →
  ∃ es l', run l es = Some l' ∧ todo l' = [] ∧
    StreamReassembler.ack_index (TCPReceiver._reassembler (receiver l')) = len S ∧
    ByteStream.input_ended (TCPReceiver.stream_out (receiver l')) = true ∧
    TCPSender._fin_sent (sender l') = true ∧ TCPSender.bytes_in_flight (sender l') = 0.
Proof.
  intros (Hsc & Hrc & Hrto & Hisn & HS) Hreach.
  destruct (link_reach_inv _ _ _ _ _ Hsc Hrc Hrto Hisn HS l Hreach) as (a0 & L0 & W0 & Hi0).
  destruct (link_finishes _ _ _ _ Hsc Hrc Hisn HS a0 L0 W0 l Hi0) as (a & L & W & l' & [es Hrun] & Hi & Hf).
  exists es, l'. split; [done|]. by eapply finished_all; [..|exact Hi|].
Qed.

End link_properties.

Section link_examples.
Import Link.

Lemma link_run_reach sc rc rto isn S es l l' :
  reach sc rc rto isn S l → run l es = Some l' → reach sc rc rto isn S l'.
Proof.
  revert l. induction es as [|e es IH]; intros l Hr; cbn [run]; [by intros [= ->]|].
  destruct (enabled l e) eqn:He; [|done]. destruct (step l e) as [l1| | |] eqn:Hs; try done.
  apply IH. by apply (reach_step _ _ _ _ _ l e).
Qed.

(** Five bytes over a window of two, from an initial sequence number next to the
    wrap-around: the first copy of the first data segment is lost. *)
Definition five : t := make 10 2 1000 (mkWrappingInt32 4294967294) [1; 2; 3; 4; 5].

Definition five_run : list event :=
  [Fill; Deliver 0; Acknowledge; DeliverAck; Write 5; EndInput; Fill; Tick 1000; Deliver 2;
   Acknowledge; Read 1; Acknowledge; LoseAck 0; DeliverAck].

Definition five_later : t := Eval vm_compute in default five (run five five_run).

Lemma five_ok : link_ok 10 2 1000 (mkWrappingInt32 4294967294) [1; 2; 3; 4; 5].
Proof. unfold link_ok, seq_ok, len. simpl. lia. Qed.

Lemma five_later_reach : reach 10 2 1000 (mkWrappingInt32 4294967294) [1; 2; 3; 4; 5] five_later.
Proof. apply (link_run_reach _ _ _ _ _ five_run five); [apply reach_make|vm_compute; reflexivity]. Qed.

Lemma link_delivers_in_order_witness :
  (∃ a, ByteStreamSpec.sim 2 (TCPReceiver.stream_out (receiver five_later)) a ∧
        ByteStreamSpec.accepted a = [1; 2]) ∧
  (ByteStream.input_ended (TCPReceiver.stream_out (receiver five_later)) = true → 2 = 5 ∧ todo five_later = []) ∧
  base (sender five_later) ≤ 3 ∧ TCPSender._next_seqno (sender five_later) ≤ 3 + Z.max 1 1.
Proof. apply (link_delivers_in_order _ _ _ _ _ five_later five_ok five_later_reach). Defined.

Lemma link_never_stuck_witness :
  ∃ l', step five_later (Deliver 1) = Ok l' ∧ reach 10 2 1000 (mkWrappingInt32 4294967294) [1; 2; 3; 4; 5] l'.
Proof.
  apply (link_never_stuck _ _ _ _ _ five_later (Deliver 1) five_ok five_later_reach). vm_compute. reflexivity.
Defined.

Lemma link_can_finish_witness :
  ∃ es l', run five_later es = Some l' ∧ todo l' = [] ∧
    StreamReassembler.ack_index (TCPReceiver._reassembler (receiver l')) = 5 ∧
    ByteStream.input_ended (TCPReceiver.stream_out (receiver l')) = true ∧
    TCPSender._fin_sent (sender l') = true ∧ TCPSender.bytes_in_flight (sender l') = 0.
Proof. apply (link_can_finish _ _ _ _ _ five_later five_ok five_later_reach). Defined.

(** A run on a network that keeps no promise. *)
Fixpoint play (l : t) (es : list event) : outcome t :=
  match es with [] => Ok l | e :: es => l ← step l e; play l es end.

Definition overtaken : outcome t :=
  play (make 10 4 1000 (mkWrappingInt32 0) [7])
    [Fill; Deliver 0; Acknowledge; DeliverAck; Write 1; Fill; EndInput; Fill; Deliver 2; Acknowledge; DeliverAck].

(** A FIN that overtakes the last data segment loses data.  The application
    sends one byte and ends its stream; the byte's segment is lost and the bare
    FIN behind it arrives.  The receiver closes its output with nothing in it and
    acknowledges number 2, so the sender drops the segment with the byte: no copy
    of it is outstanding any more, and the reader has been told the stream is
    complete. *)
Theorem overtaking_fin_loses_data :
  ∃ l, overtaken = Ok l ∧ todo l = [] ∧
    ByteStream.input_ended (TCPReceiver.stream_out (receiver l)) = true ∧
    ByteStream.bytes_written (TCPReceiver.stream_out (receiver l)) = 0 ∧
    ByteStream.buffer (TCPReceiver.stream_out (receiver l)) = [] ∧
    TCPReceiver.ackno (receiver l) = Some (mkWrappingInt32 2) ∧
    Forall (λ seg, Buffer.str (TCPSegment.payload seg) = []) (TCPSender._segments_outstanding (sender l)).
Proof.
  eexists. split; [vm_compute; reflexivity|]. split_and!; try (vm_compute; reflexivity).
  vm_compute. by repeat constructor.
Qed.

End link_examples.
