(* ===== verification/tcp_duplex.v ===== *)
(** * Two connections over an unreliable network

    Two [TCPConnection]s that talk to each other, the way [libsponge/tcp_connection.cc]
    has them do it: each segment carries data of one direction and the
    acknowledgment of the other.  The network may lose any segment and delivers the
    others in order.  Each of the two directions is a link of [tcp_link.v]: what the
    theorems there say of a sender and a receiver holds of the two connections. *)

From S2P Require Import prelude byte_stream wrapping_integers stream_reassembler buffer parser tcp_segment tcp_receiver tcp_sender tcp_state tcp_connection tcp_link.

Module Duplex.

(** One end: what its application has still to write, the connection, and the
    segments it has sent that are still under way, oldest first, each with the
    number its sender had reached when the call began that sent it. *)
Record endpoint := mkEnd {
  todo : bytes;
  conn : TCPConnection.t;
  wire : list (Z * TCPSegment.t)
}.

#[global] Instance eta_endpoint : Eta endpoint := λ e, mkEnd (todo e) (conn e) (wire e).

(** An end that is about to act, and its peer. *)
Definition t : Type := endpoint * endpoint.

Definition make_end (cfg : TCPConfig.t) (random : Z) (S : bytes) : endpoint :=
  mkEnd S (TCPConnection.make cfg random) [].

(** What the owner, the timer and the network do to one end. *)
Inductive event :=
| Connect
| Write (n : nat)          (* the application writes its next [n] bytes *)
| EndInput                 (* the application has written everything *)
| Tick (ms : Z)
| Read (n : nat)
| Deliver                  (* the oldest segment of the peer arrives *)
| Lose (i : nat).          (* segment [i] of this end gets lost *)

(** The connection after a call; what it queued goes out. *)
Definition flush (e : endpoint) (c : TCPConnection.t) : endpoint :=
  let n := TCPSender.next_seqno_absolute (TCPConnection._sender (conn e)) in
  e <| conn := c <| TCPConnection._segments_out := [] |> |>
    <| wire ::= λ w, w ++ map (pair n) (TCPConnection.segments_out c) |>.

Definition act (d : t) (e : event) : outcome t :=
  let '(self, peer) := d in
  match e with
  | Connect => c ← TCPConnection.connect (conn self); Ok (flush self c, peer)
  | Write n =>
    '(c, m) ← TCPConnection.write (conn self) (take n (todo self));
    Ok ((flush self c) <| todo ::= drop (Z.to_nat m) |>, peer)
  | EndInput =>
    match todo self with
    | [] => c ← TCPConnection.end_input_stream (conn self); Ok (flush self c, peer)
    | _ => Ok d
    end
  | Tick ms => c ← TCPConnection.tick (conn self) ms; Ok (flush self c, peer)
  | Read n =>
    let read o := (ByteStream.read o (Z.min (Z.of_nat n) (ByteStream.buffer_size o))).1 in
    Ok (self <| conn ::= λ c, c <| TCPConnection._receiver ::= λ r,
          r <| TCPReceiver._reassembler ::= λ s, s <| StreamReassembler._output ::= read |> |> |> |>, peer)
  | Deliver =>
    match wire peer with
    | [] => Ok d
    | (_, seg) :: rest =>
      c ← TCPConnection.segment_received (conn self) seg;
      Ok (flush self c, peer <| wire := rest |>)
    end
  | Lose i => Ok (self <| wire ::= delete i |>, peer)
  end.

(** What the network promises, as for a link: no segment is held back while its
    sender moves on by 2^30 numbers, and no bare FIN overtakes the last byte.  And the
    run is one in which no connection gives up: few enough retransmissions. *)
Definition enabled (d : t) (e : event) : bool :=
  let '(self, peer) := d in
  match e with
  | Deliver =>
    match wire peer with
    | [] => true
    | (n, seg) :: _ =>
      let next := TCPSender.next_seqno_absolute (TCPConnection._sender (conn peer)) in
      (next <=? n + 2 ^ 30) &&
      (negb (Link.bare_fin seg) ||
       (StreamReassembler.ack_index (TCPReceiver._reassembler (TCPConnection._receiver (conn self))) + 2 =? next))
    end
  | Tick ms =>
    match TCPSender.tick (TCPConnection._sender (conn self)) ms with
    | Ok s => TCPSender.consecutive_retransmissions s <=? TCPConfig.MAX_RETX_ATTEMPTS
    | _ => true
    end
  | _ => true
  end.

Definition swap (d : t) : t := (d.2, d.1).

(** Either end acts. *)
Definition step (d : t) (first : bool) (e : event) : outcome t :=
  if first then act d e else d ← act (swap d) e; Ok (swap d).

Definition step_enabled (d : t) (first : bool) (e : event) : bool := enabled (if first then d else swap d) e.

(** The states that two connections get into, whose applications send [S1] and
    [S2]. *)
Inductive reach (cfg1 cfg2 : TCPConfig.t) (random1 random2 : Z) (S1 S2 : bytes) : t → Prop :=
| reach_make : reach cfg1 cfg2 random1 random2 S1 S2 (make_end cfg1 random1 S1, make_end cfg2 random2 S2)
| reach_step d first e d' :
    reach cfg1 cfg2 random1 random2 S1 S2 d → step_enabled d first e = true → step d first e = Ok d' →
    reach cfg1 cfg2 random1 random2 S1 S2 d'.

End Duplex.

(** ** What a connection leaves to its halves *)

(** An empty push changes nothing. *)
Lemma push_empty S s index :
  StreamReassembler.inv S s → 0 ≤ index < 2 ^ 64 → StreamReassembler.push_substring s [] index false = Ok s.
Proof.
  intros Hi Hx. pose proof (StreamReassembler.inv_front _ _ Hi) as Hfront.
  pose proof (StreamReassembler.inv_ended _ _ Hi) as Hend. clear Hi.
  destruct s as [base size eof buf [|b bm] o cap]; cbn in Hfront; [done|]. injection Hfront as ->. cbn in Hend.
  assert (Hclose : eof && (size =? 0) = true → ByteStream.end_input o = o)
    by (intros E; rewrite E in Hend; destruct o; cbn in *; by subst).
  assert (Hfin : StreamReassembler.finish (StreamReassembler.mk base size eof buf (false :: bm) o cap) =
    Ok (StreamReassembler.mk base size eof buf (false :: bm) o cap)).
  { unfold StreamReassembler.finish, StreamReassembler.check_contiguous. cbn -[ByteStream.end_input len].
    change (len []) with 0. cbn -[ByteStream.end_input].
    destruct (eof && _) eqn:E; [by rewrite Hclose|done]. }
  unfold StreamReassembler.push_substring. rewrite (@len_nil Z). cbn -[StreamReassembler.finish ByteStream.end_input u64 s32 Z.min].
  destruct (eof && _) eqn:E; [by rewrite Hclose|]. destruct (index >=? u64 _); [done|].
  destruct (index >=? base) eqn:E1.
  - match goal with |- context [Z.min 0 (u64 ?x)] => pose proof (u64_bound x); replace (Z.min 0 (u64 x)) with 0 by lia end.
    exact Hfin.
  - rewrite Z.add_0_r, u64_id by done. by replace (_ >? _) with false by lia.
Qed.

(** A segment without SYN, FIN or payload changes nothing in a receiver. *)
Definition bare_segment (seg : TCPSegment.t) : Prop :=
  TCPHeader.syn (TCPSegment.header seg) = false ∧ TCPHeader.fin (TCPSegment.header seg) = false ∧
  Buffer.str (TCPSegment.payload seg) = [].

Lemma receive_bare capacity S isn r seg :
  0 < capacity < 2 ^ 31 → len S < 2 ^ 61 → TCPReceiver.inv capacity S isn r → bare_segment seg →
  TCPReceiver.segment_received r seg = Ok r.
Proof.
  intros Hcap HS Hr (Hsyn & Hfin & Hpl). unfold TCPReceiver.segment_received, Buffer.copy. rewrite Hsyn, Hfin, Hpl.
  destruct (TCPReceiver._synReceived r) eqn:Es; [|done]. cbn -[StreamReassembler.push_substring unwrap u64].
  destruct (reach_inv S ltac:(lia) capacity _ Hcap (TCPReceiver.inv_reach _ _ _ _ Hr)) as [Hi _].
  pose proof (StreamReassembler.mid_base _ _ (StreamReassembler.inv_mid _ _ Hi)).
  destruct (unwrap_spec (TCPHeader.seqno (TCPSegment.header seg)) (TCPReceiver._isn r)
    (StreamReassembler.ack_index (TCPReceiver._reassembler r))) as (abs & -> & _); [unfold StreamReassembler.ack_index; lia|].
  cbn [mbind outcome_bind]. rewrite (push_empty S) by (done || apply u64_bound). by destruct r.
Qed.

(** The segments a sender makes have neither ACK nor RST; the connection puts the
    acknowledgment in. *)
Definition plain (seg : TCPSegment.t) : Prop :=
  TCPHeader.ack (TCPSegment.header seg) = false ∧ TCPHeader.rst (TCPSegment.header seg) = false.

Section plain_senders.
Import TCPSender.
Implicit Types (s : t).

Definition plainly s : Prop := Forall plain (_segments_outstanding s) ∧ Forall plain (_segments_out s).

Lemma send_plain s seg : plain seg → plainly s → plainly (_send_segment s seg).
Proof.
  intros Hp [H1 H2].
  assert (H : plainly ((s <| _segments_out ::= λ q, q ++ [seg <| TCPSegment.header ::= λ h,
      h <| TCPHeader.seqno := wrap (_next_seqno s) (_isn s) |> |>] |>)
    <| _segments_outstanding ::= λ q, q ++ [seg <| TCPSegment.header ::= λ h,
      h <| TCPHeader.seqno := wrap (_next_seqno s) (_isn s) |> |>] |>)).
  { split; cbn; apply Forall_app; (split; [done|]); apply Forall_singleton; exact Hp. }
  unfold _send_segment. cbv zeta. destruct (negb _); destruct (_syn_sent _); exact H.
Qed.

Lemma fill_loop_plain fuel s s' : plainly s → fill_loop fuel s = Ok s' → plainly s'.
Proof.
  revert s. induction fuel as [|fuel IH]; intros s Hs; cbn [fill_loop]; [done|].
  destruct (negb _); [|by intros [= <-]]. destruct (ByteStream.read _ _) as [st data].
  match goal with |- context [if ?b then _ else _] => destruct b end;
    destruct (ByteStream.buffer_empty _);
    [intros [= <-]|intros H; eapply IH, H|intros [= <-]|intros H; eapply IH, H]; by apply send_plain.
Qed.

Lemma fill_plain s s' : plainly s → fill_window s = Ok s' → plainly s'.
Proof.
  intros Hs. unfold fill_window. case_tests; try (intros [= <-]; by (done || apply send_plain));
    [by apply fill_loop_plain|]. destruct (ByteStream.read _ _) as [st data]. intros [= <-]. by apply send_plain.
Qed.

Lemma ack_loop_plain q abs s s' :
  Forall plain q → plainly s → ack_loop q abs s = Ok s' → plainly s'.
Proof.
  intros Hq. revert s. induction Hq as [|seg q Hp Hq IH]; intros s Hs; cbn [ack_loop]; [by intros [= <-]|].
  intros (seqno & _ & H)%bind_Ok. destruct (_ <=? abs); [|by injection H as <-].
  eapply IH; [|exact H]. by split; [|apply Hs].
Qed.

Lemma ack_plain s ackno w s' : plainly s → ack_received s ackno w = Ok s' → plainly s'.
Proof.
  intros Hs. unfold ack_received. intros (abs & _ & H)%bind_Ok. apply bind_Ok in H as (valid & _ & H).
  destruct valid; [|by injection H as <-]. cbn [negb] in H. cbv zeta in H.
  apply bind_Ok in H as (s1 & H1 & H). assert (Hs1 : plainly s1) by (eapply ack_loop_plain, H1; [apply Hs|done]).
  apply bind_Ok in H as (s2 & H2 & H).
  assert (Hs2 : plainly s2).
  { destruct (_segments_outstanding s1); [by injection H2 as <-|]. apply bind_Ok in H2 as (front & _ & H2).
    by injection H2 as <-. }
  eapply fill_plain, H. by destruct (_ =? 0).
Qed.

Lemma tick_plain s ms s' : plainly s → tick s ms = Ok s' → plainly s'.
Proof.
  intros [H1 H2]. unfold tick. destruct (negb _); [by intros [= <-]|]. cbv zeta. destruct (_ >=? _); [|by intros [= <-]].
  cbn [_segments_outstanding upd eta]. destruct (_segments_outstanding s) as [|front q] eqn:Eq; [done|].
  cbn [head or_UB mbind outcome_bind]. intros [= <-]. unfold plainly.
  destruct (_ || _); cbn; rewrite ?Eq; (split; [done|]); apply Forall_app; (split; [done|]); apply Forall_singleton;
    by apply Forall_inv in H1.
Qed.

End plain_senders.

(** A segment with the acknowledgment filled in. *)
Definition stamped (seg0 seg : TCPSegment.t) : Prop :=
  ∃ ack ackno win, seg = seg0 <| TCPSegment.header ::= λ h,
    h <| TCPHeader.ack := ack |> <| TCPHeader.ackno := ackno |> <| TCPHeader.win := win |> |>.

Lemma set_ack_stamped c seg : stamped seg (TCPConnection.set_ack_and_windowsize c seg).
Proof.
  unfold TCPConnection.set_ack_and_windowsize. destruct (TCPReceiver.ackno _); [by eexists _, _, _|].
  destruct seg as [[] p]. by eexists _, _, _.
Qed.

(** The receiver and the network do not see the difference. *)
Lemma stamped_same seg0 seg r :
  stamped seg0 seg → TCPReceiver.segment_received r seg = TCPReceiver.segment_received r seg0 ∧
  TCPSegment.length_in_sequence_space seg = TCPSegment.length_in_sequence_space seg0 ∧
  Link.bare_fin seg = Link.bare_fin seg0 ∧
  TCPHeader.rst (TCPSegment.header seg) = TCPHeader.rst (TCPSegment.header seg0).
Proof. intros (a & k & w & ->). by destruct seg0 as [[] p]. Qed.

(** The acknowledgment a segment carries. *)
Definition ack_of (x : Z * TCPSegment.t) : option (WrappingInt32 * Z) :=
  let h := TCPSegment.header x.2 in
  if TCPHeader.ack h then Some (TCPHeader.ackno h, TCPHeader.win h) else None.

(** What is on its way from one end to the other: segments that the link from the
    one to the other has on its wire, sent no earlier than it says, or bare ones. *)
Definition matches (l : Link.t) (x : Z * TCPSegment.t) : Prop :=
  TCPHeader.rst (TCPSegment.header x.2) = false ∧
  (bare_segment x.2 ∨ ∃ n seg0, (n, seg0) ∈ Link.wire l ∧ x.1 ≤ n ∧ stamped seg0 x.2).

(** ** The simulation *)

(** Connections [c1] and [c2], whose applications have [t1] and [t2] still to
    write, with [o1] and [o2] under way from each, and the links of the two
    directions: each link has the sender of the one end and the receiver of the
    other, and the acknowledgments of a link are those the segments of the other
    direction carry. *)
Record sim (c1 c2 : TCPConnection.t) (t1 t2 : bytes) (o1 o2 : list (Z * TCPSegment.t)) (l12 l21 : Link.t) : Prop := {
  sim_sender1 : Link.sender l12 = TCPConnection._sender c1;
  sim_sender2 : Link.sender l21 = TCPConnection._sender c2;
  sim_receiver1 : Link.receiver l21 = TCPConnection._receiver c1;
  sim_receiver2 : Link.receiver l12 = TCPConnection._receiver c2;
  sim_todo1 : Link.todo l12 = t1;
  sim_todo2 : Link.todo l21 = t2;
  sim_wire1 : Forall (matches l12) o1;
  sim_wire2 : Forall (matches l21) o2;
  sim_acks1 : Link.acks l21 = omap ack_of o1;
  sim_acks2 : Link.acks l12 = omap ack_of o2;
  sim_plain1 : plainly (TCPConnection._sender c1);
  sim_plain2 : plainly (TCPConnection._sender c2)
}.

Lemma sim_swap c1 c2 t1 t2 o1 o2 l12 l21 : sim c1 c2 t1 t2 o1 o2 l12 l21 → sim c2 c1 t2 t1 o2 o1 l21 l12.
Proof. by intros []. Qed.


(** What a receiver has to say. *)
Definition said (r : TCPReceiver.t) : option (WrappingInt32 * Z) :=
  (λ ackno, (ackno, u16 (TCPReceiver.window_size r))) <$> TCPReceiver.ackno r.

Lemma ack_of_stamp c m seg :
  plain seg → ack_of (m, TCPConnection.set_ack_and_windowsize c seg) = said (TCPConnection._receiver c).
Proof.
  intros [Ha _]. unfold said, ack_of, TCPConnection.set_ack_and_windowsize.
  destruct (TCPReceiver.ackno _); cbn; [done|]. by rewrite Ha.
Qed.

Lemma stamp_rst c seg :
  plain seg → TCPHeader.rst (TCPSegment.header (TCPConnection.set_ack_and_windowsize c seg)) = false.
Proof. intros [_ Hr]. by rewrite (proj2 (proj2 (proj2 (stamped_same _ _ (TCPConnection._receiver c) (set_ack_stamped c seg))))). Qed.

(** Saying it once for each segment sent. *)
Lemma leads_said {A} (segs : list A) l :
  leads l (l <| Link.acks ::= λ q, q ++ omap (λ _, said (Link.receiver l)) segs |>).
Proof.
  assert (Hone : ∀ l, Link.step l Link.Acknowledge =
    Ok (l <| Link.acks ::= λ q, q ++ option_list (said (Link.receiver l)) |>)).
  { intros [t s w r q]. unfold said. cbn. destruct (TCPReceiver.ackno r); cbn; [done|]. by rewrite app_nil_r. }
  revert l. induction segs as [|x segs IH]; intros l.
  { destruct l as [t s w r q]. cbn. rewrite app_nil_r. apply leads_refl. }
  eapply leads_trans; [eapply (leads_step _ Link.Acknowledge); [done|apply Hone]|]. destruct l as [t s w r q].
  specialize (IH (Link.mk t s w r (q ++ option_list (said r)))). cbn in *. rewrite <- app_assoc in IH.
  by destruct (said r).
Qed.

Lemma acks_of_stamps c m segs :
  Forall plain segs →
  omap ack_of (map (pair m) (map (TCPConnection.set_ack_and_windowsize c) segs)) =
    omap (λ _, said (TCPConnection._receiver c)) segs.
Proof.
  induction 1 as [|seg segs Hseg _ IH]; [done|]. cbn [map omap list_omap]. rewrite ack_of_stamp by done. by rewrite IH.
Qed.

Section simulation.
Import TCPConnection.
Context (cfg1 cfg2 : TCPConfig.t) (isn1 isn2 : WrappingInt32) (S1 S2 : bytes).
Context (Hsc1 : 0 < TCPConfig.send_capacity cfg1 < 2 ^ 31) (Hsc2 : 0 < TCPConfig.send_capacity cfg2 < 2 ^ 31).
Context (Hrc1 : 0 < TCPConfig.recv_capacity cfg1 < 2 ^ 16) (Hrc2 : 0 < TCPConfig.recv_capacity cfg2 < 2 ^ 16).
Context (Hisn1 : seq_ok isn1) (Hisn2 : seq_ok isn2) (HS1 : len S1 < 2 ^ 61) (HS2 : len S2 < 2 ^ 61).
Implicit Types (c : t) (l : Link.t) (o : list (Z * TCPSegment.t)).

Local Abbreviation inv12 := (Link.inv (TCPConfig.send_capacity cfg1) (TCPConfig.recv_capacity cfg2) isn1 S1).
Local Abbreviation inv21 := (Link.inv (TCPConfig.send_capacity cfg2) (TCPConfig.recv_capacity cfg1) isn2 S2).

(** The simulation in the middle of a call: what is still in the connection's queue
    counts as sent, with the number [m]. *)
Definition sim_now (m : Z) c1 c2 t1 t2 o1 o2 l12 l21 : Prop :=
  sim c1 c2 t1 t2 (o1 ++ map (pair m) (_segments_out c1)) o2 l12 l21.

Lemma matches_mono l l' x : (∀ y, y ∈ Link.wire l → y ∈ Link.wire l') → matches l x → matches l' x.
Proof. intros Hw [Hr [Hb|(n & seg0 & Hin & H)]]; (split; [done|]); [by left|right]. exists n, seg0. by split; [apply Hw|]. Qed.

Lemma wire_real_send l s :
  Link.wire (Link.real_send l s) = Link.wire l ++ map (pair (TCPSender.next_seqno_absolute s)) (TCPSender.segments_out s).
Proof. done. Qed.

(** A sender that has moved on: its queue goes out, stamped, and the other link
    hears as many acknowledgments. *)
Lemma sim_send m c1 c2 t1 t2 o1 o2 l12 l21 s :
  sim_now m c1 c2 t1 t2 o1 o2 l12 l21 → plainly s → m ≤ TCPSender.next_seqno_absolute s →
  let c' := (real_send (c1 <| _sender := s |>)).1 in
  ∃ l21', leads l21 l21' ∧ sim_now m c' c2 t1 t2 o1 o2 (Link.real_send l12 s) l21' ∧
    _sender c' = s <| TCPSender._segments_out := [] |> ∧ _receiver c' = _receiver c1.
Proof.
  intros Hsim [Hp1 Hp2] Hm c'. destruct (real_send_spec (c1 <| _sender := s |>)) as ([_ Er _ _ _ Eo] & Es & _).
  fold c' in Er, Eo, Es. change (_sender c' = s <| TCPSender._segments_out := [] |>) in Es.
  change (_receiver c' = _receiver c1) in Er.
  change (_segments_out c' = _segments_out c1 ++ map (set_ack_and_windowsize (c1 <| _sender := s |>)) (TCPSender._segments_out s)) in Eo.
  set (q := TCPSender._segments_out s) in *. set (stamp := set_ack_and_windowsize _) in Eo.
  eexists. split; [apply (leads_said q)|]. split; [|by split].
  pose proof (acks_of_stamps (c1 <| _sender := s |>) m q Hp2) as Hacks. fold stamp in Hacks.
  unfold sim_now in *. rewrite Eo, map_app, app_assoc. destruct Hsim as [? ? Hr1 ? ? ? Hw1 Hw2 Ha1 Ha2 ? ?].
  constructor; cbn [Link.sender Link.receiver Link.todo Link.wire Link.acks upd eta Link.real_send]; try done;
    rewrite ?Es, ?Er; try done.
  - apply Forall_app. split.
    + eapply Forall_impl; [exact Hw1|]. intros x. apply matches_mono. intros y Hy. rewrite wire_real_send. apply elem_of_app. by left.
    + rewrite !Forall_map. apply Forall_forall. intros seg Hin. rewrite Forall_forall in Hp2. cbn.
      split; [by apply stamp_rst, Hp2|]. right. exists (TCPSender.next_seqno_absolute s), seg.
      split; [|split; [done|apply set_ack_stamped]].
      rewrite wire_real_send. apply elem_of_app. right. by apply list_elem_of_fmap_2.
  - rewrite omap_app, <- Ha1, Hacks. by rewrite Hr1.
Qed.

(** The links stay in good states. *)
Lemma leads_good sc rc isn S a L W l l' :
  0 < sc < 2 ^ 31 → 0 < rc < 2 ^ 16 → seq_ok isn → len S < 2 ^ 61 →
  Link.inv sc rc isn S a L W l → leads l l' → ∃ a' L' W', Link.inv sc rc isn S a' L' W' l'.
Proof.
  intros Hsc Hrc Hisn HS Hi [es Hrun]. revert a L W l Hi Hrun. induction es as [|e es IH]; intros a L W l Hi Hrun.
  { injection Hrun as <-. by exists a, L, W. }
  cbn in Hrun. destruct (Link.enabled l e) eqn:He; [|done].
  destruct (step_inv sc rc isn S Hsc Hrc Hisn HS a L W l e Hi He) as (a1 & L1 & W1 & l1 & Hs & Hi1). rewrite Hs in Hrun.
  by apply (IH a1 L1 W1 l1).
Qed.

Lemma sim_now_ext m c1 c1' c2 t1 t2 o1 o2 l12 l21 :
  sim_now m c1 c2 t1 t2 o1 o2 l12 l21 →
  _sender c1' = _sender c1 → _receiver c1' = _receiver c1 → _segments_out c1' = _segments_out c1 →
  sim_now m c1' c2 t1 t2 o1 o2 l12 l21.
Proof. unfold sim_now. intros [] Es Er Eo. rewrite Eo. constructor; rewrite ?Es, ?Er; done. Qed.

(** [_sender.fill_window(); real_send();] *)
Lemma sim_fill m a L W c1 c2 t1 t2 o1 o2 l12 l21 :
  sim_now m c1 c2 t1 t2 o1 o2 l12 l21 → inv12 a L W l12 → m ≤ TCPSender.next_seqno_absolute (_sender c1) →
  ∃ s l12' l21', TCPSender.fill_window (_sender c1) = Ok s ∧ leads l12 l12' ∧ leads l21 l21' ∧
    sim_now m (real_send (c1 <| _sender := s |>)).1 c2 t1 t2 o1 o2 l12' l21' ∧
    m ≤ TCPSender.next_seqno_absolute s.
Proof.
  intros Hsim Hi Hm. pose proof (sim_sender1 _ _ _ _ _ _ _ _ Hsim) as Es.
  destruct (evolves_fill _ a (Link.sender l12) (Link.li_sender _ _ _ _ _ _ _ _ Hi)
    (accepted_bound _ _ _ _ HS1 a L W l12 Hi)) as (a' & s & Hf & Hev & _).
  rewrite Es in Hf. assert (Hm' : m ≤ TCPSender.next_seqno_absolute s).
  { pose proof (ev_next _ _ _ _ _ Hev). rewrite Es in *. unfold TCPSender.next_seqno_absolute in *. lia. }
  assert (Hp : plainly s) by (eapply fill_plain, Hf; apply Hsim).
  destruct (sim_send m c1 c2 t1 t2 o1 o2 l12 l21 s Hsim Hp Hm') as (l21' & Hl & Hsim' & _).
  exists s, (Link.real_send l12 s), l21'. split_and!; try done.
  apply (leads_step _ Link.Fill); [done|]. cbn [Link.step]. by rewrite Es, Hf.
Qed.

(** The application's end of the sender's stream changes. *)
Lemma sim_stream m c1 c2 t1 t1' t2 o1 o2 l12 l21 st :
  sim_now m c1 c2 t1 t2 o1 o2 l12 l21 →
  sim_now m (c1 <| _sender ::= λ s, s <| TCPSender._stream := st |> |>) c2 t1' t2 o1 o2
    (l12 <| Link.sender ::= λ s, s <| TCPSender._stream := st |> |> <| Link.todo := t1' |>) l21.
Proof. unfold sim_now. intros [E ? ? ? ? ? ? ? ? ? ? ?]. constructor; cbn in *; try done. by rewrite E. Qed.

(** The links can follow to where the first connection is [c']. *)
Definition reaches m c2 t1 t2 o1 o2 l12 l21 c' : Prop :=
  ∃ l12' l21', leads l12 l12' ∧ leads l21 l21' ∧ sim_now m c' c2 t1 t2 o1 o2 l12' l21'.

Lemma connect_sim m a L W c1 c2 t1 t2 o1 o2 l12 l21 :
  sim_now m c1 c2 t1 t2 o1 o2 l12 l21 → inv12 a L W l12 → m ≤ TCPSender.next_seqno_absolute (_sender c1) →
  ∃ c', connect c1 = Ok c' ∧ reaches m c2 t1 t2 o1 o2 l12 l21 c'.
Proof.
  intros Hsim Hi Hm. destruct (sim_fill m a L W c1 c2 t1 t2 o1 o2 l12 l21 Hsim Hi Hm) as (s & l12' & l21' & Hf & H1 & H2 & H3 & _).
  unfold connect. rewrite Hf. cbn [mbind outcome_bind]. eexists. split; [done|]. by exists l12', l21'.
Qed.

(** A call that changes the stream and then fills the window. *)
Lemma stream_fill_sim m a L W c1 c2 t1 t1' t2 o1 o2 l12 l12s l21 st :
  let c1s := c1 <| _sender ::= λ s, s <| TCPSender._stream := st |> |> in
  sim_now m c1 c2 t1 t2 o1 o2 l12 l21 → m ≤ TCPSender.next_seqno_absolute (_sender c1) →
  l12s = l12 <| Link.sender ::= λ s, s <| TCPSender._stream := st |> |> <| Link.todo := t1' |> →
  leads l12 l12s → inv12 a L W l12s →
  ∃ s, TCPSender.fill_window (_sender c1s) = Ok s ∧
    reaches m c2 t1' t2 o1 o2 l12 l21 (real_send (c1s <| _sender := s |>)).1.
Proof.
  intros c1s Hsim Hm -> Hl Hi. apply (sim_stream m c1 c2 t1 t1' t2 o1 o2 l12 l21 st) in Hsim. fold c1s in Hsim.
  destruct (sim_fill m a L W c1s c2 t1' t2 o1 o2 _ l21 Hsim Hi Hm) as (s & l12' & l21' & Hf & H1 & H2 & H3 & _).
  exists s. split; [done|]. exists l12', l21'. split; [|by split]. by eapply leads_trans.
Qed.

Lemma write_sim m a L W c1 c2 t1 t2 o1 o2 l12 l21 n :
  sim_now m c1 c2 t1 t2 o1 o2 l12 l21 → inv12 a L W l12 → m ≤ TCPSender.next_seqno_absolute (_sender c1) →
  ∃ c' k, write c1 (take n t1) = Ok (c', k) ∧ reaches m c2 (drop (Z.to_nat k) t1) t2 o1 o2 l12 l21 c'.
Proof.
  intros Hsim Hi Hm. unfold write. destruct (len (take n t1) =? 0).
  { exists c1, 0. split; [done|]. exists l12, l21. split_and!; try apply leads_refl. done. }
  pose proof (sim_sender1 _ _ _ _ _ _ _ _ Hsim) as Es. pose proof (sim_todo1 _ _ _ _ _ _ _ _ Hsim) as Et.
  destruct (write_inv _ _ _ _ Hsc1 a L W l12 n Hi) as (a' & l12s & st' & Hstep & Hi' & _).
  assert (Hl : leads l12 l12s) by (by apply (leads_step _ (Link.Write n))).
  cbn [Link.step] in Hstep. rewrite Es, Et in Hstep.
  destruct (ByteStream.write (TCPSender.stream_in (_sender c1)) (take n t1)) as [st k]. injection Hstep as Hl12s.
  destruct (stream_fill_sim m a' L W c1 c2 t1 (drop (Z.to_nat k) t1) t2 o1 o2 l12 l12s l21 st Hsim Hm) as (s & Hf & Hr); try done.
  { rewrite <- Hl12s. destruct l12. cbn in *. by subst. }
  cbv zeta. rewrite Hf. cbn [mbind outcome_bind]. by eexists _, k.
Qed.

Lemma end_input_sim m a L W c1 c2 t2 o1 o2 l12 l21 :
  sim_now m c1 c2 [] t2 o1 o2 l12 l21 → inv12 a L W l12 → m ≤ TCPSender.next_seqno_absolute (_sender c1) →
  ∃ c', end_input_stream c1 = Ok c' ∧ reaches m c2 [] t2 o1 o2 l12 l21 c'.
Proof.
  intros Hsim Hi Hm. pose proof (sim_sender1 _ _ _ _ _ _ _ _ Hsim) as Es. pose proof (sim_todo1 _ _ _ _ _ _ _ _ Hsim) as Et.
  destruct (end_input_inv _ _ _ _ Hsc1 a L W l12 Hi) as (a' & l12s & Hstep & Hi' & _).
  assert (Hl : leads l12 l12s) by (by apply (leads_step _ Link.EndInput)).
  cbn [Link.step] in Hstep. rewrite Et in Hstep. injection Hstep as Hl12s.
  destruct (stream_fill_sim m a' L W c1 c2 [] [] t2 o1 o2 l12 l12s l21 (ByteStream.end_input (TCPSender._stream (_sender c1))) Hsim Hm)
    as (s & Hf & Hr); try done.
  { rewrite <- Hl12s. destruct l12. cbn in *. by subst. }
  unfold end_input_stream. cbv zeta. 
  match goal with |- context [TCPSender.fill_window ?x] => change (TCPSender.fill_window x) with
    (TCPSender.fill_window (_sender (c1 <| _sender ::= λ s, s <| TCPSender._stream := ByteStream.end_input (TCPSender._stream (_sender c1)) |> |>))) end.
  rewrite Hf. cbn [mbind outcome_bind]. eexists. split; [done|]. exact Hr.
Qed.

(** The timer queues at most one segment. *)
Lemma tick_queue a L W l12 ms s :
  inv12 a L W l12 → TCPSender.tick (Link.sender l12) ms = Ok s →
  TCPSender._segments_out s = [] ∨ ∃ seg, TCPSender._segments_out s = [seg].
Proof.
  intros Hi Ht. destruct (tick_spec _ a _ ms (Link.li_sender _ _ _ _ _ _ _ _ Hi)) as (s' & Ht' & _ & _ & _ & _ & _ & Hq).
  rewrite Ht in Ht'. injection Ht' as <-. pose proof (Link.li_out _ _ _ _ _ _ _ _ Hi) as Ho.
  destruct (TCPSender._segments_outstanding _); [left; congruence|]. rewrite Ho in Hq.
  destruct (_ <=? _); destruct Hq as [-> _]; [right; by eexists|by left].
Qed.

Lemma tick_sim m a L W c1 c2 t1 t2 o1 o2 l12 l21 ms :
  sim_now m c1 c2 t1 t2 o1 o2 l12 l21 → inv12 a L W l12 → m ≤ TCPSender.next_seqno_absolute (_sender c1) →
  (∀ s, TCPSender.tick (_sender c1) ms = Ok s → TCPSender.consecutive_retransmissions s ≤ TCPConfig.MAX_RETX_ATTEMPTS) →
  ∃ c', tick c1 ms = Ok c' ∧ reaches m c2 t1 t2 o1 o2 l12 l21 c'.
Proof.
  intros Hsim Hi Hm Hfew. pose proof (sim_sender1 _ _ _ _ _ _ _ _ Hsim) as Es.
  destruct (evolves_tick _ Hsc1 a (Link.sender l12) ms L W (Link.li_sender _ _ _ _ _ _ _ _ Hi) (Link.li_window _ _ _ _ _ _ _ _ Hi))
    as (s & Ht & Hev & _).
  pose proof (tick_queue a L W l12 ms s Hi Ht) as Hq. assert (Hl : leads l12 (Link.real_send l12 s))
    by (apply (leads_step _ (Link.Tick ms)); [done|]; cbn [Link.step]; by rewrite Ht).
  pose proof (ev_next _ _ _ _ _ Hev) as Hn. rewrite Es in Ht, Hn.
  assert (Hp : plainly s) by (eapply tick_plain, Ht; apply Hsim). specialize (Hfew s Ht).
  set (c0 := c1 <| _time_since_last_segment_received_counter ::= λ n, u64 (n + ms) |>).
  assert (Hsim0 : sim_now m c0 c2 t1 t2 o1 o2 l12 l21) by (by eapply sim_now_ext).
  destruct (sim_send m c0 c2 t1 t2 o1 o2 l12 l21 s Hsim0 Hp) as (l21' & Hl' & Hsim' & _);
    [unfold TCPSender.next_seqno_absolute in *; lia|].
  assert (Hgo : ∀ c', _sender c' = _sender (real_send (c0 <| _sender := s |>)).1 →
    _receiver c' = _receiver (real_send (c0 <| _sender := s |>)).1 →
    _segments_out c' = _segments_out (real_send (c0 <| _sender := s |>)).1 →
    reaches m c2 t1 t2 o1 o2 l12 l21 c').
  { intros c' H1 H2 H3. exists (Link.real_send l12 s), l21'. split; [done|]. split; [done|]. by eapply sim_now_ext; [exact Hsim'|..]. }
  clear Hsim' Hsim0 Hsim. unfold tick. change (_sender (c1 <| _ ::= _ |>)) with (_sender c1). rewrite Ht.
  cbn [mbind outcome_bind]. fold c0. unfold real_send in Hgo. change (_sender (c0 <| _sender := s |>)) with s in *.
  unfold TCPSender.segments_out in *. destruct Hq as [Hq|[seg Hq]]; rewrite Hq in *.
  - change (len [] >? 0) with false. cbn [mbind outcome_bind].
    destruct (_ && _); [destruct (negb _); [|destruct (_ >=? _)]|]; (eexists; split; [reflexivity|]; by apply Hgo).
  - unfold dequeue. change (_sender (c0 <| _sender := s |>)) with s. unfold TCPSender.segments_out. rewrite Hq.
    change (len [seg] >? 0) with true. cbn [head or_UB mbind outcome_bind].
    match goal with |- context [?x >? TCPConfig.MAX_RETX_ATTEMPTS] =>
      change x with (TCPSender.consecutive_retransmissions s);
      replace (TCPSender.consecutive_retransmissions s >? TCPConfig.MAX_RETX_ATTEMPTS) with false by lia end.
    cbn [mbind outcome_bind].
    destruct (_ && _); [destruct (negb _); [|destruct (_ >=? _)]|];
      (eexists; split; [reflexivity|]; apply Hgo; try done; cbn; by rewrite Hq).
Qed.

(** *** A segment arrives *)

Lemma receive_sim m a L W c1 c2 t1 t2 o1 k seg rest l12 l21 :
  let next := TCPSender.next_seqno_absolute (_sender c2) in
  sim_now m c1 c2 t1 t2 o1 ((k, seg) :: rest) l12 l21 → inv21 a L W l21 → next ≤ k + 2 ^ 30 →
  (Link.bare_fin seg = true → StreamReassembler.ack_index (TCPReceiver._reassembler (_receiver c1)) + 2 = next) →
  ∃ r, TCPReceiver.segment_received (_receiver c1) seg = Ok r ∧ leads l21 (l21 <| Link.receiver := r |>) ∧
    sim_now m (c1 <| _receiver := r |>) c2 t1 t2 o1 ((k, seg) :: rest) l12 (l21 <| Link.receiver := r |>).
Proof.
  intros next Hsim Hi Hage Hbare. pose proof (sim_receiver1 _ _ _ _ _ _ _ _ Hsim) as Er.
  assert (Hgo : ∀ r, TCPReceiver.segment_received (_receiver c1) seg = Ok r → leads l21 (l21 <| Link.receiver := r |>) →
    ∃ r, TCPReceiver.segment_received (_receiver c1) seg = Ok r ∧ leads l21 (l21 <| Link.receiver := r |>) ∧
    sim_now m (c1 <| _receiver := r |>) c2 t1 t2 o1 ((k, seg) :: rest) l12 (l21 <| Link.receiver := r |>)).
  { intros r H1 H2. exists r. split; [done|]. split; [done|]. by destruct Hsim; constructor. }
  destruct (Forall_inv (sim_wire2 _ _ _ _ _ _ _ _ Hsim)) as [_ [Hb|(n & seg0 & Hin & Hn & Hst)]].
  - apply (Hgo (_receiver c1)).
    + eapply (receive_bare (TCPConfig.recv_capacity cfg1) S2 isn2); [lia|done|rewrite <- Er; apply Hi|done].
    + rewrite <- Er. destruct l21. apply leads_refl.
  - cbn in Hn, Hst. destruct (stamped_same seg0 seg (_receiver c1) Hst) as (Hrec & _ & Hbf & _).
    apply list_elem_of_lookup in Hin as [i Hlook].
    assert (Hen : Link.enabled l21 (Link.Deliver i) = true).
    { cbn [Link.enabled]. rewrite Hlook, (sim_sender2 _ _ _ _ _ _ _ _ Hsim), Er. fold next. apply andb_true_intro.
      split; [lia|]. rewrite <- Hbf. destruct (Link.bare_fin seg); [|done]. apply Z.eqb_eq. by apply Hbare. }
    destruct (deliver_inv _ _ _ _ Hrc1 Hisn2 HS2 a L W l21 i Hi Hen) as (l' & Hstep & _).
    pose proof (leads_step l21 _ l' Hen Hstep) as Hl. cbn [Link.step] in Hstep. rewrite Hlook, Er in Hstep.
    apply bind_Ok in Hstep as (r & Hr & [= <-]). apply (Hgo r); [by rewrite Hrec|done].
Qed.

Lemma ack_sim m a L W c1 c2 t1 t2 o1 k seg rest l12 l21 :
  let h := TCPSegment.header seg in
  sim_now m c1 c2 t1 t2 o1 ((k, seg) :: rest) l12 l21 → inv12 a L W l12 →
  m ≤ TCPSender.next_seqno_absolute (_sender c1) → TCPHeader.ack h = true →
  ∃ s, TCPSender.ack_received (_sender c1) (TCPHeader.ackno h) (TCPHeader.win h) = Ok s ∧
    reaches m c2 t1 t2 o1 rest l12 l21 (real_send (c1 <| _sender := s |>)).1 ∧ m ≤ TCPSender.next_seqno_absolute s.
Proof.
  intros h Hsim Hi Hm Hack. pose proof (sim_sender1 _ _ _ _ _ _ _ _ Hsim) as Es.
  pose proof (sim_acks2 _ _ _ _ _ _ _ _ Hsim) as Ha. cbn [omap list_omap] in Ha. unfold ack_of at 1 in Ha.
  cbn [snd] in Ha. fold h in Ha. rewrite Hack in Ha.
  pose proof (Link.li_acks _ _ _ _ _ _ _ _ Hi) as Hch. rewrite Ha in Hch.
  destruct Hch as (abs & Habs & Hpos & Hw & HL & HE & Hch).
  destruct (deliver_ack_sender _ _ isn1 _ Hsc1 Hrc2 HS1 a L W l12 abs (TCPHeader.win h) (omap ack_of rest))
    as (a' & s & Hs & _ & Hnext & _); try done.
  rewrite Es, <- Habs in Hs. rewrite Es in Hnext. exists s. split; [done|].
  assert (Hm' : m ≤ TCPSender.next_seqno_absolute s) by (unfold TCPSender.next_seqno_absolute in *; lia).
  split; [|done]. assert (Hp : plainly s) by (eapply ack_plain, Hs; apply Hsim).
  assert (Hsim' : sim_now m c1 c2 t1 t2 o1 rest (l12 <| Link.acks := omap ack_of rest |>) l21).
  { destruct Hsim as [? ? ? ? ? ? ? Hw2 ? ? ? ?]. apply Forall_cons in Hw2 as [_ Hw2]. by constructor. }
  destruct (sim_send m c1 c2 t1 t2 o1 rest _ l21 s Hsim' Hp Hm') as (l21' & Hl & Hsim'' & _).
  exists (Link.real_send (l12 <| Link.acks := omap ack_of rest |>) s), l21'. split_and!; try done.
  apply (leads_step _ Link.DeliverAck); [done|]. cbn [Link.step]. rewrite Ha, Es. by rewrite Hs.
Qed.

(** A bare acknowledgment goes out. *)
Lemma empty_sim m c1 c2 t1 t2 o1 o2 l12 l21 :
  sim_now m c1 c2 t1 t2 o1 o2 l12 l21 → TCPSender._segments_out (_sender c1) = [] →
  ∃ c', ('(ACKSeg, c) ← dequeue (c1 <| _sender ::= TCPSender.send_empty_segment |>);
         let ACKSeg := set_ack_and_windowsize c ACKSeg in
         Ok (c <| _segments_out ::= λ q, q ++ [ACKSeg] |>)) = Ok c' ∧
    reaches m c2 t1 t2 o1 o2 l12 l21 c'.
Proof.
  intros Hsim Ho. set (s := _sender c1) in *.
  set (seg := TCPSegment.default <| TCPSegment.header ::= λ h,
    h <| TCPHeader.seqno := wrap (TCPSender._next_seqno s) (TCPSender._isn s) |> |>).
  assert (Hp : plain seg) by done. unfold dequeue. change (TCPSender.segments_out _) with (TCPSender._segments_out s ++ [seg]).
  rewrite Ho. cbn [app head or_UB mbind outcome_bind]. eexists. split; [reflexivity|].
  exists l12. eexists. split; [apply leads_refl|]. split; [apply (leads_said [seg])|].
  set (c'' := c1 <| _segments_out ::= λ q, q ++ [set_ack_and_windowsize c1 seg] |>).
  apply (sim_now_ext m c''); [|cbn; fold s; destruct s; cbn in *; by subst|done|done].
  unfold sim_now in *. change (_segments_out c'') with (_segments_out c1 ++ map (set_ack_and_windowsize c1) [seg]).
  pose proof (acks_of_stamps c1 m [seg] ltac:(by apply Forall_singleton)) as Hacks. rewrite map_app, app_assoc.
  destruct Hsim as [? ? Hr1 ? ? ? Hw1 Hw2 Ha1 Ha2 ? ?]. constructor; try done.
  - apply Forall_app. split; [done|]. cbn [map]. apply Forall_singleton. split; [by apply stamp_rst|]. left.
    cbn [snd]. destruct (set_ack_stamped c1 seg) as (x & y & z & ->). done.
  - rewrite omap_app, Hacks, <- Ha1. cbn [Link.acks upd eta]. by rewrite Hr1.
Qed.

Lemma reaches_trans m c2 t1 t2 o1 o2 l12 l21 l12' l21' c' :
  leads l12 l12' → leads l21 l21' → reaches m c2 t1 t2 o1 o2 l12' l21' c' → reaches m c2 t1 t2 o1 o2 l12 l21 c'.
Proof. intros H1 H2 (l12'' & l21'' & H3 & H4 & H). exists l12'', l21''. split_and!; [by eapply leads_trans..|done]. Qed.

Lemma good12 a L W l l' : inv12 a L W l → leads l l' → ∃ a' L' W', inv12 a' L' W' l'.
Proof. by apply leads_good. Qed.

Lemma good21 a L W l l' : inv21 a L W l → leads l l' → ∃ a' L' W', inv21 a' L' W' l'.
Proof. by apply leads_good. Qed.

Lemma real_send_next c s :
  TCPSender.next_seqno_absolute (_sender (real_send (c <| _sender := s |>)).1) = TCPSender.next_seqno_absolute s.
Proof. destruct (real_send_spec (c <| _sender := s |>)) as (_ & -> & _). done. Qed.

(** The acknowledgment of a segment, if it has one. *)
Lemma acknowledged_sim m a L W c1 c2 t1 t2 o1 k seg rest l12 l21 :
  let h := TCPSegment.header seg in
  sim_now m c1 c2 t1 t2 o1 ((k, seg) :: rest) l12 l21 → inv12 a L W l12 →
  m ≤ TCPSender.next_seqno_absolute (_sender c1) →
  ∃ c', (if TCPHeader.ack h then
           s ← TCPSender.ack_received (_sender c1) (TCPHeader.ackno h) (TCPHeader.win h);
           Ok (real_send (c1 <| _sender := s |>)).1
         else Ok c1) = Ok c' ∧
    reaches m c2 t1 t2 o1 rest l12 l21 c' ∧ m ≤ TCPSender.next_seqno_absolute (_sender c').
Proof.
  intros h Hsim Hi Hm. subst h. destruct (TCPHeader.ack _) eqn:Hack.
  - destruct (ack_sim m a L W c1 c2 t1 t2 o1 k seg rest l12 l21 Hsim Hi Hm Hack) as (s & -> & Hr & Hm').
    eexists. split; [reflexivity|]. split; [done|]. by rewrite real_send_next.
  - exists c1. split; [done|]. split; [|done]. exists l12, l21. split_and!; try apply leads_refl.
    destruct Hsim as [? ? ? ? ? ? ? Hw2 ? Ha2 ? ?]. apply Forall_cons in Hw2 as [_ Hw2]. constructor; try done.
    rewrite Ha2. cbn [omap list_omap]. unfold ack_of at 1. cbn [snd]. by rewrite Hack.
Qed.

(** A segment that takes up sequence space is answered. *)
Lemma answered_sim m a L W c1 c2 t1 t2 o1 o2 l12 l21 :
  sim_now m c1 c2 t1 t2 o1 o2 l12 l21 → inv12 a L W l12 → m ≤ TCPSender.next_seqno_absolute (_sender c1) →
  ∃ c', (s ← TCPSender.fill_window (_sender c1);
         let '(c, isSend) := real_send (c1 <| _sender := s |>) in
         if negb isSend then
           let c := c <| _sender ::= TCPSender.send_empty_segment |> in
           '(ACKSeg, c) ← dequeue c;
           let ACKSeg := set_ack_and_windowsize c ACKSeg in
           Ok (c <| _segments_out ::= λ q, q ++ [ACKSeg] |>)
         else Ok c) = Ok c' ∧ reaches m c2 t1 t2 o1 o2 l12 l21 c'.
Proof.
  intros Hsim Hi Hm. destruct (sim_fill m a L W c1 c2 t1 t2 o1 o2 l12 l21 Hsim Hi Hm) as (s & l12' & l21' & -> & H1 & H2 & Hsim' & _).
  cbn [mbind outcome_bind]. destruct (real_send _) as [c isSend]. cbn [fst] in Hsim'. destruct isSend; cbn [negb].
  - exists c. split; [done|]. by exists l12', l21'.
  - destruct (good12 a L W l12 l12' Hi H1) as (a' & L' & W' & Hi').
    destruct (empty_sim m c c2 t1 t2 o1 o2 l12' l21' Hsim') as (c' & Hc' & Hr).
    { rewrite <- (sim_sender1 _ _ _ _ _ _ _ _ Hsim'). apply Hi'. }
    exists c'. split; [done|]. by eapply reaches_trans.
Qed.

Lemma segment_sim m a L W b K V c1 c2 t1 t2 o1 k seg rest l12 l21 :
  let next := TCPSender.next_seqno_absolute (_sender c2) in
  sim_now m c1 c2 t1 t2 o1 ((k, seg) :: rest) l12 l21 → inv12 a L W l12 → inv21 b K V l21 →
  m ≤ TCPSender.next_seqno_absolute (_sender c1) → next ≤ k + 2 ^ 30 →
  (Link.bare_fin seg = true → StreamReassembler.ack_index (TCPReceiver._reassembler (_receiver c1)) + 2 = next) →
  ∃ c', segment_received c1 seg = Ok c' ∧ reaches m c2 t1 t2 o1 rest l12 l21 c'.
Proof.
  intros next Hsim Hi12 Hi21 Hm Hage Hbare. unfold segment_received.
  destruct (Forall_inv (sim_wire2 _ _ _ _ _ _ _ _ Hsim)) as [Hrst _]. cbn [snd] in Hrst. rewrite Hrst.
  set (c1t := c1 <| _time_since_last_segment_received_counter := 0 |>).
  assert (Hsim1 : sim_now m c1t c2 t1 t2 o1 ((k, seg) :: rest) l12 l21) by (by eapply sim_now_ext).
  destruct (receive_sim m b K V c1t c2 t1 t2 o1 k seg rest l12 l21 Hsim1 Hi21 Hage Hbare) as (r & Hr & Hl21 & Hsim2).
  rewrite Hr. cbn [mbind outcome_bind]. cbv zeta. set (c1r := c1t <| _receiver := r |>) in *.
  set (c1l := if check_inbound_ended c1r && _ then _ else c1r).
  assert (Hsim3 : sim_now m c1l c2 t1 t2 o1 ((k, seg) :: rest) l12 (l21 <| Link.receiver := r |>)).
  { eapply sim_now_ext; [exact Hsim2|..]; unfold c1l; by destruct (_ && _). }
  assert (Hm3 : m ≤ TCPSender.next_seqno_absolute (_sender c1l)) by (unfold c1l; by destruct (_ && _)).
  destruct (acknowledged_sim m a L W c1l c2 t1 t2 o1 k seg rest l12 _ Hsim3 Hi12 Hm3) as (c4 & Hc4 & (l12' & l21' & H1 & H2 & Hsim4) & Hm4).
  rewrite Hc4. cbn [mbind outcome_bind]. assert (Hl21' : leads l21 l21') by (by eapply leads_trans).
  destruct (_ >? 0); [|exists c4; split; [done|]; by exists l12', l21'].
  destruct (good12 a L W l12 l12' Hi12 H1) as (a' & L' & W' & Hi12').
  destruct (answered_sim m a' L' W' c4 c2 t1 t2 o1 rest l12' l21' Hsim4 Hi12' Hm4) as (c5 & Hc5 & Hr5).
  exists c5. split; [exact Hc5|]. by eapply reaches_trans.
Qed.

(** *** The owner reads, the network loses *)

Lemma read_sim m a L W c1 c2 t1 t2 o1 o2 l12 l21 n :
  let read st := (ByteStream.read st (Z.min (Z.of_nat n) (ByteStream.buffer_size st))).1 in
  sim_now m c1 c2 t1 t2 o1 o2 l12 l21 → inv21 a L W l21 →
  reaches m c2 t1 t2 o1 o2 l12 l21 (c1 <| _receiver ::= λ r, r <| TCPReceiver._reassembler ::= λ s,
    s <| StreamReassembler._output ::= read |> |> |>).
Proof.
  intros read Hsim Hi. destruct (read_inv _ _ _ _ Hrc1 HS2 a L W l21 n Hi) as (l21' & Hstep & _).
  exists l12, l21'. split; [apply leads_refl|]. split; [by apply (leads_step _ (Link.Read n))|].
  cbn [Link.step] in Hstep. injection Hstep as <-. destruct Hsim as [? ? Hr ? ? ? ? ? ? ? ? ?].
  constructor; try done. cbn [Link.receiver _receiver upd eta]. by rewrite Hr.
Qed.

Lemma omap_delete {A B} (f : A → option B) (l : list A) i :
  omap f (delete i l) = omap f l ∨ ∃ j, omap f (delete i l) = delete j (omap f l).
Proof.
  assert (Hcons : ∀ x k, omap f (x :: k) = match f x with Some y => y :: omap f k | None => omap f k end) by done.
  revert i. induction l as [|x l IH]; intros i; [by left|]. destruct i as [|i].
  - change (delete 0%nat (x :: l)) with l. rewrite Hcons. destruct (f x); [right; by exists 0%nat|by left].
  - change (delete (S i) (x :: l)) with (x :: delete i l). rewrite !Hcons.
    destruct (IH i) as [->|[j ->]]; destruct (f x); [by left..|right; by exists (S j)|right; by exists j].
Qed.

Lemma lose_sim c1 c2 t1 t2 o1 o2 l12 l21 i :
  sim c1 c2 t1 t2 o1 o2 l12 l21 →
  ∃ l21', leads l21 l21' ∧ sim c1 c2 t1 t2 (delete i o1) o2 l12 l21'.
Proof.
  intros [? ? ? ? ? ? Hw ? Ha ? ? ?].
  assert (Hw' : Forall (matches l12) (delete i o1)) by (by apply Forall_delete).
  destruct (omap_delete ack_of o1 i) as [E|[j E]].
  - exists l21. split; [apply leads_refl|]. constructor; try done. by rewrite E.
  - exists (l21 <| Link.acks ::= delete j |>). split; [by apply (leads_step _ (Link.LoseAck j))|].
    constructor; try done. cbn. by rewrite E, Ha.
Qed.

(** ** One end acts *)

(** Two ends between calls, and the links. *)
Record paired (d : Duplex.t) l12 l21 : Prop := {
  paired_sim : sim (Duplex.conn d.1) (Duplex.conn d.2) (Duplex.todo d.1) (Duplex.todo d.2)
    (Duplex.wire d.1) (Duplex.wire d.2) l12 l21;
  paired_sent1 : _segments_out (Duplex.conn d.1) = [];
  paired_sent2 : _segments_out (Duplex.conn d.2) = []
}.

(** After a call, what it queued goes out. *)
Lemma flush_paired self peer c t1 o2 l12 l21 :
  let m := TCPSender.next_seqno_absolute (_sender (Duplex.conn self)) in
  _segments_out (Duplex.conn peer) = [] →
  reaches m (Duplex.conn peer) t1 (Duplex.todo peer) (Duplex.wire self) o2 l12 l21 c →
  ∃ l12' l21', leads l12 l12' ∧ leads l21 l21' ∧
    paired ((Duplex.flush self c) <| Duplex.todo := t1 |>, peer <| Duplex.wire := o2 |>) l12' l21'.
Proof.
  intros m Hp (l12' & l21' & H1 & H2 & []). exists l12', l21'. split; [done|]. split; [done|].
  constructor; [|done|done]. by constructor.
Qed.

Lemma act_sim a L W b K V d e l12 l21 :
  paired d l12 l21 → inv12 a L W l12 → inv21 b K V l21 → Duplex.enabled d e = true →
  ∃ d' l12' l21', Duplex.act d e = Ok d' ∧ leads l12 l12' ∧ leads l21 l21' ∧ paired d' l12' l21'.
Proof.
  intros [Hsim Ho1 Ho2] Hi12 Hi21 He. destruct d as [self peer]. cbn [fst snd] in *.
  set (m := TCPSender.next_seqno_absolute (_sender (Duplex.conn self))).
  assert (Hnow : ∀ t1 o2, sim (Duplex.conn self) (Duplex.conn peer) t1 (Duplex.todo peer) (Duplex.wire self) o2 l12 l21 →
    sim_now m (Duplex.conn self) (Duplex.conn peer) t1 (Duplex.todo peer) (Duplex.wire self) o2 l12 l21)
    by (intros t1 o2 H; unfold sim_now; by rewrite Ho1, app_nil_r).
  assert (Hm : m ≤ m) by lia.
  assert (Hgo : ∀ c t1 o2, reaches m (Duplex.conn peer) t1 (Duplex.todo peer) (Duplex.wire self) o2 l12 l21 c →
    ∀ d', d' = ((Duplex.flush self c) <| Duplex.todo := t1 |>, peer <| Duplex.wire := o2 |>) →
    ∃ d'' l12' l21', Ok d' = Ok d'' ∧ leads l12 l12' ∧ leads l21 l21' ∧ paired d'' l12' l21').
  { intros c t1 o2 Hr d' ->. destruct (flush_paired self peer c t1 o2 l12 l21 Ho2 Hr) as (l12' & l21' & H). by eexists _, l12', l21'. }
  destruct e; cbn [Duplex.act Duplex.enabled] in *.
  - destruct (connect_sim m a L W _ _ _ _ _ _ _ _ (Hnow _ _ Hsim) Hi12 Hm) as (c & -> & Hr). cbn [mbind outcome_bind].
    eapply Hgo; [exact Hr|]. destruct self, peer. done.
  - destruct (write_sim m a L W _ _ _ _ _ _ _ _ n (Hnow _ _ Hsim) Hi12 Hm) as (c & k & -> & Hr). cbn [mbind outcome_bind].
    eapply Hgo; [exact Hr|]. destruct self, peer. done.
  - destruct (Duplex.todo self) eqn:Et.
    2:{ exists (self, peer), l12, l21. split_and!; try apply leads_refl; [done|]. constructor; try done. cbn. by rewrite Et. }
    destruct (end_input_sim m a L W _ _ _ _ _ _ _ (Hnow _ _ Hsim) Hi12 Hm) as (c & -> & Hr). cbn [mbind outcome_bind].
    eapply Hgo; [exact Hr|]. destruct self, peer. cbn in *. by subst.
  - destruct (tick_sim m a L W _ _ _ _ _ _ _ _ ms (Hnow _ _ Hsim) Hi12 Hm) as (c & -> & Hr).
    { intros s Hs. rewrite Hs in He. lia. }
    cbn [mbind outcome_bind]. eapply Hgo; [exact Hr|]. destruct self, peer. done.
  - pose proof (read_sim m b K V _ _ _ _ _ _ _ _ n (Hnow _ _ Hsim) Hi21) as Hr.
    eapply Hgo; [exact Hr|]. destruct self as [t1 [] w1], peer. cbn in *. subst. unfold Duplex.flush. cbn. by rewrite app_nil_r.
  - destruct (Duplex.wire peer) as [|[k seg] rest] eqn:Ew.
    { exists (self, peer), l12, l21. split_and!; try apply leads_refl; [done|]. constructor; try done. cbn. by rewrite Ew. }
    apply andb_prop in He as [Hage Hbare].
    destruct (segment_sim m a L W b K V _ _ _ _ _ k seg rest l12 l21 (Hnow _ _ Hsim) Hi12 Hi21 Hm) as (c & -> & Hr); [lia| |].
    { intros Hb. rewrite Hb in Hbare. cbn [negb orb] in Hbare. lia. }
    cbn [mbind outcome_bind]. eapply Hgo; [exact Hr|]. destruct self, peer. done.
  - destruct (lose_sim _ _ _ _ _ _ _ _ i Hsim) as (l21' & Hl & Hsim').
    exists (self <| Duplex.wire ::= delete i |>, peer), l12, l21'. split_and!; [done|apply leads_refl|done|]. by constructor.
Qed.

End simulation.

(** ** Properties *)

Section duplex_properties.
Import Duplex.
Context (cfg1 cfg2 : TCPConfig.t) (random1 random2 : Z) (S1 S2 : bytes).

(** The initial sequence number of a connection. *)
Definition isn_of (cfg : TCPConfig.t) (random : Z) : WrappingInt32 :=
  default (mkWrappingInt32 random) (TCPConfig.fixed_isn cfg).

(** The link from an end with [cfg] to one with [cfg']. *)
Local Abbreviation link_reach cfg random cfg' S := (Link.reach (TCPConfig.send_capacity cfg) (TCPConfig.recv_capacity cfg')
  (TCPConfig.rt_timeout cfg) (isn_of cfg random) S).

Definition duplex_ok : Prop :=
  link_ok (TCPConfig.send_capacity cfg1) (TCPConfig.recv_capacity cfg2) (TCPConfig.rt_timeout cfg1) (isn_of cfg1 random1) S1 ∧
  link_ok (TCPConfig.send_capacity cfg2) (TCPConfig.recv_capacity cfg1) (TCPConfig.rt_timeout cfg2) (isn_of cfg2 random2) S2.

Lemma leads_reach sc rc rto isn S l l' : Link.reach sc rc rto isn S l → leads l l' → Link.reach sc rc rto isn S l'.
Proof. intros Hr [es Hes]. by eapply link_run_reach. Qed.

Lemma step_sim d first e l12 l21 :
  duplex_ok → paired d l12 l21 → link_reach cfg1 random1 cfg2 S1 l12 → link_reach cfg2 random2 cfg1 S2 l21 →
  step_enabled d first e = true →
  ∃ d' l12' l21', step d first e = Ok d' ∧ link_reach cfg1 random1 cfg2 S1 l12' ∧
    link_reach cfg2 random2 cfg1 S2 l21' ∧ paired d' l12' l21'.
Proof.
  intros [(Hsc1 & Hrc2 & Hrto1 & Hisn1 & HS1) (Hsc2 & Hrc1 & Hrto2 & Hisn2 & HS2)] Hp Hr1 Hr2 He.
  destruct (link_reach_inv _ _ _ _ _ Hsc1 Hrc2 Hrto1 Hisn1 HS1 l12 Hr1) as (a & L & W & Hi1).
  destruct (link_reach_inv _ _ _ _ _ Hsc2 Hrc1 Hrto2 Hisn2 HS2 l21 Hr2) as (b & K & V & Hi2).
  destruct first; cbn [step step_enabled] in *.
  - destruct (act_sim cfg1 cfg2 (isn_of cfg1 random1) (isn_of cfg2 random2) S1 S2 Hsc1 Hrc1 Hrc2 Hisn1 Hisn2 HS1 HS2
      a L W b K V d e l12 l21 Hp Hi1 Hi2 He) as (d' & l12' & l21' & Ha & H1 & H2 & Hp').
    exists d', l12', l21'. split_and!; try done; by eapply leads_reach.
  - assert (Hps : paired (swap d) l21 l12) by (destruct Hp; constructor; [by apply sim_swap|done|done]).
    destruct (act_sim cfg2 cfg1 (isn_of cfg2 random2) (isn_of cfg1 random1) S2 S1 Hsc2 Hrc2 Hrc1 Hisn2 Hisn1 HS2 HS1
      b K V a L W (swap d) e l21 l12 Hps Hi2 Hi1 He) as (d' & l21' & l12' & Ha & H1 & H2 & Hp').
    exists (swap d'), l12', l21'. rewrite Ha. split_and!; try done; try (by eapply leads_reach).
    destruct Hp'. constructor; [by apply sim_swap|done|done].
Qed.

Lemma duplex_sim d :
  duplex_ok → reach cfg1 cfg2 random1 random2 S1 S2 d →
  ∃ l12 l21, link_reach cfg1 random1 cfg2 S1 l12 ∧ link_reach cfg2 random2 cfg1 S2 l21 ∧ paired d l12 l21.
Proof.
  intros Hok. induction 1 as [|d first e d' _ (l12 & l21 & H1 & H2 & Hp) He Hs].
  - eexists _, _. split; [apply Link.reach_make|]. split; [apply Link.reach_make|]. constructor; [|done|done]. by constructor.
  - destruct (step_sim d first e l12 l21 Hok Hp H1 H2 He) as (d1 & l12' & l21' & Hs' & ? & ? & ?).
    exists l12', l21'. rewrite Hs in Hs'. by injection Hs' as <-.
Qed.

(** C14: two connections are two links.  In every run of two connections that talk to
    each other in which the network keeps to [Duplex.enabled] (it may lose segments and
    delivers the others in order; it delivers no segment once its sender has moved on by
    2^30 numbers, and no FIN without payload before all the bytes of the stream have
    arrived) and no tick makes a connection give up retransmitting, whatever else the
    owners, the timers and the network do, each direction is a run of the link of
    [tcp_link.v]: its sender, its receiver and what the application has still to write
    are those of the connections, so all that holds of every link holds of both
    directions. *)
Theorem duplex_refines_links (d : t) :
  duplex_ok → reach cfg1 cfg2 random1 random2 S1 S2 d →
  ∃ l12 l21, link_reach cfg1 random1 cfg2 S1 l12 ∧ link_reach cfg2 random2 cfg1 S2 l21 ∧
    Link.sender l12 = TCPConnection._sender (conn d.1) ∧ Link.receiver l12 = TCPConnection._receiver (conn d.2) ∧
    Link.todo l12 = todo d.1 ∧
    Link.sender l21 = TCPConnection._sender (conn d.2) ∧ Link.receiver l21 = TCPConnection._receiver (conn d.1) ∧
    Link.todo l21 = todo d.2.
Proof.
  intros Hok Hd. destruct (duplex_sim d Hok Hd) as (l12 & l21 & H1 & H2 & [[] _ _]). by exists l12, l21.
Qed.

(** What one end has received of the stream [S] of the other: a prefix, all of it
    once the inbound stream has ended. *)
Definition in_order (S : bytes) (capacity : Z) (from to : endpoint) : Prop :=
  let stream := TCPConnection.inbound_stream (conn to) in
  let k := StreamReassembler.ack_index (TCPReceiver._reassembler (TCPConnection._receiver (conn to))) in
  (∃ a, ByteStreamSpec.sim capacity stream a ∧ ByteStreamSpec.accepted a = take (Z.to_nat k) S) ∧
  (ByteStream.input_ended stream = true → k = len S ∧ todo from = []).

(** C13: end-to-end safety of two connections.  The network loses any segments and
    delivers the others in order, but no segment once its sender has moved on by 2^30
    numbers and no FIN without payload before all the bytes of the stream have arrived;
    and no tick makes a connection give up retransmitting ([Duplex.enabled]).  Then what
    either end has put into its inbound stream is a prefix of what the other end's
    application sends, and the stream ends only when that is everything. *)
Theorem duplex_delivers_in_order (d : t) :
  duplex_ok → reach cfg1 cfg2 random1 random2 S1 S2 d →
  in_order S1 (TCPConfig.recv_capacity cfg2) d.1 d.2 ∧ in_order S2 (TCPConfig.recv_capacity cfg1) d.2 d.1.
Proof.
  intros Hok Hd. destruct (duplex_sim d Hok Hd) as (l12 & l21 & H1 & H2 & [[? ? Er1 Er2 Et1 Et2 _ _ _ _ _ _] _ _]).
  destruct Hok as [(Hsc1 & Hrc2 & Hrto1 & Hisn1 & HS1) (Hsc2 & Hrc1 & Hrto2 & Hisn2 & HS2)].
  destruct (link_reach_inv _ _ _ _ _ Hsc1 Hrc2 Hrto1 Hisn1 HS1 l12 H1) as (a & L & W & Hi1).
  destruct (link_reach_inv _ _ _ _ _ Hsc2 Hrc1 Hrto2 Hisn2 HS2 l21 H2) as (b & K & V & Hi2).
  destruct (link_in_order _ _ _ _ Hrc2 HS1 a L W l12 Hi1) as (Ha1 & He1 & _).
  destruct (link_in_order _ _ _ _ Hrc1 HS2 b K V l21 Hi2) as (Ha2 & He2 & _).
  rewrite Er2, Et1 in *. rewrite Er1, Et2 in *. by split.
Qed.

(** Two connections never get stuck.  In every state they get into, every call
    that the owner, the timer or the network makes on either end returns, without an
    exception or undefined behaviour, and leads to another such state. *)
Theorem duplex_never_stuck (d : t) (first : bool) (e : event) :
  duplex_ok → reach cfg1 cfg2 random1 random2 S1 S2 d → step_enabled d first e = true →
  ∃ d', step d first e = Ok d' ∧ reach cfg1 cfg2 random1 random2 S1 S2 d'.
Proof.
  intros Hok Hd He. destruct (duplex_sim d Hok Hd) as (l12 & l21 & H1 & H2 & Hp).
  destruct (step_sim d first e l12 l21 Hok Hp H1 H2 He) as (d' & _ & _ & Hs & _). exists d'. split; [done|].
  by eapply reach_step.
Qed.

End duplex_properties.

(** ** A conversation *)

Section conversation.
Import Duplex.

Fixpoint converse (d : t) (es : list (bool * event)) : option t :=
  match es with
  | [] => Some d
  | (first, e) :: es =>
    if step_enabled d first e then match step d first e with Ok d => converse d es | _ => None end else None
  end.

Lemma converse_reach cfg1 cfg2 random1 random2 S1 S2 es d d' :
  reach cfg1 cfg2 random1 random2 S1 S2 d → converse d es = Some d' → reach cfg1 cfg2 random1 random2 S1 S2 d'.
Proof.
  revert d. induction es as [|[first e] es IH]; intros d Hd; cbn; [by intros [= <-]|].
  destruct (step_enabled d first e) eqn:He; [|done]. destruct (step d first e) as [d1| | |] eqn:Hs; try done.
  apply IH. by eapply reach_step.
Qed.

(** A handshake, three bytes one way, of which the first copy is lost, two bytes the
    other way, and the end of the first stream. *)
Definition caller : TCPConfig.t := TCPConfig.mk 1000 4 10 (Some (mkWrappingInt32 4294967295)).
Definition callee : TCPConfig.t := TCPConfig.mk 1000 10 10 None.

Definition start : t := (make_end caller 0 [1; 2; 3], make_end callee 7 [8; 9]).

Definition script : list (bool * event) :=
  [(true, Connect); (false, Deliver); (true, Deliver); (false, Deliver);
   (true, Write 3); (true, Lose 0); (true, Tick 1000); (false, Deliver); (false, Read 3); (true, Deliver);
   (false, Write 2); (true, Deliver); (true, EndInput); (false, Deliver); (false, Deliver)].

Definition later : t := Eval vm_compute in default start (converse start script).

Lemma conversation_ok : duplex_ok caller callee 0 7 [1; 2; 3] [8; 9].
Proof. by repeat split. Qed.

Lemma later_reach : reach caller callee 0 7 [1; 2; 3] [8; 9] later.
Proof. apply (converse_reach caller callee 0 7 [1; 2; 3] [8; 9] script start later); [apply reach_make|by vm_compute]. Qed.

Example later_received :
  ByteStream.input_ended (TCPConnection.inbound_stream (conn later.2)) = true ∧
  ByteStream.bytes_written (TCPConnection.inbound_stream (conn later.2)) = 3 ∧
  ByteStream.buffer (TCPConnection.inbound_stream (conn later.1)) = [8; 9].
Proof. by vm_compute. Qed.

Lemma duplex_refines_links_witness :
  ∃ l12 l21, Link.reach 10 10 1000 (mkWrappingInt32 4294967295) [1; 2; 3] l12 ∧
    Link.reach 10 4 1000 (mkWrappingInt32 7) [8; 9] l21 ∧
    Link.sender l12 = TCPConnection._sender (conn later.1) ∧ Link.receiver l12 = TCPConnection._receiver (conn later.2) ∧
    Link.todo l12 = todo later.1 ∧
    Link.sender l21 = TCPConnection._sender (conn later.2) ∧ Link.receiver l21 = TCPConnection._receiver (conn later.1) ∧
    Link.todo l21 = todo later.2.
Proof. exact (duplex_refines_links caller callee 0 7 [1; 2; 3] [8; 9] later conversation_ok later_reach). Defined.

Lemma duplex_delivers_in_order_witness :
  in_order [1; 2; 3] 10 later.1 later.2 ∧ in_order [8; 9] 4 later.2 later.1.
Proof. exact (duplex_delivers_in_order caller callee 0 7 [1; 2; 3] [8; 9] later conversation_ok later_reach). Defined.

Lemma duplex_never_stuck_witness :
  ∃ d', step later false EndInput = Ok d' ∧ reach caller callee 0 7 [1; 2; 3] [8; 9] d'.
Proof.
  exact (duplex_never_stuck caller callee 0 7 [1; 2; 3] [8; 9] later false EndInput conversation_ok later_reach eq_refl).
Defined.

End conversation.
