(* ===== verification/tcp_completion.v ===== *)
(** * Two connections complete

    From every state that two connections with a network between them get into, as
    long as neither has used up its retransmissions, the conversation can be brought
    to its end: both streams are delivered, closed and acknowledged.  The argument
    follows the code: what is lost is sent again when the timer expires, each segment
    is answered by one that carries the acknowledgment, and a full window is probed. *)

From S2P Require Import prelude byte_stream wrapping_integers stream_reassembler buffer parser tcp_segment tcp_receiver tcp_sender tcp_state tcp_connection tcp_link tcp_duplex.

Module Completion.

(** One of the two: its configuration, its initial sequence number and what its
    application sends. *)
Record party := mkParty { cfg : TCPConfig.t; isn : WrappingInt32; stream : bytes }.

Definition sound (p : party) : Prop :=
  0 < TCPConfig.send_capacity (cfg p) < 2 ^ 31 ∧ 0 < TCPConfig.recv_capacity (cfg p) < 2 ^ 16 ∧
  seq_ok (isn p) ∧ len (stream p) < 2 ^ 61.

Abbreviation linv p q :=
  (Link.inv (TCPConfig.send_capacity (cfg p)) (TCPConfig.recv_capacity (cfg q)) (isn p) (stream p)).

Abbreviation snd_of e := (TCPConnection._sender (Duplex.conn e)).
Abbreviation rcv_of e := (TCPConnection._receiver (Duplex.conn e)).
Abbreviation active_of e := (TCPConnection._active (Duplex.conn e)).
Abbreviation retx_of e := (TCPSender._consecutive_retransmissions (snd_of e)).
Abbreviation queue_of e := (TCPSender._segments_outstanding (snd_of e)).

(** The two ends [d] of [p] and [q] are links in good states. *)
Definition good (p q : party) (d : Duplex.t) : Prop :=
  ∃ l12 l21 a L W b K V, paired d l12 l21 ∧ linv p q a L W l12 ∧ linv q p b K V l21.

(** A conversation leads from [d] to [d']. *)
Definition goes (d d' : Duplex.t) : Prop := ∃ es, converse d es = Some d'.

End Completion.

Section moves.
Import Completion.
Implicit Types (p q : party) (d : Duplex.t) (e : Duplex.event).

Lemma goes_refl d : goes d d.
Proof. by exists []. Qed.

Lemma goes_trans d1 d2 d3 : goes d1 d2 → goes d2 d3 → goes d1 d3.
Proof.
  intros [es Hes] [es' Hes']. exists (es ++ es'). revert d1 Hes. induction es as [|[first e] es IH]; intros d1; cbn.
  { by intros [= ->]. }
  destruct (Duplex.step_enabled _ _ _); [|done]. destruct (Duplex.step _ _ _); try done. apply IH.
Qed.

Lemma goes_act d e d' : Duplex.enabled d e = true → Duplex.act d e = Ok d' → goes d d'.
Proof. intros He Ha. exists [(true, e)]. cbn. unfold Duplex.step_enabled. by rewrite He, Ha. Qed.

Lemma swap_swap d : Duplex.swap (Duplex.swap d) = d.
Proof. by destruct d. Qed.

Lemma goes_swap d d' : goes (Duplex.swap d) d' → goes d (Duplex.swap d').
Proof.
  intros [es Hes]. exists (map (λ x, (negb x.1, x.2)) es). revert d Hes. induction es as [|[first e] es IH]; intros d; cbn.
  { by intros [= <-]; rewrite swap_swap. }
  unfold Duplex.step_enabled, Duplex.step. destruct first; cbn [negb]; rewrite ?swap_swap.
  - destruct (Duplex.enabled _ e); [|done]. destruct (Duplex.act _ e) as [d1| | |] eqn:Ha; try done.
    cbn [mbind outcome_bind]. intros H. apply IH. by rewrite swap_swap.
  - destruct (Duplex.enabled _ e); [|done]. destruct (Duplex.act _ e) as [d1| | |] eqn:Ha; try done.
    cbn [mbind outcome_bind]. intros H. by apply IH.
Qed.

Lemma good_swap p q d : good p q d → good q p (Duplex.swap d).
Proof.
  intros (l12 & l21 & a & L & W & b & K & V & [Hs H1 H2] & Hi1 & Hi2). exists l21, l12, b, K, V, a, L, W.
  split; [|done]. constructor; [by apply sim_swap|done|done].
Qed.

Lemma good_act p q d e :
  sound p → sound q → good p q d → Duplex.enabled d e = true →
  ∃ d', Duplex.act d e = Ok d' ∧ good p q d' ∧ goes d d'.
Proof.
  intros (Hsc1 & Hrc1 & Hisn1 & HS1) (Hsc2 & Hrc2 & Hisn2 & HS2) (l12 & l21 & a & L & W & b & K & V & Hp & Hi1 & Hi2) He.
  destruct (act_sim (cfg p) (cfg q) (isn p) (isn q) (stream p) (stream q) Hsc1 Hrc1 Hrc2 Hisn1 Hisn2 HS1 HS2
    a L W b K V d e l12 l21 Hp Hi1 Hi2 He) as (d' & l12' & l21' & Ha & H1 & H2 & Hp').
  exists d'. split; [done|]. split; [|by eapply goes_act].
  destruct (leads_good _ _ _ _ a L W l12 l12' Hsc1 Hrc2 Hisn1 HS1 Hi1 H1) as (a' & L' & W' & Hi1').
  destruct (leads_good _ _ _ _ b K V l21 l21' Hsc2 Hrc1 Hisn2 HS2 Hi2 H2) as (b' & K' & V' & Hi2').
  by exists l12', l21', a', L', W', b', K', V'.
Qed.

(** The network loses everything one end has under way. *)
Lemma lose_all p q d :
  sound p → sound q → good p q d →
  goes d (d.1 <| Duplex.wire := [] |>, d.2) ∧ good p q (d.1 <| Duplex.wire := [] |>, d.2).
Proof.
  intros Hp Hq. destruct d as [[t c w] peer]. cbn. induction w as [|x w IH]; intros Hg; [by split; [apply goes_refl|]|].
  destruct (good_act p q _ (Duplex.Lose 0) Hp Hq Hg eq_refl) as (d' & [= <-] & Hg' & H). destruct (IH Hg') as [H1 H2].
  split; [|done]. by eapply goes_trans.
Qed.

Definition mute (d : Duplex.t) : Duplex.t := (d.1 <| Duplex.wire := [] |>, d.2 <| Duplex.wire := [] |>).

Lemma lose_both p q d : sound p → sound q → good p q d → goes d (mute d) ∧ good p q (mute d).
Proof.
  intros Hp Hq Hg. destruct (lose_all p q d Hp Hq Hg) as [H1 Hg1].
  destruct (lose_all q p (Duplex.swap _) Hq Hp (good_swap _ _ _ Hg1)) as [H2 Hg2].
  split; [eapply goes_trans; [exact H1|exact (goes_swap _ _ H2)]|exact (good_swap _ _ _ Hg2)].
Qed.

(** ** What the invariant says of the two ends *)

(** The application reads all it can. *)
Lemma drink p q d :
  sound p → sound q → good p q d →
  ∃ d', goes d d' ∧ good p q d' ∧ d'.1 = d.1 ∧ Duplex.wire d'.2 = Duplex.wire d.2 ∧
    snd_of d'.2 = snd_of d.2 ∧ active_of d'.2 = active_of d.2 ∧
    TCPReceiver.window_size (rcv_of d'.2) = TCPConfig.recv_capacity (cfg q) ∧
    Link.ack_abs (stream p) (rcv_of d'.2) = Link.ack_abs (stream p) (rcv_of d.2).
Proof.
  intros Hp Hq Hg. set (n := Z.to_nat (ByteStream.buffer_size (TCPReceiver.stream_out (rcv_of d.2)))).
  destruct (good_act q p (Duplex.swap d) (Duplex.Read n) Hq Hp (good_swap _ _ _ Hg) eq_refl) as (d' & Ha & Hg' & H).
  exists (Duplex.swap d'). split; [by apply goes_swap|]. split; [by apply good_swap|].
  destruct Hg as (l12 & l21 & a & L & W & b & K & V & [[] _ _] & Hi1 & Hi2).
  destruct d as [self peer]. cbn [Duplex.act Duplex.swap fst snd] in Ha. injection Ha as <-. cbn [Duplex.swap fst snd].
  split_and!; try done.
  destruct (read_window (TCPConfig.recv_capacity (cfg q)) (isn p) (stream p) ltac:(apply Hq) ltac:(apply Hp) (rcv_of peer) n)
    as (_ & _ & Hw).
  - cbn [fst snd] in *. rewrite <- sim_receiver2. apply Hi1.
  - apply Hw. unfold n, ByteStream.buffer_size, len. cbn. lia.
Qed.

(** What one end says of the stream of the other. *)
Lemma said_abs p q d :
  sound p → sound q → good p q d →
  said (rcv_of d.2) = if TCPReceiver._synReceived (rcv_of d.2)
    then Some (wrap (Link.ack_abs (stream p) (rcv_of d.2)) (isn p), TCPReceiver.window_size (rcv_of d.2)) else None.
Proof.
  intros (Hsc1 & Hrc1 & Hisn1 & HS1) (Hsc2 & Hrc2 & Hisn2 & HS2) (l12 & l21 & a & L & W & b & K & V & [[] _ _] & Hi1 & Hi2).
  destruct (ackno_abs _ _ _ _ Hrc2 HS1 a L W l12 Hi1) as (Hn & Hw & _). rewrite sim_receiver2 in *.
  unfold said. rewrite Hn, Hw. by destruct (TCPReceiver._synReceived _).
Qed.

(** The oldest outstanding segment of the first end. *)
Lemma front_good p q d front segs :
  sound p → sound q → good p q d → queue_of d.1 = front :: segs →
  0 < TCPSegment.length_in_sequence_space front ∧
  (Link.bare_fin front = true →
   StreamReassembler.ack_index (TCPReceiver._reassembler (rcv_of d.2)) + 2 = TCPSender._next_seqno (snd_of d.1)) ∧
  (0 < TCPReceiver.window_size (rcv_of d.2) →
   ∃ r, TCPReceiver.segment_received (rcv_of d.2) front = Ok r ∧ TCPReceiver._synReceived r = true ∧
     base (snd_of d.1) + TCPSegment.length_in_sequence_space front ≤ Link.ack_abs (stream p) r).
Proof.
  intros (Hsc1 & Hrc1 & Hisn1 & HS1) (Hsc2 & Hrc2 & Hisn2 & HS2) (l12 & l21 & a & L & W & b & K & V & [[] _ _] & Hi1 & Hi2) Hf.
  rewrite <- sim_sender1 in *. rewrite <- sim_receiver2 in *. 
  split; [apply (front_position _ _ _ _ a L W l12 front segs Hi1 Hf)|]. split.
  - intros Hb. by apply (front_fin_in_order _ _ _ _ Hrc2 HS1 a L W l12 front segs Hi1 Hf).
  - intros Hw. by apply (front_delivered _ _ _ _ Hrc2 Hisn1 HS1 a L W l12 front segs Hi1 Hw).
Qed.

(** Idle, or with something outstanding. *)
Lemma idle_good p q d : good p q d → queue_of d.1 = [] ↔ base (snd_of d.1) = TCPSender._next_seqno (snd_of d.1).
Proof.
  intros (l12 & l21 & a & L & W & b & K & V & [[] _ _] & Hi1 & Hi2). rewrite <- sim_sender1.
  by apply (idle_base _ _ _ _ a L W l12 Hi1).
Qed.

(** ** A segment arrives *)

(** What [segment_received] leaves of the sender: after the acknowledgment, and after
    the window has been filled. *)
Definition heard (c : TCPConnection.t) (seg : TCPSegment.t) (out1 : list TCPSegment.t) (s1 : TCPSender.t) : Prop :=
  let h := TCPSegment.header seg in
  if TCPHeader.ack h
  then ∃ s, TCPSender.ack_received (TCPConnection._sender c) (TCPHeader.ackno h) (TCPHeader.win h) = Ok s ∧
    out1 = TCPSender._segments_out s ∧ s1 = s <| TCPSender._segments_out := [] |>
  else out1 = [] ∧ s1 = TCPConnection._sender c.

Definition bare_answer (r : TCPReceiver.t) (seg : TCPSegment.t) : Prop :=
  bare_segment seg ∧ ∀ k, ack_of (k, seg) = said r.

Lemma reply_shape c out1 r c' :
  (s ← TCPSender.fill_window (TCPConnection._sender c);
   let '(c, isSend) := TCPConnection.real_send (c <| TCPConnection._sender := s |>) in
   if negb isSend then
     let c := c <| TCPConnection._sender ::= TCPSender.send_empty_segment |> in
     '(ACKSeg, c) ← TCPConnection.dequeue c;
     let ACKSeg := TCPConnection.set_ack_and_windowsize c ACKSeg in
     Ok (c <| TCPConnection._segments_out ::= λ out, out ++ [ACKSeg] |>)
   else Ok c) = Ok c' →
  TCPConnection._segments_out c = out1 → TCPConnection._receiver c = r →
  TCPConnection._receiver c' = r ∧ TCPConnection._active c' = TCPConnection._active c ∧
  ∃ s2, TCPSender.fill_window (TCPConnection._sender c) = Ok s2 ∧
    TCPConnection._sender c' = s2 <| TCPSender._segments_out := [] |> ∧
    (out1 = [] → TCPSender._segments_out s2 = [] →
     ∃ seg, TCPConnection._segments_out c' = [seg] ∧ bare_answer r seg).
Proof.
  intros H Hq Hr. apply bind_Ok in H as (s2 & Hf & H).
  destruct (real_send_spec (c <| TCPConnection._sender := s2 |>)) as ([_ Er _ _ Ea Eo] & Es & Eb).
  destruct (TCPConnection.real_send _) as [c1 b]. cbn [fst snd] in *. subst b.
  change (TCPConnection._receiver c1 = TCPConnection._receiver c) in Er.
  change (TCPConnection._active c1 = TCPConnection._active c) in Ea.
  change (TCPConnection._sender c1 = s2 <| TCPSender._segments_out := [] |>) in Es.
  change (TCPConnection._segments_out c1 = TCPConnection._segments_out c ++
    map (TCPConnection.set_ack_and_windowsize (c <| TCPConnection._sender := s2 |>)) (TCPSender._segments_out s2)) in Eo.
  change (TCPSender._segments_out (TCPConnection._sender (c <| TCPConnection._sender := s2 |>)))
    with (TCPSender._segments_out s2) in H.
  destruct (decide (TCPSender._segments_out s2 = [])) as [Hnil|Hne].
  - rewrite bool_decide_eq_false_2 in H by (intros E; by apply E). cbn [negb] in H. cbv zeta in H.
    destruct c1 as [cf r0 s out li ti ac]. cbn in *. subst s. unfold TCPConnection.dequeue in H.
    cbn -[TCPConnection.set_ack_and_windowsize] in H. injection H as <-. cbn -[TCPConnection.set_ack_and_windowsize]. split; [congruence|]. split; [done|].
    exists s2. split; [done|]. split; [by destruct s2|]. intros -> _. rewrite Eo, Hnil, Hq. cbn [app map].
    eexists. split; [reflexivity|]. split.
    + unfold TCPConnection.set_ack_and_windowsize. by destruct (TCPReceiver.ackno _).
    + intros k. rewrite ack_of_stamp by done. cbn. congruence.
  - rewrite bool_decide_eq_true_2 in H by done. cbn [negb] in H. injection H as <-.
    split; [congruence|]. split; [done|]. exists s2. split; [done|]. by split.
Qed.

Lemma receive_shape c seg c' :
  TCPHeader.rst (TCPSegment.header seg) = false → TCPConnection.segment_received c seg = Ok c' →
  TCPConnection._segments_out c = [] →
  TCPReceiver.segment_received (TCPConnection._receiver c) seg = Ok (TCPConnection._receiver c') ∧
  TCPConnection._active c' = TCPConnection._active c ∧
  ∃ out1 s1, heard c seg out1 s1 ∧
    if TCPSegment.length_in_sequence_space seg >? 0
    then ∃ s2, TCPSender.fill_window s1 = Ok s2 ∧
      TCPConnection._sender c' = s2 <| TCPSender._segments_out := [] |> ∧
      (out1 = [] → TCPSender._segments_out s2 = [] →
       ∃ seg, TCPConnection._segments_out c' = [seg] ∧ bare_answer (TCPConnection._receiver c') seg)
    else TCPConnection._sender c' = s1.
Proof.
  intros Hrst H Ho. unfold TCPConnection.segment_received in H. rewrite Hrst in H. cbv zeta in H.
  apply bind_Ok in H as (r & Hr & H).
  set (c1 := if _ && negb _ then _ else _) in H.
  assert (Hc1 : TCPConnection._receiver c1 = r ∧ TCPConnection._sender c1 = TCPConnection._sender c ∧
    TCPConnection._active c1 = TCPConnection._active c ∧ TCPConnection._segments_out c1 = [])
    by (unfold c1; by destruct (_ && _)).
  clearbody c1. destruct Hc1 as (Er1 & Es1 & Ea1 & Eo1). apply bind_Ok in H as (c2 & H2 & H).
  assert (Hc2 : ∃ out1 s1, heard c seg out1 s1 ∧ TCPConnection._sender c2 = s1 ∧
    (out1 = [] → TCPConnection._segments_out c2 = []) ∧ TCPConnection._receiver c2 = r ∧
    TCPConnection._active c2 = TCPConnection._active c).
  { unfold heard. rewrite <- Es1. destruct (TCPHeader.ack _).
    - apply bind_Ok in H2 as (s & Hs & [= <-]). eexists _, _. split; [by exists s|].
      destruct (real_send_spec (c1 <| TCPConnection._sender := s |>)) as ([_ Er _ _ Ea Eo] & Es & _).
      split; [exact Es|]. split; [|split; [exact (eq_trans Er Er1)|exact (eq_trans Ea Ea1)]].
      intros E. etransitivity; [exact Eo|]. cbn. by rewrite E, Eo1.
    - injection H2 as <-. by exists [], (TCPConnection._sender c1). }
  destruct Hc2 as (out1 & s1 & Hh & <- & Hout & Er2 & Ea2).
  destruct (_ >? 0).
  - destruct (reply_shape c2 (TCPConnection._segments_out c2) r c' H eq_refl Er2) as (Er & Ea & s2 & Hf & Hs2 & Hans).
    rewrite Er. split; [done|]. split; [congruence|]. exists out1, (TCPConnection._sender c2). split; [done|].
    exists s2. split; [done|]. split; [done|]. intros E1 E2. apply Hans; [by apply Hout|done].
  - injection H as <-. split; [by rewrite Er2|]. split; [done|]. by exists out1, (TCPConnection._sender c2).
Qed.

(** The first end hears the acknowledgment that the second would give now. *)
Lemma heard_spec p q d x out1 s1 :
  sound p → sound q → good p q d → Duplex.wire d.2 = [x] → ack_of x = said (rcv_of d.2) →
  heard (Duplex.conn d.1) x.2 out1 s1 →
  ∃ a, TCPSender.inv (TCPConfig.send_capacity (cfg p)) a s1 ∧ len (ByteStreamSpec.accepted a) < 2 ^ 62 ∧
    TCPSender._segments_out s1 = [] ∧ (TCPSender._segments_outstanding s1 = [] → out1 = []) ∧
    base (snd_of d.1) ≤ base s1 ≤ TCPSender._next_seqno (snd_of d.1) ∧
    TCPSender._next_seqno (snd_of d.1) ≤ TCPSender._next_seqno s1 ∧
    (TCPSender._consecutive_retransmissions s1 = retx_of d.1 ∧ base s1 = base (snd_of d.1) ∨
     TCPSender._consecutive_retransmissions s1 = 0) ∧
    match queue_of d.1 with
    | [] => True
    | front :: _ => TCPReceiver._synReceived (rcv_of d.2) = true →
        base (snd_of d.1) + TCPSegment.length_in_sequence_space front ≤ Link.ack_abs (stream p) (rcv_of d.2) →
        base (snd_of d.1) < base s1
    end.
Proof.
  intros Hp Hq Hg Hw Hx Hh. pose proof (said_abs p q d Hp Hq Hg) as Hsaid.
  destruct Hp as (Hsc1 & Hrc1 & Hisn1 & HS1), Hq as (Hsc2 & Hrc2 & Hisn2 & HS2).
  destruct Hg as (l12 & l21 & a & L & W & b & K & V & [[Es _ _ Er _ _ _ _ _ Hacks _ _] _ _] & Hi1 & Hi2).
  pose proof (accepted_bound _ _ _ _ HS1 a L W l12 Hi1) as HA. pose proof (flight_small _ _ _ _ a L W l12 Hi1) as Hfl.
  rewrite Hw in Hacks. cbn [omap list_omap] in Hacks. rewrite Hx, Hsaid in Hacks. unfold ack_of in Hx. rewrite Hsaid in Hx.
  unfold heard in Hh. destruct (TCPReceiver._synReceived (rcv_of d.2)) eqn:Hsyn.
  - destruct (TCPHeader.ack (TCPSegment.header x.2)); [|done]. injection Hx as Hk Hwin. destruct Hh as (s & Hs & -> & ->).
    rewrite Hk, Hwin in Hs. set (k := Link.ack_abs (stream p) (rcv_of d.2)) in *. set (w := TCPReceiver.window_size (rcv_of d.2)) in *.
    destruct (chain_end _ _ _ _ _ _ (Link.li_acks _ _ _ _ _ _ _ _ Hi1)) as [HL HE]. rewrite Er in HL, HE. fold k w in HL, HE.
    destruct (receiver_index _ _ _ _ Hrc2 HS1 a L W l12 Hi1) as (_ & _ & Hwr). rewrite Er in Hwr. fold w in Hwr.
    pose proof (ack_abs_next _ _ _ _ Hrc2 HS1 a L W l12 Hi1) as Hkn. rewrite Er, Es in Hkn. fold k in Hkn.
    assert (Hsy : TCPSender._syn_sent (snd_of d.1) = true)
      by (rewrite <- Es; apply (Link.li_syn_received _ _ _ _ _ _ _ _ Hi1); by rewrite Er).
    pose proof (Link.li_sender _ _ _ _ _ _ _ _ Hi1) as His. pose proof (Link.li_out _ _ _ _ _ _ _ _ Hi1) as Ho.
    pose proof (Link.li_small _ _ _ _ _ _ _ _ Hi1) as Hsm. pose proof (Link.li_window _ _ _ _ _ _ _ _ Hi1) as Hwd.
    pose proof (Link.li_isn _ _ _ _ _ _ _ _ Hi1) as Hisn. rewrite Es in *. rewrite Forall_forall in Hsm.
    destruct (evolves_ack _ Hsc1 a (snd_of d.1) L W k w His HA Hfl Hsm Hwd Hsy) as (a' & s' & Hs' & Hev & Hwd' & Hb & Hdrop);
      [lia|lia|lia|].
    rewrite Hisn, Hs in Hs'. injection Hs' as <-.
    destruct (ev_out _ _ _ _ _ Hev) as (out & Hout & Hin). rewrite Ho in Hout. cbn [app] in Hout.
    exists a'. split; [apply (drain_inv _ a' s); [apply Hev|intros seg []%elem_of_nil]|].
    split; [by rewrite (ev_accepted _ _ _ _ _ Hev)|]. split; [done|].
    split.
    { intros Hnil. cbn in Hnil. rewrite Hout. destruct out as [|seg out]; [done|].
      specialize (Hin seg ltac:(apply elem_of_cons; by left)). rewrite Hnil in Hin. by apply elem_of_nil in Hin. }
    change (base (s <| TCPSender._segments_out := [] |>)) with (base s).
    pose proof (Link.win_base _ _ _ Hwd') as Hb'. split; [lia|]. split; [apply Hev|].
    split; [apply (ack_received_retx _ a _ (wrap k (isn p)) w s His); [by split|lia|done]|].
    destruct (queue_of d.1) as [|front segs] eqn:Eq; [done|]. intros _ Hcov. specialize (Hdrop Hcov).
    pose proof (TCPSender.inv_outstanding _ _ _ His) as Hl. rewrite Eq in Hl. destruct Hl as (_ & ? & _). lia.
  - destruct (TCPHeader.ack (TCPSegment.header x.2)); [done|]. destruct Hh as [-> ->]. rewrite <- Es in *.
    pose proof (Link.win_base _ _ _ (Link.li_window _ _ _ _ _ _ _ _ Hi1)) as Hb'.
    exists a. split; [apply Hi1|]. split; [done|]. split; [apply Hi1|]. split; [done|]. split; [lia|]. split; [done|]. split; [by left|].
    by destruct (TCPSender._segments_outstanding _).
Qed.

(** What the arrival of [x] at the first end does to its sender. *)
Record stirred (p : party) (d d' : Duplex.t) : Prop := {
  st_base : base (snd_of d.1) ≤ base (snd_of d'.1);
  st_next : TCPSender._next_seqno (snd_of d.1) ≤ TCPSender._next_seqno (snd_of d'.1);
  st_retx : retx_of d'.1 = retx_of d.1 ∧ base (snd_of d'.1) = base (snd_of d.1) ∨ retx_of d'.1 = 0;
  st_moves : match queue_of d.1 with
    | [] => True
    | front :: _ => TCPReceiver._synReceived (rcv_of d.2) = true →
        base (snd_of d.1) + TCPSegment.length_in_sequence_space front ≤ Link.ack_abs (stream p) (rcv_of d.2) →
        base (snd_of d.1) < base (snd_of d'.1)
    end
}.

(** All that an end has under way is a bare acknowledgment, not an old one. *)
Definition answering (e : Duplex.endpoint) : Prop :=
  ∃ k seg, Duplex.wire e = [(k, seg)] ∧ bare_answer (rcv_of e) seg ∧ TCPSender._next_seqno (snd_of e) ≤ k + 2 ^ 30.

Lemma arrive p q d x :
  sound p → sound q → good p q d → Duplex.wire d.1 = [] → Duplex.wire d.2 = [x] →
  ack_of x = said (rcv_of d.2) → Duplex.enabled d Duplex.Deliver = true →
  ∃ d', goes d d' ∧ good p q d' ∧ d'.2 = d.2 <| Duplex.wire := [] |> ∧ active_of d'.1 = active_of d.1 ∧
    TCPReceiver.segment_received (rcv_of d.1) x.2 = Ok (rcv_of d'.1) ∧ stirred p d d' ∧
    (0 < TCPSegment.length_in_sequence_space x.2 → queue_of d'.1 = [] → answering d'.1).
Proof.
  intros Hp Hq Hg Hw1 Hw2 Hx He. destruct (good_act p q d _ Hp Hq Hg He) as (d' & Ha & Hg' & Hgo).
  exists d'. split; [done|]. split; [done|].
  assert (Hfacts : TCPConnection._segments_out (Duplex.conn d.1) = [] ∧ TCPHeader.rst (TCPSegment.header x.2) = false).
  { destruct Hg as (l12 & l21 & a & L & W & b & K & V & [Hs ? _] & _). split; [done|].
    pose proof (sim_wire2 _ _ _ _ _ _ _ _ Hs) as Hm. rewrite Hw2 in Hm. apply Forall_inv in Hm. apply Hm. }
  destruct Hfacts as [Ho Hrst]. pose proof (idle_good p q d' Hg') as Hidle.
  destruct d as [self peer]. cbn [Duplex.act fst snd] in *. rewrite Hw2 in Ha. destruct x as [k seg].
  apply bind_Ok in Ha as (c' & Hc & [= <-]). cbn [fst snd] in *. split; [done|].
  destruct (receive_shape _ seg c' Hrst Hc Ho) as (Hr & Hact & out1 & s1 & Hh & Hs).
  split; [exact Hact|]. split; [exact Hr|].
  destruct (heard_spec p q (self, peer) (k, seg) out1 s1 Hp Hq Hg Hw2 Hx Hh) as (a & Hi & HA & Hout & Hq1 & Hb & Hnx & Hretx & Hmv).
  cbn [fst snd] in *.
  assert (Hsum : base (TCPConnection._sender c') = base s1 ∧
    TCPSender._next_seqno s1 ≤ TCPSender._next_seqno (TCPConnection._sender c') ∧
    TCPSender._consecutive_retransmissions (TCPConnection._sender c') = TCPSender._consecutive_retransmissions s1 ∧
    (0 < TCPSegment.length_in_sequence_space seg → TCPSender._segments_outstanding (TCPConnection._sender c') = [] →
     ∃ seg, TCPConnection._segments_out c' = [seg] ∧ bare_answer (TCPConnection._receiver c') seg)).
  { destruct (_ >? 0) eqn:Elen; [|rewrite Hs; split_and!; try done; lia].
    destruct Hs as (s2 & Hf & Es & Hans). destruct (fill_window_spec _ a s1 Hi HA) as (a2 & s2' & Hf' & Hadv & _).
    rewrite Hf in Hf'. injection Hf' as <-. rewrite Es. split; [exact (adv_base _ _ _ _ _ Hadv)|].
    split; [exact (adv_next _ _ _ _ _ Hadv)|]. split; [exact (adv_retx _ _ _ _ _ Hadv)|]. intros _ Hnil. destruct (adv_queue _ _ _ _ _ Hadv) as (new & Hnew & Hnew').
    cbn in Hnil. rewrite Hnil in Hnew. symmetry in Hnew. apply app_nil in Hnew as [Hnil1 ->].
    apply Hans; [by apply Hq1|by rewrite Hnew', Hout]. }
  destruct Hsum as (Eb & En & Ec & Hans). split; [constructor|].
  - change (base (snd_of self) ≤ base (TCPConnection._sender c')). lia.
  - change (TCPSender._next_seqno (snd_of self) ≤ TCPSender._next_seqno (TCPConnection._sender c')). lia.
  - change (TCPSender._consecutive_retransmissions (TCPConnection._sender c') = retx_of self ∧
      base (TCPConnection._sender c') = base (snd_of self) ∨ TCPSender._consecutive_retransmissions (TCPConnection._sender c') = 0).
    by rewrite Eb, Ec.
  - cbn [fst snd]. change (snd_of (Duplex.flush self c')) with (TCPConnection._sender c'). by rewrite Eb.
  - intros Hlen Hnil. change (TCPSender._segments_outstanding (TCPConnection._sender c') = []) in Hnil.
    destruct (Hans Hlen Hnil) as (ack & Hack & Hbare). eexists _, ack. split; [|split; [exact Hbare|]].
    + unfold Duplex.flush. cbn. unfold TCPConnection.segments_out. by rewrite Hw1, Hack.
    + apply Hidle in Hnil. cbn in Hnil. unfold TCPSender.next_seqno_absolute. cbn. unfold base in *. lia.
Qed.

(** ** The timer expires *)

Lemma expire_spec p q d front segs :
  sound p → sound q → good p q d → queue_of d.1 = front :: segs → 0 ≤ retx_of d.1 < TCPConfig.MAX_RETX_ATTEMPTS →
  ∃ ms s, TCPSender.tick (snd_of d.1) ms = Ok s ∧ TCPSender._segments_out s = [front] ∧ plain front ∧
    TCPSender._segments_outstanding s = front :: segs ∧
    TCPSender._next_seqno s = TCPSender._next_seqno (snd_of d.1) ∧
    TCPSender._bytes_in_flight s = TCPSender._bytes_in_flight (snd_of d.1) ∧ TCPSender._bytes_in_flight s ≠ 0 ∧
    0 ≤ TCPSender._consecutive_retransmissions s ≤ TCPConfig.MAX_RETX_ATTEMPTS.
Proof.
  intros Hp Hq Hg Hf Hretx. pose proof (idle_good p q d Hg) as Hidle.
  destruct Hg as (l12 & l21 & a & L & W & b & K & V & [[Es _ _ _ _ _ _ _ _ _ [Hpl _] _] _ _] & Hi1 & _).
  pose proof (Link.li_sender _ _ _ _ _ _ _ _ Hi1) as Hi. pose proof (Link.li_out _ _ _ _ _ _ _ _ Hi1) as Ho.
  destruct (Link.li_rto _ _ _ _ _ _ _ _ Hi1) as [Hr _]. rewrite Es in *. set (s := snd_of d.1) in *.
  exists (u32 (TCPSender._rto s - TCPSender._time_elapsed s)).
  destruct (tick_spec _ a s (u32 (TCPSender._rto s - TCPSender._time_elapsed s)) Hi) as (s' & Ht & _ & Hn & Hb & _ & Hqq & Hout).
  rewrite Hf in Hout, Hqq.
  rewrite (proj2 (Z.leb_le _ _)) in Hout.
  2:{ unfold u32. rewrite Z.add_mod_idemp_r by lia. rewrite <- (u32_id (TCPSender._rto s) Hr) at 1. unfold u32.
      replace (TCPSender._time_elapsed s + _) with (TCPSender._rto s) by lia. lia. }
  destruct Hout as (Hout & _ & _ & Hc & _). rewrite Ho in Hout. exists s'. split; [done|]. split; [done|].
  split; [rewrite Hf in Hpl; by apply Forall_inv in Hpl|]. split; [done|]. split; [done|]. split; [done|]. split.
  - intros E. rewrite Hb in E. rewrite Hf in Hidle. destruct Hidle as [_ Hidle]. unfold base in Hidle. discriminate Hidle. lia.
  - rewrite Hc. unfold TCPConfig.MAX_RETX_ATTEMPTS in *. destruct (_ || _); [rewrite u16_id|]; lia.
Qed.

(** What [tick] does when the sender retransmits and the connection does not give up. *)
Lemma tick_retransmits c ms s front :
  TCPSender.tick (TCPConnection._sender c) ms = Ok s → TCPSender._segments_out s = [front] →
  TCPSender._bytes_in_flight s ≠ 0 → TCPSender._consecutive_retransmissions s ≤ TCPConfig.MAX_RETX_ATTEMPTS →
  TCPConnection._segments_out c = [] →
  ∃ c', TCPConnection.tick c ms = Ok c' ∧ TCPConnection._sender c' = s <| TCPSender._segments_out := [] |> ∧
    TCPConnection._receiver c' = TCPConnection._receiver c ∧ TCPConnection._active c' = TCPConnection._active c ∧
    ∃ c1, TCPConnection._receiver c1 = TCPConnection._receiver c ∧
      TCPConnection._segments_out c' = [TCPConnection.set_ack_and_windowsize c1 front].
Proof.
  intros Ht Ho Hb Hc Hso. unfold TCPConnection.tick. cbv zeta.
  change (TCPConnection._sender (c <| _ ::= _ |>)) with (TCPConnection._sender c). rewrite Ht. cbn [mbind outcome_bind].
  destruct c as [cf r s0 out li ti ac]. cbn [TCPConnection._segments_out] in Hso. subst out.
  unfold TCPConnection.dequeue, TCPSender.segments_out. cbn [TCPConnection._sender upd eta TCPConnection.eta_t]. rewrite Ho.
  change (len [front] >? 0) with true. cbn [head or_UB mbind outcome_bind].
  match goal with |- context [?x >? TCPConfig.MAX_RETX_ATTEMPTS] =>
    change x with (TCPSender._consecutive_retransmissions s);
    replace (TCPSender._consecutive_retransmissions s >? TCPConfig.MAX_RETX_ATTEMPTS) with false by lia end.
  cbn [mbind outcome_bind]. rewrite (andb_comm (TCPConnection.check_inbound_ended _)).
  unfold TCPConnection.check_outbound_ended at 1, TCPSender.bytes_in_flight.
  match goal with |- context [?x =? 0] => change x with (TCPSender._bytes_in_flight s) end.
  rewrite (proj2 (Z.eqb_neq _ _) Hb), andb_false_r. cbn [andb].
  eexists. split; [reflexivity|]. split; [by destruct s; cbn in *; subst|]. split; [done|]. split; [done|].
  by eexists (TCPConnection.mk cf r _ _ _ _ _).
Qed.

Lemma retry p q d front segs :
  sound p → sound q → good p q d → queue_of d.1 = front :: segs → 0 ≤ retx_of d.1 < TCPConfig.MAX_RETX_ATTEMPTS →
  ∃ d' seg, goes d d' ∧ good p q d' ∧ d'.2 = d.2 ∧ rcv_of d'.1 = rcv_of d.1 ∧ active_of d'.1 = active_of d.1 ∧
    Duplex.wire d'.1 = Duplex.wire d.1 ++ [(TCPSender._next_seqno (snd_of d.1), seg)] ∧ stamped front seg ∧
    (∀ k, ack_of (k, seg) = said (rcv_of d.1)) ∧ queue_of d'.1 = front :: segs ∧
    TCPSender._next_seqno (snd_of d'.1) = TCPSender._next_seqno (snd_of d.1) ∧
    base (snd_of d'.1) = base (snd_of d.1) ∧ 0 ≤ retx_of d'.1 ≤ TCPConfig.MAX_RETX_ATTEMPTS.
Proof.
  intros Hp Hq Hg Hf Hretx.
  destruct (expire_spec p q d front segs Hp Hq Hg Hf Hretx) as (ms & s & Ht & Ho & Hpl & Hqq & Hn & Hb & Hb0 & Hc).
  destruct (good_act p q d (Duplex.Tick ms) Hp Hq Hg) as (d' & Ha & Hg' & Hgo).
  { destruct d. cbn [Duplex.enabled fst] in *. rewrite Ht. apply Z.leb_le, Hc. }
  assert (Hso : TCPConnection._segments_out (Duplex.conn d.1) = [])
    by (destruct Hg as (l12 & l21 & a & L & W & b & K & V & [_ ? _] & _); done).
  destruct (tick_retransmits _ ms s front Ht Ho Hb0 (proj2 Hc) Hso) as (c' & Htick & Es & Er & Ea & c1 & Er1 & Eo).
  destruct d as [self peer]. cbn [Duplex.act fst snd] in *. rewrite Htick in Ha. cbn [mbind outcome_bind] in Ha.
  injection Ha as <-. exists (Duplex.flush self c', peer), (TCPConnection.set_ack_and_windowsize c1 front).
  assert (Ew : Duplex.wire (Duplex.flush self c') =
    Duplex.wire self ++ [(TCPSender._next_seqno (snd_of self), TCPConnection.set_ack_and_windowsize c1 front)])
    by (unfold Duplex.flush, TCPConnection.segments_out; cbn; by rewrite Eo).
  cbn [fst snd] in *. change (snd_of (Duplex.flush self c')) with (TCPConnection._sender c'). rewrite Es, Ew.
  split_and!; try done; [apply set_ack_stamped| |unfold base; cbn; lia|apply Hc..].
  intros k. by rewrite ack_of_stamp, Er1.
Qed.

(** ** One end gets through to the other *)

Lemma deliverable d n seg :
  Duplex.wire d.2 = [(n, seg)] → TCPSender._next_seqno (snd_of d.2) ≤ n + 2 ^ 30 →
  (Link.bare_fin seg = true →
   StreamReassembler.ack_index (TCPReceiver._reassembler (rcv_of d.1)) + 2 = TCPSender._next_seqno (snd_of d.2)) →
  Duplex.enabled d Duplex.Deliver = true.
Proof.
  intros Hw Hn Hb. destruct d as [self peer]. cbn [fst snd] in *. unfold Duplex.enabled. rewrite Hw.
  apply andb_true_intro. split; [apply Z.leb_le, Hn|]. destruct (Link.bare_fin seg); [|done]. apply Z.eqb_eq. by apply Hb.
Qed.

(** The second end has received the oldest segment the first has outstanding. *)
Definition owes p d : Prop :=
  match queue_of d.1 with
  | [] => False
  | front :: _ => TCPReceiver._synReceived (rcv_of d.2) = true ∧
      base (snd_of d.1) + TCPSegment.length_in_sequence_space front ≤ Link.ack_abs (stream p) (rcv_of d.2)
  end.

(** A retransmission arrives.  It carries what its sender has to say to the other. *)
Lemma push p q d :
  sound p → sound q → good p q d → Duplex.wire d.1 = [] → Duplex.wire d.2 = [] →
  queue_of d.1 ≠ [] → 0 ≤ retx_of d.1 < TCPConfig.MAX_RETX_ATTEMPTS →
  ∃ d', goes d d' ∧ good p q d' ∧ Duplex.wire d'.1 = [] ∧
    active_of d'.1 = active_of d.1 ∧ active_of d'.2 = active_of d.2 ∧
    queue_of d'.1 = queue_of d.1 ∧ base (snd_of d'.1) = base (snd_of d.1) ∧
    0 ≤ retx_of d'.1 ≤ TCPConfig.MAX_RETX_ATTEMPTS ∧ owes p d' ∧
    stirred q (Duplex.swap d) (Duplex.swap d') ∧ (queue_of d'.2 = [] → answering d'.2).
Proof.
  intros Hp Hq Hg Hw1 Hw2 Hne Hretx. destruct (queue_of d.1) as [|front segs] eqn:Hf; [done|].
  destruct (drink p q d Hp Hq Hg) as (d1 & Hgo1 & Hg1 & E1 & Ew & Es & Ea & Hwin & Hk).
  rewrite <- E1 in Hf, Hretx, Hw1.
  destruct (retry p q d1 front segs Hp Hq Hg1 Hf Hretx)
    as (d2 & seg & Hgo2 & Hg2 & E2 & Er2 & Ea2 & Hwire & Hst & Hack & Hf2 & Hn2 & Hb2 & Hc2).
  rewrite Hw1 in Hwire. cbn [app] in Hwire.
  destruct (front_good p q d2 front segs Hp Hq Hg2 Hf2) as (Hlen & Hbare & Hdel).
  destruct Hdel as (r & Hr & Hsyn & Hcov); [rewrite E2, Hwin; destruct Hq as (_ & ? & _); lia|].
  destruct (stamped_same front seg (rcv_of d2.2) Hst) as (Hrec & Hls & Hbf & _).
  destruct (arrive q p (Duplex.swap d2) (TCPSender._next_seqno (snd_of d1.1), seg)) as (e & Hgo & Hg' & Ee & Eact & Erec & Hstir & Hans);
    try done.
  { by apply good_swap. }
  { cbn. by rewrite E2, Ew. }
  { rewrite Hack. cbn. by rewrite Er2. }
  { eapply deliverable; [exact Hwire|cbn; lia|]. rewrite Hbf. exact Hbare. }
  cbn [Duplex.swap fst snd] in *. rewrite Hrec, Hr in Erec. injection Erec as Erec.
  exists (Duplex.swap e). split; [eapply goes_trans; [exact Hgo1|]; eapply goes_trans; [exact Hgo2|]; by apply goes_swap|].
  split; [by apply good_swap|]. rewrite swap_swap. cbn [Duplex.swap fst snd]. rewrite Ee, <- E1. cbn.
  split; [done|]. split; [done|]. split; [rewrite Eact, E2; done|]. split; [congruence|]. split; [done|]. split; [done|].
  unfold owes. cbn. rewrite Ee. cbn. rewrite Hf2, <- Erec. split; [done|]. split.
  - destruct Hstir as [S1 S2 S3 S4]. cbn [Duplex.swap fst snd] in *. rewrite E2, Es in *. rewrite Er2, E1 in S4. by constructor.
  - apply Hans. by rewrite Hls.
Qed.

(** ** Getting closer to the end *)

(** How much is left to do for a sender of [S]. *)
Definition togo (S : bytes) (s : TCPSender.t) : Z :=
  2 * (2 + len S - base s) + b2z (bool_decide (TCPSender._segments_outstanding s = [])).

Definition measure p q d : Z := togo (stream p) (snd_of d.1) + togo (stream q) (snd_of d.2).

Lemma togo_nonneg p q d : good p q d → 0 ≤ togo (stream p) (snd_of d.1).
Proof.
  intros (l12 & l21 & a & L & W & b & K & V & [[] _ _] & Hi1 & _). rewrite <- sim_sender1.
  exact (left_over_nonneg _ _ _ _ a L W l12 Hi1).
Qed.

Lemma measure_swap p q d : measure q p (Duplex.swap d) = measure p q d.
Proof. unfold measure. cbn. lia. Qed.

Lemma measure_nonneg p q d : good p q d → 0 ≤ measure p q d.
Proof.
  intros Hg. pose proof (togo_nonneg p q d Hg). pose proof (togo_nonneg q p _ (good_swap p q d Hg)).
  unfold measure. cbn in *. lia.
Qed.

Lemma togo_base S s s' : base s < base s' → togo S s' < togo S s.
Proof. unfold togo, b2z. intros ?. case_tests; lia. Qed.

Lemma togo_busy S s s' :
  base s ≤ base s' → TCPSender._segments_outstanding s = [] → TCPSender._segments_outstanding s' ≠ [] →
  togo S s' < togo S s.
Proof.
  unfold togo. intros ? Hq Hq'. rewrite bool_decide_eq_false_2, bool_decide_eq_true_2 by done. cbn [b2z]. lia.
Qed.

Lemma togo_same S s s' :
  base s' = base s → TCPSender._segments_outstanding s' = TCPSender._segments_outstanding s → togo S s' = togo S s.
Proof. unfold togo. by intros -> ->. Qed.

(** Neither end has used up its retransmissions. *)
Definition patient d : Prop :=
  0 ≤ retx_of d.1 < TCPConfig.MAX_RETX_ATTEMPTS ∧ 0 ≤ retx_of d.2 < TCPConfig.MAX_RETX_ATTEMPTS.

Definition alive_as d d' : Prop := active_of d'.1 = active_of d.1 ∧ active_of d'.2 = active_of d.2.

(** The conversation can get closer to its end from [d]. *)
Definition progresses p q d : Prop :=
  ∃ d', goes d d' ∧ good p q d' ∧ patient d' ∧ alive_as d d' ∧ measure p q d' < measure p q d.

Lemma progresses_swap p q d : progresses q p (Duplex.swap d) → progresses p q d.
Proof.
  intros (d' & Hgo & Hg & [H1 H2] & [A1 A2] & Hm). exists (Duplex.swap d').
  split; [by apply goes_swap|]. split; [by apply good_swap|]. split; [done|]. split; [done|].
  by rewrite <- (measure_swap p q d), measure_swap.
Qed.

Lemma progresses_from p q d d' :
  goes d d' → alive_as d d' → measure p q d' ≤ measure p q d → progresses p q d' → progresses p q d.
Proof.
  intros Hgo [A1 A2] Hm (d2 & H & Hg & Hp & [B1 B2] & Hm2). exists d2.
  split; [by eapply goes_trans|]. split; [done|]. split; [done|]. split; [split; congruence|lia].
Qed.

(** The acknowledgment that is owed arrives: alone, or with a retransmission, in
    which case the other direction is owed one in turn. *)
Lemma settle n : ∀ p q d,
  sound p → sound q → good p q d → measure p q d < Z.of_nat n → Duplex.wire d.1 = [] → owes p d →
  (queue_of d.2 = [] → answering d.2) →
  0 ≤ retx_of d.1 ≤ TCPConfig.MAX_RETX_ATTEMPTS → 0 ≤ retx_of d.2 < TCPConfig.MAX_RETX_ATTEMPTS →
  progresses p q d.
Proof.
  induction n as [|n IH]; intros p q d Hp Hq Hg Hn Hw Howe Hans Hc1 Hc2.
  { pose proof (measure_nonneg p q d Hg). lia. }
  assert (Hmove : ∀ d', stirred p d d' → base (snd_of d.1) < base (snd_of d'.1) ∧ retx_of d'.1 = 0).
  { intros d' [_ _ Hr Hmv]. unfold owes in Howe. destruct (queue_of d.1); [done|].
    specialize (Hmv (proj1 Howe) (proj2 Howe)). split; [done|]. destruct Hr as [[_ ?]|?]; [lia|done]. }
  destruct (decide (queue_of d.2 = [])) as [Hq2|Hq2].
  - destruct (Hans Hq2) as (k & seg & Hwire & [Hbare Hack] & Hage).
    destruct (arrive p q d (k, seg)) as (d' & Hgo & Hg' & E2 & Ea & _ & Hstir & _); try done.
    { eapply deliverable; [exact Hwire|done|]. unfold Link.bare_fin. destruct Hbare as (_ & -> & _). done. }
    destruct (Hmove d' Hstir) as [Hb Hr]. exists d'. split; [done|]. split; [done|].
    assert (Es : snd_of d'.2 = snd_of d.2) by (by rewrite E2). split; [unfold patient; by rewrite Es, Hr|].
    split; [split; [done|by rewrite E2]|]. unfold measure. rewrite Es. pose proof (togo_base (stream p) _ _ Hb). lia.
  - destruct (lose_both p q d Hp Hq Hg) as [Hgo1 Hg1].
    destruct (push q p (Duplex.swap (mute d)) Hq Hp (good_swap _ _ _ Hg1)) as
      (e & Hgo2 & Hg2 & Hw2 & Ea1 & Ea2 & Eq & Eb & Hc & Ho & Hstir & Ha); try done.
    rewrite swap_swap in Hstir. cbn [Duplex.swap mute fst snd] in *.
    destruct (Hmove (Duplex.swap e)) as [Hb Hr]; [by destruct Hstir|]. cbn [Duplex.swap fst snd] in Hb, Hr.
    assert (Hm : measure q p e < measure p q d).
    { unfold measure. pose proof (togo_base (stream p) _ _ Hb). rewrite (togo_same (stream q) _ _ Eb Eq). cbn in *. lia. }
    apply (progresses_from p q d (Duplex.swap e)); [|done|by rewrite <- measure_swap, swap_swap; lia|].
    { eapply goes_trans; [exact Hgo1|]. by apply goes_swap. }
    apply progresses_swap. rewrite swap_swap. apply IH; try done; [lia|rewrite Hr; done].
Qed.

(** An idle end sends what its application gives it to send; [st] is the stream after
    the application's call. *)
Lemma filled p q a L W l st :
  sound p → linv p q a L W (l <| Link.sender ::= λ s, s <| TCPSender._stream := st |> |>) →
  TCPSender._segments_outstanding (Link.sender l) = [] →
  TCPSender._syn_sent (Link.sender l) = false ∨ TCPSender._fin_sent (Link.sender l) = false ∧
    (ByteStream.buffer st ≠ [] ∨ ByteStream.input_ended st = true) →
  ∃ s, TCPSender.fill_window ((Link.sender l) <| TCPSender._stream := st |>) = Ok s ∧
    base s = base (Link.sender l) ∧ base s ≠ TCPSender._next_seqno s ∧
    TCPSender._consecutive_retransmissions s = TCPSender._consecutive_retransmissions (Link.sender l).
Proof.
  intros (_ & _ & _ & HS) Hi Hq Hwork. pose proof (proj1 (idle_base _ _ _ _ a L W _ Hi) Hq) as Hb.
  destruct (fill_moves _ _ _ _ HS a L W _ Hi Hq Hwork) as (s & Hf & Hbase & Hn). exists s. split; [exact Hf|].
  split; [exact Hbase|]. split; [lia|].
  destruct (fill_window_spec _ a _ (Link.li_sender _ _ _ _ _ _ _ _ Hi) (accepted_bound _ _ _ _ HS a L W _ Hi)) as (a' & s' & Hf' & Hadv & _).
  rewrite Hf in Hf'. injection Hf' as <-. exact (adv_retx _ _ _ _ _ Hadv).
Qed.

(** What is left of a call that changes the stream and fills the window. *)
Lemma busy p q d d' c st s :
  good p q d → good p q d' → goes d d' → patient d → queue_of d.1 = [] →
  base s = base (snd_of d.1) → base s ≠ TCPSender._next_seqno s → TCPSender._consecutive_retransmissions s = retx_of d.1 →
  c = (TCPConnection.real_send ((Duplex.conn d.1) <| TCPConnection._sender ::= λ s, s <| TCPSender._stream := st |> |>
    <| TCPConnection._sender := s |>)).1 →
  Duplex.conn d'.1 = c <| TCPConnection._segments_out := [] |> → d'.2 = d.2 → progresses p q d.
Proof.
  intros Hg Hg' Hgo [P1 P2] Hq Hb Hn Hc -> E1 E2. exists d'. split; [done|]. split; [done|].
  destruct (real_send_spec ((Duplex.conn d.1) <| TCPConnection._sender ::= λ s, s <| TCPSender._stream := st |> |>
    <| TCPConnection._sender := s |>)) as ([_ _ _ _ Ea _] & Es & _).
  change (snd_of d'.1) with (TCPConnection._sender (Duplex.conn d'.1)).
  assert (Esnd : snd_of d'.1 = s <| TCPSender._segments_out := [] |>) by (rewrite E1; exact Es).
  assert (Hne : queue_of d'.1 ≠ []).
  { intros Hnil. apply (idle_good p q d' Hg') in Hnil. rewrite Esnd in Hnil. done. }
  split; [|split].
  - split; [|by rewrite E2]. rewrite Esnd. cbn. by rewrite Hc.
  - split; [rewrite E1; exact Ea|by rewrite E2].
  - unfold measure. rewrite E2. enough (togo (stream p) (snd_of d'.1) < togo (stream p) (snd_of d.1)) by lia.
    apply togo_busy; try done. rewrite Esnd. change (base (s <| _ := _ |>)) with (base s). lia.
Qed.

Lemma begin_work p q d :
  sound p → sound q → good p q d → patient d → queue_of d.1 = [] → TCPSender._fin_sent (snd_of d.1) = false →
  progresses p q d.
Proof.
  intros Hp Hq Hg Hpat Hidle Hfin. pose proof Hp as (Hsc & _ & _ & HS).
  pose proof Hg as (l12 & l21 & a & L & W & b & K & V & [[Es _ _ _ Et _ _ _ _ _ _ _] _ _] & Hi & _).
  destruct d as [self peer]. cbn [fst snd] in *.
  destruct (Duplex.todo self) as [|x rest] eqn:Etodo.
  - destruct (end_input_inv _ _ _ _ Hsc a L W l12 Hi) as (a' & l' & Hstep & Hi' & _).
    cbn [Link.step] in Hstep. rewrite Et in Hstep. injection Hstep as <-.
    set (st := ByteStream.end_input (TCPSender._stream (snd_of self))).
    destruct (filled p q a' L W l12 st Hp) as (s & Hf & Hb & Hn & Hc); [unfold st; rewrite <- Es; exact Hi'|by rewrite Es|right|].
    { rewrite Es. split; [done|]. by right. }
    destruct (good_act p q (self, peer) Duplex.EndInput Hp Hq Hg eq_refl) as (d' & Ha & Hg' & Hgo).
    cbn [Duplex.act] in Ha. rewrite Etodo in Ha. unfold TCPConnection.end_input_stream in Ha.
    apply bind_Ok in Ha as (c & Hcall & [= <-]). apply bind_Ok in Hcall as (s' & Hf' & [= <-]).
    rewrite Es in *. change (TCPSender.fill_window ((snd_of self) <| TCPSender._stream := st |>) = Ok s') in Hf'.
    rewrite Hf in Hf'. injection Hf' as <-.
    by eapply (busy p q (self, peer) _ _ st s); try done.
  - destruct (write_inv _ _ _ _ Hsc a L W l12 (length (x :: rest)) Hi) as (a' & l' & st & Hstep & Hi' & Hst & Hbuf).
    rewrite Et in Hbuf. destruct Hbuf as [[? _]|Hbuf]; [lia|done|].
    destruct (good_act p q (self, peer) (Duplex.Write (length (x :: rest))) Hp Hq Hg eq_refl) as (d' & Ha & Hg' & Hgo).
    cbn [Duplex.act] in Ha. rewrite Etodo in Ha. apply bind_Ok in Ha as ([c m] & Hcall & [= <-]).
    unfold TCPConnection.write in Hcall. rewrite take_ge in Hcall by done.
    replace (len (x :: rest) =? 0) with false in Hcall by (unfold len; cbn; lia).
    cbn [Link.step] in Hstep. rewrite Es, Et in Hstep. rewrite take_ge in Hstep by done.
    destruct (ByteStream.write (TCPSender.stream_in (snd_of self)) (x :: rest)) as [st' k]. injection Hstep as <-.
    cbn [Link.sender upd Link.eta_t eta] in Hst. assert (st' = st) as -> by (rewrite Es in Hst; by injection Hst).
    destruct (filled p q a' L W (l12 <| Link.todo := drop (Z.to_nat k) (x :: rest) |>) st Hp) as (s & Hf & Hb & Hn & Hc);
      [destruct l12; cbn in *; subst; exact Hi'|cbn; by rewrite Es|right; cbn; rewrite Es; split; [done|by left]|].
    change (Link.sender (l12 <| Link.todo := _ |>)) with (Link.sender l12) in Hf, Hb, Hc. rewrite Es in Hf, Hb, Hc.
    apply bind_Ok in Hcall as (s' & Hf' & [= <- <-]).
    change (TCPSender.fill_window ((snd_of self) <| TCPSender._stream := st |>) = Ok s') in Hf'.
    rewrite Hf in Hf'. injection Hf' as <-. by eapply (busy p q (self, peer) _ _ st s); try done.
Qed.

Lemma togo_stirred p q d d' : good p q d → good p q d' → stirred p d d' → togo (stream p) (snd_of d'.1) ≤ togo (stream p) (snd_of d.1).
Proof.
  intros Hg Hg' [Hb Hn _ _]. pose proof (idle_good p q d Hg) as Hi. pose proof (idle_good p q d' Hg') as Hi'.
  unfold togo. repeat case_bool_decide; cbn [b2z]; try lia.
  assert (base (snd_of d'.1) = TCPSender._next_seqno (snd_of d'.1)) by tauto.
  assert (base (snd_of d.1) ≠ TCPSender._next_seqno (snd_of d.1)) by tauto.
  destruct (Z.eq_dec (base (snd_of d.1)) (base (snd_of d'.1))); [|lia].
  destruct Hg as (l12 & l21 & a & L & W & b & K & V & [[Es _ _ _ _ _ _ _ _ _ _ _] _ _] & Hi1 & _).
  pose proof (TCPSender.inv_flight _ _ _ (Link.li_sender _ _ _ _ _ _ _ _ Hi1)). rewrite Es in *. unfold base in *. lia.
Qed.

(** With something outstanding, a retransmission and its answer make progress. *)
Lemma work p q d :
  sound p → sound q → good p q d → patient d → queue_of d.1 ≠ [] → progresses p q d.
Proof.
  intros Hp Hq Hg [P1 P2] Hne. destruct (lose_both p q d Hp Hq Hg) as [Hgo1 Hg1].
  destruct (push p q (mute d) Hp Hq Hg1) as (e & Hgo2 & Hg2 & Hw & Ea1 & Ea2 & Eq & Eb & Hc & Ho & Hstir & Ha); try done.
  pose proof (togo_stirred q p _ _ (good_swap _ _ _ Hg1) (good_swap _ _ _ Hg2) Hstir) as Hle.
  cbn [Duplex.swap fst snd] in Hle.
  apply (progresses_from p q d e); [by eapply goes_trans|done| |].
  - unfold measure. rewrite (togo_same (stream p) _ _ Eb Eq). cbn in *. lia.
  - apply (settle (S (Z.to_nat (measure p q e)))); try done; [lia|].
    destruct Hstir as [_ _ Hr _]. cbn in Hr. destruct Hr as [[-> _]| ->]; done.
Qed.

Definition settled_end (e : Duplex.endpoint) : Prop := TCPSender._fin_sent (snd_of e) = true ∧ queue_of e = [].

Lemma advance p q d :
  sound p → sound q → good p q d → patient d → ¬ settled_end d.1 → progresses p q d.
Proof.
  intros Hp Hq Hg Hpat Hn. destruct (decide (queue_of d.1 = [])) as [Hnil|Hne]; [|by apply work].
  apply begin_work; try done. by destruct (TCPSender._fin_sent (snd_of d.1)) eqn:E; [destruct Hn|].
Qed.

Lemma conclude n : ∀ p q d,
  sound p → sound q → good p q d → patient d → measure p q d < Z.of_nat n →
  ∃ d', goes d d' ∧ good p q d' ∧ alive_as d d' ∧ settled_end d'.1 ∧ settled_end d'.2.
Proof.
  induction n as [|n IH]; intros p q d Hp Hq Hg Hpat Hm.
  { pose proof (measure_nonneg p q d Hg). lia. }
  assert (Hdec : ∀ e : Duplex.endpoint, settled_end e ∨ ¬ settled_end e).
  { intros e. unfold settled_end. destruct (TCPSender._fin_sent _), (queue_of e); naive_solver. }
  assert (Hgo : progresses p q d →
    ∃ d', goes d d' ∧ good p q d' ∧ alive_as d d' ∧ settled_end d'.1 ∧ settled_end d'.2).
  { intros (d1 & Hgo & Hg1 & Hpat1 & [A1 A2] & Hlt). destruct (IH p q d1 Hp Hq Hg1 Hpat1) as (d2 & H & Hg2 & [B1 B2] & Hf); [lia|].
    exists d2. split; [by eapply goes_trans|]. split; [done|]. split; [split; congruence|done]. }
  destruct (Hdec d.1) as [H1|H1]; [|by apply Hgo, advance].
  destruct (Hdec d.2) as [H2|H2]; [by exists d; split; [apply goes_refl|]|].
  apply Hgo, progresses_swap. apply advance; try done; [by apply good_swap|by destruct Hpat].
Qed.

End moves.

(** ** Properties *)

Section completion_properties.
Import Completion.
Context (cfg1 cfg2 : TCPConfig.t) (random1 random2 : Z) (S1 S2 : bytes).

Local Abbreviation party1 := (mkParty cfg1 (isn_of cfg1 random1) S1).
Local Abbreviation party2 := (mkParty cfg2 (isn_of cfg2 random2) S2).

Lemma reach_good d :
  duplex_ok cfg1 cfg2 random1 random2 S1 S2 → Duplex.reach cfg1 cfg2 random1 random2 S1 S2 d →
  sound party1 ∧ sound party2 ∧ good party1 party2 d.
Proof.
  intros Hok Hd. destruct (duplex_sim _ _ _ _ _ _ d Hok Hd) as (l12 & l21 & H1 & H2 & Hpair).
  destruct Hok as [(Hsc1 & Hrc2 & Hrto1 & Hisn1 & HS1) (Hsc2 & Hrc1 & Hrto2 & Hisn2 & HS2)].
  destruct (link_reach_inv _ _ _ _ _ Hsc1 Hrc2 Hrto1 Hisn1 HS1 l12 H1) as (a & L & W & Hi1).
  destruct (link_reach_inv _ _ _ _ _ Hsc2 Hrc1 Hrto2 Hisn2 HS2 l21 H2) as (b & K & V & Hi2).
  split; [done|]. split; [done|]. by exists l12, l21, a, L, W, b, K, V.
Qed.

(** The count of retransmissions is not negative. *)
Lemma step_retx sc rc isn S a L W l e l' :
  0 < sc < 2 ^ 31 → 0 < rc < 2 ^ 16 → len S < 2 ^ 61 → Link.inv sc rc isn S a L W l →
  0 ≤ TCPSender._consecutive_retransmissions (Link.sender l) → Link.step l e = Ok l' →
  0 ≤ TCPSender._consecutive_retransmissions (Link.sender l').
Proof.
  intros Hsc Hrc HS Hi Hc Hs. pose proof (Link.li_sender _ _ _ _ _ _ _ _ Hi) as His.
  pose proof (accepted_bound _ _ _ _ HS a L W l Hi) as HA. pose proof (flight_small _ _ _ _ a L W l Hi) as Hfl.
  destruct e; cbn [Link.step] in Hs.
  - destruct (ByteStream.write _ _). by injection Hs as <-.
  - by destruct (Link.todo l); injection Hs as <-.
  - apply bind_Ok in Hs as (s & Hf & [= <-]). destruct (fill_window_spec _ a _ His HA) as (a' & s' & Hf' & Hadv & _).
    rewrite Hf in Hf'. injection Hf' as <-. cbn. by rewrite (adv_retx _ _ _ _ _ Hadv).
  - apply bind_Ok in Hs as (s & Ht & [= <-]). destruct (tick_spec _ a _ ms His) as (s' & Ht' & _ & _ & _ & _ & _ & Hout).
    rewrite Ht in Ht'. injection Ht' as <-. cbn. destruct (TCPSender._segments_outstanding _); [by subst|].
    destruct (_ <=? _); destruct Hout as (_ & _ & _ & -> & _); [|done].
    destruct (_ || _); [|done]. apply u16_bound.
  - destruct (Link.wire l !! i) as [[k seg]|]; [|by injection Hs as <-]. by apply bind_Ok in Hs as (r & _ & [= <-]).
  - by injection Hs as <-.
  - by destruct (TCPReceiver.ackno _); injection Hs as <-.
  - by injection Hs as <-.
  - destruct (Link.acks l) as [|[ackno w] acks] eqn:Hq; [by injection Hs as <-|]. apply bind_Ok in Hs as (s & Hack & [= <-]). cbn.
    pose proof (Link.li_acks _ _ _ _ _ _ _ _ Hi) as Hch. rewrite Hq in Hch. destruct Hch as (_ & _ & _ & Hw & _).
    destruct (ack_received_retx _ a _ ackno w s His (conj HA Hfl) Hw Hack) as [[-> _]| ->]; lia.
Qed.

Lemma reach_retx sc rc rto isn S l :
  0 < sc < 2 ^ 31 → 0 < rc < 2 ^ 16 → 0 ≤ rto < 2 ^ 32 → seq_ok isn → len S < 2 ^ 61 →
  Link.reach sc rc rto isn S l → 0 ≤ TCPSender._consecutive_retransmissions (Link.sender l).
Proof.
  intros Hsc Hrc Hrto Hisn HS. induction 1 as [|l e l' Hr IH He Hs]; [done|].
  destruct (link_reach_inv _ _ _ _ _ Hsc Hrc Hrto Hisn HS l Hr) as (a & L & W & Hi).
  exact (step_retx sc rc isn S a L W l e l' Hsc Hrc HS Hi IH Hs).
Qed.

(** The stream [S] of one end has got to the other: all of it has been written and
    delivered, the inbound stream has ended, and everything has been acknowledged. *)
Definition transferred (S : bytes) (from to : Duplex.endpoint) : Prop :=
  Duplex.todo from = [] ∧
  StreamReassembler.ack_index (TCPReceiver._reassembler (TCPConnection._receiver (Duplex.conn to))) = len S ∧
  ByteStream.input_ended (TCPConnection.inbound_stream (Duplex.conn to)) = true ∧
  TCPSender._fin_sent (TCPConnection._sender (Duplex.conn from)) = true ∧
  TCPConnection.bytes_in_flight (Duplex.conn from) = 0.

Lemma settled_transferred p q d : sound p → sound q → good p q d → settled_end d.1 → transferred (stream p) d.1 d.2.
Proof.
  intros (_ & _ & _ & HS) (_ & Hrc & _ & _) (l12 & l21 & a & L & W & b & K & V & [[Es _ _ Er Et _ _ _ _ _ _ _] _ _] & Hi & _) Hf.
  unfold settled_end in Hf. rewrite <- Es in Hf.
  pose proof (finished_all _ _ _ _ Hrc HS a L W l12 Hi Hf) as H. rewrite Es, Er, Et in H. exact H.
Qed.

(** C15: two connections can always complete.  In every state that two connections get
    into over a network that loses any segments and delivers the others in order, but
    no segment once its sender has moved on by 2^30 numbers and no FIN without payload
    before all the bytes of the stream have arrived, without a tick that makes a
    connection give up ([Duplex.enabled]): as long as neither has used up its
    retransmissions, some further conversation over the same network delivers and
    acknowledges both streams in full, and neither connection gives up or goes down on
    the way. *)
Theorem duplex_can_finish (d : Duplex.t) :
  duplex_ok cfg1 cfg2 random1 random2 S1 S2 → Duplex.reach cfg1 cfg2 random1 random2 S1 S2 d →
  TCPSender.consecutive_retransmissions (TCPConnection._sender (Duplex.conn d.1)) < TCPConfig.MAX_RETX_ATTEMPTS →
  TCPSender.consecutive_retransmissions (TCPConnection._sender (Duplex.conn d.2)) < TCPConfig.MAX_RETX_ATTEMPTS →
  ∃ es d', converse d es = Some d' ∧ transferred S1 d'.1 d'.2 ∧ transferred S2 d'.2 d'.1 ∧
    TCPConnection.active (Duplex.conn d'.1) = TCPConnection.active (Duplex.conn d.1) ∧
    TCPConnection.active (Duplex.conn d'.2) = TCPConnection.active (Duplex.conn d.2).
Proof.
  intros Hok Hd H1 H2. destruct (reach_good d Hok Hd) as (Hp & Hq & Hg).
  destruct (duplex_sim _ _ _ _ _ _ d Hok Hd) as (l12 & l21 & R1 & R2 & [[Es1 Es2 _ _ _ _ _ _ _ _ _ _] _ _]).
  destruct Hok as [(Hsc1 & Hrc2 & Hrto1 & Hisn1 & HS1) (Hsc2 & Hrc1 & Hrto2 & Hisn2 & HS2)].
  apply reach_retx in R1, R2; try done. rewrite Es1 in R1. rewrite Es2 in R2.
  destruct (conclude (S (Z.to_nat (measure party1 party2 d))) party1 party2 d Hp Hq Hg) as
    (d' & [es Hes] & Hg' & [A1 A2] & F1 & F2); [by split; split|lia|].
  exists es, d'. split; [done|]. split; [by apply (settled_transferred party1 party2)|].
  split; [by apply (settled_transferred party2 party1 (Duplex.swap d') Hq Hp (good_swap _ _ _ Hg'))|]. by split.
Qed.

End completion_properties.

(** The conversation of [tcp_duplex.v] goes on to its end. *)
Lemma duplex_can_finish_witness :
  ∃ es d', converse later es = Some d' ∧ transferred [1; 2; 3] d'.1 d'.2 ∧ transferred [8; 9] d'.2 d'.1 ∧
    TCPConnection.active (Duplex.conn d'.1) = true ∧ TCPConnection.active (Duplex.conn d'.2) = true.
Proof.
  apply (duplex_can_finish caller callee 0 7 [1; 2; 3] [8; 9] later conversation_ok later_reach); by vm_compute.
Defined.
