(* ===== verification/network_interface.v ===== *)
(** * The network interface: IP over Ethernet with ARP

    Models [libsponge/network_interface.hh] and
    [libsponge/network_interface.cc].  An [Address] is the number its
    [ipv4_numeric] returns; the line the constructor prints is left out.  A
    [std::map] is a finite map; [queue_helper] works, as the code does, on the copy
    of the waiting list that [get_WaitingList] returns. *)

From S2P Require Import prelude buffer parser internet_checksum tcp_segment ipv4 ethernet.

(** [using InternetDatagram = IPv4Datagram;] *)
Abbreviation InternetDatagram := IPv4Datagram.t.

Module NetworkInterface.

Definition MAX_RETX_WAITING_TIME : Z := 5000.
Definition MAX_CACHE_TIME : Z := 30000.

(** [struct EthernetAddressEntry] *)
Record EthernetAddressEntry := mkEntry {
  caching_time : Z;
  MAC_address : EthernetAddress
}.

(** [struct WaitingList] *)
Record WaitingList := mkWaitingList {
  time_since_last_ARP_request_send : Z;
  waiting_datagram : list InternetDatagram
}.

#[global] Instance eta_WaitingList : Eta WaitingList := λ w,
  mkWaitingList (time_since_last_ARP_request_send w) (waiting_datagram w).
#[global] Instance eta_Entry : Eta EthernetAddressEntry := λ e,
  mkEntry (caching_time e) (MAC_address e).

(** The members of [class NetworkInterface]. *)
Record t := mk {
  _ethernet_address : EthernetAddress;
  _ip_address : Z;
  _frames_out : list EthernetFrame.t;
  _cache : gmap Z EthernetAddressEntry;
  _queue_map : gmap Z WaitingList
}.

#[global] Instance eta_t : Eta t := λ n,
  mk (_ethernet_address n) (_ip_address n) (_frames_out n) (_cache n) (_queue_map n).

(** [NetworkInterface(ethernet_address, ip_address)] *)
Definition make (ethernet_address : EthernetAddress) (ip_address : Z) : t :=
  mk ethernet_address ip_address [] ∅ ∅.

Definition frames_out (n : t) : list EthernetFrame.t := _frames_out n.

Definition get_EthernetAdress (n : t) (ip_addr : Z) : option EthernetAddress :=
  MAC_address <$> _cache n !! ip_addr.

Definition get_WaitingList (n : t) (ip_addr : Z) : option WaitingList := _queue_map n !! ip_addr.

Definition send_helper (n : t) (MAC_addr : EthernetAddress) (dgram : InternetDatagram) : outcome t :=
  let header := EthernetHeader.mk MAC_addr (_ethernet_address n) EthernetHeader.TYPE_IPv4 in
  payload ← IPv4Datagram.serialize dgram;
  Ok (n <| _frames_out ::= λ q, q ++ [EthernetFrame.mk header payload] |>).

Definition send_ARP_request (n : t) (ip_addr : Z) : outcome t :=
  let header := EthernetHeader.mk ETHERNET_BROADCAST (_ethernet_address n) EthernetHeader.TYPE_ARP in
  let arp := ARPMessage.default
    <| ARPMessage.opcode := ARPMessage.OPCODE_REQUEST |>
    <| ARPMessage.sender_ethernet_address := _ethernet_address n |>
    <| ARPMessage.sender_ip_address := _ip_address n |>
    <| ARPMessage.target_ip_address := ip_addr |> in
  data ← ARPMessage.serialize arp;
  Ok (n <| _frames_out ::= λ q, q ++ [EthernetFrame.mk header (BufferList.of_string data)] |>).

Definition send_ARP_reply (n : t) (ip_addr : Z) (MAC_addr : EthernetAddress) : outcome t :=
  let header := EthernetHeader.mk MAC_addr (_ethernet_address n) EthernetHeader.TYPE_ARP in
  let arp := ARPMessage.default
    <| ARPMessage.opcode := ARPMessage.OPCODE_REPLY |>
    <| ARPMessage.sender_ethernet_address := _ethernet_address n |>
    <| ARPMessage.sender_ip_address := _ip_address n |>
    <| ARPMessage.target_ethernet_address := MAC_addr |>
    <| ARPMessage.target_ip_address := ip_addr |> in
  data ← ARPMessage.serialize arp;
  Ok (n <| _frames_out ::= λ q, q ++ [EthernetFrame.mk header (BufferList.of_string data)] |>).

(** The push goes to the copy [wait_list], which is dropped at the end. *)
Definition queue_helper (n : t) (ip_addr : Z) (dgram : InternetDatagram) : outcome t :=
  let wait_list := get_WaitingList n ip_addr in
  let '(n, send_ARP) :=
    match wait_list with
    | Some wait_list =>
      let wait_list := wait_list <| waiting_datagram ::= λ q, q ++ [dgram] |> in
      (n, time_since_last_ARP_request_send wait_list >=? MAX_RETX_WAITING_TIME)
    | None =>
      let new_wait_list := mkWaitingList 0 [] in
      let new_wait_list := new_wait_list <| waiting_datagram ::= λ q, q ++ [dgram] |> in
      (n <| _queue_map ::= <[ip_addr := new_wait_list]> |>, true)
    end in
  if (send_ARP : bool) then send_ARP_request n ip_addr else Ok n.

Definition valid_frame (n : t) (frame : EthernetFrame.t) : bool :=
  let dst := EthernetHeader.dst (EthernetFrame.header frame) in
  bool_decide (dst = _ethernet_address n) || bool_decide (dst = ETHERNET_BROADCAST).

Definition cache_mapping (n : t) (ip_addr : Z) (MAC_addr : EthernetAddress) : t :=
  match _cache n !! ip_addr with
  | Some entry =>
    n <| _cache ::= <[ip_addr := entry <| caching_time := 0 |> <| MAC_address := MAC_addr |>]> |>
  | None => n <| _cache ::= <[ip_addr := mkEntry 0 MAC_addr]> |>
  end.

(** [while (!iter->second.waiting_datagram.empty()) { ... }]; [queue] is the
    waiting queue of [ip_addr]. *)
Fixpoint clear_loop (n : t) (ip_addr : Z) (MAC_addr : EthernetAddress) (queue : list InternetDatagram)
    : outcome t :=
  match queue with
  | [] => Ok n
  | dgram :: queue =>
    let n := n <| _queue_map ::= alter (λ w, w <| waiting_datagram := queue |>) ip_addr |> in
    n ← send_helper n MAC_addr dgram;
    clear_loop n ip_addr MAC_addr queue
  end.

Definition clear_waitinglist (n : t) (ip_addr : Z) (MAC_addr : EthernetAddress) : outcome t :=
  n ← match _queue_map n !! ip_addr with
      | Some wait_list => clear_loop n ip_addr MAC_addr (waiting_datagram wait_list)
      | None => Ok n
      end;
  Ok (n <| _queue_map ::= delete ip_addr |>).

Definition send_datagram (n : t) (dgram : InternetDatagram) (next_hop_ip : Z) : outcome t :=
  match get_EthernetAdress n next_hop_ip with
  | Some MAC_addr => send_helper n MAC_addr dgram
  | None => queue_helper n next_hop_ip dgram
  end.

Definition recv_frame (n : t) (frame : EthernetFrame.t) : outcome (t * option InternetDatagram) :=
  if negb (valid_frame n frame) then Ok (n, None)
  else if EthernetHeader.type (EthernetFrame.header frame) =? EthernetHeader.TYPE_IPv4 then
    buffer ← BufferList.to_buffer (EthernetFrame.payload frame);
    '(res, dgram) ← IPv4Datagram.parse IPv4Datagram.default buffer;
    Ok (n, if bool_decide (res = NoError) then Some dgram else None)
  else
    buffer ← BufferList.to_buffer (EthernetFrame.payload frame);
    '(res, arp) ← ARPMessage.parse ARPMessage.default buffer;
    if bool_decide (res = NoError) then
      let n := cache_mapping n (ARPMessage.sender_ip_address arp) (ARPMessage.sender_ethernet_address arp) in
      n ← clear_waitinglist n (ARPMessage.sender_ip_address arp) (ARPMessage.sender_ethernet_address arp);
      n ← (if (ARPMessage.opcode arp =? ARPMessage.OPCODE_REQUEST) &&
              (ARPMessage.target_ip_address arp =? _ip_address n)
           then send_ARP_reply n (ARPMessage.sender_ip_address arp) (ARPMessage.sender_ethernet_address arp)
           else Ok n);
      Ok (n, None)
    else Ok (n, None).

Definition tick (n : t) (ms_since_last_tick : Z) : t :=
  let n := n <| _queue_map ::= fmap (λ w,
    w <| time_since_last_ARP_request_send ::= λ x, u64 (x + ms_since_last_tick) |>) |> in
  let n := n <| _cache ::= fmap (λ e, e <| caching_time ::= λ x, u64 (x + ms_since_last_tick) |>) |> in
  let deleted_ips :=
    (filter (λ '(_, e), MAX_CACHE_TIME ≤ caching_time e) (map_to_list (_cache n))).*1 in
  n <| _cache ::= λ cache, foldl (λ cache ip, delete ip cache) cache deleted_ips |>.

(** An interface with proper addresses. *)
Definition ok (n : t) : Prop := addr_ok (_ethernet_address n) ∧ 0 ≤ _ip_address n < 2 ^ 32.

End NetworkInterface.

(** ** Lemmas *)

Section interface.
Import NetworkInterface.
Implicit Types (n : t) (d : InternetDatagram).

(** The frame that carries datagram [d], serialized as [out], to [mac]. *)
Definition ip_frame n (mac : EthernetAddress) (out : BufferList.t) : EthernetFrame.t :=
  EthernetFrame.mk (EthernetHeader.mk mac (_ethernet_address n) EthernetHeader.TYPE_IPv4) out.

(** The ARP messages the interface sends. *)
Definition request n (ip : Z) : ARPMessage.t :=
  ARPMessage.mk 1 2048 6 4 1 (_ethernet_address n) (_ip_address n) (replicate 6 0) ip.

Definition reply n (ip : Z) (mac : EthernetAddress) : ARPMessage.t :=
  ARPMessage.mk 1 2048 6 4 2 (_ethernet_address n) (_ip_address n) mac ip.

Definition arp_frame n (mac : EthernetAddress) (m : ARPMessage.t) : EthernetFrame.t :=
  EthernetFrame.mk (EthernetHeader.mk mac (_ethernet_address n) EthernetHeader.TYPE_ARP)
    (BufferList.of_string (arp_wire m)).

Lemma request_ok n ip : ok n → 0 ≤ ip < 2 ^ 32 → ARPMessage.ok (request n ip).
Proof.
  intros [Ha Hi] Hip. split; [done|]. cbn. split_and!; try done; try apply Ha; try lia.
  split; [done|]. repeat constructor; lia.
Qed.

Lemma reply_ok n ip mac : ok n → 0 ≤ ip < 2 ^ 32 → addr_ok mac → ARPMessage.ok (reply n ip mac).
Proof. intros [Ha Hi] Hip Hm. split; [done|]. cbn. split_and!; try done; try apply Ha; try apply Hm; lia. Qed.

Lemma send_ARP_request_spec n ip :
  ok n → 0 ≤ ip < 2 ^ 32 →
  send_ARP_request n ip =
    Ok (n <| _frames_out ::= λ q, q ++ [arp_frame n ETHERNET_BROADCAST (request n ip)] |>).
Proof.
  intros Hn Hip. unfold send_ARP_request.
  change (ARPMessage.serialize _) with (ARPMessage.serialize (request n ip)).
  by rewrite (arp_bytes _ (request_ok n ip Hn Hip)).
Qed.

Lemma send_ARP_reply_spec n ip mac :
  ok n → 0 ≤ ip < 2 ^ 32 → addr_ok mac →
  send_ARP_reply n ip mac = Ok (n <| _frames_out ::= λ q, q ++ [arp_frame n mac (reply n ip mac)] |>).
Proof.
  intros Hn Hip Hm. unfold send_ARP_reply.
  change (ARPMessage.serialize _) with (ARPMessage.serialize (reply n ip mac)).
  by rewrite (arp_bytes _ (reply_ok n ip mac Hn Hip Hm)).
Qed.

Lemma send_helper_spec n mac d :
  IPv4Datagram.ok d →
  ∃ out, IPv4Datagram.serialize d = Ok out ∧
    send_helper n mac d = Ok (n <| _frames_out ::= λ q, q ++ [ip_frame n mac out] |>).
Proof.
  intros Hd. destruct (datagram_layout d Hd) as (out & Hout & _). exists out. split; [done|].
  unfold send_helper. by rewrite Hout.
Qed.

Lemma cache_mapping_eq n ip mac :
  cache_mapping n ip mac = n <| _cache ::= <[ip := mkEntry 0 mac]> |>.
Proof. unfold cache_mapping. by destruct (_cache n !! ip). Qed.

(** Releasing a queue sends its datagrams in order. *)
Lemma clear_loop_spec n ip mac queue :
  Forall IPv4Datagram.ok queue →
  ∃ n' outs, clear_loop n ip mac queue = Ok n' ∧ Forall2 (λ d out, IPv4Datagram.serialize d = Ok out) queue outs ∧
    _frames_out n' = _frames_out n ++ map (ip_frame n mac) outs ∧ _cache n' = _cache n ∧
    delete ip (_queue_map n') = delete ip (_queue_map n) ∧
    _ethernet_address n' = _ethernet_address n ∧ _ip_address n' = _ip_address n.
Proof.
  intros H. revert n. induction H as [|d queue Hd _ IH]; intros n; cbn [clear_loop].
  { exists n, []. split_and!; try done. by rewrite app_nil_r. }
  set (n1 := n <| _queue_map ::= _ |>).
  destruct (send_helper_spec n1 mac d Hd) as (out & Hout & ->). cbn [mbind outcome_bind].
  destruct (IH (n1 <| _frames_out ::= λ q, q ++ [ip_frame n1 mac out] |>))
    as (n' & outs & -> & Houts & Hf & Hc & Hq & He & Hi).
  exists n', (out :: outs). split_and!; try done; [by constructor|..].
  - rewrite Hf. cbn [map]. rewrite cons_middle, app_assoc. done.
  - rewrite Hq. unfold n1. cbn. by rewrite delete_alter_eq.
Qed.

(** A frame with an ARP message: the mapping is learned, what waits for it is
    sent, and a request for this interface is answered. *)
Lemma recv_arp_spec (n : t) (f : EthernetFrame.t) (b : Buffer.t) (arp : ARPMessage.t)
    (waiting : list InternetDatagram) :
  ok n → valid_frame n f = true → EthernetHeader.type (EthernetFrame.header f) = EthernetHeader.TYPE_ARP →
  EthernetFrame.payload f = [b] → Buffer.wf b → is_bytes (Buffer.str b) →
  ARPMessage.parse ARPMessage.default b = Ok (NoError, arp) →
  waiting = default [] (waiting_datagram <$> _queue_map n !! ARPMessage.sender_ip_address arp) →
  Forall IPv4Datagram.ok waiting →
  let ip := ARPMessage.sender_ip_address arp in
  let mac := ARPMessage.sender_ethernet_address arp in
  ∃ n' outs, recv_frame n f = Ok (n', None) ∧
    _cache n' = <[ip := mkEntry 0 mac]> (_cache n) ∧ _queue_map n' = delete ip (_queue_map n) ∧
    Forall2 (λ d out, IPv4Datagram.serialize d = Ok out) waiting outs ∧
    _frames_out n' = _frames_out n ++ map (ip_frame n mac) outs ++
      (if (ARPMessage.opcode arp =? 1) && (ARPMessage.target_ip_address arp =? _ip_address n)
       then [arp_frame n mac (reply n ip mac)] else []) ∧
    _ethernet_address n' = _ethernet_address n ∧ _ip_address n' = _ip_address n.
Proof.
  intros Hn Hv Ht Hp Hwf Hb Hparse Hw Hall ip mac.
  destruct (arp_parse_safe ARPMessage.default b Hwf Hb) as (r & m & Hparse' & Hok & _).
  rewrite Hparse in Hparse'. injection Hparse' as <- <-. destruct (Hok eq_refl) as (_ & Hmac & Hip & _).
  unfold recv_frame. rewrite Hv, Ht, Hp. cbn [negb]. change (_ =? EthernetHeader.TYPE_IPv4) with false.
  cbn [BufferList.to_buffer mbind outcome_bind]. rewrite Hparse. cbn [mbind outcome_bind].
  rewrite bool_decide_eq_true_2 by done. fold ip mac. rewrite cache_mapping_eq.
  set (n1 := n <| _cache ::= _ |>). unfold clear_waitinglist.
  assert (Hclear : ∃ n2 outs, match _queue_map n1 !! ip with
      | Some wait_list => clear_loop n1 ip mac (waiting_datagram wait_list)
      | None => Ok n1 end = Ok n2 ∧ Forall2 (λ d out, IPv4Datagram.serialize d = Ok out) waiting outs ∧
      _frames_out n2 = _frames_out n ++ map (ip_frame n mac) outs ∧ _cache n2 = _cache n1 ∧
      delete ip (_queue_map n2) = delete ip (_queue_map n) ∧
      _ethernet_address n2 = _ethernet_address n ∧ _ip_address n2 = _ip_address n).
  { change (_queue_map n1) with (_queue_map n). fold ip in Hw.
    destruct (_queue_map n !! ip) as [w|] eqn:Eq; cbn in Hw; subst waiting.
    - destruct (clear_loop_spec n1 ip mac (waiting_datagram w) Hall) as (n2 & outs & H). by exists n2, outs.
    - exists n1, []. split_and!; try done. cbn. by rewrite app_nil_r. }
  destruct Hclear as (n2 & outs & -> & Houts & Hf & Hc & Hq & He & Hi). cbn [mbind outcome_bind].
  set (n3 := n2 <| _queue_map ::= _ |>). change (_ip_address n3) with (_ip_address n2). rewrite Hi.
  change (ARPMessage.opcode arp =? ARPMessage.OPCODE_REQUEST) with (ARPMessage.opcode arp =? 1).
  destruct (_ && _).
  - assert (Hn3 : ok n3) by (destruct Hn; split; cbn; [by rewrite He|by rewrite Hi]).
    rewrite (send_ARP_reply_spec n3 ip mac Hn3 Hip Hmac). cbn [mbind outcome_bind].
    eexists _, outs. split; [done|]. split_and!; try done.
    cbn [_frames_out upd]. change (_frames_out n3) with (_frames_out n2). rewrite Hf, <- app_assoc.
    unfold arp_frame, reply. change (_ethernet_address n3) with (_ethernet_address n2).
    change (_ip_address n3) with (_ip_address n2). by rewrite He, Hi.
  - cbn [mbind outcome_bind]. exists n3, outs. split; [done|]. split_and!; try done.
    change (_frames_out n3) with (_frames_out n2). by rewrite Hf, app_nil_r.
Qed.

(** What the receiver of a datagram gets: the header as it was on the wire and the
    payload in one piece. *)
Definition arrived d d' : Prop :=
  IPv4Datagram.header d' = sent_header d ∧
  BufferList.concatenate (IPv4Datagram.payload d') = BufferList.concatenate (IPv4Datagram.payload d) ∧
  IPv4Datagram.ok d'.

(** A frame with a datagram, in whatever buffer: it is handed up and the
    interface stays as it is. *)
Lemma recv_ip_buffer n f d out b :
  IPv4Datagram.ok d → IPv4Datagram.serialize d = Ok out → valid_frame n f = true →
  EthernetHeader.type (EthernetFrame.header f) = EthernetHeader.TYPE_IPv4 →
  EthernetFrame.payload f = [b] → Buffer.wf b → Buffer.str b = BufferList.concatenate out →
  ∃ d', recv_frame n f = Ok (n, Some d') ∧ arrived d d'.
Proof.
  intros Hd Hout Hv Ht Hp Hwf Hstr. unfold recv_frame. rewrite Hv, Ht, Hp. cbn [negb].
  change (_ =? EthernetHeader.TYPE_IPv4) with true. cbn [BufferList.to_buffer mbind outcome_bind].
  destruct (datagram_layout d Hd) as (out' & Hout' & Hc). assert (out' = out) as -> by congruence.
  pose proof (sent_header_ok d Hd) as Hh. destruct (payload_length_ok d Hd) as [_ Hplen].
  pose proof Hd as ((_ & Hhl & _) & _ & Hb & Hl).
  destruct (datagram_parse_wire (sent_header d) IPv4Datagram.default b
    (BufferList.concatenate (IPv4Datagram.payload d))) as (d' & -> & Hh' & Hc' & b' & Hb' & Hwf' & Hs'); try done.
  { by rewrite Hstr. }
  cbn [mbind outcome_bind]. rewrite bool_decide_eq_true_2 by done. exists d'. split; [done|].
  split; [done|]. split; [done|]. split; [by rewrite Hh'|]. rewrite Hb'.
  split; [by repeat constructor|]. rewrite <- Hb', Hc', Hh'. done.
Qed.

Lemma recv_ip_spec n f d out :
  IPv4Datagram.ok d → IPv4Datagram.serialize d = Ok out → valid_frame n f = true →
  EthernetHeader.type (EthernetFrame.header f) = EthernetHeader.TYPE_IPv4 →
  EthernetFrame.payload f = BufferList.of_string (BufferList.concatenate out) →
  ∃ d', recv_frame n f = Ok (n, Some d') ∧ arrived d d'.
Proof.
  intros Hd Hout Hv Ht Hp. eapply recv_ip_buffer; try done.
  destruct (datagram_layout d Hd) as (out' & Hout' & Hc). assert (out' = out) as -> by congruence.
  destruct (payload_length_ok d Hd) as [_ Hplen]. pose proof Hd as ((_ & Hhl & _) & _ & Hb & Hl).
  apply wf_of_string. rewrite Hc, len_app, len_wire by (cbn; lia). cbn. lia.
Qed.

Lemma foldl_delete_lookup {A} (m : gmap Z A) ips ip :
  foldl (λ m ip, delete ip m) m ips !! ip = if bool_decide (ip ∈ ips) then None else m !! ip.
Proof.
  revert m. induction ips as [|x ips IH]; intros m; cbn [foldl].
  { by rewrite bool_decide_eq_false_2 by (by inversion 1). }
  rewrite IH. destruct (decide (ip ∈ ips)) as [Hin|Hin].
  - rewrite !bool_decide_eq_true_2; [done|by right|done].
  - rewrite (bool_decide_eq_false_2 (ip ∈ ips)) by done.
    destruct (decide (ip = x)) as [->|Hne].
    + rewrite bool_decide_eq_true_2 by (by left). apply lookup_delete_eq.
    + rewrite bool_decide_eq_false_2 by (inversion 1; congruence || done).
      by rewrite lookup_delete_ne.
Qed.

End interface.

(** ** Properties *)

Section interface_properties.
Import NetworkInterface.

(** C26: sending a datagram.  If the next hop's Ethernet address is cached, exactly
    one frame is queued: to that address, of type IPv4, holding the serialized
    datagram.  If it is not, and nothing waits for it yet, the datagram is put
    aside and one ARP request is broadcast, which parses back to a request for
    the next hop from this interface. *)
Theorem send_datagram_resolves (n : t) (d : InternetDatagram) (ip : Z) :
  ok n → 0 ≤ ip < 2 ^ 32 → IPv4Datagram.ok d →
  match _cache n !! ip with
  | Some e =>
    ∃ out, IPv4Datagram.serialize d = Ok out ∧
      send_datagram n d ip = Ok (n <| _frames_out ::= λ q, q ++ [ip_frame n (MAC_address e) out] |>)
  | None =>
    _queue_map n !! ip = None →
    ∃ n' f arp, send_datagram n d ip = Ok n' ∧ _cache n' = _cache n ∧
      _queue_map n' = <[ip := mkWaitingList 0 [d]]> (_queue_map n) ∧
      _frames_out n' = _frames_out n ++ [f] ∧
      EthernetFrame.header f =
        EthernetHeader.mk ETHERNET_BROADCAST (_ethernet_address n) EthernetHeader.TYPE_ARP ∧
      (b ← BufferList.to_buffer (EthernetFrame.payload f); ARPMessage.parse ARPMessage.default b) =
        Ok (NoError, arp) ∧
      ARPMessage.opcode arp = ARPMessage.OPCODE_REQUEST ∧ ARPMessage.target_ip_address arp = ip ∧
      ARPMessage.sender_ip_address arp = _ip_address n ∧
      ARPMessage.sender_ethernet_address arp = _ethernet_address n
  end.
Proof.
  intros Hn Hip Hd. unfold send_datagram, get_EthernetAdress. destruct (_cache n !! ip) as [e|] eqn:Ec; cbn [fmap option_fmap option_map].
  - by apply send_helper_spec.
  - intros Hq. unfold queue_helper, get_WaitingList. rewrite Hq.
    set (n1 := n <| _queue_map ::= _ |>).
    rewrite (send_ARP_request_spec n1 ip) by done.
    eexists _, (arp_frame n1 ETHERNET_BROADCAST (request n1 ip)), (request n1 ip). split; [done|].
    split_and!; try done. cbn [BufferList.to_buffer BufferList.of_string EthernetFrame.payload arp_frame
      mbind outcome_bind].
    assert (Hok : ARPMessage.ok (request n1 ip)) by (by apply request_ok).
    apply arp_parse_wire; [done| |done]. apply wf_of_string. unfold len. rewrite length_arp by done. lia.
Qed.

(** C27: learning an address releases what waits for it.  A frame for this
    interface that carries an ARP message maps the sender's IP address to its
    Ethernet address, afresh; the datagrams waiting for that address leave in
    order, each in a frame to it, and nothing waits for it any more; other
    addresses are unaffected; and a request for this interface is answered. *)
Theorem arp_releases_waiting (n : t) (f : EthernetFrame.t) (b : Buffer.t) (arp : ARPMessage.t)
    (waiting : list InternetDatagram) :
  ok n → valid_frame n f = true → EthernetHeader.type (EthernetFrame.header f) = EthernetHeader.TYPE_ARP →
  EthernetFrame.payload f = [b] → Buffer.wf b → is_bytes (Buffer.str b) →
  ARPMessage.parse ARPMessage.default b = Ok (NoError, arp) →
  waiting = default [] (waiting_datagram <$> _queue_map n !! ARPMessage.sender_ip_address arp) →
  Forall IPv4Datagram.ok waiting →
  let ip := ARPMessage.sender_ip_address arp in
  let mac := ARPMessage.sender_ethernet_address arp in
  ∃ n' outs, recv_frame n f = Ok (n', None) ∧
    _cache n' = <[ip := mkEntry 0 mac]> (_cache n) ∧ _queue_map n' = delete ip (_queue_map n) ∧
    Forall2 (λ d out, IPv4Datagram.serialize d = Ok out) waiting outs ∧
    _frames_out n' = _frames_out n ++ map (ip_frame n mac) outs ++
      (if (ARPMessage.opcode arp =? 1) && (ARPMessage.target_ip_address arp =? _ip_address n)
       then [arp_frame n mac (reply n ip mac)] else []).
Proof.
  intros Hn Hv Ht Hp Hwf Hb Hparse Hw Hall ip mac.
  destruct (recv_arp_spec n f b arp waiting) as (n' & outs & Hr & Hc & Hq & Ho & Hf & _); try done.
  by exists n', outs.
Qed.

(** Cached addresses expire.  A tick ages every entry of the cache and
    removes exactly those that reach 30 seconds; it ages the ARP requests in the
    waiting lists and sends nothing. *)
Theorem tick_expires_cache (n : t) (ms ip : Z) :
  _cache (tick n ms) !! ip =
    match _cache n !! ip with
    | Some e =>
      let age := u64 (caching_time e + ms) in
      if age <? 30000 then Some (mkEntry age (MAC_address e)) else None
    | None => None
    end ∧
  _queue_map (tick n ms) !! ip =
    (λ w, mkWaitingList (u64 (time_since_last_ARP_request_send w + ms)) (waiting_datagram w)) <$>
      _queue_map n !! ip ∧
  _frames_out (tick n ms) = _frames_out n.
Proof.
  unfold tick. cbn [_cache _queue_map _frames_out upd].
  split; [|split; [by rewrite lookup_fmap|done]].
  set (aged := fmap _ (_cache n)). rewrite foldl_delete_lookup.
  assert (Hl : aged !! ip = (λ e, mkEntry (u64 (caching_time e + ms)) (MAC_address e)) <$> _cache n !! ip)
    by (unfold aged; by rewrite lookup_fmap).
  assert (Hin : ip ∈ (filter (λ '(_, e), MAX_CACHE_TIME ≤ caching_time e) (map_to_list aged)).*1 ↔
    ∃ e, aged !! ip = Some e ∧ 30000 ≤ caching_time e).
  { rewrite list_elem_of_fmap. split.
    - intros ([i e] & -> & [He Hm]%list_elem_of_filter). exists e. by apply elem_of_map_to_list in Hm.
    - intros (e & He & Ht). exists (ip, e). split; [done|]. apply list_elem_of_filter.
      split; [done|by apply elem_of_map_to_list]. }
  destruct (bool_decide (ip ∈ _)) eqn:Hi.
  - apply bool_decide_eq_true in Hi. apply Hin in Hi as (e & He & Ht). rewrite Hl in He.
    destruct (_cache n !! ip) as [e0|]; [|done]. injection He as <-. cbn in *.
    destruct (_ <? 30000) eqn:E; [lia|done].
  - apply bool_decide_eq_false in Hi. rewrite Hl. destruct (_cache n !! ip) as [e0|] eqn:Ec; [|done].
    cbn. destruct (_ <? 30000) eqn:E; [done|]. exfalso. apply Hi, Hin. rewrite Hl. eexists. split; [done|].
    cbn. lia.
Qed.

(** A second datagram for an unresolved address is lost.  The code appends
    it to a copy of the waiting list, so the interface still waits with what it
    had; and once five seconds have passed, every such call broadcasts another
    request. *)
Theorem second_waiting_datagram_lost (n : t) (d : InternetDatagram) (ip : Z) (w : WaitingList) :
  ok n → 0 ≤ ip < 2 ^ 32 → _cache n !! ip = None → _queue_map n !! ip = Some w →
  ∃ n', send_datagram n d ip = Ok n' ∧ _queue_map n' = _queue_map n ∧
    _frames_out n' = _frames_out n ++
      (if 5000 <=? time_since_last_ARP_request_send w
       then [arp_frame n ETHERNET_BROADCAST (request n ip)] else []).
Proof.
  intros Hn Hip Hc Hq. unfold send_datagram, get_EthernetAdress, queue_helper, get_WaitingList.
  rewrite Hc, Hq. cbn [fmap option_fmap option_map]. cbn [time_since_last_ARP_request_send upd].
  rewrite Z.geb_leb. unfold MAX_RETX_WAITING_TIME. destruct (_ <=? _).
  - rewrite send_ARP_request_spec by done. by eexists.
  - exists n. rewrite app_nil_r. done.
Qed.

(** An interface at 10.0.0.2, with a datagram waiting for 10.0.0.1 or with none,
    and the reply from 10.0.0.1. *)
Definition idle_iface : t := make [2; 0; 0; 0; 0; 2] 167772162.

Definition waiting_iface : t :=
  mk [2; 0; 0; 0; 0; 2] 167772162 [] ∅ {[ 167772161 := mkWaitingList 0 [example_datagram] ]}.

Definition arp_buffer : Buffer.t := Eval vm_compute in Buffer.of_string (arp_wire example_arp).

Definition reply_frame : EthernetFrame.t :=
  EthernetFrame.mk (EthernetHeader.mk [2; 0; 0; 0; 0; 2] [2; 0; 0; 0; 0; 1] EthernetHeader.TYPE_ARP)
    [arp_buffer].

Lemma example_addr_ok k : 0 ≤ k < 2 ^ 8 → addr_ok [2; 0; 0; 0; 0; k].
Proof. intros ?. split; [done|]. repeat constructor; lia. Qed.

Lemma example_datagram_ok : IPv4Datagram.ok example_datagram.
Proof.
  split; [unfold IPv4Header.ok; simpl; lia|]. split; [|split; [repeat constructor; lia|done]].
  apply Forall_cons_2; [|apply Forall_cons_2; [|done]]; apply wf_of_string; unfold len; simpl; lia.
Qed.

Lemma send_datagram_resolves_witness :
  ∃ n' f arp, send_datagram idle_iface example_datagram 167772161 = Ok n' ∧ _cache n' = ∅ ∧
    _queue_map n' = <[167772161 := mkWaitingList 0 [example_datagram]]> ∅ ∧
    _frames_out n' = [] ++ [f] ∧
    EthernetFrame.header f =
      EthernetHeader.mk ETHERNET_BROADCAST [2; 0; 0; 0; 0; 2] EthernetHeader.TYPE_ARP ∧
    (b ← BufferList.to_buffer (EthernetFrame.payload f); ARPMessage.parse ARPMessage.default b) =
      Ok (NoError, arp) ∧
    ARPMessage.opcode arp = ARPMessage.OPCODE_REQUEST ∧ ARPMessage.target_ip_address arp = 167772161 ∧
    ARPMessage.sender_ip_address arp = 167772162 ∧
    ARPMessage.sender_ethernet_address arp = [2; 0; 0; 0; 0; 2].
Proof.
  refine (send_datagram_resolves idle_iface example_datagram 167772161 _ _ example_datagram_ok eq_refl).
  - split; [apply example_addr_ok; lia|simpl; lia].
  - lia.
Defined.

Lemma arp_releases_waiting_witness :
  ∃ n' outs, recv_frame waiting_iface reply_frame = Ok (n', None) ∧
    _cache n' = <[167772161 := mkEntry 0 [2; 0; 0; 0; 0; 1]]> ∅ ∧
    _queue_map n' = delete 167772161 (_queue_map waiting_iface) ∧
    Forall2 (λ d out, IPv4Datagram.serialize d = Ok out) [example_datagram] outs ∧
    _frames_out n' = [] ++ map (ip_frame waiting_iface [2; 0; 0; 0; 0; 1]) outs ++ [].
Proof.
  refine (arp_releases_waiting waiting_iface reply_frame arp_buffer example_arp [example_datagram]
    _ eq_refl eq_refl eq_refl _ _ _ eq_refl _).
  - split; [apply example_addr_ok; lia|simpl; lia].
  - apply wf_of_string. unfold len. simpl. lia.
  - repeat constructor; lia.
  - vm_compute. reflexivity.
  - apply Forall_cons_2; [apply example_datagram_ok|done].
Defined.

Lemma second_waiting_datagram_lost_witness :
  ∃ n', send_datagram waiting_iface example_datagram 167772161 = Ok n' ∧
    _queue_map n' = _queue_map waiting_iface ∧ _frames_out n' = [] ++ [].
Proof.
  refine (second_waiting_datagram_lost waiting_iface example_datagram 167772161
    (mkWaitingList 0 [example_datagram]) _ _ eq_refl eq_refl).
  - split; [apply example_addr_ok; lia|simpl; lia].
  - lia.
Defined.

End interface_properties.
