(* ===== verification/router.v ===== *)
(** * The router: longest-prefix match between interfaces

    Models [libsponge/router.hh] and [libsponge/router.cc].  An [Address] is the
    number its [ipv4_numeric] returns.  [operator[]] outside a vector is [UB], and
    so is a shift by the width of [int] or more.  The loop of [route] over one
    queue runs on one unit of fuel more than the queue has datagrams. *)

From S2P Require Import prelude buffer parser internet_checksum tcp_segment ipv4 ethernet network_interface.

Module AsyncNetworkInterface.

(** [class AsyncNetworkInterface : public NetworkInterface] *)
Record t := mk {
  base : NetworkInterface.t;
  _datagrams_out : list InternetDatagram
}.

#[global] Instance eta_t : Eta t := λ i, mk (base i) (_datagrams_out i).

(** [AsyncNetworkInterface(NetworkInterface &&)] *)
Definition make (interface : NetworkInterface.t) : t := mk interface [].

Definition recv_frame (i : t) (frame : EthernetFrame.t) : outcome t :=
  '(n, optional_dgram) ← NetworkInterface.recv_frame (base i) frame;
  let i := i <| base := n |> in
  Ok match optional_dgram with
     | Some dgram => i <| _datagrams_out ::= λ q, q ++ [dgram] |>
     | None => i
     end.

Definition datagrams_out (i : t) : list InternetDatagram := _datagrams_out i.

(** [send_datagram], inherited. *)
Definition send_datagram (i : t) (dgram : InternetDatagram) (next_hop : Z) : outcome t :=
  n ← NetworkInterface.send_datagram (base i) dgram next_hop;
  Ok (i <| base := n |>).

End AsyncNetworkInterface.

(** [class RouteEntry] *)
Record RouteEntry := mkRouteEntry {
  _route_prefix : Z;
  _prefix_length : Z;
  _next_hop : option Z;
  _interface_num : Z;
  _prefix_mask : Z
}.

Module Router.

(** The members of [class Router]. *)
Record t := mk {
  _interfaces : list AsyncNetworkInterface.t;
  _routing_table : list RouteEntry
}.

#[global] Instance eta_t : Eta t := λ r, mk (_interfaces r) (_routing_table r).

Definition empty : t := mk [] [].

Definition add_interface (r : t) (interface : AsyncNetworkInterface.t) : t * Z :=
  let r := r <| _interfaces ::= λ l, l ++ [interface] |> in
  (r, u64 (len (_interfaces r) - 1)).

(** [interface(N)]: [at] throws outside the vector. *)
Definition interface (r : t) (N : Z) : outcome AsyncNetworkInterface.t :=
  match _interfaces r !! Z.to_nat N with Some i => Ok i | None => Throw out_of_range end.

(** [prefix_length == 0 ? 0 : numeric_limits<int>::min() >> (prefix_length - 1)] *)
Definition mask_of (prefix_length : Z) : outcome Z :=
  if prefix_length =? 0 then Ok 0
  else if prefix_length - 1 <? 32 then Ok (u32 (Z.shiftr (- 2 ^ 31) (prefix_length - 1)))
  else UB.

Definition add_route (r : t) (route_prefix prefix_length : Z) (next_hop : option Z)
    (interface_num : Z) : outcome t :=
  mask ← mask_of prefix_length;
  let entry := mkRouteEntry route_prefix prefix_length next_hop interface_num mask in
  Ok (r <| _routing_table ::= λ l, l ++ [entry] |>).

(** [for (size_t i = 0; i < _routing_table.size(); i++) { ... }] from index [i] on. *)
Fixpoint match_loop (table : list RouteEntry) (i destination match_idx max_matched_len : Z) : Z :=
  match table with
  | [] => match_idx
  | e :: table =>
    let mask := _prefix_mask e in
    if (Z.land destination mask =? _route_prefix e) && (max_matched_len <? _prefix_length e)
    then match_loop table (i + 1) destination i (_prefix_length e)
    else match_loop table (i + 1) destination match_idx max_matched_len
  end.

(** Decrementing the time to live changes the datagram at the front of the queue,
    which [route] then drops. *)
Definition route_one_datagram (r : t) (dgram : InternetDatagram) : outcome t :=
  if IPv4Header.ttl (IPv4Datagram.header dgram) <=? 1 then Ok r
  else
    let destination := IPv4Header.dst (IPv4Datagram.header dgram) in
    let match_idx := match_loop (_routing_table r) 0 destination (-1) (-1) in
    if match_idx =? -1 then Ok r
    else
      let dgram := dgram <| IPv4Datagram.header ::= λ h, h <| IPv4Header.ttl ::= λ x, u8 (x - 1) |> |> in
      entry ← or_UB (_routing_table r !! Z.to_nat match_idx);
      let interface_num := Z.to_nat (_interface_num entry) in
      i ← or_UB (_interfaces r !! interface_num);
      i ← AsyncNetworkInterface.send_datagram i dgram
            (match _next_hop entry with Some next_hop => next_hop | None => destination end);
      Ok (r <| _interfaces ::= <[interface_num := i]> |>).

(** [while (not queue.empty()) { ... }] for the interface at index [k] *)
Fixpoint route_queue (fuel : nat) (k : nat) (r : t) : outcome t :=
  match fuel with
  | O => Diverge
  | S fuel =>
    i ← or_UB (_interfaces r !! k);
    match AsyncNetworkInterface.datagrams_out i with
    | [] => Ok r
    | dgram :: _ =>
      r ← route_one_datagram r dgram;
      let r := r <| _interfaces ::= alter (λ i,
                 i <| AsyncNetworkInterface._datagrams_out ::= tail |>) k |> in
      route_queue fuel k r
    end
  end.

(** [for (auto &interface : _interfaces) { ... }] from index [k] on, [todo] of
    them *)
Fixpoint route_interfaces (todo k : nat) (r : t) : outcome t :=
  match todo with
  | O => Ok r
  | S todo =>
    i ← or_UB (_interfaces r !! k);
    r ← route_queue (S (length (AsyncNetworkInterface.datagrams_out i))) k r;
    route_interfaces todo (S k) r
  end.

Definition route (r : t) : outcome t := route_interfaces (length (_interfaces r)) 0 r.

(** ** What the table means *)

(** The entry applies to the destination. *)
Definition applies (e : RouteEntry) (destination : Z) : Prop :=
  Z.land destination (_prefix_mask e) = _route_prefix e.

(** Entries as [add_route] makes them, from a prefix length of at most 32. *)
Definition entry_ok (e : RouteEntry) : Prop :=
  0 ≤ _prefix_length e ≤ 32 ∧ 0 ≤ _route_prefix e < 2 ^ 32 ∧
  mask_of (_prefix_length e) = Ok (_prefix_mask e).

End Router.

(** ** Lemmas *)

Section routing.
Import Router.

Lemma mask_of_eq k : 0 ≤ k ≤ 32 → mask_of k = Ok (2 ^ 32 - 2 ^ (32 - k)).
Proof.
  intros Hk. unfold mask_of. destruct (k =? 0) eqn:E.
  { apply Z.eqb_eq in E. subst. done. }
  destruct (k - 1 <? 32) eqn:E2; [|lia]. f_equal.
  rewrite Z.shiftr_div_pow2 by lia.
  assert (Hp : 2 ^ 31 = 2 ^ (32 - k) * 2 ^ (k - 1)) by (rewrite <- Z.pow_add_r by lia; f_equal; lia).
  rewrite Hp, <- Z.mul_opp_l, Z.div_mul by lia.
  assert (0 < 2 ^ (32 - k) ≤ 2 ^ 31) by (split; [lia|apply Z.pow_le_mono_r; lia]).
  unfold u32. rewrite <- (Z.mod_add _ 1) by lia. rewrite Z.mod_small; lia.
Qed.

(** The high bits of a 32-bit number. *)
Lemma land_mask d k :
  0 ≤ k ≤ 32 → 0 ≤ d < 2 ^ 32 → Z.land d (2 ^ 32 - 2 ^ (32 - k)) = d / 2 ^ (32 - k) * 2 ^ (32 - k).
Proof.
  intros Hk Hd. set (j := 32 - k).
  rewrite <- Z.shiftl_mul_pow2, <- Z.shiftr_div_pow2 by lia.
  replace (2 ^ 32 - 2 ^ j) with (Z.shiftl (Z.ones k) j).
  2:{ rewrite Z.shiftl_mul_pow2 by lia. rewrite Z.ones_equiv. unfold Z.pred.
      rewrite Z.mul_add_distr_r, <- Z.pow_add_r by lia. replace (k + j) with 32 by lia. lia. }
  apply Z.bits_inj'. intros i Hi. rewrite Z.land_spec.
  destruct (Z.lt_ge_cases i j).
  - rewrite !Z.shiftl_spec_low by lia. apply andb_false_r.
  - rewrite !Z.shiftl_spec, Z.shiftr_spec by lia. replace (i - j + j) with i by lia.
    destruct (Z.lt_ge_cases i 32).
    + rewrite Z.ones_spec_low by lia. apply andb_true_r.
    + rewrite <- (Z.mod_small d (2 ^ 32)), Z.mod_pow2_bits_high by lia. done.
Qed.

(** An entry applies iff its prefix has no bit below its length and agrees with
    the destination above. *)
Lemma applies_iff e d :
  entry_ok e → 0 ≤ d < 2 ^ 32 →
  applies e d ↔
  _route_prefix e mod 2 ^ (32 - _prefix_length e) = 0 ∧
  d / 2 ^ (32 - _prefix_length e) = _route_prefix e / 2 ^ (32 - _prefix_length e).
Proof.
  intros (Hl & Hp & Hm) Hd. unfold applies. rewrite mask_of_eq in Hm by done. injection Hm as <-.
  rewrite land_mask by done. set (m := 2 ^ (32 - _prefix_length e)).
  assert (0 < m) by (unfold m; lia). clearbody m. split.
  - intros <-. rewrite Z.mod_mul, Z.div_mul by lia. done.
  - intros [H1 H2]. rewrite H2. pose proof (Z.div_mod (_route_prefix e) m). lia.
Qed.

(** The best match among the entries seen so far: none, or an entry that applies,
    is at least as long as every other that applies and longer than the earlier
    ones. *)
Definition best (table : list RouteEntry) (d idx : Z) : Prop :=
  (idx = -1 ∧ ∀ k e, table !! k = Some e → ¬ applies e d) ∨
  ∃ k e, idx = Z.of_nat k ∧ table !! k = Some e ∧ applies e d ∧
    (∀ j e', table !! j = Some e' → applies e' d → _prefix_length e' ≤ _prefix_length e) ∧
    (∀ j e', (j < k)%nat → table !! j = Some e' → applies e' d → _prefix_length e' < _prefix_length e).

Lemma match_loop_spec seen table d idx max :
  Forall entry_ok (seen ++ table) → best seen d idx →
  (idx = -1 ∧ max = -1 ∨ ∃ k e, idx = Z.of_nat k ∧ seen !! k = Some e ∧ max = _prefix_length e) →
  best (seen ++ table) d (match_loop table (len seen) d idx max).
Proof.
  revert seen idx max. induction table as [|e table IH]; intros seen idx max Hok Hbest Hmax; cbn [match_loop].
  { by rewrite app_nil_r. }
  rewrite cons_middle, app_assoc in Hok |- *.
  replace (len seen + 1) with (len (seen ++ [e])) by (rewrite len_app; done).
  assert (He : entry_ok e) by (rewrite <- app_assoc in Hok; apply Forall_app in Hok as [_ Hok]; by apply Forall_inv in Hok).
  assert (Hlast : ∀ k e', (seen ++ [e]) !! k = Some e' → seen !! k = Some e' ∨ k = length seen ∧ e' = e).
  { intros k e'. rewrite lookup_app_Some, list_lookup_singleton_Some. intros [?|[? [? ?]]]; [by left|right].
    split; [lia|done]. }
  destruct He as [Hl He].
  destruct (_ && _) eqn:E; apply IH; try done.
  - apply andb_prop in E as [Ea Em]. apply Z.eqb_eq in Ea. right.
    assert (Hlen : ∀ j e', seen !! j = Some e' → applies e' d → _prefix_length e' < _prefix_length e).
    { intros j e' Hj Ha. destruct Hbest as [[_ Hnone]|(k & e0 & Hidx & Hk & _ & Hge & _)].
      - by apply Hnone in Hj.
      - destruct Hmax as [[? _]|(k' & e1 & Hidx' & Hk' & ->)]; [lia|].
        assert (k' = k) as -> by lia. rewrite Hk in Hk'. injection Hk' as <-.
        pose proof (Hge j e' Hj Ha). lia. }
    exists (length seen), e. split_and!; try done.
    + by rewrite lookup_app_r, Nat.sub_diag by lia.
    + intros j e' [Hj|[_ ->]]%Hlast Ha; [|lia]. specialize (Hlen j e' Hj Ha). lia.
    + intros j e' Hlt [Hj|[-> _]]%Hlast Ha; [by apply (Hlen j)|lia].
  - right. exists (length seen), e. split_and!; try done. by rewrite lookup_app_r, Nat.sub_diag by lia.
  - assert (Hno : applies e d → ∃ k e0, idx = Z.of_nat k ∧ seen !! k = Some e0 ∧
      max = _prefix_length e0 ∧ _prefix_length e ≤ _prefix_length e0).
    { intros Ha. apply andb_false_iff in E as [E|E]; [apply Z.eqb_neq in E; done|].
      destruct Hmax as [[-> ->]|(k & e0 & ? & ? & ->)]; [lia|]. exists k, e0. split_and!; try done. lia. }
    destruct Hbest as [[-> Hnone]|(k & e0 & -> & Hk & Ha0 & Hge & Hlt)].
    + left. split; [done|]. intros k e' [Hk|[_ ->]]%Hlast Ha; [by apply Hnone in Hk|].
      destruct (Hno Ha) as (? & ? & ? & _). lia.
    + right. exists k, e0. split_and!; try done; [by apply lookup_app_l_Some|..].
      * intros j e' [Hj|[_ ->]]%Hlast Ha; [by apply (Hge j)|].
        destruct (Hno Ha) as (k' & e1 & Hkk & Hk1 & _ & Hle). assert (k' = k) as -> by lia.
        rewrite Hk in Hk1. by injection Hk1 as <-.
      * intros j e' Hjk [Hj|[-> _]]%Hlast Ha; [by apply (Hlt j)|].
        apply lookup_lt_Some in Hk. lia.
  - destruct Hmax as [?|(k & e0 & ? & Hk & ?)]; [by left|right].
    exists k, e0. split_and!; try done. by apply lookup_app_l_Some.
Qed.

Lemma best_match r d :
  Forall entry_ok (_routing_table r) →
  best (_routing_table r) d (match_loop (_routing_table r) 0 d (-1) (-1)).
Proof.
  intros Hok. apply (match_loop_spec [] _ d (-1) (-1)); [done| |by left].
  left. split; [done|]. intros k e H. done.
Qed.

(** A router whose parts fit together: every route leads to an interface it has,
    every interface has proper addresses, every waiting datagram is well formed. *)
Record wf (r : t) : Prop := {
  wf_table : Forall (λ e, entry_ok e ∧ 0 ≤ _interface_num e < len (_interfaces r) ∧
    match _next_hop e with Some h => 0 ≤ h < 2 ^ 32 | None => True end) (_routing_table r);
  wf_interfaces : Forall (λ i, NetworkInterface.ok (AsyncNetworkInterface.base i) ∧
    Forall IPv4Datagram.ok (AsyncNetworkInterface._datagrams_out i)) (_interfaces r)
}.

(** The queues of received datagrams. *)
Definition queues (r : t) : list (list InternetDatagram) :=
  AsyncNetworkInterface._datagrams_out <$> _interfaces r.

Lemma interface_send_ok n d ip :
  NetworkInterface.ok n → IPv4Datagram.ok d → 0 ≤ ip < 2 ^ 32 →
  ∃ n', NetworkInterface.send_datagram n d ip = Ok n' ∧ NetworkInterface.ok n'.
Proof.
  intros Hn Hd Hip. unfold NetworkInterface.send_datagram.
  destruct (NetworkInterface.get_EthernetAdress n ip) as [mac|].
  { destruct (send_helper_spec n mac d Hd) as (out & _ & ->). by eexists. }
  unfold NetworkInterface.queue_helper.
  destruct (NetworkInterface.get_WaitingList n ip).
  - destruct (_ >=? _); [|by exists n]. rewrite send_ARP_request_spec by done. by eexists.
  - rewrite send_ARP_request_spec by done. by eexists.
Qed.

Lemma ttl_ok d :
  IPv4Datagram.ok d → 1 < IPv4Header.ttl (IPv4Datagram.header d) →
  IPv4Datagram.ok (d <| IPv4Datagram.header ::= λ h, h <| IPv4Header.ttl ::= λ x, u8 (x - 1) |> |>).
Proof.
  intros (Hh & Hrest) Ht. split; [|done]. unfold IPv4Header.ok in *. cbn.
  pose proof (u8_bound (IPv4Header.ttl (IPv4Datagram.header d) - 1)). tauto.
Qed.

(** Replacing one interface's Ethernet side keeps the router well formed. *)
Lemma wf_insert r k i :
  wf r → NetworkInterface.ok (AsyncNetworkInterface.base i) →
  Forall IPv4Datagram.ok (AsyncNetworkInterface._datagrams_out i) →
  wf (r <| _interfaces ::= <[k := i]> |>).
Proof.
  intros [Ht Hi] Hb Hq. constructor; cbn.
  - eapply Forall_impl; [exact Ht|]. cbn. intros e (? & ? & ?). split_and!; try done; try lia.
    all: unfold len in *; rewrite ?length_insert; lia.
  - by apply Forall_insert.
Qed.

Lemma route_one_spec r d :
  wf r → IPv4Datagram.ok d →
  ∃ r', route_one_datagram r d = Ok r' ∧ wf r' ∧ queues r' = queues r.
Proof.
  intros Hwf Hd. unfold route_one_datagram. destruct (_ <=? 1) eqn:Ettl; [by exists r|].
  pose proof (wf_table r Hwf) as Ht. rewrite Forall_forall in Ht.
  destruct (best_match r (IPv4Header.dst (IPv4Datagram.header d))) as [[-> _]|(k & e & -> & Hk & _)];
    [apply Forall_forall; intros e He; by destruct (Ht e He)|by exists r|].
  replace (Z.of_nat k =? -1) with false by lia. rewrite Nat2Z.id, Hk. cbn [or_UB mbind outcome_bind].
  destruct (Ht e) as (_ & Hnum & Hhop); [by apply list_elem_of_lookup_2 in Hk|].
  destruct (lookup_lt_is_Some_2 (_interfaces r) (Z.to_nat (_interface_num e))) as [i Hi]; [unfold len in *; lia|].
  rewrite Hi. cbn [or_UB mbind outcome_bind]. unfold AsyncNetworkInterface.send_datagram.
  pose proof (wf_interfaces r Hwf) as Hif. destruct (Forall_lookup_1 _ _ _ _ Hif Hi) as [Hn Hq].
  set (d' := d <| IPv4Datagram.header ::= _ |>).
  set (hop := match _next_hop e with Some h => h | None => IPv4Header.dst (IPv4Datagram.header d) end).
  destruct (interface_send_ok (AsyncNetworkInterface.base i) d' hop) as (n' & -> & Hn'); [done| |..].
  - apply ttl_ok; [done|lia].
  - unfold hop. destruct (_next_hop e); [done|]. destruct Hd as (Hh & _). unfold IPv4Header.ok in Hh. tauto.
  - cbn [mbind outcome_bind]. eexists. split; [done|]. split; [by apply wf_insert|].
    unfold queues. cbn [_interfaces upd]. rewrite list_fmap_insert. apply list_insert_id. rewrite list_lookup_fmap, Hi. done.
Qed.

Lemma alter_is_insert {A} (g : A → A) (l : list A) k x :
  l !! k = Some x → alter g k l = <[k := g x]> l.
Proof.
  revert k. induction l as [|y l IH]; intros [|k] H; simplify_eq/=; [done|]. f_equal. by apply IH.
Qed.

Lemma route_queue_spec q k r :
  wf r → queues r !! k = Some q →
  ∃ r', route_queue (S (length q)) k r = Ok r' ∧ wf r' ∧ queues r' = <[k := []]> (queues r).
Proof.
  revert r. induction q as [|d q IH]; intros r Hwf Hq; cbn [route_queue length].
  all: pose proof Hq as Hq'; unfold queues in Hq'; rewrite list_lookup_fmap in Hq';
    destruct (_interfaces r !! k) as [i|] eqn:Hi; [|done]; injection Hq' as Hi';
    cbn [or_UB mbind outcome_bind]; unfold AsyncNetworkInterface.datagrams_out; rewrite Hi'.
  - exists r. split; [done|]. split; [done|]. symmetry. by apply list_insert_id.
  - pose proof (wf_interfaces r Hwf) as Hif. destruct (Forall_lookup_1 _ _ _ _ Hif Hi) as [Hn Hqs].
    rewrite Hi' in Hqs. destruct (route_one_spec r d Hwf (Forall_inv Hqs)) as (r1 & -> & Hwf1 & Hq1).
    cbn [mbind outcome_bind].
    pose proof Hq as Hq2. rewrite <- Hq1 in Hq2. unfold queues in Hq2. rewrite list_lookup_fmap in Hq2.
    destruct (_interfaces r1 !! k) as [i1|] eqn:Hi1; [|done]. injection Hq2 as Hi1'.
    pose proof (wf_interfaces r1 Hwf1) as Hif1. destruct (Forall_lookup_1 _ _ _ _ Hif1 Hi1) as [Hn1 _].
    set (r2 := r1 <| _interfaces ::= _ |>).
    assert (Hr2 : r2 = r1 <| _interfaces ::= <[k := i1 <| AsyncNetworkInterface._datagrams_out := q |>]> |>).
    { unfold r2. cbn. f_equal. rewrite (alter_is_insert _ _ _ _ Hi1). cbn. by rewrite Hi1'. }
    clearbody r2.
    assert (Hwf2 : wf r2) by (rewrite Hr2; apply wf_insert; [done|done|]; by apply Forall_inv_tail in Hqs).
    assert (Hqr2 : queues r2 = <[k := q]> (queues r1)).
    { rewrite Hr2. unfold queues. cbn [_interfaces upd]. by rewrite list_fmap_insert. }
    assert (Hk : (k < length (queues r1))%nat) by (rewrite Hq1; by apply lookup_lt_Some in Hq).
    destruct (IH r2 Hwf2) as (r' & Hr' & Hwf' & Hqr'); [by rewrite Hqr2, list_lookup_insert_eq|].
    exists r'. split; [done|]. split; [done|]. by rewrite Hqr', Hqr2, list_insert_insert_eq, Hq1.
Qed.

Lemma route_interfaces_spec todo k r :
  wf r → (k + todo = length (_interfaces r))%nat → (∀ j, (j < k)%nat → queues r !! j = Some []) →
  ∃ r', route_interfaces todo k r = Ok r' ∧ wf r' ∧ Forall (λ q, q = []) (queues r') ∧
    length (queues r') = length (queues r).
Proof.
  revert k r. induction todo as [|todo IH]; intros k r Hwf Hk Hdone; cbn [route_interfaces].
  { exists r. split_and!; try done. apply Forall_lookup_2. intros j q Hj.
    assert (j < k)%nat by (apply lookup_lt_Some in Hj; unfold queues in Hj; rewrite length_fmap in Hj; lia).
    rewrite Hdone in Hj by done. by injection Hj. }
  destruct (lookup_lt_is_Some_2 (_interfaces r) k) as [i Hi]; [lia|]. rewrite Hi. cbn [or_UB mbind outcome_bind].
  assert (Hq : queues r !! k = Some (AsyncNetworkInterface._datagrams_out i)).
  { unfold queues. by rewrite list_lookup_fmap, Hi. }
  destruct (route_queue_spec _ k r Hwf Hq) as (r1 & Hr1 & Hwf1 & Hq1).
  unfold AsyncNetworkInterface.datagrams_out. rewrite Hr1. cbn [mbind outcome_bind].
  assert (Hlen : length (queues r1) = length (queues r)) by (by rewrite Hq1, length_insert).
  destruct (IH (S k) r1 Hwf1) as (r' & Hr' & Hwf' & Hall & Hl).
  - unfold queues in Hlen. rewrite !length_fmap in Hlen. lia.
  - intros j Hj. rewrite Hq1. destruct (decide (j = k)) as [->|].
    + apply list_lookup_insert_eq. apply lookup_lt_Some in Hq. done.
    + rewrite list_lookup_insert_ne by done. apply Hdone. lia.
  - exists r'. split_and!; try done. congruence.
Qed.

End routing.

(** ** The router with at most one datagram *)

Section routing_one.
Import Router.
Implicit Types (l : list AsyncNetworkInterface.t) (i : AsyncNetworkInterface.t).

(** The datagrams interface [k] holds. *)
Definition held l (k : nat) : list InternetDatagram := default [] (AsyncNetworkInterface.datagrams_out <$> l !! k).

Lemma route_interfaces_app a b k r :
  route_interfaces (a + b) k r = (r ← route_interfaces a k r; route_interfaces b (k + a) r).
Proof.
  revert k r. induction a as [|a IH]; intros k r; cbn [route_interfaces Nat.add mbind outcome_bind].
  { by rewrite Nat.add_0_r. }
  destruct (or_UB _) as [i| | |]; try done. cbn [mbind outcome_bind].
  destruct (route_queue _ _ _) as [r1| | |]; try done. cbn [mbind outcome_bind]. rewrite IH.
  by rewrite Nat.add_succ_r.
Qed.

Lemma route_interfaces_idle todo k l tb :
  (k + todo ≤ length l)%nat → (∀ j, (k ≤ j < k + todo)%nat → held l j = []) →
  route_interfaces todo k (mk l tb) = Ok (mk l tb).
Proof.
  revert k. induction todo as [|todo IH]; intros k Hlen Hh; cbn [route_interfaces]; [done|].
  destruct (lookup_lt_is_Some_2 l k) as [i Hi]; [lia|]. cbn [_interfaces]. rewrite Hi. cbn [or_UB mbind outcome_bind].
  specialize (Hh k ltac:(lia)) as H0. unfold held in H0. rewrite Hi in H0. cbn in H0. rewrite H0.
  cbn [length route_queue _interfaces]. rewrite Hi. cbn [or_UB mbind outcome_bind]. rewrite H0.
  apply IH; [lia|]. intros j Hj. apply Hh. lia.
Qed.

Lemma route_idle l tb : (∀ j, held l j = []) → route (mk l tb) = Ok (mk l tb).
Proof. intros H. by apply route_interfaces_idle. Qed.

(** The interface without the datagrams it held. *)
Definition emptied i : AsyncNetworkInterface.t := i <| AsyncNetworkInterface._datagrams_out := [] |>.

(** One interface holds one datagram: routing it is all that happens. *)
Lemma route_single l l1 tb s d :
  (s < length l)%nat → held l s = [d] → (∀ j, j ≠ s → held l j = []) →
  route_one_datagram (mk l tb) d = Ok (mk l1 tb) → length l1 = length l → (∀ j, held l1 j = held l j) →
  route (mk l tb) = Ok (mk (alter emptied s l1) tb).
Proof.
  intros Hs Hd Hothers Hone Hlen Hheld. unfold route. cbn [_interfaces].
  replace (length l) with (s + S (length l - S s))%nat by lia. rewrite route_interfaces_app.
  rewrite (route_interfaces_idle s 0 l tb) by (try lia; intros j Hj; apply Hothers; lia).
  cbn [mbind outcome_bind route_interfaces Nat.add _interfaces].
  destruct (lookup_lt_is_Some_2 l s Hs) as [i Hi]. rewrite Hi. cbn [or_UB mbind outcome_bind].
  unfold held in Hd at 1. rewrite Hi in Hd. cbn in Hd. rewrite Hd. cbn [length route_queue _interfaces].
  rewrite Hi. cbn [or_UB mbind outcome_bind]. rewrite Hd, Hone. cbn [mbind outcome_bind upd eta _interfaces].
  destruct (lookup_lt_is_Some_2 l1 s) as [i1 Hi1]; [lia|].
  assert (Hd1 : AsyncNetworkInterface._datagrams_out i1 = [d]).
  { specialize (Hheld s). unfold held in Hheld. rewrite Hi, Hi1 in Hheld. cbn in Hheld.
    unfold AsyncNetworkInterface.datagrams_out in *. congruence. }
  set (l2 := alter _ s l1).
  assert (Hl2 : l2 = alter emptied s l1).
  { apply list_eq. intros j. unfold l2. destruct (decide (j = s)) as [->|Hne].
    - rewrite !list_lookup_alter_eq, Hi1. cbn. unfold emptied. cbn. by rewrite Hd1.
    - by rewrite !list_lookup_alter_ne. }
  assert (Hi2 : l2 !! s = Some (emptied i1)) by (rewrite Hl2, list_lookup_alter_eq, Hi1; done).
  cbn [_routing_table]. rewrite Hi2. cbn [or_UB mbind outcome_bind AsyncNetworkInterface.datagrams_out emptied upd eta AsyncNetworkInterface._datagrams_out].
  rewrite route_interfaces_idle, Hl2; [done|rewrite Hl2, length_alter; lia|].
  intros j Hj. rewrite Hl2. unfold held. rewrite list_lookup_alter_ne by lia.
  change (held l1 j = []). rewrite Hheld. apply Hothers. lia.
Qed.

(** The datagram as the router sends it on. *)
Definition hop (d : InternetDatagram) : InternetDatagram :=
  d <| IPv4Datagram.header ::= λ h, h <| IPv4Header.ttl ::= λ x, u8 (x - 1) |> |>.

(** The table sends a destination out of the interface [num] to [next]. *)
Definition leads (table : list RouteEntry) (dst num next : Z) : Prop :=
  ∃ e, table !! Z.to_nat (match_loop table 0 dst (-1) (-1)) = Some e ∧
    match_loop table 0 dst (-1) (-1) ≠ -1 ∧ _interface_num e = num ∧
    match _next_hop e with Some next_hop => next_hop | None => dst end = next.

Lemma route_one_leads l table d num next i i' :
  1 < IPv4Header.ttl (IPv4Datagram.header d) → leads table (IPv4Header.dst (IPv4Datagram.header d)) num next →
  l !! Z.to_nat num = Some i → AsyncNetworkInterface.send_datagram i (hop d) next = Ok i' →
  route_one_datagram (mk l table) d = Ok (mk (<[Z.to_nat num := i']> l) table).
Proof.
  intros Ht (e & He & Hne & <- & <-) Hi Hs. unfold route_one_datagram.
  replace (_ <=? 1) with false by lia. cbn [_routing_table _interfaces]. cbv zeta.
  replace (_ =? -1) with false by lia. rewrite He. cbn [or_UB mbind outcome_bind]. rewrite Hi.
  cbn [or_UB mbind outcome_bind]. fold (hop d). by rewrite Hs.
Qed.

Lemma route_one_expired r d : IPv4Header.ttl (IPv4Datagram.header d) ≤ 1 → route_one_datagram r d = Ok r.
Proof. intros H. unfold route_one_datagram. by replace (_ <=? 1) with true by lia. Qed.

End routing_one.

(** ** Properties *)

Section router_properties.
Import Router.

(** The high-order bits of the route's prefix, as many as its length, match those of the
    destination. *)
Definition prefix_matches (e : RouteEntry) (destination : Z) : Prop :=
  destination / 2 ^ (32 - _prefix_length e) = _route_prefix e / 2 ^ (32 - _prefix_length e).

(** The prefix has no bits beyond its length. *)
Definition canonical (e : RouteEntry) : Prop := _route_prefix e mod 2 ^ (32 - _prefix_length e) = 0.

(** C28: the router forwards by longest prefix, if the routes that match the
    destination have no bits in their prefixes beyond the prefix length (the code
    compares those bits too, so that a route that has some is never used).  A datagram
    whose time to live is at most one, or that no route matches in as many high-order
    bits as its prefix is long, is dropped; any other leaves, with its time to live one
    lower, from the interface of a route that matches it, whose prefix is at least as
    long as that of every other route that does and longer than those of the earlier
    ones, towards the route's next hop or, for a directly attached network, the
    destination itself. *)
Theorem router_longest_prefix_match (r : t) (d : InternetDatagram) :
  let h := IPv4Datagram.header d in
  Forall entry_ok (_routing_table r) → 0 ≤ IPv4Header.dst h < 2 ^ 32 → 0 ≤ IPv4Header.ttl h < 2 ^ 8 →
  (∀ e, e ∈ _routing_table r → prefix_matches e (IPv4Header.dst h) → canonical e) →
  (IPv4Header.ttl h ≤ 1 ∨ (∀ e, e ∈ _routing_table r → ¬ prefix_matches e (IPv4Header.dst h))) ∧
    route_one_datagram r d = Ok r ∨
  1 < IPv4Header.ttl h ∧
  ∃ k e, _routing_table r !! k = Some e ∧ prefix_matches e (IPv4Header.dst h) ∧
    (∀ e', e' ∈ _routing_table r → prefix_matches e' (IPv4Header.dst h) →
       _prefix_length e' ≤ _prefix_length e) ∧
    (∀ j e', (j < k)%nat → _routing_table r !! j = Some e' → prefix_matches e' (IPv4Header.dst h) →
       _prefix_length e' < _prefix_length e) ∧
    let d' := d <| IPv4Datagram.header := h <| IPv4Header.ttl := IPv4Header.ttl h - 1 |> |> in
    let hop := default (IPv4Header.dst h) (_next_hop e) in
    route_one_datagram r d =
      (i ← or_UB (_interfaces r !! Z.to_nat (_interface_num e));
       n ← NetworkInterface.send_datagram (AsyncNetworkInterface.base i) d' hop;
       Ok (r <| _interfaces ::= <[Z.to_nat (_interface_num e) :=
                                  i <| AsyncNetworkInterface.base := n |>]> |>)).
Proof.
  intros h Hok Hdst Httl Hcan. unfold route_one_datagram. fold h.
  assert (Hiff : ∀ e, e ∈ _routing_table r → applies e (IPv4Header.dst h) ↔ prefix_matches e (IPv4Header.dst h)).
  { intros e He. rewrite Forall_forall in Hok. rewrite applies_iff; [|by apply Hok|done].
    split; [by intros [_ ?]|]. intros Hm. split; [by apply Hcan|done]. }
  destruct (IPv4Header.ttl h <=? 1) eqn:E; [left; split; [left; lia|done]|].
  destruct (best_match r (IPv4Header.dst h) Hok) as [[-> Hnone]|(k & e & -> & Hk & Ha & Hge & Hlt)].
  - left. split; [right|done]. intros e He Hm. apply list_elem_of_lookup in He as [k Hk].
    apply (Hnone k e Hk). apply Hiff; [by apply list_elem_of_lookup_2 in Hk|done].
  - right. split; [lia|]. exists k, e.
    assert (Hin : ∀ k e, _routing_table r !! k = Some e → e ∈ _routing_table r)
      by (intros ? ?; apply list_elem_of_lookup_2).
    split; [done|]. split; [apply Hiff; [by apply (Hin k)|done]|]. split; [|split].
    + intros e' He' Hm. apply list_elem_of_lookup in He' as [j Hj]. apply (Hge j e' Hj).
      apply Hiff; [by apply (Hin j)|done].
    + intros j e' Hjk Hj Hm. apply (Hlt j e' Hjk Hj). apply Hiff; [by apply (Hin j)|done].
    + replace (Z.of_nat k =? -1) with false by lia. rewrite Nat2Z.id, Hk. cbn [or_UB mbind outcome_bind].
      destruct (_interfaces r !! Z.to_nat (_interface_num e)) as [i|]; [|done].
      cbn [or_UB mbind outcome_bind]. unfold AsyncNetworkInterface.send_datagram.
      cbn [upd]. fold h. rewrite u8_id by lia. unfold default.
      by destruct (_next_hop e), (NetworkInterface.send_datagram _ _ _).
Qed.

(** C29: [route] terminates and leaves nothing behind: in a router whose routes
    lead to its interfaces and whose received datagrams are well formed, it
    returns with every queue of received datagrams empty. *)
Theorem route_drains_queues (r : t) :
  wf r → ∃ r', route r = Ok r' ∧ wf r' ∧ Forall (λ q, q = []) (queues r') ∧
    length (queues r') = length (queues r).
Proof. intros Hwf. apply route_interfaces_spec; [done|lia|lia]. Qed.

(** Two routes on two interfaces: everything, and 10.0.0.0/8. *)
Definition two_routes : t :=
  Eval vm_compute in
    match (r ← add_route (mk [AsyncNetworkInterface.make idle_iface;
                              AsyncNetworkInterface.mk idle_iface [example_datagram]] []) 0 0 (Some 1) 0;
           add_route r 167772160 8 None 1) with
    | Ok r => r
    | _ => empty
    end.

Lemma two_routes_ok : Forall entry_ok (_routing_table two_routes).
Proof. repeat (apply Forall_cons_2; [unfold entry_ok; simpl; split_and!; done || lia|]). done. Qed.

Lemma two_routes_wf : wf two_routes.
Proof.
  constructor.
  - pose proof two_routes_ok as H. eapply Forall_impl; [apply Forall_and; split; [exact H|]|].
    + instantiate (1 := λ e, 0 ≤ _interface_num e < 2 ∧
        match _next_hop e with Some h => 0 ≤ h < 2 ^ 32 | None => True end).
      repeat (apply Forall_cons_2; [simpl; lia|]). done.
    + done.
  - apply Forall_cons_2; [|apply Forall_cons_2; [|done]]; (split; [split; [apply example_addr_ok; lia|simpl; lia]|]);
      repeat (apply Forall_cons_2; [apply example_datagram_ok|]); done.
Qed.

Lemma router_longest_prefix_match_witness :
  let d := example_datagram in
  (64 ≤ 1 ∨ (∀ e, e ∈ _routing_table two_routes → ¬ prefix_matches e 3232235777)) ∧
    route_one_datagram two_routes d = Ok two_routes ∨
  1 < 64 ∧
  ∃ k e, _routing_table two_routes !! k = Some e ∧ prefix_matches e 3232235777 ∧
    (∀ e', e' ∈ _routing_table two_routes → prefix_matches e' 3232235777 →
       _prefix_length e' ≤ _prefix_length e) ∧
    (∀ j e', (j < k)%nat → _routing_table two_routes !! j = Some e' → prefix_matches e' 3232235777 →
       _prefix_length e' < _prefix_length e) ∧
    let d' := d <| IPv4Datagram.header := (IPv4Datagram.header d) <| IPv4Header.ttl := 63 |> |> in
    route_one_datagram two_routes d =
      (i ← or_UB (_interfaces two_routes !! Z.to_nat (_interface_num e));
       n ← NetworkInterface.send_datagram (AsyncNetworkInterface.base i) d' (default 3232235777 (_next_hop e));
       Ok (two_routes <| _interfaces ::= <[Z.to_nat (_interface_num e) :=
                                  i <| AsyncNetworkInterface.base := n |>]> |>)).
Proof.
  apply (router_longest_prefix_match two_routes example_datagram); [apply two_routes_ok|simpl; lia|simpl; lia|].
  intros e He _. repeat (apply elem_of_cons in He as [->|He]; [vm_compute; reflexivity|]). by apply elem_of_nil in He.
Defined.

(** A route with bits beyond the length of its prefix applies to no destination. *)
Theorem uncanonical_route_never_applies (e : RouteEntry) (destination : Z) :
  entry_ok e → 0 ≤ destination < 2 ^ 32 → ¬ canonical e → ¬ applies e destination.
Proof. intros He Hd Hc [? _]%applies_iff; done. Qed.

Lemma route_drains_queues_witness :
  ∃ r', route two_routes = Ok r' ∧ wf r' ∧ Forall (λ q, q = []) (queues r') ∧ length (queues r') = 2%nat.
Proof. apply (route_drains_queues two_routes), two_routes_wf. Defined.

(** A frame of type IPv4 whose datagram has version 6. *)
Definition version_6_frame : EthernetFrame.t :=
  EthernetFrame.mk (EthernetHeader.mk [2; 0; 0; 0; 0; 2] [2; 0; 0; 0; 0; 1] EthernetHeader.TYPE_IPv4)
    [Buffer.of_string [101; 0; 0; 20; 0; 0; 0; 0; 64; 6; 0; 0; 10; 0; 0; 1; 10; 0; 0; 9]].

(** One bad datagram stops the router.  [IPv4Header::parse] answers
    [WrongIPVersion] for it, but [IPv4Datagram::parse] does not look at the answer;
    the interface hands the datagram up, and [route] throws when an interface
    whose next hop is known serializes it. *)
Theorem bad_version_stops_router :
  let known := NetworkInterface.cache_mapping idle_iface 1 [2; 0; 0; 0; 0; 3] in
  ∃ i r, AsyncNetworkInterface.recv_frame (AsyncNetworkInterface.make known) version_6_frame = Ok i ∧
    add_route (add_interface empty i).1 0 0 (Some 1) 0 = Ok r ∧
    route r = Throw runtime_error.
Proof.
  eexists _, _. split; [vm_compute; reflexivity|]. split; [vm_compute; reflexivity|].
  vm_compute. reflexivity.
Qed.

End router_properties.
