(* ===== verification/adapters.v ===== *)
(** * The adapters between TCP segments and datagrams

    Models [libsponge/tcp_helpers/tcp_over_ip], [fd_adapter], [lossy_fd_adapter]
    and [tuntap_adapter].  What a device delivers is an argument of [read]; what
    is written to it is a list that the operations return.  [DatagramAdapter] is
    the interface the socket layer and [LossyFdAdapter] are written against, with
    the promise every adapter keeps about the connection it serves. *)

From S2P Require Import prelude buffer parser internet_checksum wrapping_integers tcp_segment ipv4 ethernet network_interface.

Module Address.

(** An IPv4 [Address]: the number and the port of the wrapped [sockaddr_in].
    The constructor from a dotted quad and a port is [mk] on the number the quad
    stands for. *)
Record t := mk {
  ipv4_numeric : Z;
  port : Z
}.

(** The number of a dotted quad. *)
Definition quad (a b c d : Z) : Z := Z.lor (Z.shiftl (Z.lor (Z.shiftl (Z.lor (Z.shiftl a 8) b) 8) c) 8) d.

Definition from_ipv4_numeric (ip_address : Z) : t := mk ip_address 0.

Definition eqb (a other : t) : bool :=
  (ipv4_numeric a =? ipv4_numeric other) && (port a =? port other).

Definition ok (a : t) : Prop := 0 ≤ ipv4_numeric a < 2 ^ 32 ∧ 0 ≤ port a < 2 ^ 16.

End Address.

Module FdAdapterConfig.

Record t := mk {
  source : Address.t;
  destination : Address.t;
  loss_rate_dn : Z;
  loss_rate_up : Z
}.

#[global] Instance eta_t : Eta t := λ c, mk (source c) (destination c) (loss_rate_dn c) (loss_rate_up c).

Definition default : t := mk (Address.mk 0 0) (Address.mk 0 0) 0 0.

End FdAdapterConfig.

Module FdAdapterBase.

Record t := mk {
  _cfg : FdAdapterConfig.t;
  _listen : bool
}.

#[global] Instance eta_t : Eta t := λ a, mk (_cfg a) (_listen a).

Definition default : t := mk FdAdapterConfig.default false.

Definition set_listening (a : t) (l : bool) : t := a <| _listen := l |>.
Definition listening (a : t) : bool := _listen a.
Definition config (a : t) : FdAdapterConfig.t := _cfg a.

(** [config_mut() = c] *)
Definition set_config (a : t) (c : FdAdapterConfig.t) : t := a <| _cfg := c |>.

Definition tick (a : t) (ms : Z) : t := a.

End FdAdapterBase.

Module TCPOverIPv4Adapter.
Import FdAdapterBase.

Definition unwrap_tcp_in_ip (a : t) (ip_dgram : InternetDatagram) : outcome (option TCPSegment.t * t) :=
  let h := IPv4Datagram.header ip_dgram in
  if negb (listening a) &&
     negb (IPv4Header.dst h =? Address.ipv4_numeric (FdAdapterConfig.source (config a)))
  then Ok (None, a)
  else if negb (listening a) &&
     negb (IPv4Header.src h =? Address.ipv4_numeric (FdAdapterConfig.destination (config a)))
  then Ok (None, a)
  else if negb (IPv4Header.proto h =? IPv4Header.PROTO_TCP) then Ok (None, a)
  else
    buffer ← BufferList.to_buffer (IPv4Datagram.payload ip_dgram);
    '(res, tcp_seg) ← TCPSegment.parse TCPSegment.default buffer (IPv4Header.pseudo_cksum h);
    if bool_decide (NoError ≠ res) then Ok (None, a)
    else if negb (TCPHeader.dport (TCPSegment.header tcp_seg) =?
                  Address.port (FdAdapterConfig.source (config a)))
    then Ok (None, a)
    else
      let check_peer (a : t) :=
        if negb (TCPHeader.sport (TCPSegment.header tcp_seg) =?
                 Address.port (FdAdapterConfig.destination (config a)))
        then Ok (None, a)
        else Ok (Some tcp_seg, a) in
      if listening a then
        if TCPHeader.syn (TCPSegment.header tcp_seg) && negb (TCPHeader.rst (TCPSegment.header tcp_seg))
        then
          let a := a <| _cfg ::= λ c, c <| FdAdapterConfig.source :=
                     Address.mk (IPv4Header.dst h) (Address.port (FdAdapterConfig.source c)) |> |> in
          let a := a <| _cfg ::= λ c, c <| FdAdapterConfig.destination :=
                     Address.mk (IPv4Header.src h) (TCPHeader.sport (TCPSegment.header tcp_seg)) |> |> in
          check_peer (set_listening a false)
        else Ok (None, a)
      else check_peer a.

(** The segment is passed by reference: its ports are set. *)
Definition wrap_tcp_in_ip (a : t) (seg : TCPSegment.t) : outcome (InternetDatagram * TCPSegment.t) :=
  let c := config a in
  let seg := seg <| TCPSegment.header ::= λ h, h <| TCPHeader.sport := Address.port (FdAdapterConfig.source c) |> |> in
  let seg := seg <| TCPSegment.header ::= λ h, h <| TCPHeader.dport := Address.port (FdAdapterConfig.destination c) |> |> in
  let h := IPv4Datagram.header IPv4Datagram.default in
  let h := h <| IPv4Header.src := Address.ipv4_numeric (FdAdapterConfig.source c) |> in
  let h := h <| IPv4Header.dst := Address.ipv4_numeric (FdAdapterConfig.destination c) |> in
  let h := h <| IPv4Header.len_ := u16 (IPv4Header.hlen h * 4 + TCPHeader.doff (TCPSegment.header seg) * 4 +
                                        Buffer.size (TCPSegment.payload seg)) |> in
  payload ← TCPSegment.serialize seg (IPv4Header.pseudo_cksum h);
  Ok (IPv4Datagram.mk h payload, seg).

End TCPOverIPv4Adapter.

(** ** The interface of an adapter *)

(** What [TCPSpongeSocket] and [LossyFdAdapter] use of an adapter of type [A] whose
    device delivers [In] and takes [Out].  The promise: reading changes the
    configuration only by accepting a connection, which ends the listening, and
    the segment that is handed up then is a SYN. *)
Class DatagramAdapter (A In Out : Type) := {
  adapter_base : A → FdAdapterBase.t;
  adapter_set_base : A → FdAdapterBase.t → A;
  adapter_read : A → In → outcome (option TCPSegment.t * A * list Out);
  adapter_write : A → TCPSegment.t → outcome (A * list Out);
  adapter_tick : A → Z → A * list Out;
  adapter_set_base_law a b : adapter_base (adapter_set_base a b) = b;
  adapter_read_law a i o a' outs :
    adapter_read a i = Ok (o, a', outs) →
    adapter_base a' = adapter_base a ∧
      (FdAdapterBase.listening (adapter_base a) = true → o = None) ∨
    FdAdapterBase.listening (adapter_base a) = true ∧
      FdAdapterBase.listening (adapter_base a') = false ∧
      ∀ seg, o = Some seg → TCPHeader.syn (TCPSegment.header seg) = true ∧
                            TCPHeader.rst (TCPSegment.header seg) = false;
  adapter_write_law a seg a' outs :
    adapter_write a seg = Ok (a', outs) → adapter_base a' = adapter_base a;
  adapter_tick_law a ms : adapter_base (adapter_tick a ms).1 = adapter_base a
}.

Module TCPOverUDPSocketAdapter.
Import FdAdapterBase.

(** [read], with the datagram [_sock.recv()] returns: its source address and its
    payload. *)
Definition read (a : t) (datagram : Address.t * bytes) : outcome (option TCPSegment.t * t) :=
  let '(source_address, payload) := datagram in
  if negb (listening a) && negb (Address.eqb source_address (FdAdapterConfig.destination (config a)))
  then Ok (None, a)
  else
    '(res, seg) ← TCPSegment.parse TCPSegment.default (Buffer.of_string payload) 0;
    if bool_decide (NoError ≠ res) then Ok (None, a)
    else if listening a then
      if TCPHeader.syn (TCPSegment.header seg) && negb (TCPHeader.rst (TCPSegment.header seg)) then
        let a := a <| _cfg ::= λ c, c <| FdAdapterConfig.destination := source_address |> |> in
        Ok (Some seg, set_listening a false)
      else Ok (None, a)
    else Ok (Some seg, a).

(** [write]: what [_sock.sendto] is called with. *)
Definition write (a : t) (seg : TCPSegment.t) : outcome (Address.t * BufferList.t) :=
  let c := config a in
  let seg := seg <| TCPSegment.header ::= λ h, h <| TCPHeader.sport := Address.port (FdAdapterConfig.source c) |> |> in
  let seg := seg <| TCPSegment.header ::= λ h, h <| TCPHeader.dport := Address.port (FdAdapterConfig.destination c) |> |> in
  payload ← TCPSegment.serialize seg 0;
  Ok (FdAdapterConfig.destination c, payload).

End TCPOverUDPSocketAdapter.

Module TCPOverIPv4OverTunFdAdapter.
Import FdAdapterBase.

(** [read], with the bytes [_tun.read()] returns. *)
Definition read (a : t) (data : bytes) : outcome (option TCPSegment.t * t) :=
  '(res, ip_dgram) ← IPv4Datagram.parse IPv4Datagram.default (Buffer.of_string data);
  if bool_decide (res ≠ NoError) then Ok (None, a)
  else TCPOverIPv4Adapter.unwrap_tcp_in_ip a ip_dgram.

(** [write]: what [_tun.write] is called with. *)
Definition write (a : t) (seg : TCPSegment.t) : outcome BufferList.t :=
  '(ip_dgram, _) ← TCPOverIPv4Adapter.wrap_tcp_in_ip a seg;
  IPv4Datagram.serialize ip_dgram.

End TCPOverIPv4OverTunFdAdapter.

Module TCPOverIPv4OverEthernetAdapter.

(** The members of the class, its base included; [_tap] is the device. *)
Record t := mk {
  base : FdAdapterBase.t;
  _interface : NetworkInterface.t;
  _next_hop : Address.t
}.

#[global] Instance eta_t : Eta t := λ a, mk (base a) (_interface a) (_next_hop a).

(** The constructor writes a dummy frame to the device. *)
Definition make (eth_address : EthernetAddress) (ip_address next_hop : Address.t) : t * list BufferList.t :=
  (mk FdAdapterBase.default (NetworkInterface.make eth_address (Address.ipv4_numeric ip_address)) next_hop,
   [EthernetFrame.serialize EthernetFrame.default]).

(** [while (not _interface.frames_out().empty()) { ... }]; [queue] is the
    interface's. *)
Fixpoint pending_loop (queue : list EthernetFrame.t) (a : t) (out : list BufferList.t) : t * list BufferList.t :=
  match queue with
  | [] => (a, out)
  | frame :: queue =>
    pending_loop queue (a <| _interface ::= λ n, n <| NetworkInterface._frames_out := queue |> |>)
      (out ++ [EthernetFrame.serialize frame])
  end.

Definition send_pending (a : t) : t * list BufferList.t :=
  pending_loop (NetworkInterface.frames_out (_interface a)) a [].

(** [read], with the bytes [_tap.read()] returns. *)
Definition read (a : t) (data : bytes) : outcome (option TCPSegment.t * t * list BufferList.t) :=
  '(res, frame) ← EthernetFrame.parse EthernetFrame.default (Buffer.of_string data);
  if bool_decide (res ≠ NoError) then Ok (None, a, [])
  else
    '(n, ip_dgram) ← NetworkInterface.recv_frame (_interface a) frame;
    let a := a <| _interface := n |> in
    let '(a, out) := send_pending a in
    match ip_dgram with
    | Some ip_dgram =>
      '(seg, b) ← TCPOverIPv4Adapter.unwrap_tcp_in_ip (base a) ip_dgram;
      Ok (seg, a <| base := b |>, out)
    | None => Ok (None, a, out)
    end.

Definition tick (a : t) (ms_since_last_tick : Z) : t * list BufferList.t :=
  let a := a <| _interface ::= λ n, NetworkInterface.tick n ms_since_last_tick |> in
  send_pending a.

Definition write (a : t) (seg : TCPSegment.t) : outcome (t * list BufferList.t) :=
  '(ip_dgram, _) ← TCPOverIPv4Adapter.wrap_tcp_in_ip (base a) seg;
  n ← NetworkInterface.send_datagram (_interface a) ip_dgram (Address.ipv4_numeric (_next_hop a));
  Ok (send_pending (a <| _interface := n |>)).

End TCPOverIPv4OverEthernetAdapter.

Module LossyFdAdapter.

(** The class is a template over the adapter; [rand] is the engine [_rand], a
    function from its state to the next number and the next state. *)
Section lossy.
Context {A In Out G : Type} `{!DatagramAdapter A In Out} (rand : G → Z * G).

Record t := mk {
  _rand : G;
  _adapter : A
}.

#[global] Instance eta_t : Eta t := λ l, mk (_rand l) (_adapter l).

(** A number is drawn only when the loss rate is not zero. *)
Definition _should_drop (l : t) (uplink : bool) : bool * t :=
  let cfg := FdAdapterBase.config (adapter_base (_adapter l)) in
  let loss := if uplink then FdAdapterConfig.loss_rate_up cfg else FdAdapterConfig.loss_rate_dn cfg in
  if loss =? 0 then (false, l)
  else
    let '(x, g) := rand (_rand l) in
    (u16 x <? loss, l <| _rand := g |>).

Definition read (l : t) (i : In) : outcome (option TCPSegment.t * t * list Out) :=
  '(ret, a, out) ← adapter_read (_adapter l) i;
  let '(drop, l) := _should_drop (l <| _adapter := a |>) false in
  Ok (if drop : bool then None else ret, l, out).

Definition write (l : t) (seg : TCPSegment.t) : outcome (t * list Out) :=
  let '(drop, l) := _should_drop l true in
  if drop : bool then Ok (l, [])
  else
    '(a, out) ← adapter_write (_adapter l) seg;
    Ok (l <| _adapter := a |>, out).

Definition tick (l : t) (ms_since_last_tick : Z) : t * list Out :=
  let '(a, out) := adapter_tick (_adapter l) ms_since_last_tick in
  (l <| _adapter := a |>, out).

End lossy.

End LossyFdAdapter.

(** ** Lemmas *)

Section filtering.
Import FdAdapterBase TCPOverIPv4Adapter.

(** The segment [seg] in a datagram with header [h] is for the connection of
    [a]: it comes from the peer to this end or, while listening, is a SYN for this
    port. *)
Definition belongs (a : t) (h : IPv4Header.t) (seg : TCPSegment.t) : Prop :=
  let c := config a in
  let th := TCPSegment.header seg in
  IPv4Header.proto h = IPv4Header.PROTO_TCP ∧ TCPHeader.dport th = Address.port (FdAdapterConfig.source c) ∧
  if listening a then TCPHeader.syn th = true ∧ TCPHeader.rst th = false
  else FdAdapterConfig.destination c = Address.mk (IPv4Header.src h) (TCPHeader.sport th) ∧
       Address.ipv4_numeric (FdAdapterConfig.source c) = IPv4Header.dst h.

#[export] Instance belongs_dec a h seg : Decision (belongs a h seg).
Proof.
  unfold belongs.
  destruct (listening a); repeat apply and_dec; try apply _; [].
  destruct (FdAdapterConfig.destination (config a)) as [i p].
  destruct (decide (i = IPv4Header.src h ∧ p = TCPHeader.sport (TCPSegment.header seg))) as [[-> ->]|Hn];
    [by left|right; naive_solver].
Defined.

(** The adapter connected by [seg]. *)
Definition connected (a : t) (local peer : Address.t) : t :=
  mk ((config a) <| FdAdapterConfig.source := local |> <| FdAdapterConfig.destination := peer |>) false.

(** [unwrap_tcp_in_ip] hands up exactly the valid segments that belong to the
    connection. *)
Lemma unwrap_tcp_spec a d b res seg :
  BufferList.to_buffer (IPv4Datagram.payload d) = Ok b →
  TCPSegment.parse TCPSegment.default b (IPv4Header.pseudo_cksum (IPv4Datagram.header d)) = Ok (res, seg) →
  let h := IPv4Datagram.header d in
  unwrap_tcp_in_ip a d =
    Ok (if decide (res = NoError ∧ belongs a h seg)
        then (Some seg, connected a
               (Address.mk (IPv4Header.dst h) (TCPHeader.dport (TCPSegment.header seg)))
               (Address.mk (IPv4Header.src h) (TCPHeader.sport (TCPSegment.header seg))))
        else (None, a)).
Proof.
  intros Hp Hs h. unfold unwrap_tcp_in_ip. fold h. rewrite Hp. cbn [mbind outcome_bind].
  unfold belongs, connected. destruct a as [[[si sp] [di dp] dn up] l]. fold h in Hs. rewrite Hs. cbn.
  clearbody h. destruct seg as [th pl]. cbn. clear Hs Hp.
  destruct (decide _) as [Hd|Hn]; case_bool_decide as Hres; destruct l; cbn;
    repeat match goal with
    | |- context [?x =? ?y] => destruct (Z.eqb_spec x y); cbn
    | |- context [TCPHeader.syn th] => destruct (TCPHeader.syn th) eqn:?; cbn
    | |- context [TCPHeader.rst th] => destruct (TCPHeader.rst th) eqn:?; cbn
    end; naive_solver.
Qed.

(** Reading a datagram leaves the adapter alone or connects it. *)
Lemma unwrap_law a d o a' :
  unwrap_tcp_in_ip a d = Ok (o, a') →
  a' = a ∧ (listening a = true → o = None) ∨
  listening a = true ∧ listening a' = false ∧
    ∀ seg, o = Some seg → TCPHeader.syn (TCPSegment.header seg) = true ∧ TCPHeader.rst (TCPSegment.header seg) = false.
Proof.
  intros Hu.
  assert (Hcase : (o = None ∧ a' = a) ∨ ∃ b res seg, BufferList.to_buffer (IPv4Datagram.payload d) = Ok b ∧
    TCPSegment.parse TCPSegment.default b (IPv4Header.pseudo_cksum (IPv4Datagram.header d)) = Ok (res, seg)).
  { unfold unwrap_tcp_in_ip in Hu. repeat (case_match; [left; naive_solver|]).
    destruct (BufferList.to_buffer _) as [b| | |]; try done. cbn in Hu.
    destruct (TCPSegment.parse _ b _) as [[res seg]| | |] eqn:E; naive_solver. }
  destruct Hcase as [[-> ->]|(b & res & seg & Hb & Hp)]; [by left|].
  rewrite (unwrap_tcp_spec a d b res seg Hb Hp) in Hu. cbn zeta in Hu.
  destruct (decide _) as [(-> & Hbel)|_]; [|left; naive_solver]. injection Hu as <- <-.
  destruct (listening a) eqn:El.
  - right. unfold belongs in Hbel. rewrite El in Hbel. naive_solver.
  - left. split; [|done]. unfold belongs in Hbel. rewrite El in Hbel.
    destruct a as [[[si sp] dst dn up] l], Hbel as (_ & Hdp & Hd & Hs). cbn in *. by subst.
Qed.

(** The wire form of a wrapped segment. *)
Lemma serialize_pieces s ck out :
  TCPSegment.ok s → TCPSegment.serialize s ck = Ok out →
  Forall Buffer.wf out ∧ is_bytes (BufferList.concatenate out) ∧
  len (BufferList.concatenate out) = 4 * TCPHeader.doff (TCPSegment.header s) + len (Buffer.str (TCPSegment.payload s)).
Proof.
  intros Hok Hs. destruct (segment_layout s ck Hok) as (out' & Hs' & Hc). rewrite Hs in Hs'. injection Hs' as <-.
  pose proof (segment_sum_bound s ck (InternetChecksum.value (InternetChecksum.add (InternetChecksum.make ck)
    ((TCPHeader.before_cksum ((TCPSegment.header s) <| TCPHeader.cksum := 0 |>) ++
      NetUnparser.int_bytes 2 0 ++ TCPHeader.after_cksum ((TCPSegment.header s) <| TCPHeader.cksum := 0 |>)) ++
      Buffer.str (TCPSegment.payload s)))) Hok) as [Hb _].
  rewrite <- Hc in Hb.
  assert (Hl : len (BufferList.concatenate out) =
    4 * TCPHeader.doff (TCPSegment.header s) + len (Buffer.str (TCPSegment.payload s))).
  { rewrite Hc, !len_app. rewrite <- (len_header s ck) by apply Hok. unfold len at 2.
    rewrite length_int_bytes. lia. }
  split; [|done]. destruct Hok as (_ & Hd & Hwf & _ & Hlen).
  unfold TCPSegment.serialize in Hs. rewrite (serialize_layout (_ <| TCPHeader.cksum := 0 |>)) in Hs by (cbn; lia).
  cbn [mbind outcome_bind] in Hs. rewrite serialize_layout in Hs by (cbn; lia). cbn [mbind outcome_bind] in Hs.
  injection Hs as <-. repeat apply Forall_cons_2; [|done|done].
  apply wf_of_string. cbn [BufferList.concatenate BufferList.append BufferList.of_string BufferList.of_buffer app] in Hl.
  rewrite len_app, str_of_string, app_nil_r in Hl. lia.
Qed.

End filtering.

(** ** The adapters keep the promise *)

(** A read that changes nothing and returns nothing while listening. *)
Ltac unchanged := cbn; intros [=]; subst; left; split; [done|by intros].


(** The UDP and TUN adapters write nothing to the device when they read, and one
    datagram when they write. *)
Definition silently {A B O : Type} (r : outcome (A * B)) : outcome (A * B * list O) :=
  '(x, y) ← r; Ok (x, y, []).

Definition keeping {A O : Type} (a : A) (r : outcome O) : outcome (A * list O) :=
  out ← r; Ok (a, [out]).

Lemma silently_Ok {A B O : Type} (r : outcome (A * B)) x y (o : list O) :
  silently r = Ok (x, y, o) → r = Ok (x, y).
Proof. destruct r as [[? ?]| | |]; cbn; naive_solver. Qed.

Lemma keeping_Ok {A O : Type} (a a' : A) (r : outcome O) o : keeping a r = Ok (a', o) → a' = a.
Proof. destruct r; cbn; naive_solver. Qed.

#[export] Program Instance udp_adapter :
    DatagramAdapter FdAdapterBase.t (Address.t * bytes) (Address.t * BufferList.t) := {|
  adapter_base a := a;
  adapter_set_base _ b := b;
  adapter_read a i := silently (TCPOverUDPSocketAdapter.read a i);
  adapter_write a seg := keeping a (TCPOverUDPSocketAdapter.write a seg);
  adapter_tick a ms := (FdAdapterBase.tick a ms, [])
|}.
Next Obligation. done. Qed.
Next Obligation.
  intros a [src data] o a' outs Hr%silently_Ok. revert Hr. unfold TCPOverUDPSocketAdapter.read.
  case_match; [unchanged|]. destruct (TCPSegment.parse _ _ _) as [[res seg]| | |]; try done. cbn.
  case_bool_decide; [unchanged|]. destruct (FdAdapterBase.listening a) eqn:El; [|unchanged].
  destruct (TCPHeader.syn _ && _) eqn:E; [|unchanged]. apply andb_prop in E as [? ?%negb_true_iff].
  intros [= <- <-]. right. split_and!; [done..|]. by intros ? [= <-].
Qed.
Next Obligation. intros a seg a' outs. apply keeping_Ok. Qed.
Next Obligation. done. Qed.

#[export] Program Instance tun_adapter : DatagramAdapter FdAdapterBase.t bytes BufferList.t := {|
  adapter_base a := a;
  adapter_set_base _ b := b;
  adapter_read a i := silently (TCPOverIPv4OverTunFdAdapter.read a i);
  adapter_write a seg := keeping a (TCPOverIPv4OverTunFdAdapter.write a seg);
  adapter_tick a ms := (FdAdapterBase.tick a ms, [])
|}.
Next Obligation. done. Qed.
Next Obligation.
  intros a data o a' outs Hr%silently_Ok. revert Hr. unfold TCPOverIPv4OverTunFdAdapter.read.
  destruct (IPv4Datagram.parse _ _) as [[res d]| | |]; try done. cbn. case_bool_decide; [unchanged|].
  apply unwrap_law.
Qed.
Next Obligation. intros a seg a' outs. apply keeping_Ok. Qed.
Next Obligation. done. Qed.

Section ethernet_adapter.
Import TCPOverIPv4OverEthernetAdapter.

(** [send_pending] writes the frames of the interface in order and leaves none. *)
Lemma pending_loop_spec queue a out :
  pending_loop queue a out =
    (match queue with
     | [] => a
     | _ => a <| _interface ::= λ n, n <| NetworkInterface._frames_out := [] |> |>
     end, out ++ map EthernetFrame.serialize queue).
Proof.
  revert a out. induction queue as [|f queue IH]; intros a out; cbn; [by rewrite app_nil_r|].
  rewrite IH, <- app_assoc. by destruct queue.
Qed.

Lemma send_pending_spec a :
  send_pending a =
    (a <| _interface ::= λ n, n <| NetworkInterface._frames_out := [] |> |>,
     map EthernetFrame.serialize (NetworkInterface._frames_out (_interface a))).
Proof.
  unfold send_pending, NetworkInterface.frames_out. rewrite pending_loop_spec. cbn.
  destruct (NetworkInterface._frames_out (_interface a)) eqn:E; [|done].
  destruct a as [b [? ? fr ? ?] h]. cbn in *. by subst.
Qed.

#[export] Program Instance ethernet_adapter : DatagramAdapter t bytes BufferList.t := {|
  adapter_base := base;
  adapter_set_base a b := a <| base := b |>;
  adapter_read := read;
  adapter_write := write;
  adapter_tick := tick
|}.
Next Obligation. done. Qed.
Next Obligation.
  intros a data o a' outs. unfold read.
  destruct (EthernetFrame.parse _ _) as [[res f]| | |]; try done. cbn. case_bool_decide; [unchanged|].
  destruct (NetworkInterface.recv_frame _ _) as [[n [d|]]| | |]; try done; cbn; rewrite send_pending_spec;
    [|unchanged].
  destruct (TCPOverIPv4Adapter.unwrap_tcp_in_ip _ d) as [[o1 b1]| | |] eqn:E; try done. cbn.
  intros [= <- <- <-]. by apply (unwrap_law _ d).
Qed.
Next Obligation.
  intros a seg a' outs. unfold write. destruct (TCPOverIPv4Adapter.wrap_tcp_in_ip _ _) as [[d s]| | |]; try done.
  cbn. destruct (NetworkInterface.send_datagram _ _ _); try done. cbn. rewrite send_pending_spec. by intros [= <- <-].
Qed.
Next Obligation. intros a ms. unfold tick. by rewrite send_pending_spec. Qed.

End ethernet_adapter.

Section lossy_adapter.
Context {A In Out G : Type} `{!DatagramAdapter A In Out} (rand : G → Z * G).

Lemma should_drop_adapter l up :
  LossyFdAdapter._adapter (LossyFdAdapter._should_drop rand l up).2 = LossyFdAdapter._adapter l.
Proof. unfold LossyFdAdapter._should_drop. case_match; [done|]. by destruct (rand _). Qed.

Program Definition lossy_adapter : DatagramAdapter (@LossyFdAdapter.t A G) In Out := {|
  adapter_base l := adapter_base (LossyFdAdapter._adapter l);
  adapter_set_base l b := l <| LossyFdAdapter._adapter ::= λ a, adapter_set_base a b |>;
  adapter_read := LossyFdAdapter.read rand;
  adapter_write := LossyFdAdapter.write rand;
  adapter_tick := LossyFdAdapter.tick
|}.
Next Obligation. intros l b. apply adapter_set_base_law. Qed.
Next Obligation.
  intros l i o l' outs. unfold LossyFdAdapter.read. cbn.
  destruct (adapter_read _ i) as [[[ret a] out]| | |] eqn:E; try done. cbn.
  apply adapter_read_law in E. pose proof (should_drop_adapter (l <| LossyFdAdapter._adapter := a |>) false) as Hs.
  destruct (LossyFdAdapter._should_drop _ _ _) as [d l1]. cbn in Hs. intros [= <- <- <-]. rewrite Hs.
  destruct E as [[-> ?]|(? & ? & ?)]; [left|right]; destruct d; naive_solver.
Qed.
Next Obligation.
  intros l seg l' outs. unfold LossyFdAdapter.write. pose proof (should_drop_adapter l true) as Hs.
  destruct (LossyFdAdapter._should_drop _ _ _) as [[] l1]; cbn in Hs; [intros [= <- <-]; by rewrite Hs|].
  destruct (adapter_write _ seg) as [[a out]| | |] eqn:E; try done. cbn. intros [= <- <-]. cbn.
  apply adapter_write_law in E. by rewrite E, Hs.
Qed.
Next Obligation.
  intros l ms. unfold LossyFdAdapter.tick. pose proof (adapter_tick_law (LossyFdAdapter._adapter l) ms) as H.
  by destruct (adapter_tick _ ms).
Qed.

End lossy_adapter.

(** Reading from the device again and again. *)
Fixpoint read_all {A In Out : Type} `{!DatagramAdapter A In Out} (a : A) (ins : list In)
    : outcome (list (option TCPSegment.t) * A) :=
  match ins with
  | [] => Ok ([], a)
  | i :: ins =>
    '(o, a, _) ← adapter_read a i;
    '(os, a) ← read_all a ins;
    Ok (o :: os, a)
  end.

Lemma address_eta x : Address.mk (Address.ipv4_numeric x) (Address.port x) = x.
Proof. by destruct x. Qed.

Section wrapping.
Import FdAdapterBase TCPOverIPv4Adapter.

Definition ports (c : FdAdapterConfig.t) (seg : TCPSegment.t) : TCPSegment.t :=
  seg <| TCPSegment.header ::= λ h, h <| TCPHeader.sport := Address.port (FdAdapterConfig.source c) |>
                                      <| TCPHeader.dport := Address.port (FdAdapterConfig.destination c) |> |>.

(** The header of the datagram around [seg]. *)
Definition ip_header (c : FdAdapterConfig.t) (seg : TCPSegment.t) : IPv4Header.t :=
  IPv4Header.default
    <| IPv4Header.src := Address.ipv4_numeric (FdAdapterConfig.source c) |>
    <| IPv4Header.dst := Address.ipv4_numeric (FdAdapterConfig.destination c) |>
    <| IPv4Header.len_ := 20 + 4 * TCPHeader.doff (TCPSegment.header seg) + len (Buffer.str (TCPSegment.payload seg)) |>.

(** The configuration and the segment fit in a datagram. *)
Definition fits (c : FdAdapterConfig.t) (seg : TCPSegment.t) : Prop :=
  Address.ok (FdAdapterConfig.source c) ∧ Address.ok (FdAdapterConfig.destination c) ∧ TCPSegment.ok seg ∧
  20 + 4 * TCPHeader.doff (TCPSegment.header seg) + len (Buffer.str (TCPSegment.payload seg)) < 2 ^ 16.

Lemma ports_ok c seg : fits c seg → TCPSegment.ok (ports c seg).
Proof.
  intros ((_ & ?) & (_ & ?) & (Hh & ? & ? & ? & ?) & _). split; [|done].
  destruct Hh as (_ & _ & Hr). unfold TCPHeader.ok. cbn. done.
Qed.

Lemma wrap_tcp_spec a seg :
  fits (config a) seg →
  ∃ payload, TCPSegment.serialize (ports (config a) seg) (IPv4Header.pseudo_cksum (ip_header (config a) seg)) = Ok payload ∧
    wrap_tcp_in_ip a seg = Ok (IPv4Datagram.mk (ip_header (config a) seg) payload, ports (config a) seg) ∧
    IPv4Datagram.ok (IPv4Datagram.mk (ip_header (config a) seg) payload).
Proof.
  intros Hf. pose proof (ports_ok _ _ Hf) as Hok.
  destruct (segment_layout _ (IPv4Header.pseudo_cksum (ip_header (config a) seg)) Hok) as (out & Hs & _).
  destruct (serialize_pieces _ _ _ Hok Hs) as (Hwf & Hb & Hl).
  destruct Hf as ((? & _) & (? & _) & (_ & Hd & _) & Hlen). pose proof (len_nonneg (Buffer.str (TCPSegment.payload seg))).
  exists out. split; [done|]. split.
  - unfold wrap_tcp_in_ip.
    match goal with |- context [TCPSegment.serialize _ (IPv4Header.pseudo_cksum ?h)] =>
      replace h with (ip_header (config a) seg) end.
    + change (TCPSegment.serialize _ _) with
        (TCPSegment.serialize (ports (config a) seg) (IPv4Header.pseudo_cksum (ip_header (config a) seg))).
      by rewrite Hs.
    + unfold ip_header. cbn. unfold Buffer.size. change (IPv4Header.LENGTH / 4) with 5. f_equal.
      rewrite u16_id; lia.
  - split; [|split; [done|split; [done|]]].
    + unfold IPv4Header.ok. cbn. change (IPv4Header.LENGTH / 4) with 5.
      unfold IPv4Header.DEFAULT_TTL, IPv4Header.PROTO_TCP. lia.
    + change (20 + 4 * TCPHeader.doff (TCPSegment.header seg) + len (Buffer.str (TCPSegment.payload seg)) =
        4 * 5 + len (BufferList.concatenate out)).
      rewrite Hl. change (TCPSegment.payload (ports _ seg)) with (TCPSegment.payload seg).
      change (TCPHeader.doff _) with (TCPHeader.doff (TCPSegment.header seg)) at 2. lia.
Qed.

(** A header as it may be further on its way: with another time to live and
    another checksum. *)
Definition forwarded (h h' : IPv4Header.t) : Prop :=
  ∃ ttl cksum, h' = h <| IPv4Header.ttl := ttl |> <| IPv4Header.cksum := cksum |>.

#[export] Instance forwarded_preorder : PreOrder forwarded.
Proof.
  split; [intros []; by eexists _, _|]. intros h h1 h2 (t1 & c1 & ->) (t2 & c2 & ->). by exists t2, c2.
Qed.

(** The other end gets the segment out of the datagram, however far it came. *)
Lemma unwrap_wrapped a b seg payload d' b' :
  let src := FdAdapterConfig.source (config a) in
  let dst := FdAdapterConfig.destination (config a) in
  fits (config a) seg →
  TCPSegment.serialize (ports (config a) seg) (IPv4Header.pseudo_cksum (ip_header (config a) seg)) = Ok payload →
  forwarded (ip_header (config a) seg) (IPv4Datagram.header d') →
  IPv4Datagram.payload d' = [b'] → Buffer.wf b' → Buffer.str b' = BufferList.concatenate payload →
  (if listening b
   then Address.port (FdAdapterConfig.source (config b)) = Address.port dst ∧
        TCPHeader.syn (TCPSegment.header seg) = true ∧ TCPHeader.rst (TCPSegment.header seg) = false
   else FdAdapterConfig.source (config b) = dst ∧ FdAdapterConfig.destination (config b) = src) →
  ∃ seg' c, unwrap_tcp_in_ip b d' = Ok (Some seg', connected b dst src) ∧
    TCPSegment.header seg' = (TCPSegment.header (ports (config a) seg)) <| TCPHeader.cksum := c |> ∧
    Buffer.str (TCPSegment.payload seg') = Buffer.str (TCPSegment.payload seg).
Proof.
  intros src dst Hf Hs Hh Hpl Hwf' Hb' Hb. pose proof (ports_ok _ _ Hf) as Hsok.
  destruct (wrap_tcp_spec a seg Hf) as (payload' & Hs' & _ & Hok). rewrite Hs in Hs'. injection Hs' as <-.
  destruct (segment_layout _ (IPv4Header.pseudo_cksum (ip_header (config a) seg)) Hsok) as (out' & Hs' & Hc').
  rewrite Hs in Hs'. injection Hs' as <-.
  destruct (segment_parse_layout _ (IPv4Header.pseudo_cksum (ip_header (config a) seg)) TCPSegment.default b' Hsok)
    as (seg' & Hps & Hh' & Hpl'); [apply pseudo_cksum_bound, Hok|done|by rewrite Hb'|].
  exists seg', (TCPHeader.cksum (TCPSegment.header seg')). split; [|by rewrite Hh'].
  destruct Hh as (t & ck & Hh).
  rewrite (unwrap_tcp_spec b d' b' NoError seg'); [|by rewrite Hpl|rewrite Hh; exact Hps].
  rewrite Hh, Hh'. destruct (decide _) as [_|Hn]; [by rewrite <- (address_eta dst), <- (address_eta src)|].
  destruct Hn. split; [done|]. unfold belongs. rewrite Hh'.
  destruct (listening b); cbn; [naive_solver|]. destruct Hb as [-> ->]. by rewrite <- (address_eta src).
Qed.

End wrapping.

(** ** Properties *)

Section adapter_properties.
Import FdAdapterBase.

(** C23: a segment crosses the network unchanged.  What the TUN adapter of one end
    writes, the adapter of the other end reads as the same segment, with the
    ports of the two ends and a checksum filled in: when the two are connected to
    each other, and also when the other end listens on that port and the segment
    is a SYN, in which case it is connected to the sender afterwards. *)
Theorem tun_adapters_exchange_segments (a b : FdAdapterBase.t) (seg : TCPSegment.t) :
  let src := FdAdapterConfig.source (config a) in
  let dst := FdAdapterConfig.destination (config a) in
  fits (config a) seg →
  (if listening b
   then Address.port (FdAdapterConfig.source (config b)) = Address.port dst ∧
        TCPHeader.syn (TCPSegment.header seg) = true ∧ TCPHeader.rst (TCPSegment.header seg) = false
   else FdAdapterConfig.source (config b) = dst ∧ FdAdapterConfig.destination (config b) = src) →
  ∃ out seg' c, TCPOverIPv4OverTunFdAdapter.write a seg = Ok out ∧
    TCPOverIPv4OverTunFdAdapter.read b (BufferList.concatenate out) = Ok (Some seg', connected b dst src) ∧
    TCPSegment.header seg' = (TCPSegment.header (ports (config a) seg)) <| TCPHeader.cksum := c |> ∧
    Buffer.str (TCPSegment.payload seg') = Buffer.str (TCPSegment.payload seg).
Proof.
  intros src dst Hf Hb. destruct (wrap_tcp_spec a seg Hf) as (payload & Hs & Hw & Hok).
  set (d := IPv4Datagram.mk (ip_header (config a) seg) payload) in *.
  destruct (datagram_layout d Hok) as (out & Hout & Hc).
  assert (Hbytes : is_bytes (BufferList.concatenate payload)) by apply Hok.
  destruct (payload_length_ok d Hok) as [_ Hplen].
  assert (Hwf : Buffer.wf (Buffer.of_string (BufferList.concatenate out))).
  { apply wf_of_string. rewrite Hc, len_app, len_wire by done. change (IPv4Header.hlen (sent_header d)) with 5. lia. }
  destruct (datagram_parse_wire (sent_header d) IPv4Datagram.default _ (BufferList.concatenate payload)
    (sent_header_ok d Hok) ltac:(apply Hok) Hwf Hbytes) as (d' & Hp & Hh & _ & b' & Hpl & Hwf' & Hb');
    [by rewrite str_of_string|].
  destruct (unwrap_wrapped a b seg payload d' b' Hf Hs) as (seg' & c & Hu & H); try done;
    [rewrite Hh; by eexists _, _|].
  exists out, seg', c. unfold TCPOverIPv4OverTunFdAdapter.write, TCPOverIPv4OverTunFdAdapter.read. rewrite Hw.
  cbn [mbind outcome_bind]. split; [done|]. rewrite Hp. cbn [mbind outcome_bind].
  by rewrite bool_decide_eq_false_2 by tauto.
Qed.

Definition client : FdAdapterBase.t :=
  mk (FdAdapterConfig.mk (Address.mk 167772161 5000) (Address.mk 167772162 80) 0 0) false.

Definition server : FdAdapterBase.t :=
  mk (FdAdapterConfig.mk (Address.mk 0 80) (Address.mk 0 0) 0 0) true.

Definition opening_segment : TCPSegment.t :=
  TCPSegment.mk (TCPHeader.default <| TCPHeader.syn := true |>) (Buffer.of_string [1; 2]).

Lemma opening_segment_ok : TCPSegment.ok opening_segment.
Proof.
  split; [unfold TCPHeader.ok, seq_ok; cbn; change (TCPHeader.LENGTH / 4) with 5; lia|]. split; [vm_compute; split; discriminate|].
  split; [apply wf_of_string; vm_compute; done|]. split; [repeat constructor; lia|vm_compute; done].
Qed.

Lemma tun_adapters_exchange_segments_witness :
  ∃ out seg' c, TCPOverIPv4OverTunFdAdapter.write client opening_segment = Ok out ∧
    TCPOverIPv4OverTunFdAdapter.read server (BufferList.concatenate out) =
      Ok (Some seg', connected server (Address.mk 167772162 80) (Address.mk 167772161 5000)) ∧
    TCPSegment.header seg' =
      (TCPSegment.header (ports (config client) opening_segment)) <| TCPHeader.cksum := c |> ∧
    Buffer.str (TCPSegment.payload seg') = [1; 2].
Proof.
  apply (tun_adapters_exchange_segments client server opening_segment).
  - split; [unfold Address.ok; simpl; lia|]. split; [unfold Address.ok; simpl; lia|].
    split; [apply opening_segment_ok|vm_compute; done].
  - done.
Defined.

(** C24: an adapter serves one connection.  Whatever a device delivers, reading
    from an adapter that is not listening never changes whom it talks to; a
    listening one hands up nothing until some datagram connects it, and from then
    on its configuration is fixed.  This holds of every adapter, a lossy one
    included. *)
Theorem adapter_serves_one_connection {A In Out : Type} `{!DatagramAdapter A In Out}
    (a a' : A) (ins : list In) (os : list (option TCPSegment.t)) :
  read_all a ins = Ok (os, a') →
  adapter_base a' = adapter_base a ∧
    (listening (adapter_base a) = true → os = replicate (length ins) None) ∨
  listening (adapter_base a) = true ∧
  ∃ ins1 i ins2 a1 a2 o outs, ins = ins1 ++ i :: ins2 ∧
    read_all a ins1 = Ok (replicate (length ins1) None, a1) ∧ adapter_base a1 = adapter_base a ∧
    adapter_read a1 i = Ok (o, a2, outs) ∧ listening (adapter_base a2) = false ∧
    (∀ seg, o = Some seg → TCPHeader.syn (TCPSegment.header seg) = true ∧
                           TCPHeader.rst (TCPSegment.header seg) = false) ∧
    adapter_base a' = adapter_base a2.
Proof.
  revert a a' os. induction ins as [|i ins IH]; intros a a' os; cbn [read_all].
  { intros [= <- <-]. left. done. }
  destruct (adapter_read a i) as [[[o a1] outs]| | |] eqn:Er; try done. cbn [mbind outcome_bind].
  destruct (read_all a1 ins) as [[os1 a2]| | |] eqn:Ea; try done. cbn [mbind outcome_bind]. intros [= <- <-].
  specialize (IH _ _ _ Ea). destruct (adapter_read_law _ _ _ _ _ Er) as [[Hb Ho]|(Hl & Hn & Hs)].
  - destruct IH as [[Hb' Hos]|(Hl & ins1 & j & ins2 & b1 & b2 & o' & outs' & -> & Hr & Hb1 & Hj & ? & ? & ?)];
      rewrite Hb in *.
    + left. split; [done|]. intros Hl. by rewrite Ho, Hos.
    + right. split; [done|]. exists (i :: ins1), j, ins2, b1, b2, o', outs'. split_and!; try done; [].
      cbn [read_all]. by rewrite Er, (Ho Hl); cbn [mbind outcome_bind]; rewrite Hr.
  - right. split; [done|]. exists [], i, ins, a, a1, o, outs. split_and!; try done; [].
    destruct IH as [[Hb' _]|(Hl' & _)]; congruence.
Qed.

(** A lossy adapter loses whole segments and nothing else.  A write reaches
    the underlying adapter unchanged or not at all, and always does when the
    uplink loss rate is zero; a read does to the underlying adapter what that
    adapter's read does, and what it returns is withheld only when the downlink
    loss rate is not zero. *)
Theorem lossy_passes_or_drops {A In Out G : Type} `{!DatagramAdapter A In Out} (rand : G → Z * G)
    (l : LossyFdAdapter.t) (seg : TCPSegment.t) (i : In) :
  let a := LossyFdAdapter._adapter l in
  (FdAdapterConfig.loss_rate_up (config (adapter_base a)) = 0 →
   LossyFdAdapter.write rand l seg =
     ('(a', out) ← adapter_write a seg; Ok (l <| LossyFdAdapter._adapter := a' |>, out))) ∧
  (∀ l' out, LossyFdAdapter.write rand l seg = Ok (l', out) →
     LossyFdAdapter._adapter l' = a ∧ out = [] ∨
     adapter_write a seg = Ok (LossyFdAdapter._adapter l', out)) ∧
  (∀ o l' out, LossyFdAdapter.read rand l i = Ok (o, l', out) →
     ∃ ret, adapter_read a i = Ok (ret, LossyFdAdapter._adapter l', out) ∧
       (o = ret ∨
        o = None ∧ FdAdapterConfig.loss_rate_dn (config (adapter_base (LossyFdAdapter._adapter l'))) ≠ 0)).
Proof.
  intros a. split_and!.
  - intros Hz. unfold LossyFdAdapter.write, LossyFdAdapter._should_drop. fold a. by rewrite Hz.
  - intros l' out. unfold LossyFdAdapter.write. pose proof (should_drop_adapter rand l true) as Hs.
    destruct (LossyFdAdapter._should_drop _ _ _) as [[] l1]; cbn in Hs; [intros [= <- <-]; by left|].
    rewrite Hs. fold a. destruct (adapter_write a seg) as [[a' out']| | |]; try done. cbn. intros [= <- <-]. by right.
  - intros o l' out. unfold LossyFdAdapter.read. fold a.
    destruct (adapter_read a i) as [[[ret a'] out']| | |]; try done. cbn [mbind outcome_bind].
    unfold LossyFdAdapter._should_drop. cbn. destruct (Z.eqb_spec (FdAdapterConfig.loss_rate_dn (config (adapter_base a'))) 0);
      [intros [= <- <- <-]; by exists ret; split; [|left]|].
    destruct (rand _) as [x g]. intros [= <- <- <-]. exists ret. split; [done|].
    destruct (_ <? _); [by right|by left].
Qed.

(** A lossy TUN adapter that listens; its device delivers an empty datagram and
    then the opening segment twice. *)
Definition lossy_listener : @LossyFdAdapter.t FdAdapterBase.t Z :=
  LossyFdAdapter.mk 7 (server <| _cfg ::= λ c, c <| FdAdapterConfig.loss_rate_dn := 8 |> |>).

Definition opening_wire : bytes := Eval vm_compute in
  match TCPOverIPv4OverTunFdAdapter.write client opening_segment with
  | Ok out => BufferList.concatenate out
  | _ => []
  end.

Definition counter (g : Z) : Z * Z := (g, g + 1).

#[local] Instance lossy_tun : DatagramAdapter (@LossyFdAdapter.t FdAdapterBase.t Z) bytes BufferList.t :=
  @lossy_adapter _ _ _ _ tun_adapter counter.

Definition lossy_run (ins : list bytes) : outcome (list (option TCPSegment.t) * @LossyFdAdapter.t FdAdapterBase.t Z) :=
  @read_all _ bytes BufferList.t lossy_tun lossy_listener ins.

Definition lossy_reads : list (option TCPSegment.t) * @LossyFdAdapter.t FdAdapterBase.t Z := Eval vm_compute in
  match lossy_run [[]; opening_wire; opening_wire] with
  | Ok r => r
  | _ => ([], lossy_listener)
  end.

Lemma adapter_serves_one_connection_witness :
  lossy_run [[]; opening_wire; opening_wire] = Ok (lossy_reads.1, lossy_reads.2) ∧
  listening (@adapter_base _ _ _ lossy_tun lossy_listener) = true ∧
  ∃ ins1 i ins2 a1 a2 o outs, [[]; opening_wire; opening_wire] = ins1 ++ i :: ins2 ∧
    lossy_run ins1 = Ok (replicate (length ins1) None, a1) ∧
    @adapter_base _ _ _ lossy_tun a1 = @adapter_base _ _ _ lossy_tun lossy_listener ∧
    @adapter_read _ _ _ lossy_tun a1 i = Ok (o, a2, outs) ∧ listening (@adapter_base _ _ _ lossy_tun a2) = false ∧
    (∀ seg, o = Some seg → TCPHeader.syn (TCPSegment.header seg) = true ∧
                           TCPHeader.rst (TCPSegment.header seg) = false) ∧
    @adapter_base _ _ _ lossy_tun lossy_reads.2 = @adapter_base _ _ _ lossy_tun a2.
Proof.
  assert (Hr : lossy_run [[]; opening_wire; opening_wire] = Ok (lossy_reads.1, lossy_reads.2))
    by (vm_compute; reflexivity).
  split; [exact Hr|]. destruct (@adapter_serves_one_connection _ _ _ lossy_tun _ _ _ _ Hr) as [[H _]|H]; [discriminate H|exact H].
Defined.

End adapter_properties.
