(* ===== verification/file_descriptor.v ===== *)
(** * File descriptors

    Models [libsponge/util/file_descriptor] and [SystemCall] of
    [libsponge/util/util.cc].  The kernel is outside: what a system call returns
    is an argument of the operation that makes it.  The handles of one descriptor
    share an [FDWrapper]; the operations take it and return it. *)

From S2P Require Import prelude buffer.

(** What a system call left behind: its return value and [errno]. *)
Record sysret := mkSysret {
  return_value : Z;
  errno : Z
}.

(** [SystemCall(attempt, return_value, errno_mask)]: the value is converted to an
    [int]; an error that is not masked is thrown. *)
Definition SystemCall (r : sysret) (errno_mask : Z) : outcome Z :=
  let v := s32 (return_value r) in
  if (v >=? 0) || (errno r =? errno_mask) then Ok v else Throw (unix_error (errno r)).

Module FileDescriptor.

(** The members of [class FDWrapper]. *)
Record FDWrapper := mk {
  _fd : Z;
  _eof : bool;
  _closed : bool;
  _read_count : Z;
  _write_count : Z
}.

#[global] Instance eta_FDWrapper : Eta FDWrapper := λ f,
  mk (_fd f) (_eof f) (_closed f) (_read_count f) (_write_count f).

(** [FDWrapper(fd)] *)
Definition make (fd : Z) : outcome FDWrapper :=
  if fd <? 0 then Throw runtime_error else Ok (mk fd false false 0 0).

(** [close()], where [::close] gives [r] *)
Definition close (f : FDWrapper) (r : sysret) : outcome FDWrapper :=
  _ ← SystemCall r 0;
  Ok (f <| _closed := true |> <| _eof := true |>).

(** The destructor: an exception does not leave it. *)
Definition destroy (f : FDWrapper) (r : sysret) : FDWrapper :=
  if _closed f then f
  else match close f r with Ok f => f | _ => f end.

Definition register_read (f : FDWrapper) : FDWrapper := f <| _read_count ::= λ n, u32 (n + 1) |>.
Definition register_write (f : FDWrapper) : FDWrapper := f <| _write_count ::= λ n, u32 (n + 1) |>.

Definition BUFFER_SIZE : Z := 1024 * 1024.

(** [read(str, limit)], where [::read] gives [r] and leaves [contents] in the
    buffer it is passed.  The first [resize] is no larger than the buffer size; the
    second throws on a negative count, which is not masked only if [errno] is 0. *)
Definition read (f : FDWrapper) (limit : Z) (r : sysret) (contents : bytes) : outcome (bytes * FDWrapper) :=
  let size_to_read := Z.min BUFFER_SIZE limit in
  bytes_read ← SystemCall r 0;
  let f := if (limit >? 0) && (bytes_read =? 0) then f <| _eof := true |> else f in
  if bytes_read >? size_to_read then Throw runtime_error
  else if bytes_read <? 0 then Throw length_error
  else Ok (take (Z.to_nat bytes_read) contents, register_read f).

(** [read(limit)], where the kernel's answer to [::read] depends on the size it is
    asked for *)
Definition read_limited (f : FDWrapper) (limit : Z) (answer : Z → sysret * bytes) : outcome (bytes * FDWrapper) :=
  let '(r, contents) := answer (Z.min BUFFER_SIZE limit) in read f limit r contents.

(** [write(buffer, write_all)].  The calls of [::writev] give the results [rs]:
    the loop takes one per iteration, and without one it waits for ever.  Besides
    what the function returns, [taken] collects what the kernel took: the first
    [bytes_written] bytes of the [iovec]s of each call. *)
Fixpoint write_loop (f : FDWrapper) (buffer : BufferViewList.t) (write_all : bool) (total_bytes_written : Z)
    (taken : bytes) (rs : list sysret) : outcome (Z * FDWrapper * bytes) :=
  match rs with
  | [] => Diverge
  | r :: rs =>
    let iovecs := BufferViewList.as_iovecs buffer in
    bytes_written ← SystemCall r 0;
    if (bytes_written =? 0) && negb (BufferViewList.size buffer =? 0) then Throw runtime_error
    else if bytes_written >? BufferViewList.size buffer then Throw runtime_error
    else
      let taken := taken ++ take (Z.to_nat bytes_written) (concat (map fst iovecs)) in
      let f := register_write f in
      buffer ← BufferViewList.remove_prefix buffer (u64 bytes_written);
      let total_bytes_written := u64 (total_bytes_written + bytes_written) in
      if write_all && negb (BufferViewList.size buffer =? 0)
      then write_loop f buffer write_all total_bytes_written taken rs
      else Ok (total_bytes_written, f, taken)
  end.

Definition write (f : FDWrapper) (buffer : BufferViewList.t) (write_all : bool) (rs : list sysret)
    : outcome (Z * FDWrapper * bytes) :=
  write_loop f buffer write_all 0 [] rs.

Definition O_NONBLOCK : Z := 2048.

(** [set_blocking(blocking_state)], where the two calls of [fcntl] give [r1] and
    [r2]: the flags passed to the second. *)
Definition set_blocking (blocking_state : bool) (r1 r2 : sysret) : outcome Z :=
  flags ← SystemCall r1 0;
  let flags :=
    if blocking_state then Z.lxor flags (Z.land flags O_NONBLOCK) else Z.lor flags O_NONBLOCK in
  _ ← SystemCall r2 0;
  Ok flags.

Definition fd_num (f : FDWrapper) : Z := _fd f.
Definition eof (f : FDWrapper) : bool := _eof f.
Definition closed (f : FDWrapper) : bool := _closed f.
Definition read_count (f : FDWrapper) : Z := _read_count f.
Definition write_count (f : FDWrapper) : Z := _write_count f.

End FileDescriptor.

(** ** Lemmas *)

Section descriptor_facts.
Import FileDescriptor.

Lemma SystemCall_count r : 0 ≤ return_value r < 2 ^ 31 → SystemCall r 0 = Ok (return_value r).
Proof.
  intros H. unfold SystemCall. rewrite s32_id by lia. by replace (_ >=? 0) with true by lia.
Qed.

Lemma viewlist_size_concat (l : BufferViewList.t) :
  len (concat l) < 2 ^ 64 → BufferViewList.size l = len (concat l).
Proof.
  intros H. unfold BufferViewList.size. change 0 with (u64 0) at 1. rewrite size_foldl.
  rewrite Z.add_0_l. replace (foldr _ 0 l) with (len (concat l)).
  - apply u64_id. pose proof (len_nonneg (concat l)). lia.
  - clear. induction l as [|b l IH]; cbn; [done|]. rewrite len_app, IH. done.
Qed.

Lemma concat_iovecs (l : BufferViewList.t) : concat (map fst (BufferViewList.as_iovecs l)) = concat l.
Proof. unfold BufferViewList.as_iovecs. rewrite map_map. cbn. by rewrite map_id. Qed.

Definition accepted (rs : list sysret) : Z := foldr (λ r n, return_value r + n) 0 rs.

(** What the loop has written when it returns. *)
Lemma write_loop_safe rs : ∀ f buffer write_all total taken n f' out,
  len (concat buffer) < 2 ^ 31 → total = len taken → len taken + len (concat buffer) < 2 ^ 31 →
  write_loop f buffer write_all total taken rs = Ok (n, f', out) →
  n = len out ∧ ∃ rest, taken ++ concat buffer = out ++ rest ∧ (write_all = true → rest = []).
Proof.
  induction rs as [|r rs IH]; intros f buffer wa total taken n f' out Hl Ht Hsum; [done|].
  cbn [write_loop]. destruct (SystemCall r 0) as [v| | |] eqn:Ev; try done. cbn [mbind outcome_bind].
  assert (Hv : - 2 ^ 31 ≤ v < 2 ^ 31).
  { unfold SystemCall in Ev. case_match; [|done]. injection Ev as <-. unfold s32.
    pose proof (Z.mod_pos_bound (return_value r + 2 ^ 31) (2 ^ 32)). lia. }
  pose proof (len_nonneg taken). pose proof (len_nonneg (concat buffer)).
  rewrite viewlist_size_concat by lia. destruct (_ && _); [done|]. destruct (Z.gtb_spec v (len (concat buffer))); [done|].
  rewrite concat_iovecs. assert (Hval : valid buffer) by (split; [by apply Forall_true|rewrite <- concat_pieces; lia]).
  destruct (decide (0 ≤ v)) as [Hpos|Hneg]; cycle 1.
  { assert (u64 v = 2 ^ 64 + v) as -> by (unfold u64; symmetry; apply (Z.mod_unique_pos _ _ (-1)); lia).
    pose proof (discard_beyond buffer (2 ^ 64 + v) Hval) as Hd. cbn [discard BufferViewList_PrefixDiscard contents] in Hd.
    by rewrite Hd by lia. }
  rewrite (u64_id v) by lia. destruct (discard_within buffer v Hval) as (b' & Hd & Hval' & Hc); [done|].
  cbn [discard BufferViewList_PrefixDiscard contents] in Hd, Hc. rewrite Hd. cbn [mbind outcome_bind].
  assert (Hlt : len (take (Z.to_nat v) (concat buffer)) = v) by (rewrite len_take; lia).
  assert (Hlb : len (concat b') = len (concat buffer) - v) by (rewrite Hc, len_drop; lia).
  rewrite viewlist_size_concat, u64_id by lia.
  destruct (wa && _) eqn:Ew.
  - intros Hr. apply IH in Hr; [|lia|rewrite len_app; lia|rewrite len_app; lia].
    rewrite Hc, <- app_assoc, take_drop in Hr. done.
  - intros [= <- <- <-]. split; [rewrite len_app; lia|]. exists (concat b').
    rewrite <- app_assoc, Hc, take_drop. split; [done|]. intros ->.
    rewrite <- Hc. apply len_zero_nil. cbn in Ew. lia.
Qed.

(** The loop ends once the kernel has taken everything. *)
Lemma write_loop_ends rs : ∀ f buffer total taken,
  0 < len (concat buffer) → len taken + len (concat buffer) < 2 ^ 31 → total = len taken →
  Forall (λ r, 0 < return_value r) rs → accepted rs = len (concat buffer) →
  write_loop f buffer true total taken rs =
    Ok (len taken + len (concat buffer), Nat.iter (length rs) register_write f, taken ++ concat buffer).
Proof.
  induction rs as [|r rs IH]; intros f buffer total taken Hb Hsum Ht Hrs Hacc; [cbn in Hacc; lia|].
  apply Forall_cons in Hrs as [Hr Hrs]. cbn [accepted foldr] in Hacc. fold (accepted rs) in Hacc.
  assert (Hnn : 0 ≤ accepted rs).
  { clear -Hrs. induction Hrs; cbn; [lia|]. fold (accepted l). lia. }
  pose proof (len_nonneg taken). cbn [write_loop]. rewrite SystemCall_count by lia. cbn [mbind outcome_bind].
  rewrite viewlist_size_concat by lia. replace (_ =? 0) with false by lia. cbn [andb].
  replace (_ >? _) with false by lia. rewrite concat_iovecs, (u64_id (return_value r)) by lia.
  assert (Hval : valid buffer) by (split; [by apply Forall_true|rewrite <- concat_pieces; lia]).
  destruct (discard_within buffer (return_value r) Hval) as (b' & Hd & _ & Hc);
    [cbn [contents BufferViewList_PrefixDiscard]; lia|].
  cbn [discard BufferViewList_PrefixDiscard contents] in Hd, Hc. rewrite Hd. cbn [mbind outcome_bind andb].
  assert (Hlb : len (concat b') = accepted rs) by (rewrite Hc, len_drop; lia).
  assert (Hlt : len (take (Z.to_nat (return_value r)) (concat buffer)) = return_value r) by (rewrite len_take; lia).
  rewrite viewlist_size_concat, u64_id by lia. destruct (Z.eqb_spec (len (concat b')) 0) as [E|E]; cbn [negb].
  - destruct rs as [|r' rs]; [|apply Forall_cons in Hrs as [? Hrs]; cbn in *; fold (accepted rs) in *].
    + assert (concat b' = []) as Hnil by by apply len_zero_nil.
      rewrite Hc in Hnil. cbn. rewrite Ht. repeat f_equal; [lia|].
      rewrite <- (take_drop (Z.to_nat (return_value r)) (concat buffer)) at 2. by rewrite Hnil, app_nil_r.
    + assert (0 ≤ accepted rs); [|lia]. clear -Hrs. induction Hrs; cbn; [lia|]. fold (accepted l). lia.
  - rewrite IH; [|lia|rewrite len_app; lia|rewrite len_app; lia|done|done].
    rewrite len_app, Hc, <- app_assoc, take_drop, len_drop by lia. cbn [length]. rewrite Nat.iter_succ_r.
    do 3 f_equal. lia.
Qed.

End descriptor_facts.

(** ** Properties *)

Section descriptor_properties.
Import FileDescriptor.

(** [FileDescriptor::write] hands the bytes of the buffer list to the kernel
    in order, without gaps or repeats, whatever the sizes of the partial writes:
    what was taken when it returns is a prefix of the contents of the length it
    returns, all of them if [write_all] is set; and with [write_all] it does
    return as soon as the kernel has taken everything, having counted one write
    per call. *)
Theorem fd_write_in_order (f : FDWrapper) (buffer : BufferViewList.t) (write_all : bool) (rs : list sysret) :
  0 < len (concat buffer) < 2 ^ 31 →
  (∀ n f' taken, write f buffer write_all rs = Ok (n, f', taken) →
     n = len taken ∧ ∃ rest, concat buffer = taken ++ rest ∧ (write_all = true → rest = [])) ∧
  (Forall (λ r, 0 < return_value r) rs → accepted rs = len (concat buffer) →
   write f buffer true rs = Ok (len (concat buffer), Nat.iter (length rs) register_write f, concat buffer)).
Proof.
  intros Hl. split.
  - intros n f' taken Hw.
    apply (write_loop_safe rs f buffer write_all 0 [] n f' taken); cbn; [lia|done|rewrite len_nil; lia|done].
  - intros Hrs Hacc. apply (write_loop_ends rs f buffer 0 []); [lia|rewrite len_nil; lia|done..].
Qed.

Lemma fd_write_in_order_witness :
  write (mk 3 false false 0 0) [[1; 2]; [3; 4; 5]] true [mkSysret 3 0; mkSysret 2 0] =
    Ok (5, mk 3 false false 0 2, [1; 2; 3; 4; 5]).
Proof.
  apply (fd_write_in_order (mk 3 false false 0 0) [[1; 2]; [3; 4; 5]] true [mkSysret 3 0; mkSysret 2 0]).
  - unfold len. simpl. lia.
  - repeat constructor.
  - done.
Defined.

(** [FileDescriptor::read] returns what the kernel delivered, at most 1 MiB of
    it and at most what was asked for, and recognizes the end of the input; a
    closed descriptor is at its end; and [set_blocking] changes no flag but
    [O_NONBLOCK]. *)
Theorem fd_read_and_flags (f : FDWrapper) (limit : Z) (r1 r2 : sysret) (contents : bytes) (blocking : bool) :
  0 < limit → 0 ≤ return_value r1 ≤ Z.min BUFFER_SIZE limit → return_value r1 ≤ len contents →
  0 ≤ return_value r2 < 2 ^ 31 →
  (∃ data f', read f limit r1 contents = Ok (data, f') ∧ len data = return_value r1 ∧
     data = take (length data) contents ∧ read_count f' = u32 (read_count f + 1) ∧
     (eof f' = true ↔ eof f = true ∨ data = [])) ∧
  (∃ f', close f r2 = Ok f' ∧ eof f' = true ∧ closed f' = true) ∧
  (∃ flags, set_blocking blocking r1 r2 = Ok flags ∧
     ∀ i, 0 ≤ i → Z.testbit flags i = if i =? 11 then negb blocking else Z.testbit (return_value r1) i).
Proof.
  intros Hlim Hr1 Hc Hr2. unfold BUFFER_SIZE in Hr1.
  assert (H1 : SystemCall r1 0 = Ok (return_value r1)) by (apply SystemCall_count; lia).
  assert (H2 : SystemCall r2 0 = Ok (return_value r2)) by (apply SystemCall_count; lia).
  split_and!.
  - unfold read, BUFFER_SIZE. rewrite H1. cbn [mbind outcome_bind].
    replace (limit >? 0) with true by lia. replace (_ >? _) with false by lia. replace (_ <? 0) with false by lia. cbn [andb].
    assert (Hl : len (take (Z.to_nat (return_value r1)) contents) = return_value r1) by (rewrite len_take; lia).
    eexists _, _. split; [done|]. split; [done|]. split; [rewrite length_take; f_equal; unfold len in Hc; lia|].
    destruct (Z.eqb_spec (return_value r1) 0) as [E|E]; cbn; split; try done; split; try naive_solver.
    + intros _. right. apply len_zero_nil. lia.
    + intros [?|He]; [done|]. rewrite He, len_nil in Hl. lia.
  - unfold close. rewrite H2. cbn [mbind outcome_bind]. by eexists.
  - unfold set_blocking. rewrite H1. cbn [mbind outcome_bind]. rewrite H2. cbn [mbind outcome_bind].
    eexists. split; [done|]. intros i Hi. change O_NONBLOCK with (2 ^ 11).
    destruct blocking; rewrite ?Z.lxor_spec, ?Z.land_spec, ?Z.lor_spec, Z.pow2_bits_eqb by lia;
      rewrite Z.eqb_sym; destruct (i =? 11); by destruct (Z.testbit _ i).
Qed.

Lemma fd_read_and_flags_witness :
  ∃ flags, set_blocking true (mkSysret 3 0) (mkSysret 0 0) = Ok flags ∧
     ∀ i, 0 ≤ i → Z.testbit flags i = if i =? 11 then false else Z.testbit 3 i.
Proof.
  apply (fd_read_and_flags (mk 3 false false 0 0) 10 (mkSysret 3 0) (mkSysret 0 0) [1; 2; 3] true);
    unfold BUFFER_SIZE, len; simpl; lia.
Defined.

End descriptor_properties.
