(* ===== verification/socket.v ===== *)
(** * Sockets

    Models [libsponge/util/socket]: the checks, the exceptions and the counting of
    reads and writes around the system calls.  What a call gives and what it
    leaves in its out-parameters are arguments. *)

From S2P Require Import prelude byte_stream buffer adapters file_descriptor.

Module Socket.
Import FileDescriptor.

(** [Socket(domain, type)], where [::socket] gives [r] *)
Definition make (r : sysret) : outcome FDWrapper :=
  fd ← SystemCall r 0;
  FileDescriptor.make fd.

(** What [getsockopt] gives, the value and the length it stores. *)
Record sockopt := mkSockopt {
  opt_result : sysret;
  actual_value : Z;
  opt_len : Z
}.

Definition sizeof_int : Z := 4.

(** [Socket(fd, domain, type)] *)
Definition of_fd (f : FDWrapper) (domain type : Z) (so_domain so_type : sockopt) : outcome FDWrapper :=
  _ ← SystemCall (opt_result so_domain) 0;
  if negb (opt_len so_domain =? sizeof_int) || negb (actual_value so_domain =? domain)
  then Throw runtime_error
  else
    _ ← SystemCall (opt_result so_type) 0;
    if negb (opt_len so_type =? sizeof_int) || negb (actual_value so_type =? type)
    then Throw runtime_error
    else Ok f.

Definition sizeof_sockaddr_storage : Z := 128.

(** [{address, size}]: an [Address] from what the kernel stored *)
Definition to_address (address : Address.t) (size : Z) : outcome Address.t :=
  if size >? sizeof_sockaddr_storage then Throw runtime_error else Ok address.

Definition get_address (r : sysret) (address : Address.t) (size : Z) : outcome Address.t :=
  _ ← SystemCall r 0;
  to_address address size.

Definition bind (r : sysret) : outcome unit := _ ← SystemCall r 0; Ok tt.
Definition connect (r : sysret) : outcome unit := _ ← SystemCall r 0; Ok tt.

Definition SHUT_RD : Z := 0.
Definition SHUT_WR : Z := 1.
Definition SHUT_RDWR : Z := 2.

Definition shutdown (f : FDWrapper) (how : Z) (r : sysret) : outcome FDWrapper :=
  _ ← SystemCall r 0;
  if how =? SHUT_RD then Ok (register_read f)
  else if how =? SHUT_WR then Ok (register_write f)
  else if how =? SHUT_RDWR then Ok (register_write (register_read f))
  else Throw runtime_error.

Definition setsockopt (r : sysret) : outcome unit := _ ← SystemCall r 0; Ok tt.
Definition set_reuseaddr (r : sysret) : outcome unit := setsockopt r.

End Socket.

Module UDPSocket.
Import FileDescriptor.

Definition AF_INET : Z := 2.
Definition SOCK_DGRAM : Z := 2.

(** [UDPSocket()] and [UDPSocket(fd)] *)
Definition make (r : sysret) : outcome FDWrapper := Socket.make r.
Definition of_fd (f : FDWrapper) (so_domain so_type : Socket.sockopt) : outcome FDWrapper :=
  Socket.of_fd f AF_INET SOCK_DGRAM so_domain so_type.

Record received_datagram := mkReceived {
  source_address : Address.t;
  payload : bytes
}.

(** [recv(datagram, mtu)], where [::recvfrom] gives [r] and leaves [contents] in
    the buffer of [mtu] bytes and a source address of [fromlen] bytes *)
Definition recv (f : FDWrapper) (mtu : Z) (r : sysret) (contents : bytes) (source : Address.t) (fromlen : Z)
    : outcome (received_datagram * FDWrapper) :=
  recv_len ← SystemCall r 0;
  if recv_len >? mtu then Throw runtime_error
  else
    let f := register_read f in
    source ← Socket.to_address source fromlen;
    if recv_len <? 0 then Throw length_error
    else Ok (mkReceived source (take (Z.to_nat recv_len) contents), f).

(** [sendmsg_helper], where [::sendmsg] gives [r]: the message it was given. *)
Definition sendmsg_helper (payload : BufferViewList.t) (r : sysret) : outcome bytes :=
  let iovecs := BufferViewList.as_iovecs payload in
  bytes_sent ← SystemCall r 0;
  if negb (u64 bytes_sent =? BufferViewList.size payload) then Throw runtime_error
  else Ok (concat (map fst iovecs)).

Definition sendto (f : FDWrapper) (destination : Address.t) (payload : BufferViewList.t) (r : sysret)
    : outcome (FDWrapper * (Address.t * bytes)) :=
  message ← sendmsg_helper payload r;
  Ok (register_write f, (destination, message)).

Definition send (f : FDWrapper) (payload : BufferViewList.t) (r : sysret) : outcome (FDWrapper * bytes) :=
  message ← sendmsg_helper payload r;
  Ok (register_write f, message).

End UDPSocket.

Module TCPSocket.
Import FileDescriptor.

Definition AF_INET : Z := 2.
Definition SOCK_STREAM : Z := 1.

(** [TCPSocket()] and [TCPSocket(fd)] *)
Definition make (r : sysret) : outcome FDWrapper := Socket.make r.
Definition of_fd (f : FDWrapper) (so_domain so_type : Socket.sockopt) : outcome FDWrapper :=
  Socket.of_fd f AF_INET SOCK_STREAM so_domain so_type.

Definition listen (r : sysret) : outcome unit := _ ← SystemCall r 0; Ok tt.

(** [accept()]: the new socket and this one.  The read is counted before the
    call. *)
Definition accept (f : FDWrapper) (r : sysret) (so_domain so_type : Socket.sockopt)
    : outcome (FDWrapper * FDWrapper) :=
  let f := register_read f in
  fd ← SystemCall r 0;
  conn ← FileDescriptor.make fd;
  conn ← of_fd conn so_domain so_type;
  Ok (conn, f).

End TCPSocket.

Module LocalStreamSocket.

Definition AF_UNIX : Z := 1.
Definition SOCK_STREAM : Z := 1.

(** [LocalStreamSocket(fd)] *)
Definition of_fd (f : FileDescriptor.FDWrapper) (so_domain so_type : Socket.sockopt)
    : outcome FileDescriptor.FDWrapper :=
  Socket.of_fd f AF_UNIX SOCK_STREAM so_domain so_type.

End LocalStreamSocket.

(** ** Between a descriptor and a stream *)

Section stream_io.
Implicit Types (st : ByteStream.t) (f : FileDescriptor.FDWrapper).

(** What is read for the room a stream has left fits. *)
Lemma read_into_stream st f r contents data f' :
  FileDescriptor.read f (ByteStream.remaining_capacity st) r contents = Ok (data, f') →
  ByteStream.write st data =
    (st <| ByteStream.buffer ::= λ b, b ++ data |> <| ByteStream.written_bytes ::= λ n, u64 (n + len data) |>, len data).
Proof.
  unfold FileDescriptor.read. intros (n & _ & H)%bind_Ok. destruct (Z.gtb_spec n
    (Z.min FileDescriptor.BUFFER_SIZE (ByteStream.remaining_capacity st))) as [|Hn]; [done|].
  destruct (_ <? 0); [done|]. injection H as <- _.
  set (data := take _ contents). assert (Hl : len data ≤ ByteStream.remaining_capacity st).
  { pose proof (u64_bound (ByteStream.capacity st - len (ByteStream.buffer st))) as Hb.
    fold (ByteStream.remaining_capacity st) in Hb. unfold data, len. rewrite length_take. lia. }
  unfold ByteStream.write. fold (ByteStream.remaining_capacity st). rewrite Z.min_r by lia.
  rewrite (take_ge data); [done|unfold len; lia].
Qed.

(** What the kernel takes of the first bytes of a stream is what is popped. *)
Lemma write_from_stream st f r n f' taken :
  FileDescriptor.write f
    (BufferViewList.of_string (ByteStream.peek_output st (Z.min 65536 (ByteStream.buffer_size st)))) false [r] =
    Ok (n, f', taken) →
  ByteStream.buffer st = taken ++ ByteStream.buffer (ByteStream.pop_output st n).
Proof.
  rewrite peek_output_take. set (k := Z.min 65536 _). intros Hw.
  pose proof (len_nonneg (ByteStream.buffer st)) as Hl.
  assert (Hk : 0 ≤ k ≤ 65536) by (unfold k, ByteStream.buffer_size; lia).
  pose proof (len_take k (ByteStream.buffer st) ltac:(lia)) as Hlt. unfold FileDescriptor.write in Hw.
  apply write_loop_safe in Hw as (-> & rest & Ht & _); cbn [BufferViewList.of_string concat] in *;
    rewrite ?app_nil_r, ?(@len_nil Z) in *; [|lia|done|lia].
  assert (Hb : ByteStream.buffer st = taken ++ rest ++ drop (Z.to_nat k) (ByteStream.buffer st)).
  { rewrite app_assoc. cbn in Ht. rewrite <- Ht. symmetry. apply take_drop. }
  unfold ByteStream.pop_output. destruct (Z.gtb_spec (len taken) (len (ByteStream.buffer st))) as [Hgt|_].
  { apply (f_equal len) in Hb. rewrite !len_app in Hb. pose proof (len_nonneg rest).
    pose proof (len_nonneg (drop (Z.to_nat k) (ByteStream.buffer st))). lia. }
  cbn. unfold len. rewrite Nat2Z.id. rewrite Hb at 2. by rewrite drop_app_length.
Qed.

End stream_io.

(** ** Properties *)

Section socket_properties.
Import FileDescriptor UDPSocket.

(** Datagrams are sent and received whole or not at all.  What [sendto] hands the
    kernel is the contents of the payload, and it returns only if the kernel took
    all of it; [recv] returns exactly the datagram, which is what the kernel left
    in a buffer long enough for it, and reports one that does not fit. *)
Theorem udp_datagrams_are_whole (f : FDWrapper) (destination : Address.t) (buffer : BufferViewList.t)
    (mtu : Z) (r : sysret) (contents : bytes) :
  len (concat buffer) < 2 ^ 31 → 0 ≤ return_value r < 2 ^ 31 → len contents = mtu →
  (sendto f destination buffer r =
     if return_value r =? len (concat buffer) then Ok (register_write f, (destination, concat buffer))
     else Throw runtime_error) ∧
  (recv f mtu r contents destination 16 =
     if return_value r <=? mtu
     then Ok (mkReceived destination (take (Z.to_nat (return_value r)) contents), register_read f)
     else Throw runtime_error).
Proof.
  intros Hb Hr Hm. pose proof (len_nonneg (concat buffer)).
  unfold sendto, recv, sendmsg_helper. rewrite SystemCall_count by lia. cbn [mbind outcome_bind].
  rewrite u64_id, viewlist_size_concat, concat_iovecs by lia. split.
  - by destruct (_ =? _).
  - rewrite Z.gtb_ltb. unfold Socket.to_address, Socket.sizeof_sockaddr_storage. cbn [Z.gtb Z.compare mbind outcome_bind].
    destruct (Z.ltb_spec mtu (return_value r)), (Z.leb_spec (return_value r) mtu); try lia; [done|].
    by destruct (Z.ltb_spec (return_value r) 0); [lia|].
Qed.

Lemma udp_datagrams_are_whole_witness :
  sendto (mk 3 false false 0 0) (Address.mk 1 2) [[7]; [8; 9]] (mkSysret 3 0) =
    Ok (mk 3 false false 0 1, (Address.mk 1 2, [7; 8; 9])).
Proof.
  destruct (udp_datagrams_are_whole (mk 3 false false 0 0) (Address.mk 1 2) [[7]; [8; 9]] 3 (mkSysret 3 0) [0; 0; 0])
    as [H _]; [unfold len; simpl; lia|simpl; lia|done|exact H].
Defined.

End socket_properties.
