(* ===== verification/address.v ===== *)
(** * Names and addresses

    Models the constructors of [libsponge/util/address.cc] that resolve names, and the
    text of an address.  [getaddrinfo] is outside: a function from a node, a service
    and the two hints the code sets to what it returns and the first of its
    results.  [RawAddress] has the bytes that an [Address] wraps; the numbers and ports
    by which the rest of the development knows addresses stand for them. *)

From Stdlib Require Import Ascii String.
From stdpp Require Import strings pretty.
From S2P Require Import prelude text parser adapters file_descriptor socket.

(** [struct addrinfo] as a hint: the fields that are set *)
Record addrinfo := mkAddrinfo {
  ai_flags : Z;
  ai_family : Z
}.

(** What [getaddrinfo] returns: its value, and the first result, an address and its
    length, unless the list is empty. *)
Record gai_answer := mkGai {
  gai_ret : Z;
  resolved_address : option (Address.t * Z)
}.

Module AddressResolver.

Definition AF_INET : Z := 2.
Definition AI_NUMERICHOST : Z := 4.
Definition AI_ALL : Z := 16.
Definition AI_NUMERICSERV : Z := 1024.

Definition make_hints (ai_flags ai_family : Z) : addrinfo := mkAddrinfo ai_flags ai_family.

Section resolver.
Context (getaddrinfo : string → string → addrinfo → gai_answer).

(** [Address(node, service, hints)]; a [tagged_error] is a [runtime_error]. *)
Definition of_node (node service : string) (hints : addrinfo) : outcome Address.t :=
  let answer := getaddrinfo node service hints in
  if negb (gai_ret answer =? 0) then Throw runtime_error
  else
    match resolved_address answer with
    | None => Throw runtime_error
    | Some (ai_addr, ai_addrlen) => Socket.to_address ai_addr ai_addrlen
    end.

(** [Address(hostname, service)] *)
Definition of_hostname (hostname service : string) : outcome Address.t :=
  of_node hostname service (make_hints AI_ALL AF_INET).

(** [Address(ip, port)] *)
Definition of_ip (ip : string) (port : Z) : outcome Address.t :=
  of_node ip (dec port) (make_hints (Z.lor AI_NUMERICHOST AI_NUMERICSERV) AF_INET).

End resolver.

End AddressResolver.

Module AddressPrinter.

(** [ip_port()]: what [getnameinfo] gives for a numeric host and service *)
Definition ip_port (a : Address.t) : string * Z := (inet_ntoa (Address.ipv4_numeric a), Address.port a).
Definition ip (a : Address.t) : string := (ip_port a).1.
Definition port (a : Address.t) : Z := (ip_port a).2.

Definition to_string (a : Address.t) : string :=
  let ip_and_port := ip_port a in
  ip_and_port.1 +:+ ":" +:+ dec ip_and_port.2.

End AddressPrinter.

(** An [Address] as it is stored: the [sockaddr_storage] and the size in use.  The
    layout of [struct sockaddr_in] is that of Linux on a little-endian machine: the
    family in host order, the port and the number in network order, eight zeros. *)
Module RawAddress.

Record t := mk {
  storage : bytes;
  _size : Z
}.

Definition sizeof_sockaddr_in : Z := 16.

(** [memcpy(dst, src, n)] on arrays *)
Definition memcpy (dst src : bytes) (n : Z) : outcome bytes :=
  if (n >? len src) || (n >? len dst) then UB
  else Ok (take (Z.to_nat n) src ++ drop (Z.to_nat n) dst).

(** [Address(addr, size)] *)
Definition make (addr : bytes) (size : Z) : outcome t :=
  let s := replicate (Z.to_nat Socket.sizeof_sockaddr_storage) 0 in
  if size >? Socket.sizeof_sockaddr_storage then Throw runtime_error
  else s ← memcpy s addr size; Ok (mk s size).

Definition ss_family (a : t) : Z :=
  match storage a with low :: high :: _ => low + 256 * high | _ => 0 end.

(** [struct sockaddr_in] for a port and a number in host order *)
Definition sockaddr_in (family port number : Z) : bytes :=
  [Z.land family 255; Z.shiftr family 8] ++ NetUnparser.int_bytes 2 port ++ NetUnparser.int_bytes 4 number ++ replicate 8 0.

Definition ipv4_numeric (a : t) : outcome Z :=
  if negb (ss_family a =? AddressResolver.AF_INET) || negb (_size a =? sizeof_sockaddr_in) then Throw runtime_error
  else
    ipv4_addr ← memcpy (replicate (Z.to_nat sizeof_sockaddr_in) 0) (storage a) (_size a);
    Ok (be_value (take 4 (drop 4 ipv4_addr))).

Definition from_ipv4_numeric (ip_address : Z) : outcome t :=
  make (sockaddr_in AddressResolver.AF_INET 0 ip_address) sizeof_sockaddr_in.

Definition eqb (a other : t) : bool :=
  if negb (_size a =? _size other) then false
  else bool_decide (take (Z.to_nat (_size a)) (storage a) = take (Z.to_nat (_size a)) (storage other)).

End RawAddress.

(** ** Lemmas *)

Section raw_addresses.
Import RawAddress.

(** The bytes of an IPv4 address. *)
Definition wrapped (a : Address.t) : bytes :=
  sockaddr_in AddressResolver.AF_INET (Address.port a) (Address.ipv4_numeric a).

Lemma length_sockaddr_in family port number : length (sockaddr_in family port number) = 16%nat.
Proof. unfold sockaddr_in. cbn [app length]. by rewrite !length_app, !length_int_bytes, length_replicate. Qed.

Lemma make_wrapped a : make (wrapped a) sizeof_sockaddr_in = Ok (mk (wrapped a ++ replicate 112 0) 16).
Proof. reflexivity. Qed.

Lemma wrapped_inj a b : Address.ok a → Address.ok b → wrapped a = wrapped b → a = b.
Proof.
  intros [Ha Hpa] [Hb Hpb]. unfold wrapped, sockaddr_in. intros E.
  apply app_inj_1 in E as [_ E]; [|done].
  apply app_inj_1 in E as [Ep E]; [|by rewrite !length_int_bytes]. apply app_inj_1 in E as [En _]; [|by rewrite !length_int_bytes].
  apply (f_equal be_value) in Ep, En. rewrite !int_bytes_id in Ep, En by done. destruct a, b. cbn in *. congruence.
Qed.

End raw_addresses.

(** ** Properties *)

Section address_properties.
Import RawAddress.

(** A number and a port stand for the stored bytes: of the bytes of an IPv4 address the
    constructor makes an [Address] whose number is the address's, two such objects are
    equal exactly when their numbers and ports are, and [from_ipv4_numeric] makes the
    object of the number with port 0. *)
Theorem addresses_stand_for_bytes (a b : Address.t) :
  Address.ok a → Address.ok b → ∃ ra rb,
    make (wrapped a) sizeof_sockaddr_in = Ok ra ∧ make (wrapped b) sizeof_sockaddr_in = Ok rb ∧
    ipv4_numeric ra = Ok (Address.ipv4_numeric a) ∧ eqb ra rb = Address.eqb a b ∧
    from_ipv4_numeric (Address.ipv4_numeric a) = make (wrapped (Address.from_ipv4_numeric (Address.ipv4_numeric a))) sizeof_sockaddr_in.
Proof.
  intros Ha Hb. rewrite !make_wrapped. do 2 eexists. split; [done|]. split; [done|]. split_and!; try done.
  - unfold ipv4_numeric, memcpy. change (negb _ || negb _) with false. change (_ || _) with false. cbn [mbind outcome_bind]. f_equal.
    change (be_value (NetUnparser.int_bytes 4 (Address.ipv4_numeric a)) = Address.ipv4_numeric a). by apply int_bytes_id, Ha.
  - unfold eqb. cbn [_size storage]. change (negb (16 =? 16)) with false. cbn iota.
    rewrite !take_app_length' by (unfold wrapped; by rewrite length_sockaddr_in).
    unfold Address.eqb. apply Bool.eq_iff_eq_true. rewrite bool_decide_eq_true, andb_true_iff, !Z.eqb_eq. split.
    + by intros ->%wrapped_inj.
    + destruct a, b. cbn. by intros [-> ->].
Qed.

(** An IPv6 address is stored but has no number. *)
Example ipv6_has_no_number :
  ∃ ra, make ([10; 0; 31; 144] ++ replicate 24 0) 28 = Ok ra ∧ ipv4_numeric ra = Throw runtime_error.
Proof. eexists. split; reflexivity. Qed.

End address_properties.
