(* ===== verification/eventloop.v ===== *)
(** * The event loop

    Models [libsponge/util/eventloop].  The program around the loop is a world [W]
    that the callbacks, the interests and the cancellations of the rules act on;
    [descriptor w i] is the shared state of descriptor [i] in it.  What [poll]
    answers is an argument of [wait_next_event].  The callbacks of the program do
    not add rules, so the list of rules changes only here. *)

From Stdlib Require Import Sorted.
From S2P Require Import prelude buffer file_descriptor.

Module EventLoop.

Definition POLLIN : Z := 1.
Definition POLLOUT : Z := 4.
Definition POLLERR : Z := 8.
Definition POLLHUP : Z := 16.
Definition POLLNVAL : Z := 32.
Definition EINTR : Z := 4.

Inductive Direction :=
| In
| Out.

(** [static_cast<short>(direction)] *)
Definition events_of (d : Direction) : Z := match d with In => POLLIN | Out => POLLOUT end.

#[global] Instance Direction_eq_dec : EqDecision Direction.
Proof. solve_decision. Defined.

Inductive Result :=
| Success
| Timeout
| Exit.

(** [struct pollfd] *)
Record pollfd := mkPollfd {
  pfd : Z;
  events : Z;
  revents : Z
}.

#[global] Instance eta_pollfd : Eta pollfd := λ p, mkPollfd (pfd p) (events p) (revents p).

Section loop.
Context {W : Type} (descriptor : W → nat → FileDescriptor.FDWrapper).

Record Rule := mkRule {
  fd : nat;
  direction : Direction;
  callback : W → outcome W;
  interest : W → bool;
  cancel : W → outcome W
}.

Definition service_count (r : Rule) (w : W) : Z :=
  match direction r with
  | In => FileDescriptor.read_count (descriptor w (fd r))
  | Out => FileDescriptor.write_count (descriptor w (fd r))
  end.

(** The rule holds a duplicate of the handle: the same descriptor. *)
Definition add_rule (_rules : list Rule) (fd : nat) (direction : Direction) (callback : W → outcome W)
    (interest : W → bool) (cancel : W → outcome W) : list Rule :=
  _rules ++ [mkRule fd direction callback interest cancel].

(** The first loop: the rules that stay, the [pollfd] of each, and
    [something_to_poll]. *)
Fixpoint setup (rules : list Rule) (w : W) : outcome (list Rule * list pollfd * bool * W) :=
  match rules with
  | [] => Ok ([], [], false, w)
  | this_rule :: rules =>
    if bool_decide (direction this_rule = In) && FileDescriptor.eof (descriptor w (fd this_rule)) then
      w ← cancel this_rule w;
      setup rules w
    else if FileDescriptor.closed (descriptor w (fd this_rule)) then
      w ← cancel this_rule w;
      setup rules w
    else
      let wanted := interest this_rule w in
      let p := mkPollfd (FileDescriptor.fd_num (descriptor w (fd this_rule)))
                 (if wanted then events_of (direction this_rule) else 0) 0 in
      '(kept, pollfds, something_to_poll, w) ← setup rules w;
      Ok (this_rule :: kept, p :: pollfds, wanted || something_to_poll, w)
  end.

Definition poll_error (p : pollfd) : bool := negb (Z.land (revents p) (Z.lor POLLERR POLLNVAL) =? 0).
Definition poll_ready (p : pollfd) : bool := negb (Z.land (revents p) (events p) =? 0).
Definition poll_hup (p : pollfd) : bool := negb (Z.land (revents p) POLLHUP =? 0).

(** The second loop: go through the poll results. *)
Fixpoint process (rules : list Rule) (pollfds : list pollfd) (w : W) : outcome (list Rule * W) :=
  match rules with
  | [] => Ok ([], w)
  | this_rule :: rules =>
    this_pollfd ← or_UB (head pollfds);
    if poll_error this_pollfd then Throw runtime_error
    else if poll_hup this_pollfd && negb (events this_pollfd =? 0) && negb (poll_ready this_pollfd) then
      w ← cancel this_rule w;
      process rules (tail pollfds) w
    else
      w ← (if poll_ready this_pollfd then
             let count_before := service_count this_rule w in
             w ← callback this_rule w;
             if (count_before =? service_count this_rule w) && interest this_rule w
             then Throw runtime_error else Ok w
           else Ok w);
      '(kept, w) ← process rules (tail pollfds) w;
      Ok (this_rule :: kept, w)
  end.

(** [poll] gives its result and the [revents] it filled in.  An error other than
    [EINTR] is caught and dropped. *)
Definition wait_next_event (_rules : list Rule) (w : W) (poll : list pollfd → sysret * list Z)
    : outcome (Result * list Rule * W) :=
  '(_rules, pollfds, something_to_poll, w) ← setup _rules w;
  if negb something_to_poll then Ok (Exit, _rules, w)
  else
    let '(r, filled) := poll pollfds in
    let pollfds := zip_with (λ p x, p <| revents := x |>) pollfds filled in
    let go_through (_ : unit) :=
      '(_rules, w) ← process _rules pollfds w;
      Ok (Success, _rules, w) in
    match SystemCall r 0 with
    | Ok n => if 0 =? n then Ok (Timeout, _rules, w) else go_through tt
    | Throw (unix_error code) => if code =? EINTR then Ok (Exit, _rules, w) else go_through tt
    | Throw e => Throw e
    | UB => UB
    | Diverge => Diverge
    end.

(** ** What a round does, as a relation *)

(** A rule whose descriptor can give no more. *)
Definition defunct (r : Rule) (w : W) : Prop :=
  direction r = In ∧ FileDescriptor.eof (descriptor w (fd r)) = true ∨
  FileDescriptor.closed (descriptor w (fd r)) = true.

(** The loop's step for one rule: [None] if the rule is cancelled. *)
Inductive serviced (r : Rule) (p : pollfd) (w : W) : option Rule → W → Prop :=
| serviced_ready w' :
    poll_ready p = true → callback r w = Ok w' →
    service_count r w ≠ service_count r w' ∨ interest r w' = false →
    serviced r p w (Some r) w'
| serviced_hung_up w' :
    poll_ready p = false → poll_hup p = true → events p ≠ 0 → cancel r w = Ok w' →
    serviced r p w None w'
| serviced_idle :
    poll_ready p = false → poll_hup p = false ∨ events p = 0 →
    serviced r p w (Some r) w.

(** One step per rule, in order, for results without an error. *)
Inductive services : list Rule → list pollfd → W → list Rule → W → Prop :=
| services_nil w : services [] [] w [] w
| services_cons r rules p pollfds w o w1 kept w2 :
    poll_error p = false → serviced r p w o w1 → services rules pollfds w1 kept w2 →
    services (r :: rules) (p :: pollfds) w (option_list o ++ kept) w2.

End loop.

End EventLoop.

Arguments EventLoop.Rule W : clear implicits.

(** ** Lemmas *)

Section event_facts.
Import EventLoop.
Context {W : Type} (descriptor : W → nat → FileDescriptor.FDWrapper).

Lemma process_services rules pollfds w kept w' :
  length pollfds = length rules →
  process descriptor rules pollfds w = Ok (kept, w') ↔ services descriptor rules pollfds w kept w'.
Proof.
  revert pollfds w kept w'. induction rules as [|r rules IH]; intros [|p pollfds] w kept w' Hlen; try done.
  { cbn. split; [intros [= <- <-]; constructor|by inversion 1]. }
  injection Hlen as Hlen. cbn [process head or_UB mbind outcome_bind tail]. split.
  - destruct (poll_error p) eqn:Ee; [done|]. destruct (poll_ready p) eqn:Er.
    + rewrite andb_false_r. destruct (callback r w) as [w1| | |] eqn:Ec; try done. cbn [mbind outcome_bind].
      destruct (_ && _) eqn:Eb; [done|]. cbn [mbind outcome_bind].
      destruct (process descriptor rules pollfds w1) as [[kept1 w2]| | |] eqn:Ep; try done. intros [= <- <-].
      apply (services_cons descriptor r rules p pollfds w (Some r) w1 kept1 w2); [done| |by apply IH].
      constructor; [done..|]. apply andb_false_iff in Eb as [?|?]; [left; lia|by right].
    + rewrite andb_true_r. destruct (_ && _) eqn:Eh; cbn [mbind outcome_bind].
      * destruct (cancel r w) as [w1| | |] eqn:Ec; try done. cbn [mbind outcome_bind]. intros Hp.
        apply andb_prop in Eh as [? ?]. apply (services_cons descriptor r rules p pollfds w None w1 kept w');
          [done| |by apply IH]. constructor; [done..|lia|done].
      * destruct (process descriptor rules pollfds w) as [[kept1 w2]| | |] eqn:Ep; try done. intros [= <- <-].
        apply (services_cons descriptor r rules p pollfds w (Some r) w kept1 w2); [done| |by apply IH].
        apply serviced_idle; [done|]. apply andb_false_iff in Eh as [?|?]; [by left|right; lia].
  - inversion 1 as [|? ? ? ? ? o w1 kept1 ? He Hs Hrest]; subst. rewrite He. apply IH in Hrest; [|done].
    destruct Hs as [w1 Hr Hc Hp|w1 Hr Hh Hev Hc|Hr Hh]; rewrite Hr.
    + rewrite andb_false_r, Hc. cbn [mbind outcome_bind]. destruct (_ && _) eqn:Eb.
      { apply andb_prop in Eb as [? ?]. destruct Hp; [lia|congruence]. }
      cbn [mbind outcome_bind]. by rewrite Hrest.
    + rewrite Hh. replace (_ =? 0) with false by lia. cbn [negb andb]. by rewrite Hc.
    + replace (poll_hup p && _ && _) with false by (destruct Hh as [->| ->]; cbn; by rewrite ?andb_false_r).
      cbn [mbind outcome_bind]. by rewrite Hrest.
Qed.

(** The [pollfd]s of rules none of which is defunct. *)
Definition wanted (w : W) (r : Rule W) : pollfd :=
  mkPollfd (FileDescriptor.fd_num (descriptor w (fd r)))
    (if interest r w then events_of (direction r) else 0) 0.

Lemma setup_live rules w :
  (∀ r, r ∈ rules → ¬ defunct descriptor r w) →
  setup descriptor rules w = Ok (rules, map (wanted w) rules, existsb (λ r, interest r w) rules, w).
Proof.
  induction rules as [|r rules IH]; intros Hl; [done|]. cbn [setup].
  assert (Hr : ¬ defunct descriptor r w) by (apply Hl; constructor). unfold defunct in Hr.
  destruct (bool_decide _ && _) eqn:E1.
  { apply andb_prop in E1 as [?%bool_decide_eq_true ?]. naive_solver. }
  destruct (FileDescriptor.closed _) eqn:E2; [naive_solver|]. rewrite IH; [done|].
  intros r' Hr'. apply Hl. by constructor.
Qed.

Lemma setup_lengths rules w kept pollfds b w' :
  setup descriptor rules w = Ok (kept, pollfds, b, w') → length pollfds = length kept ∧ kept `sublist_of` rules.
Proof.
  revert w kept pollfds b w'. induction rules as [|r rules IH]; intros w kept pollfds b w'; cbn [setup].
  { intros [= <- <- <- <-]. done. }
  destruct (_ && _); [|destruct (FileDescriptor.closed _)].
  1,2: destruct (cancel r w) as [w1| | |]; try done; cbn [mbind outcome_bind]; intros H;
    destruct (IH _ _ _ _ _ H); split; [done|by constructor].
  destruct (setup descriptor rules w) as [[[[k ps] b1] w1]| | |] eqn:E; try done. intros [= <- <- <- <-].
  destruct (IH _ _ _ _ _ E). cbn. split; [lia|by constructor].
Qed.

Lemma process_idle rules pollfds w :
  length pollfds = length rules → Forall (λ p, revents p = 0) pollfds →
  process descriptor rules pollfds w = Ok (rules, w).
Proof.
  revert pollfds. induction rules as [|r rules IH]; intros [|p pollfds] Hlen Hz; try done.
  injection Hlen as Hlen. apply Forall_cons in Hz as [Hp Hz].
  cbn [process head or_UB mbind outcome_bind tail]. unfold poll_error, poll_hup, poll_ready.
  rewrite Hp, !Z.land_0_l. cbn. by rewrite IH.
Qed.

Lemma process_preserves (P : W → Prop) rules pollfds w kept w' :
  (∀ r w w', r ∈ rules → P w → callback r w = Ok w' ∨ cancel r w = Ok w' → P w') →
  P w → process descriptor rules pollfds w = Ok (kept, w') → P w' ∧ kept `sublist_of` rules.
Proof.
  intros Hr. revert pollfds w kept w'.
  induction rules as [|r rules IH]; intros pollfds w kept w' HP; cbn [process]; [intros [= <- <-]; done|].
  assert (Hr' : ∀ r0 w w', r0 ∈ rules → P w → callback r0 w = Ok w' ∨ cancel r0 w = Ok w' → P w')
    by (intros r0 v v' H0; apply Hr; by constructor).
  specialize (Hr r). destruct (head pollfds) as [p|]; try done. cbn [or_UB mbind outcome_bind].
  destruct (poll_error p); [done|]. destruct (_ && _ && _).
  { destruct (cancel r w) as [w1| | |] eqn:Ec; try done. cbn [mbind outcome_bind]. intros H.
    eapply IH in H as [? ?]; [split; [done|by constructor]|done|]. eapply Hr; [constructor|done|by right]. }
  assert (Hcb : ∀ w1, callback r w = Ok w1 → P w1)
    by (intros w1 H; eapply Hr; [constructor|done|by left]).
  destruct (poll_ready p); cbn [mbind outcome_bind] in *.
  - destruct (callback r w) as [w1| | |]; try done. cbn [mbind outcome_bind] in *. destruct (_ && _); [done|].
    specialize (Hcb w1 eq_refl). cbn [mbind outcome_bind]. destruct (process _ rules _ w1) as [[k w2]| | |] eqn:Ep; try done. intros [= <- <-].
    apply IH in Ep as [? ?]; [split; [done|by constructor]|done..].
  - destruct (process _ rules _ w) as [[k w2]| | |] eqn:Ep; try done. intros [= <- <-].
    apply IH in Ep as [? ?]; [split; [done|by constructor]|done..].
Qed.

Lemma setup_preserves (P : W → Prop) rules w kept pollfds b w' :
  (∀ r w w', r ∈ rules → P w → cancel r w = Ok w' → P w') →
  P w → setup descriptor rules w = Ok (kept, pollfds, b, w') → P w'.
Proof.
  intros Hr. revert w kept pollfds b w'. induction rules as [|r rules IH]; intros w kept pollfds b w' HP; cbn [setup];
    [by intros [= <- <- <- <-]|].
  assert (Hr' : ∀ r0 w w', r0 ∈ rules → P w → cancel r0 w = Ok w' → P w')
    by (intros r0 v v' H0; apply Hr; by constructor).
  assert (Hc : ∀ w1, cancel r w = Ok w1 → P w1) by (intros w1; apply Hr; [constructor|done]).
  destruct (_ && _); [|destruct (FileDescriptor.closed _)].
  1,2: destruct (cancel r w) as [w1| | |]; try done; cbn [mbind outcome_bind]; intros H;
    eapply IH; [done| |exact H]; by apply Hc.
  destruct (setup descriptor rules w) as [[[[k ps] b1] w1]| | |] eqn:E; try done. intros [= <- <- <- <-]. eauto.
Qed.

(** What every callback and cancellation keeps, a round keeps. *)
Lemma round_preserves (P : W → Prop) rules kept w w' poll res :
  (∀ r w w', r ∈ rules → P w → callback r w = Ok w' ∨ cancel r w = Ok w' → P w') →
  P w → wait_next_event descriptor rules w poll = Ok (res, kept, w') →
  P w' ∧ kept `sublist_of` rules.
Proof.
  intros Hr HP. unfold wait_next_event.
  destruct (setup descriptor rules w) as [[[[k ps] b] w1]| | |] eqn:Es; try done. cbn [mbind outcome_bind].
  destruct (setup_lengths _ _ _ _ _ _ Es) as [_ Hsub].
  apply (setup_preserves P) in Es; [|intros r v v' ? ? ?; eapply Hr; eauto|done].
  destruct b; cbn [negb]; [|intros [= <- <- <-]; done].
  destruct (poll ps) as [r filled].
  assert (Hgo : ∀ ps, ('(_rules, w) ← process descriptor k ps w1; Ok (Success, _rules, w)) = Ok (res, kept, w') →
    P w' ∧ kept `sublist_of` rules).
  { intros ps'. destruct (process descriptor k ps' w1) as [[k' w2]| | |] eqn:Ep; try done. intros [= <- <- <-].
    apply (process_preserves P) in Ep as [? ?]; [by split; [|etrans]| |done].
    intros r0 v v' H0. apply Hr. by eapply elem_of_sublist. }
  destruct (SystemCall r 0) as [n|[]| |]; try done.
  - destruct (0 =? n); [intros [= <- <- <-]; done|apply Hgo].
  - destruct (code =? EINTR); [intros [= <- <- <-]; done|apply Hgo].
Qed.

End event_facts.

(** ** Rules that behave *)

Section behaved.
Import EventLoop.
Context {W : Type} (descriptor : W → nat → FileDescriptor.FDWrapper) (inv : W → Prop).

(** A rule whose callback is fine whenever the rule is interested, and that does
    nothing when it is cancelled. *)
Definition behaves (r : Rule W) : Prop :=
  (∀ w, inv w → interest r w = true → no_UB inv (callback r w)) ∧ ∀ w, cancel r w = Ok w.

(** The callback of [r] does not take away the interest of [r']. *)
Definition keeps (r r' : Rule W) : Prop :=
  ∀ w w', inv w → interest r w = true → callback r w = Ok w' → interest r' w = true → interest r' w' = true.

Lemma StronglySorted_sublist (R : Rule W → Rule W → Prop) l k :
  k `sublist_of` l → StronglySorted R l → StronglySorted R k.
Proof.
  intros Hs. induction Hs as [|x k l Hs IH|x k l Hs IH]; intros H; [done|..];
    apply StronglySorted_inv in H as [H Hx]; [|by apply IH].
  constructor; [by apply IH|]. rewrite Forall_forall in *. intros y Hy. apply Hx. by eapply elem_of_sublist.
Qed.

Lemma setup_behaved rs w :
  Forall behaves rs → inv w →
  no_UB (λ '(kept, ps, _, w'), w' = w ∧ kept `sublist_of` rs ∧
    Forall2 (λ r p, events p ≠ 0 → interest r w = true) kept ps) (setup descriptor rs w).
Proof.
  intros Hrs Hw. induction Hrs as [|r rs [_ Hc] _ IH]; cbn [setup]; [done|]. rewrite Hc. cbn [mbind outcome_bind].
  assert (Hskip : no_UB (λ '(kept, ps, _, w'), w' = w ∧ kept `sublist_of` (r :: rs) ∧
    Forall2 (λ r p, events p ≠ 0 → interest r w = true) kept ps) (setup descriptor rs w)).
  { eapply no_UB_mono; [exact IH|]. intros [[[kept ps] b] w'] _ (-> & Hs & H). split_and!; try done. by constructor. }
  destruct (_ && _); [done|]. destruct (FileDescriptor.closed _); [done|].
  eapply no_UB_bind; [exact IH|]. intros [[[kept ps] b] w'] _ (-> & Hs & H). cbn.
  split_and!; [done|by constructor|]. constructor; [|done]. cbn. by destruct (interest r w).
Qed.

Lemma process_behaved rs ps w :
  Forall behaves rs → StronglySorted keeps rs → inv w →
  Forall2 (λ r p, poll_ready p = true → interest r w = true) rs ps →
  no_UB (λ '(kept, w'), inv w' ∧ kept `sublist_of` rs) (process descriptor rs ps w).
Proof.
  intros Hrs. revert ps w. induction Hrs as [|r rs [Hcb Hc] Hrs IH]; intros ps w Hs Hw Hp; [done|].
  apply Forall2_cons_inv_l in Hp as (p & ps' & Hr & Hp & ->). apply StronglySorted_inv in Hs as [Hs Hk].
  cbn [process head or_UB mbind outcome_bind tail]. destruct (poll_error p); [done|]. rewrite Hc. cbn [mbind outcome_bind].
  destruct (_ && _ && _).
  { eapply no_UB_mono; [by apply IH|]. intros [kept w'] _ [? ?]. split; [done|by constructor]. }
  eapply (no_UB_bind (λ w1, inv w1 ∧ Forall2 (λ r p, poll_ready p = true → interest r w1 = true) rs ps')).
  - destruct (poll_ready p); [|done]. specialize (Hr eq_refl).
    eapply no_UB_bind; [by apply Hcb|]. intros w1 Hw1 Hinv. destruct (_ && _); [done|]. cbn. split; [done|].
    clear IH Hrs Hs. revert Hk. induction Hp as [|r' p' rs ps' Hr' _ IHp]; intros Hk; [constructor|].
    apply Forall_cons in Hk as [Hk1 Hk]. constructor; [|by apply IHp].
    intros Hready. by apply (Hk1 w w1), Hr'.
  - intros w1 _ [Hinv Hp1]. eapply no_UB_bind; [by apply IH|]. intros [kept w2] _ [? ?]. cbn.
    split; [done|by constructor].
Qed.

(** A round of rules that behave, when [poll] answers for every descriptor. *)
Lemma round_behaved rs w poll :
  Forall behaves rs → StronglySorted keeps rs → inv w → (∀ ps, length (poll ps).2 = length ps) →
  no_UB (λ '(_, kept, w'), inv w' ∧ kept `sublist_of` rs) (wait_next_event descriptor rs w poll).
Proof.
  intros Hrs Hs Hw Hpoll. unfold wait_next_event. eapply no_UB_bind; [by apply setup_behaved|].
  intros [[[kept ps] b] w'] _ (-> & Hsub & Hev). destruct b; [|done]. cbn [negb]. specialize (Hpoll ps).
  destruct (poll ps) as [r filled]. cbn [snd] in Hpoll. cbv zeta.
  assert (Hgo : no_UB (λ '(_, kept', w'), inv w' ∧ kept' `sublist_of` rs)
    ('(_rules, w) ← process descriptor kept (zip_with (λ p x, p <| revents := x |>) ps filled) w;
     Ok (Success, _rules, w))).
  { eapply no_UB_bind.
    - apply process_behaved; [rewrite Forall_forall in *; intros x Hx; by eapply Hrs, elem_of_sublist|by eapply StronglySorted_sublist|done|].
      clear -Hev Hpoll. revert filled Hpoll. induction Hev as [|r p kept ps Hr _ IH]; intros [|x filled] Hl; try done.
      injection Hl as Hl. constructor; [|by apply IH]. unfold poll_ready. cbn. intros Hready. apply Hr.
      intros He. by rewrite He, Z.land_0_r in Hready.
    - intros [k2 w2] _ [? ?]. cbn. split; [done|]. by etrans. }
  unfold SystemCall. destruct (_ || _); [by destruct (_ =? _)|by destruct (_ =? EINTR)].
Qed.

End behaved.

(** ** Properties *)

Section event_properties.
Import EventLoop.

(** C33: what a round of the loop does.  With rules whose descriptors are alive,
    [wait_next_event] polls each for its direction if it is interested; if none
    is, it says [Exit] at once.  If [poll] times out or is interrupted it says
    [Timeout] or [Exit] and runs nothing; if [poll] reports something, it succeeds
    exactly when each ready rule's callback returns and either serves the
    descriptor or loses interest, and each rule that only hung up is cancelled, in
    the order of the rules; an error of [poll] other than an interruption passes
    for success. *)
Theorem event_loop_round {W : Type} (descriptor : W → nat → FileDescriptor.FDWrapper)
    (rules : list (Rule W)) (w : W) (poll : list pollfd → sysret * list Z) :
  (∀ r, r ∈ rules → ¬ defunct descriptor r w) →
  let answer := poll (map (wanted descriptor w) rules) in
  let pollfds := zip_with (λ p x, p <| revents := x |>) (map (wanted descriptor w) rules) answer.2 in
  length answer.2 = length rules →
  ((∀ r, r ∈ rules → interest r w = false) → wait_next_event descriptor rules w poll = Ok (Exit, rules, w)) ∧
  ((∃ r, r ∈ rules ∧ interest r w = true) →
   (return_value answer.1 = 0 → wait_next_event descriptor rules w poll = Ok (Timeout, rules, w)) ∧
   (return_value answer.1 = -1 → errno answer.1 = EINTR →
      wait_next_event descriptor rules w poll = Ok (Exit, rules, w)) ∧
   (return_value answer.1 = -1 → errno answer.1 ≠ EINTR → Forall (λ x, x = 0) answer.2 →
      wait_next_event descriptor rules w poll = Ok (Success, rules, w)) ∧
   (0 < return_value answer.1 < 2 ^ 31 → ∀ kept w',
      wait_next_event descriptor rules w poll = Ok (Success, kept, w') ↔
      services descriptor rules pollfds w kept w')).
Proof.
  intros Hlive answer pollfds Hlen. unfold wait_next_event. rewrite setup_live by done.
  cbn [mbind outcome_bind]. split.
  { intros Hno. replace (existsb _ _) with false; [done|]. symmetry. apply not_true_iff_false.
    intros (r & Hr & Hi)%existsb_exists. apply list_elem_of_In in Hr. by rewrite Hno in Hi. }
  intros (r & Hr & Hi). replace (existsb _ _) with true.
  2:{ symmetry. apply existsb_exists. exists r. split; [by apply list_elem_of_In|done]. }
  cbn [negb]. assert (poll (map (wanted descriptor w) rules) = (answer.1, answer.2)) as -> by apply surjective_pairing.
  fold pollfds.
  assert (Hl : length pollfds = length rules).
  { unfold pollfds. rewrite length_zip_with, length_map, Hlen. lia. }
  unfold SystemCall. split_and!.
  - intros ->. done.
  - intros -> ->. done.
  - intros -> He Hz. change (s32 (-1)) with (-1). cbn [Z.geb Z.compare orb].
    assert (Hgo : process descriptor rules pollfds w = Ok (rules, w)).
    { apply process_idle; [done|]. unfold pollfds. clear -Hz. revert Hz. generalize (map (wanted descriptor w) rules).
      generalize (answer.2). intros l. induction l as [|x l IH]; intros [|p ps] Hz; cbn; constructor.
      - by apply Forall_cons in Hz as [-> _].
      - apply IH. by apply Forall_cons in Hz as [_ ?]. }
    destruct (errno answer.1 =? 0); [cbn; by rewrite Hgo|].
    replace (_ =? EINTR) with false by (unfold EINTR in *; lia). by rewrite Hgo.
  - intros Hn kept w'. rewrite s32_id by lia. replace (_ >=? 0) with true by lia. cbn [orb].
    replace (0 =? _) with false by lia. rewrite <- process_services by done.
    destruct (process _ _ _ _) as [[k v]| | |]; cbn [mbind outcome_bind]; naive_solver.
Qed.

(** What every callback and cancellation keeps, the loop keeps: a property of
    the program's state that they all preserve holds after every round, whatever
    [poll] answers, and rules only ever leave the loop. *)
Theorem event_loop_preserves {W : Type} (descriptor : W → nat → FileDescriptor.FDWrapper) (P : W → Prop)
    (rules kept : list (Rule W)) (w w' : W) (poll : list pollfd → sysret * list Z) (res : Result) :
  (∀ r w w', r ∈ rules → P w → callback r w = Ok w' ∨ cancel r w = Ok w' → P w') →
  P w → wait_next_event descriptor rules w poll = Ok (res, kept, w') →
  P w' ∧ kept `sublist_of` rules.
Proof. apply round_preserves. Qed.

(** A world of one descriptor, a rule that reads from it, and a [poll] that finds
    it readable. *)
Definition reader : Rule FileDescriptor.FDWrapper :=
  mkRule 0 In (λ f, Ok (FileDescriptor.register_read f)) (λ _, true) (λ f, Ok f).

Definition open_fd : FileDescriptor.FDWrapper := FileDescriptor.mk 5 false false 3 0.

Definition readable (ps : list pollfd) : sysret * list Z := (mkSysret 1 0, map (λ _, POLLIN) ps).

Lemma event_loop_round_witness :
  wait_next_event (λ f _, f) [reader] open_fd readable =
    Ok (Success, [reader], FileDescriptor.register_read open_fd).
Proof.
  destruct (event_loop_round (λ f _, f) [reader] open_fd readable) as [_ Hsome].
  - intros r ->%list_elem_of_singleton. unfold defunct. cbn. naive_solver.
  - done.
  - apply Hsome; [exists reader; split; [constructor|done]|cbn; lia|].
    apply (services_cons (λ f _, f) reader [] _ [] open_fd (Some reader) (FileDescriptor.register_read open_fd) []);
      [done| |constructor].
    apply serviced_ready; [done..|]. left. discriminate.
Defined.

Lemma event_loop_preserves_witness :
  FileDescriptor.fd_num (FileDescriptor.register_read open_fd) = 5 ∧ [reader] `sublist_of` [reader].
Proof.
  apply (event_loop_preserves (λ f _, f) (λ f, FileDescriptor.fd_num f = 5) [reader] [reader] open_fd
    (FileDescriptor.register_read open_fd) readable Success).
  - intros r f f' ->%list_elem_of_singleton Hf [[= <-]|[= <-]]; exact Hf.
  - reflexivity.
  - reflexivity.
Defined.

End event_properties.
