(* ===== verification/tcp_sponge_socket.v ===== *)
(** * The socket: a TCP connection behind a pair of descriptors

    Models [libsponge/tcp_helpers/tcp_sponge_socket]: the four rules the TCP
    thread runs, its loop, [connect], [listen_and_accept] and the end of the
    thread, against the interface [DatagramAdapter] of the adapters.  What the
    kernel answers to the calls of a rule is a queue in the state (a call with no
    answer waits for ever), and what it is given is a list in the state; each
    round of the loop comes with what [poll] and the clock say and with whether
    the owner has asked the thread to abort.  Messages on the standard error
    stream are left out. *)

From S2P Require Import prelude byte_stream wrapping_integers stream_reassembler buffer parser tcp_segment tcp_receiver tcp_sender tcp_state tcp_connection ethernet adapters file_descriptor socket eventloop.

Module TCPSpongeSocket.
Import FileDescriptor.

Definition TCP_TICK_MS : Z := 10.

Section sponge.
Context {A In Out : Type} `{!DatagramAdapter A In Out}.

(** The kernel's answers to come: the datagrams the adapter's device delivers,
    each with whether the device is at its end; what [::read] (for a size), [::writev]
    and [::shutdown] give for the stream socket to the owner. *)
Record env := mkEnv {
  datagrams : list (In * bool);
  reads : list (Z → sysret * bytes);
  writes : list sysret;
  shutdowns : list sysret
}.

#[global] Instance eta_env : Eta env := λ k, mkEnv (datagrams k) (reads k) (writes k) (shutdowns k).

(** The members of [class TCPSpongeSocket], the descriptors by their shared
    state; then the kernel, what was written to the device, what was read from the
    owner and what was given to it. *)
Record t := mk {
  _tcp : option TCPConnection.t;
  _datagram_adapter : A;
  _adapter_fd : FDWrapper;
  _thread_data : FDWrapper;
  _owner_fd : FDWrapper;
  _abort : bool;
  _inbound_shutdown : bool;
  _outbound_shutdown : bool;
  _fully_acked : bool;
  kernel : env;
  device : list Out;
  from_owner : bytes;
  to_owner : bytes
}.

#[global] Instance eta_t : Eta t := λ w,
  mk (_tcp w) (_datagram_adapter w) (_adapter_fd w) (_thread_data w) (_owner_fd w) (_abort w)
     (_inbound_shutdown w) (_outbound_shutdown w) (_fully_acked w) (kernel w) (device w)
     (from_owner w) (to_owner w).

(** The descriptors of the event loop: the adapter's and the owner's. *)
Definition descriptor (w : t) (i : nat) : FDWrapper :=
  match i with O => _adapter_fd w | S _ => _thread_data w end.

(** The constructor, on a pair of connected descriptors: [so] are the answers to
    the four [getsockopt] calls, [r1] and [r2] those of [fcntl]. *)
Definition make (first second : FDWrapper) (adapter : A) (adapter_fd : FDWrapper) (k : env)
    (so : Socket.sockopt * Socket.sockopt * Socket.sockopt * Socket.sockopt) (r1 r2 : sysret) : outcome t :=
  let '(so1, so2, so3, so4) := so in
  owner ← LocalStreamSocket.of_fd first so1 so2;
  thread ← LocalStreamSocket.of_fd second so3 so4;
  _ ← FileDescriptor.set_blocking false r1 r2;
  Ok (mk None adapter adapter_fd thread owner false false false false k [] [] []).

(** [socket_pair_helper(type)], where [::socketpair] gives [r] and the descriptors
    [fd0] and [fd1] *)
Definition socket_pair_helper (r : sysret) (fd0 fd1 : Z) : outcome (FDWrapper * FDWrapper) :=
  _ ← SystemCall r 0;
  first ← FileDescriptor.make fd0;
  second ← FileDescriptor.make fd1;
  Ok (first, second).

(** The public constructor: around a fresh pair of descriptors. *)
Definition of_adapter (r : sysret) (fd0 fd1 : Z) (adapter : A) (adapter_fd : FDWrapper) (k : env)
    (so : Socket.sockopt * Socket.sockopt * Socket.sockopt * Socket.sockopt) (r1 r2 : sysret) : outcome t :=
  '(first, second) ← socket_pair_helper r fd0 fd1;
  make first second adapter adapter_fd k so r1 r2.

(** [_tcp.value()] *)
Definition value (w : t) : outcome TCPConnection.t :=
  match _tcp w with Some c => Ok c | None => Throw bad_optional_access end.

Definition has_value (w : t) : bool := match _tcp w with Some _ => true | None => false end.

(** Each datagram given to the device counts as one write. *)
Definition register_writes (n : nat) (f : FDWrapper) : FDWrapper := Nat.iter n register_write f.

(** What the adapter writes goes to the device. *)
Definition emit (out : list Out) (w : t) : t :=
  w <| device ::= λ d, d ++ out |> <| _adapter_fd ::= register_writes (length out) |>.

(** Rule 1: read from the filtered packet stream into the connection. *)
Definition rule1_callback (w : t) : outcome t :=
  match datagrams (kernel w) with
  | [] => Diverge
  | (i, at_end) :: rest =>
    '(seg, a, out) ← adapter_read (_datagram_adapter w) i;
    let w := w <| kernel ::= λ k, k <| datagrams := rest |> |> <| _datagram_adapter := a |> in
    let w := w <| _adapter_fd ::= λ f,
               register_read (if at_end : bool then f <| _eof := true |> else f) |> in
    let w := emit out w in
    w ← match seg with
        | Some seg =>
          c ← or_UB (_tcp w);
          c ← TCPConnection.segment_received c seg;
          Ok (w <| _tcp := Some c |>)
        | None => Ok w
        end;
    if eof (_thread_data w) then
      c ← value w;
      if (TCPConnection.bytes_in_flight c =? 0) && negb (_fully_acked w)
      then Ok (w <| _fully_acked := true |>) else Ok w
    else Ok w
  end.

Definition rule1_interest (w : t) : bool :=
  match _tcp w with Some c => TCPConnection.active c | None => false end.

(** [_tcp->end_input_stream(); _outbound_shutdown = true;] *)
Definition shut_outbound (w : t) : outcome t :=
  c ← or_UB (_tcp w);
  c ← TCPConnection.end_input_stream c;
  Ok (w <| _tcp := Some c |> <| _outbound_shutdown := true |>).

(** Rule 2: read from the pipe into the outbound buffer. *)
Definition rule2_callback (w : t) : outcome t :=
  c ← or_UB (_tcp w);
  match reads (kernel w) with
  | [] => Diverge
  | answer :: rest =>
    '(data, f) ← FileDescriptor.read_limited (_thread_data w) (TCPConnection.remaining_outbound_capacity c) answer;
    let w := w <| kernel ::= λ k, k <| reads := rest |> |> <| _thread_data := f |>
               <| from_owner ::= λ b, b ++ data |> in
    let length := len data in
    '(c, amount_written) ← TCPConnection.write c data;
    let w := w <| _tcp := Some c |> in
    if negb (amount_written =? length) then Throw runtime_error
    else if eof (_thread_data w) then shut_outbound w
    else Ok w
  end.

Definition rule2_interest (w : t) : bool :=
  match _tcp w with
  | Some c => TCPConnection.active c && negb (_outbound_shutdown w) &&
              (TCPConnection.remaining_outbound_capacity c >? 0)
  | None => false
  end.

Definition rule2_cancel (w : t) : outcome t := shut_outbound w.

(** [_tcp->inbound_stream().pop_output(n)] *)
Definition pop_inbound (c : TCPConnection.t) (n : Z) : TCPConnection.t :=
  c <| TCPConnection._receiver ::= λ r, r <| TCPReceiver._reassembler ::= λ s,
         s <| StreamReassembler._output ::= λ o, ByteStream.pop_output o n |> |> |>.

(** Rule 3: read from the inbound buffer into the pipe. *)
Definition rule3_callback (w : t) : outcome t :=
  c ← or_UB (_tcp w);
  let inbound := TCPConnection.inbound_stream c in
  let amount_to_write := Z.min 65536 (ByteStream.buffer_size inbound) in
  let buffer := ByteStream.peek_output inbound amount_to_write in
  match writes (kernel w) with
  | [] => Diverge
  | r :: rest =>
    '(bytes_written, f, taken) ←
      FileDescriptor.write (_thread_data w) (BufferViewList.of_string buffer) false [r];
    let c := pop_inbound c bytes_written in
    let inbound := TCPConnection.inbound_stream c in
    let w := w <| kernel ::= λ k, k <| writes := rest |> |> <| _thread_data := f |>
               <| _tcp := Some c |> <| to_owner ::= λ b, b ++ taken |> in
    if ByteStream.eof inbound || ByteStream.error inbound then
      match shutdowns (kernel w) with
      | [] => Diverge
      | r :: rest =>
        f ← Socket.shutdown (_thread_data w) Socket.SHUT_WR r;
        Ok (w <| kernel ::= λ k, k <| shutdowns := rest |> |> <| _thread_data := f |>
              <| _inbound_shutdown := true |>)
      end
    else Ok w
  end.

Definition rule3_interest (w : t) : bool :=
  match _tcp w with
  | Some c =>
    let inbound := TCPConnection.inbound_stream c in
    negb (ByteStream.buffer_empty inbound) ||
    ((ByteStream.eof inbound || ByteStream.error inbound) && negb (_inbound_shutdown w))
  | None => false
  end.

(** Rule 4: [while (not _tcp->segments_out().empty()) { ... }]; [queue] is the
    connection's. *)
Fixpoint send_loop (queue : list TCPSegment.t) (w : t) : outcome t :=
  match queue with
  | [] => Ok w
  | seg :: queue =>
    '(a, out) ← adapter_write (_datagram_adapter w) seg;
    c ← or_UB (_tcp w);
    send_loop queue (emit out (w <| _datagram_adapter := a |>
                                 <| _tcp := Some (c <| TCPConnection._segments_out := queue |>) |>))
  end.

Definition rule4_callback (w : t) : outcome t :=
  c ← or_UB (_tcp w);
  send_loop (TCPConnection.segments_out c) w.

Definition rule4_interest (w : t) : bool :=
  match _tcp w with
  | Some c => negb (len (TCPConnection.segments_out c) =? 0)
  | None => false
  end.

Definition no_cancel (w : t) : outcome t := Ok w.

(** The rules of [_initialize_TCP]. *)
Definition rules : list (EventLoop.Rule t) :=
  let rs := EventLoop.add_rule [] 0 EventLoop.In rule1_callback rule1_interest no_cancel in
  let rs := EventLoop.add_rule rs 1 EventLoop.In rule2_callback rule2_interest rule2_cancel in
  let rs := EventLoop.add_rule rs 1 EventLoop.Out rule3_callback rule3_interest no_cancel in
  EventLoop.add_rule rs 0 EventLoop.Out rule4_callback rule4_interest no_cancel.

(** [_initialize_TCP(config)]: the connection, besides the rules. *)
Definition _initialize_TCP (w : t) (config : TCPConfig.t) (random : Z) : t :=
  w <| _tcp := Some (TCPConnection.make config random) |>.

(** What a round of the loop meets: the answer of [poll], the owner's request to
    abort, and the time after the round. *)
Record iteration := mkIteration {
  poll : list EventLoop.pollfd → sysret * list Z;
  aborting : bool;
  now : Z
}.

Definition tick (w : t) (ms : Z) : outcome t :=
  c ← value w;
  c ← TCPConnection.tick c ms;
  let w := w <| _tcp := Some c |> in
  let '(a, out) := adapter_tick (_datagram_adapter w) ms in
  Ok (emit out (w <| _datagram_adapter := a |>)).

(** [_tcp_loop(condition)]: the rules left, the state, and whether the loop has
    ended; if not, it goes on after the last round given. *)
Fixpoint _tcp_loop (condition : t → bool) (rs : list (EventLoop.Rule t)) (base_time : Z)
    (its : list iteration) (w : t) : outcome (list (EventLoop.Rule t) * t * bool) :=
  if negb (condition w) then Ok (rs, w, true)
  else
    match its with
    | [] => Ok (rs, w, false)
    | it :: its =>
      '(ret, rs, w) ← EventLoop.wait_next_event descriptor rs w (poll it);
      let w := w <| _abort ::= λ b, b || aborting it |> in
      match ret with
      | EventLoop.Exit => Ok (rs, w, true)
      | _ =>
        if _abort w then Ok (rs, w, true)
        else
          c ← value w;
          if TCPConnection.active c then
            let next_time := now it in
            w ← tick w (u64 (next_time - base_time));
            _tcp_loop condition rs next_time its w
          else _tcp_loop condition rs base_time its w
      end
    end.

(** [_tcp->state() == state] *)
Definition in_state (state : TCPState.State) (w : t) : bool :=
  match _tcp w with
  | Some c => TCPState.eqb (TCPConnection.state c) (TCPState.of_state state)
  | None => false
  end.

(** [_datagram_adapter.config_mut() = c_ad] *)
Definition configure (c_ad : FdAdapterConfig.t) (w : t) : t :=
  w <| _datagram_adapter ::= λ a, adapter_set_base a (FdAdapterBase.set_config (adapter_base a) c_ad) |>.

Definition connect (w : t) (c_tcp : TCPConfig.t) (c_ad : FdAdapterConfig.t) (random base_time : Z)
    (its : list iteration) : outcome (list (EventLoop.Rule t) * t * bool) :=
  if has_value w then Throw runtime_error
  else
    let w := _initialize_TCP w c_tcp random in
    let w := configure c_ad w in
    c ← or_UB (_tcp w);
    c ← TCPConnection.connect c;
    let w := w <| _tcp := Some c |> in
    let expected_state := TCPState.of_state TCPState.SYN_SENT in
    if TCPState.neqb (TCPConnection.state c) expected_state then Throw runtime_error
    else _tcp_loop (in_state TCPState.SYN_SENT) rules base_time its w.

Definition listen_and_accept (w : t) (c_tcp : TCPConfig.t) (c_ad : FdAdapterConfig.t) (random base_time : Z)
    (its : list iteration) : outcome (list (EventLoop.Rule t) * t * bool) :=
  if has_value w then Throw runtime_error
  else
    let w := _initialize_TCP w c_tcp random in
    let w := configure c_ad w in
    let w := w <| _datagram_adapter ::= λ a,
               adapter_set_base a (FdAdapterBase.set_listening (adapter_base a) true) |> in
    _tcp_loop (λ w, in_state TCPState.LISTEN w || in_state TCPState.SYN_RCVD w ||
                    in_state TCPState.SYN_SENT w) rules base_time its w.

(** [_tcp_main()]: the thread, with the answer [r] to its last [::shutdown].
    [_tcp.reset()] destroys the connection. *)
Definition _tcp_main (rs : list (EventLoop.Rule t)) (base_time : Z) (its : list iteration) (r : sysret) (w : t)
    : outcome (t * bool) :=
  if has_value w then
    '(_, w, ended) ← _tcp_loop (λ _, true) rs base_time its w;
    if ended : bool then
      f ← Socket.shutdown (_owner_fd w) Socket.SHUT_RDWR r;
      c ← value w;
      _ ← TCPConnection.destroy c;
      Ok (w <| _owner_fd := f |> <| _tcp := None |>, true)
    else Ok (w, false)
  else Throw runtime_error.

(** [~TCPSpongeSocket()] and [wait_until_closed()] on the owner's side, before they
    join the thread; [joinable] says whether there is one. *)
Definition destroy (joinable : bool) (w : t) : t := if joinable then w <| _abort := true |> else w.

Definition wait_until_closed (w : t) (r : sysret) : outcome t :=
  f ← Socket.shutdown (_owner_fd w) Socket.SHUT_RDWR r;
  Ok (w <| _owner_fd := f |>).

End sponge.

(** What [CS144TCPSocket::connect] and [FullStackSocket::connect] pass on: a
    shorter timeout, and a source port drawn at random. *)
Definition helper_configs (source_ip : Z) (address : Address.t) (random : Z) : TCPConfig.t * FdAdapterConfig.t :=
  let tcp_config := TCPConfig.mk 100 TCPConfig.DEFAULT_CAPACITY TCPConfig.DEFAULT_CAPACITY None in
  let multiplexer_config := FdAdapterConfig.default
    <| FdAdapterConfig.source := Address.mk source_ip (u16 random) |>
    <| FdAdapterConfig.destination := address |> in
  (tcp_config, multiplexer_config).

Definition LOCAL_TAP_IP_ADDRESS : Z := Address.quad 169 254 10 9.
Definition LOCAL_TAP_NEXT_HOP_ADDRESS : Z := Address.quad 169 254 10 1.

Definition CS144TCPSocket_connect (address : Address.t) (random : Z) : TCPConfig.t * FdAdapterConfig.t :=
  helper_configs (Address.quad 169 254 144 9) address random.

Definition FullStackSocket_connect (address : Address.t) (random : Z) : TCPConfig.t * FdAdapterConfig.t :=
  helper_configs LOCAL_TAP_IP_ADDRESS address random.

(** [random_private_ethernet_address()]; [randoms] is what [random_device()()] gives
    for each of the six bytes. *)
Definition random_private_ethernet_address (randoms : list Z) : EthernetAddress :=
  match map u8 randoms with
  | b :: rest => Z.land (Z.lor b 2) 254 :: rest
  | [] => []
  end.

End TCPSpongeSocket.

(** ** What the calls of a connection do to its two streams *)

(** Bytes left the front of the buffer; bytes came in at its end. *)
Definition consumed (st st' : ByteStream.t) : Prop :=
  ∃ x, ByteStream.buffer st = x ++ ByteStream.buffer st'.
Definition produced (st st' : ByteStream.t) : Prop :=
  ∃ y, ByteStream.buffer st' = ByteStream.buffer st ++ y.

#[export] Instance consumed_preorder : PreOrder consumed.
Proof.
  split; [intros st; by exists []|]. intros s1 s2 s3 [x1 H1] [x2 H2]. exists (x1 ++ x2).
  by rewrite H1, H2, app_assoc.
Qed.

#[export] Instance produced_preorder : PreOrder produced.
Proof.
  split; [intros st; exists []; by rewrite app_nil_r|]. intros s1 s2 s3 [y1 H1] [y2 H2]. exists (y1 ++ y2).
  by rewrite H2, H1, app_assoc.
Qed.

Section sender_frame.
Import TCPSender.

Lemma read_consumed st n : consumed st (ByteStream.read st n).1.
Proof.
  unfold ByteStream.read. destruct (_ >? _); cbn; [by exists []|]. eexists. cbn. symmetry. apply take_drop.
Qed.

Lemma send_segment_stream s seg : _stream (_send_segment s seg) = _stream s.
Proof. unfold _send_segment. destruct (_syn_sent _), (_timer_running _); done. Qed.

Lemma fill_loop_consumed fuel s s' : fill_loop fuel s = Ok s' → consumed (_stream s) (_stream s').
Proof.
  revert s. induction fuel as [|fuel IH]; intros s; cbn [fill_loop]; [done|].
  destruct (negb _); [|by intros [= ->]]. set (n := Z.min _ _).
  pose proof (read_consumed (_stream s) n) as Hr. destruct (ByteStream.read _ n) as [st data]. cbn [fst] in Hr.
  set (s1 := s <| _stream := st |>).
  assert (Hgo : ∀ s2 seg, _stream s2 = st →
    (let s := _send_segment s2 seg in
     if ByteStream.buffer_empty (_stream s) then Ok s else fill_loop fuel s) = Ok s' →
    consumed (_stream s) (_stream s')).
  { intros s2 seg Hs2. cbv zeta. intros H. etrans; [exact Hr|]. rewrite <- Hs2, <- (send_segment_stream s2 seg).
    destruct (ByteStream.buffer_empty _); [by injection H as <-|by apply IH]. }
  cbv zeta. destruct (_ && _); by apply Hgo.
Qed.

Lemma fill_window_consumed s s' : fill_window s = Ok s' → consumed (_stream s) (_stream s').
Proof.
  unfold fill_window. destruct (negb (_syn_sent s)); [intros [= <-]; by rewrite send_segment_stream|].
  destruct (front_is_syn s); [by intros [= <-]|]. destruct (_ && _); [by intros [= <-]|].
  destruct (_fin_sent s); [by intros [= <-]|]. destruct (negb _); [apply fill_loop_consumed|].
  destruct (_ =? 0); [|by intros [= <-]]. destruct (ByteStream.eof _); [intros [= <-]; by rewrite send_segment_stream|].
  destruct (negb _); [|by intros [= <-]]. pose proof (read_consumed (_stream s) 1) as Hr.
  destruct (ByteStream.read _ 1) as [st data]. intros [= <-]. by rewrite send_segment_stream.
Qed.

Lemma ack_loop_stream q abs s s' : ack_loop q abs s = Ok s' → _stream s' = _stream s.
Proof.
  revert s. induction q as [|seg q IH]; intros s; cbn [ack_loop]; [by intros [= <-]|].
  destruct (unwrap _ _ _); try done. cbn [mbind outcome_bind]. destruct (_ <=? _); [|by intros [= <-]].
  intros H. by rewrite (IH _ H).
Qed.

Lemma ack_received_consumed s ackno w s' :
  ack_received s ackno w = Ok s' → consumed (_stream s) (_stream s').
Proof.
  unfold ack_received. destruct (unwrap ackno _ _) as [abs| | |]; try done. cbn [mbind outcome_bind].
  destruct (_ack_valid s abs) as [[]| | |]; try done; cbn [mbind outcome_bind negb]; [|by intros [= <-]].
  set (s1 := s <| _receiver_window_size := w |> <| _receiver_free_space := w |>).
  destruct (ack_loop _ abs s1) as [s2| | |] eqn:Hl; try done. cbn [mbind outcome_bind].
  apply ack_loop_stream in Hl. destruct (_segments_outstanding s2) as [|seg q]; cbn [mbind outcome_bind].
  - intros H%fill_window_consumed. change (_stream s) with (_stream s1). rewrite <- Hl.
    by destruct (_ =? 0).
  - destruct (unwrap _ _ _); try done. cbn [mbind outcome_bind]. intros H%fill_window_consumed.
    change (_stream s) with (_stream s1). rewrite <- Hl. by destruct (_ =? 0).
Qed.

Lemma tick_stream s ms s' : tick s ms = Ok s' → _stream s' = _stream s.
Proof. unfold tick. intros H. case_tests; inv_ok; subst; try done; cbn; case_tests; done. Qed.

End sender_frame.

Section receiver_frame.

Lemma write_produced st data : produced st (ByteStream.write st data).1.
Proof. by eexists. Qed.

Lemma store_output s n dst src data s' :
  StreamReassembler.store s n dst src data = Ok s' → StreamReassembler._output s' = StreamReassembler._output s.
Proof.
  unfold StreamReassembler.store. destruct (StreamReassembler.fill_loop _ _ _ _ _ _ _ _) as [[[b m] k]| | |]; try done.
  by intros [= <-].
Qed.

Lemma finish_produced s s' :
  StreamReassembler.finish s = Ok s' → produced (StreamReassembler._output s) (StreamReassembler._output s').
Proof.
  unfold StreamReassembler.finish, StreamReassembler.check_contiguous.
  destruct (StreamReassembler.contiguous_loop _ _ _ _) as [[[b m] tmp]| | |]; try done. cbn [mbind outcome_bind].
  intros [= <-]. destruct (_ >? 0); destruct (_ && _); cbn; try apply write_produced; by exists []; rewrite app_nil_r.
Qed.

Lemma push_substring_produced s data index eof s' :
  StreamReassembler.push_substring s data index eof = Ok s' →
  produced (StreamReassembler._output s) (StreamReassembler._output s').
Proof.
  unfold StreamReassembler.push_substring. set (s0 := if eof then _ else s).
  assert (H0 : StreamReassembler._output s0 = StreamReassembler._output s) by (unfold s0; by destruct eof).
  rewrite <- H0. clearbody s0. clear H0 s. rename s0 into s.
  assert (Hstore : ∀ (s1 s2 : StreamReassembler.t) n dst src, StreamReassembler._output s1 = StreamReassembler._output s →
    (s ← StreamReassembler.store s1 n dst src data; StreamReassembler.finish s) = Ok s' →
    produced (StreamReassembler._output s) (StreamReassembler._output s')).
  { intros s1 _ n dst src <- (s3 & Hs & Hf)%bind_Ok. apply store_output in Hs. rewrite <- Hs. by apply finish_produced. }
  destruct (_ && _); [intros [= <-]; by exists []; rewrite app_nil_r|].
  destruct (_ >=? _); [by intros [= <-]|]. destruct (_ >=? _).
  { apply (Hstore _ s). by destruct (_ <? _). }
  destruct (_ >? _); [|apply finish_produced]. apply (Hstore _ s). by destruct (_ <? _).
Qed.

Lemma segment_received_produced r seg r' :
  TCPReceiver.segment_received r seg = Ok r' →
  produced (TCPReceiver.stream_out r) (TCPReceiver.stream_out r').
Proof.
  unfold TCPReceiver.segment_received. destruct (_ && _); [by intros [= <-]|].
  destruct (_ && negb _).
  - destruct (TCPHeader.fin _); intros (s & Hs & [= <-])%bind_Ok; by apply push_substring_produced in Hs.
  - destruct (_ && TCPHeader.fin _); intros (n & _ & (s & Hs & [= <-])%bind_Ok)%bind_Ok;
      by apply push_substring_produced in Hs.
Qed.

End receiver_frame.

Abbreviation out_stream c := (TCPSender._stream (TCPConnection._sender c)).

Section connection_frame.
Import TCPConnection.
Implicit Types c : t.

(** The outbound stream is read from, the inbound one written to. *)
Definition framed c c' : Prop :=
  consumed (out_stream c) (out_stream c') ∧ produced (inbound_stream c) (inbound_stream c').

#[export] Instance framed_preorder : PreOrder framed.
Proof.
  split; [split; reflexivity|]. intros c1 c2 c3 [? ?] [? ?]. split; by etrans.
Qed.

Lemma real_send_streams c s :
  out_stream (real_send (c <| _sender := s |>)).1 = TCPSender._stream s ∧
  _receiver (real_send (c <| _sender := s |>)).1 = _receiver c.
Proof.
  destruct (real_send_spec (c <| _sender := s |>)) as ([_ Hr _ _ _ _] & Hs & _).
  split; [by rewrite Hs|by rewrite Hr].
Qed.

(** Passing on what the sender produced. *)
Lemma framed_send c s :
  consumed (out_stream c) (TCPSender._stream s) → framed c (real_send (c <| _sender := s |>)).1.
Proof.
  intros H. destruct (real_send_streams c s) as [Hs Hr]. split; [by rewrite Hs|].
  unfold inbound_stream. by rewrite Hr.
Qed.

Lemma framed_fill c c' :
  (s ← TCPSender.fill_window (_sender c); Ok (real_send (c <| _sender := s |>)).1) = Ok c' → framed c c'.
Proof. intros (s & Hs%fill_window_consumed & [= <-])%bind_Ok. by apply framed_send. Qed.

Lemma set_errors_framed c : framed c (set_errors c).
Proof. split; [by exists []|exists []; by rewrite app_nil_r]. Qed.

Lemma dequeue_framed c seg c' : dequeue c = Ok (seg, c') → framed c c'.
Proof. unfold dequeue. intros (front & _ & [= _ <-])%bind_Ok. split; [by exists []|exists []; by rewrite app_nil_r]. Qed.

(** A connection that differs in neither stream. *)
Lemma framed_same c c' :
  out_stream c' = out_stream c → _receiver c' = _receiver c → framed c c'.
Proof. intros H1 H2. unfold framed, inbound_stream. rewrite H1, H2. split; reflexivity. Qed.

Lemma segment_received_framed c seg c' : segment_received c seg = Ok c' → framed c c'.
Proof.
  unfold segment_received. set (c0 := c <| _time_since_last_segment_received_counter := 0 |>).
  destruct (TCPHeader.rst _); [intros [= <-]; exact (set_errors_framed c)|].
  intros (r & Hr%segment_received_produced & H)%bind_Ok. revert H. set (c1 := if _ && _ then _ else _).
  assert (H1 : framed c c1).
  { split; unfold c1; destruct (_ && _); cbn; try reflexivity; exact Hr. }
  clearbody c1. intros (c2 & H2 & H3)%bind_Ok. etrans; [exact H1|]. clear H1 Hr.
  assert (H12 : framed c1 c2).
  { destruct (TCPHeader.ack _); [|by injection H2 as <-].
    apply bind_Ok in H2 as (s & Hs%ack_received_consumed & [= <-]). by apply framed_send. }
  etrans; [exact H12|]. destruct (_ >? 0); [|by injection H3 as <-].
  apply bind_Ok in H3 as (s & Hs%fill_window_consumed & H3). pose proof (framed_send c2 s Hs) as Hf.
  destruct (real_send _) as [c3 isSend]. cbn [fst] in Hf. etrans; [exact Hf|].
  destruct (negb isSend); [|by injection H3 as <-]. apply bind_Ok in H3 as ([ack c4] & Hd%dequeue_framed & [= <-]).
  etrans; [|etrans; [exact Hd|]]; by apply framed_same.
Qed.

Lemma connect_framed c c' : connect c = Ok c' → framed c c'.
Proof. apply framed_fill. Qed.

Lemma end_input_framed c c' : end_input_stream c = Ok c' → framed c c'.
Proof.
  intros H%framed_fill. destruct H as [[x Hx] Hp]. split; [by exists x|exact Hp].
Qed.

(** A write adds the accepted bytes at the end before any is taken. *)
Lemma write_framed c data c' n :
  write c data = Ok (c', n) →
  n = Z.min (remaining_outbound_capacity c) (len data) ∧
  (∃ x, ByteStream.buffer (out_stream c) ++ take (Z.to_nat n) data = x ++ ByteStream.buffer (out_stream c')) ∧
  _receiver c' = _receiver c.
Proof.
  unfold write, remaining_outbound_capacity, TCPSender.stream_in, ByteStream.remaining_capacity.
  destruct (Z.eqb_spec (len data) 0) as [E|E].
  - apply len_zero_nil in E as ->. intros [= <- <-]. rewrite take_nil, app_nil_r, (@len_nil Z).
    split; [pose proof (u64_bound (ByteStream.capacity (out_stream c) - len (ByteStream.buffer (out_stream c)))); lia|].
    split; [by exists []|done].
  - unfold ByteStream.write. set (m := Z.min _ _). cbv zeta. set (c1 := upd _ _ c).
    intros (s & Hs%fill_window_consumed & H)%bind_Ok.
    destruct (real_send_streams c1 s) as [Hst Hr].
    assert (c' = (real_send (c1 <| _sender := s |>)).1 ∧ n = m) as [-> ->] by (split; congruence).
    split; [done|]. rewrite Hst, Hr. split; [|done]. exact Hs.
Qed.

Lemma tick_framed c ms c' : tick c ms = Ok c' → framed c c'.
Proof.
  unfold tick. set (c0 := upd _ _ c). intros (s & Hs%tick_stream & H)%bind_Ok. revert H. set (c1 := c0 <| _sender := s |>).
  assert (H1 : framed c c1) by (apply framed_same; [exact Hs|done]). clearbody c1. clear Hs c0 s.
  intros (c2 & H2 & H3)%bind_Ok. etrans; [exact H1|]. transitivity c2.
  - destruct (_ >? 0); [|by injection H2 as <-]. apply bind_Ok in H2 as ([seg c3] & Hd%dequeue_framed & H2).
    etrans; [exact Hd|]. destruct (_ >? _); injection H2 as <-; [exact (set_errors_framed c3)|by apply framed_same].
  - destruct (_ && _); [|by injection H3 as <-]. destruct (negb _); [injection H3 as <-; by apply framed_same|].
    destruct (_ >=? _); injection H3 as <-; by apply framed_same.
Qed.

End connection_frame.

(** ** The pipes between the owner and the connection *)

Section pipes.
Import TCPSpongeSocket.
Context {A In Out : Type} `{!DatagramAdapter A In Out}.
Local Abbreviation socket := (@TCPSpongeSocket.t A In Out).
Implicit Types w : socket.

(** The bytes in the connection's two buffers. *)
Definition outbound_bytes w : bytes :=
  match _tcp w with Some c => ByteStream.buffer (out_stream c) | None => [] end.
Definition inbound_bytes w : bytes :=
  match _tcp w with Some c => ByteStream.buffer (TCPConnection.inbound_stream c) | None => [] end.

(** Between [w] and [w'] the thread read [z] from the owner, all of which went
    through the outbound buffer in order, [x] leaving it; and [y] was reassembled
    behind what was waiting for the owner, none of which was lost. *)
Record piped w w' : Prop := {
  piped_tcp : is_Some (_tcp w');
  piped_out : ∃ x z, from_owner w' = from_owner w ++ z ∧ outbound_bytes w ++ z = x ++ outbound_bytes w';
  piped_in : ∃ y, to_owner w' ++ inbound_bytes w' = to_owner w ++ inbound_bytes w ++ y
}.

Lemma piped_refl w : is_Some (_tcp w) → piped w w.
Proof.
  intros H. constructor; [done|exists [], []; by rewrite !app_nil_r|exists []; by rewrite app_nil_r].
Qed.

Lemma piped_trans w1 w2 w3 : piped w1 w2 → piped w2 w3 → piped w1 w3.
Proof.
  intros [_ (x1 & z1 & Hf1 & Ho1) (y1 & Hi1)] [Ht (x2 & z2 & Hf2 & Ho2) (y2 & Hi2)]. constructor; [done|..].
  - exists (x1 ++ x2), (z1 ++ z2). rewrite Hf2, Hf1, !app_assoc. split; [done|].
    by rewrite Ho1, <- !app_assoc, Ho2.
  - exists (y1 ++ y2). by rewrite Hi2, app_assoc, Hi1, <- !app_assoc.
Qed.

(** A call on the connection. *)
Lemma piped_framed w c c' w' :
  _tcp w = Some c → framed c c' → _tcp w' = Some c' → from_owner w' = from_owner w → to_owner w' = to_owner w →
  piped w w'.
Proof.
  intros Hc [[x Hx] [y Hy]] Hc' Hf Ht.
  constructor; unfold outbound_bytes, inbound_bytes; rewrite ?Hc, ?Hc', ?Hf, ?Ht; [done|..].
  - exists x, []. by rewrite !app_nil_r.
  - exists y. by rewrite Hy.
Qed.

Lemma rule1_piped w w' : is_Some (_tcp w) → rule1_callback w = Ok w' → piped w w'.
Proof.
  intros [c Hc]. unfold rule1_callback. destruct (datagrams _) as [|[i e] ds]; [done|].
  intros ([[seg a] out] & _ & (w2 & Hw2 & Hw')%bind_Ok)%bind_Ok. revert Hw2. set (w1 := emit out _).
  assert (H1 : piped w w1 ∧ _tcp w1 = Some c) by (split; [by apply (piped_framed w c c)|exact Hc]).
  clearbody w1. destruct H1 as [H1 Hc1]. intros Hw2.
  assert (piped w w2).
  { apply (piped_trans _ w1); [done|].
    destruct seg as [seg|]; [|injection Hw2 as <-; by apply (piped_framed w1 c c)].
    rewrite Hc1 in Hw2. cbn [or_UB mbind outcome_bind] in Hw2.
    apply bind_Ok in Hw2 as (c' & Hs%segment_received_framed & [= <-]). by apply (piped_framed w1 c c'). }
  destruct (FileDescriptor.eof _); [|by injection Hw' as <-].
  apply bind_Ok in Hw' as (c' & Hv & Hw'). apply (piped_trans _ w2); [done|].
  unfold value in Hv. destruct (_tcp w2) as [c2|] eqn:Hc2; [|done].
  destruct (_ && _); injection Hw' as <-; by apply (piped_framed w2 c2 c2).
Qed.

Lemma shut_outbound_piped w w' : is_Some (_tcp w) → shut_outbound w = Ok w' → piped w w'.
Proof.
  intros [c Hc]. unfold shut_outbound. rewrite Hc. cbn [or_UB mbind outcome_bind].
  intros (c' & Hf%end_input_framed & [= <-])%bind_Ok. by apply (piped_framed w c c').
Qed.

Lemma rule2_piped w w' : is_Some (_tcp w) → rule2_callback w = Ok w' → piped w w'.
Proof.
  intros [c Hc]. unfold rule2_callback. rewrite Hc. cbn [or_UB mbind outcome_bind].
  destruct (reads _) as [|answer rest]; [done|].
  intros ([data f] & _ & ([c' n] & Hw%write_framed & Hw')%bind_Ok)%bind_Ok.
  destruct Hw as (Hn & [x Hx] & Hr). destruct (negb _) eqn:En; [done|]. apply negb_false_iff, Z.eqb_eq in En.
  revert Hw'. set (w2 := upd _tcp _ _). intros Hw'.
  assert (H2 : piped w w2).
  { constructor; unfold outbound_bytes, inbound_bytes; [by eexists|..]; rewrite Hc; cbn.
    - exists x, data. split; [done|]. rewrite <- Hx, En. f_equal. rewrite take_ge; [done|unfold len; lia].
    - exists []. unfold TCPConnection.inbound_stream. by rewrite Hr, app_nil_r. }
  clearbody w2. destruct (FileDescriptor.eof _); [|by injection Hw' as <-].
  apply (piped_trans _ w2); [done|]. apply shut_outbound_piped; [apply H2|done].
Qed.

Lemma rule3_piped w w' : is_Some (_tcp w) → rule3_callback w = Ok w' → piped w w'.
Proof.
  intros [c Hc]. unfold rule3_callback. rewrite Hc. cbn [or_UB mbind outcome_bind].
  destruct (writes _) as [|r rest]; [done|]. intros ([[m f] taken] & Hw%write_from_stream & Hw')%bind_Ok.
  revert Hw'. set (w2 := upd to_owner _ _).
  assert (H2 : piped w w2).
  { constructor; unfold outbound_bytes, inbound_bytes; [by eexists|..]; rewrite Hc;
      cbn -[pop_inbound TCPConnection.inbound_stream].
    - exists [], []. by rewrite !app_nil_r.
    - exists []. rewrite app_nil_r, <- app_assoc, Hw. done. }
  clearbody w2. destruct (_ || _); [|by intros [= <-]]. destruct (shutdowns _) as [|r' rest2]; [done|].
  intros (f' & _ & [= <-])%bind_Ok. apply (piped_trans _ w2); [done|].
  destruct (piped_tcp _ _ H2) as [c2 Hc2]. by apply (piped_framed w2 c2 c2).
Qed.

Lemma send_loop_piped queue w w' : is_Some (_tcp w) → send_loop queue w = Ok w' → piped w w'.
Proof.
  revert w. induction queue as [|seg queue IH]; intros w [c Hc]; cbn [send_loop]; [intros [= <-]; by apply piped_refl|].
  intros ([a out] & _ & H)%bind_Ok. rewrite Hc in H. cbn [or_UB mbind outcome_bind] in H.
  eapply piped_trans; [|eapply IH; [|exact H]; by eexists].
  apply (piped_framed w c (c <| TCPConnection._segments_out := queue |>)); [done| |done..]. by apply framed_same.
Qed.

(** Whatever a rule of the socket does. *)
Lemma rule_piped r w w' :
  r ∈ rules → is_Some (_tcp w) → EventLoop.callback r w = Ok w' ∨ EventLoop.cancel r w = Ok w' → piped w w'.
Proof.
  assert (Hno : is_Some (_tcp w) → no_cancel w = Ok w' → piped w w') by (intros ? [= <-]; by apply piped_refl).
  unfold rules, EventLoop.add_rule. cbn [app].
  intros Hr Hs [H|H]; repeat (apply elem_of_cons in Hr as [->|Hr]); try by apply elem_of_nil in Hr.
  all: cbn [EventLoop.callback EventLoop.cancel] in H; auto using rule1_piped, rule2_piped, rule3_piped, shut_outbound_piped.
  unfold rule4_callback in H. destruct Hs as [c Hc]. rewrite Hc in H. by apply send_loop_piped in H.
Qed.

Lemma tick_piped w ms w' : TCPSpongeSocket.tick w ms = Ok w' → is_Some (_tcp w) → piped w w'.
Proof.
  unfold tick, value. intros H [c Hc]. rewrite Hc in H. cbn [mbind outcome_bind] in H.
  apply bind_Ok in H as (c' & Hf%tick_framed & H). cbn in H. destruct (adapter_tick _ ms) as [a out].
  injection H as <-. by apply (piped_framed w c c').
Qed.

Lemma tcp_loop_piped condition rs base_time its w rs' w' ended :
  (∀ r, r ∈ rs → r ∈ rules) → is_Some (_tcp w) →
  _tcp_loop condition rs base_time its w = Ok (rs', w', ended) →
  piped w w' ∧ ∀ r, r ∈ rs' → r ∈ rules.
Proof.
  revert rs base_time w. induction its as [|it its IH]; intros rs bt w Hrs Hs; cbn [_tcp_loop].
  { destruct (negb _); intros [= <- <- <-]; split; try done; by apply piped_refl. }
  destruct (negb _); [intros [= <- <- <-]; split; [by apply piped_refl|done]|].
  intros ([[ret rs1] w1] & Hround & H)%bind_Ok.
  apply (round_preserves descriptor (piped w)) in Hround as [H1 Hsub].
  2:{ intros r v v' Hr Hp Hc. apply (piped_trans _ v); [done|]. apply (rule_piped r); [by apply Hrs|apply Hp|done]. }
  2:{ by apply piped_refl. }
  assert (Hrs1 : ∀ r, r ∈ rs1 → r ∈ rules) by (intros r Hr; apply Hrs; by eapply elem_of_sublist).
  revert H. set (w2 := upd _abort _ w1).
  assert (H2 : piped w w2) by (destruct H1; by constructor). clearbody w2. clear H1. intros H.
  assert (Hend : Ok (rs1, w2, true) = Ok (rs', w', ended) → piped w w' ∧ ∀ r, r ∈ rs' → r ∈ rules)
    by (by intros [= <- <- <-]).
  assert (Hgo : (if _abort w2 then Ok (rs1, w2, true) else
      c ← value w2; if TCPConnection.active c then
        w3 ← tick w2 (u64 (now it - bt)); _tcp_loop condition rs1 (now it) its w3
      else _tcp_loop condition rs1 bt its w2) = Ok (rs', w', ended) → piped w w' ∧ ∀ r, r ∈ rs' → r ∈ rules).
  { destruct (_abort w2); [done|]. intros (c & _ & Hr)%bind_Ok. pose proof (piped_tcp _ _ H2) as Hs2.
    destruct (TCPConnection.active c).
    - apply bind_Ok in Hr as (w3 & Ht & Hr). apply tick_piped in Ht; [|done].
      destruct (IH _ _ _ Hrs1 (piped_tcp _ _ Ht) Hr). split; [|done]. by eapply piped_trans, piped_trans.
    - destruct (IH _ _ _ Hrs1 Hs2 Hr). split; [|done]. by eapply piped_trans. }
  destruct ret; auto.
Qed.

End pipes.

(** ** Lemmas on the rules *)

Section rules_facts.
Import TCPSpongeSocket.
Context {A In Out : Type} `{!DatagramAdapter A In Out}.
Local Abbreviation socket := (@TCPSpongeSocket.t A In Out).
Implicit Types w : socket.

(** Writing segments to an adapter, one after the other. *)
Fixpoint adapter_writes (a : A) (segs : list TCPSegment.t) : outcome (A * list Out) :=
  match segs with
  | [] => Ok (a, [])
  | seg :: segs =>
    '(a, out) ← adapter_write a seg;
    '(a, outs) ← adapter_writes a segs;
    Ok (a, out ++ outs)
  end.

Lemma emit_emit out1 out2 w : emit out2 (emit out1 w) = emit (out1 ++ out2) w.
Proof.
  unfold emit, register_writes. destruct w. cbn. rewrite app_assoc, length_app, (Nat.add_comm (length out1)).
  by rewrite Nat.iter_add.
Qed.

Lemma send_loop_spec queue w c :
  _tcp w = Some c → TCPConnection._segments_out c = queue →
  send_loop queue w =
    '(a, out) ← adapter_writes (_datagram_adapter w) queue;
    Ok (emit out (w <| _datagram_adapter := a |>
                    <| _tcp := Some (c <| TCPConnection._segments_out := [] |>) |>)).
Proof.
  revert w c. induction queue as [|seg queue IH]; intros w c Hc Hq; cbn [send_loop adapter_writes].
  { cbn [mbind outcome_bind]. f_equal. destruct w, c; cbn in *; subst. unfold emit. cbn. by rewrite app_nil_r. }
  destruct (adapter_write (_datagram_adapter w) seg) as [[a out]| | |]; try done. cbn [mbind outcome_bind].
  rewrite Hc. cbn [or_UB mbind outcome_bind]. rewrite (IH _ (c <| TCPConnection._segments_out := queue |>)); [|done..].
  cbn [emit upd _datagram_adapter]. destruct (adapter_writes a queue) as [[a' outs]| | |]; try done.
  cbn [mbind outcome_bind]. f_equal. by rewrite <- emit_emit.
Qed.

(** What [FileDescriptor::read] returns when the kernel keeps its contract. *)
Lemma read_returns (f : FileDescriptor.FDWrapper) limit r contents :
  0 < limit → 0 ≤ return_value r ≤ Z.min FileDescriptor.BUFFER_SIZE limit →
  FileDescriptor.read f limit r contents =
    Ok (take (Z.to_nat (return_value r)) contents,
        FileDescriptor.register_read
          (if return_value r =? 0 then f <| FileDescriptor._eof := true |> else f)).
Proof.
  intros Hl Hr. unfold FileDescriptor.read. unfold FileDescriptor.BUFFER_SIZE in *.
  rewrite SystemCall_count by lia. cbn [mbind outcome_bind].
  replace (limit >? 0) with true by lia. cbn [andb].
  destruct (Z.gtb_spec (return_value r) (Z.min (1024 * 1024) limit)); [lia|].
  by replace (_ <? 0) with false by lia.
Qed.

(** A kernel that gives no more than a read asks for, and leaves it in the buffer. *)
Definition honest (answer : Z → sysret * bytes) : Prop :=
  ∀ n, 0 ≤ n → 0 ≤ return_value (answer n).1 ≤ Z.min n (len (answer n).2).

(** What comes from such a kernel fits what was asked for. *)
Lemma read_limited_returns (f : FileDescriptor.FDWrapper) limit answer :
  0 < limit → honest answer →
  let n := Z.min FileDescriptor.BUFFER_SIZE limit in
  ∃ data, len data ≤ n ∧ len data = return_value (answer n).1 ∧ data = take (length data) (answer n).2 ∧
    FileDescriptor.read_limited f limit answer =
      Ok (data, FileDescriptor.register_read
            (if bool_decide (data = []) then f <| FileDescriptor._eof := true |> else f)).
Proof.
  intros Hl Ha n.
  assert (Hn : 0 < n) by (unfold n, FileDescriptor.BUFFER_SIZE; lia). pose proof (Ha n ltac:(lia)) as Hr.
  unfold FileDescriptor.read_limited. fold n. destruct (answer n) as [r contents]. cbn [fst snd] in *.
  set (data := take (Z.to_nat (return_value r)) contents). exists data.
  assert (Hd : len data = return_value r) by (unfold data; rewrite len_take; lia).
  split; [lia|]. split; [done|].
  split; [unfold data at 1; f_equal; unfold len in Hd; lia|].
  rewrite read_returns by lia. do 3 f_equal. destruct (Z.eqb_spec (return_value r) 0) as [E|E].
  - rewrite bool_decide_eq_true_2; [done|]. apply len_zero_nil. lia.
  - rewrite bool_decide_eq_false_2; [done|]. intros E'. rewrite E', len_nil in Hd. lia.
Qed.

End rules_facts.

(** Writing what fits, and ending, as the outbound stream shows them. *)
Lemma owner_writes cfg S isn a c data :
  TCPConfig.ok cfg → TCPConnection.inv cfg S isn a c → TCPSender._next_seqno (TCPConnection._sender c) < 2 ^ 61 →
  len data ≤ Z.min FileDescriptor.BUFFER_SIZE (TCPConnection.remaining_outbound_capacity c) →
  ∃ a' c', TCPConnection.write c data = Ok (c', len data) ∧ TCPConnection.inv cfg S isn a' c' ∧
    len (ByteStreamSpec.accepted a') < 2 ^ 62 ∧
    ByteStream.bytes_written (out_stream c') = ByteStream.bytes_written (out_stream c) + len data ∧
    ByteStream.input_ended (out_stream c') = ByteStream.input_ended (out_stream c).
Proof.
  intros Hcfg Hi Hn Hd. unfold FileDescriptor.BUFFER_SIZE in Hd. pose proof (TCPConnection.inv_sender _ _ _ _ _ Hi) as Hs.
  pose proof (accepted_le_next cfg a _ Hs). pose proof (send_capacity_ok cfg Hcfg).
  pose proof (len_nonneg (ByteStreamSpec.accepted a)). pose proof (len_nonneg data).
  destruct (write_returns cfg S isn a c data Hcfg Hi) as (a' & c' & Hw & Hi' & HA' & HE'); [lia..|].
  assert (Hl : len (ByteStreamSpec.accepted a') = len (ByteStreamSpec.accepted a) + len data) by (by rewrite HA', len_app).
  pose proof (TCPSender.inv_stream _ _ _ Hs) as Hsim.
  pose proof (TCPSender.inv_stream _ _ _ (TCPConnection.inv_sender _ _ _ _ _ Hi')) as Hsim2.
  exists a', c'. split; [done|]. split; [done|]. split; [lia|]. split.
  - rewrite (ByteStreamSpec.sim_written _ _ _ Hsim), (ByteStreamSpec.sim_written _ _ _ Hsim2), !u64_id; lia.
  - by rewrite (ByteStreamSpec.sim_ended _ _ _ Hsim), (ByteStreamSpec.sim_ended _ _ _ Hsim2).
Qed.

Lemma owner_ends cfg S isn a c :
  TCPConfig.ok cfg → TCPConnection.inv cfg S isn a c → len (ByteStreamSpec.accepted a) < 2 ^ 62 →
  ∃ c', TCPConnection.end_input_stream c = Ok c' ∧
    ByteStream.bytes_written (out_stream c') = ByteStream.bytes_written (out_stream c) ∧
    ByteStream.input_ended (out_stream c') = true.
Proof.
  intros Hcfg Hi HA. destruct (end_input_returns cfg S isn a c Hcfg Hi HA) as (a' & c' & Hc & Hi' & HA' & HE').
  pose proof (TCPSender.inv_stream _ _ _ (TCPConnection.inv_sender _ _ _ _ _ Hi)) as Hsim.
  pose proof (TCPSender.inv_stream _ _ _ (TCPConnection.inv_sender _ _ _ _ _ Hi')) as Hsim2.
  exists c'. split; [done|].
  by rewrite (ByteStreamSpec.sim_written _ _ _ Hsim), (ByteStreamSpec.sim_written _ _ _ Hsim2), (ByteStreamSpec.sim_ended _ _ _ Hsim2), HA'.
Qed.

(** What [TCPConnection::connect] does on a new connection. *)
Lemma connect_fresh cfg random :
  ∃ c, TCPConnection.connect (TCPConnection.make cfg random) = Ok c ∧
    TCPConnection.state c = TCPState.of_state TCPState.SYN_SENT ∧
    TCPConnection._segments_out c =
      [TCPConnection.set_ack_and_windowsize (TCPConnection.make cfg random) (first_syn cfg random)].
Proof.
  destruct (first_fill cfg random) as (s & Hf & Hq & Hnx & Hb & Hst).
  unfold TCPConnection.connect. rewrite Hf. cbn [mbind outcome_bind]. eexists. split; [done|]. split.
  - rewrite (real_send_state _ s _ Hq Hnx Hb); [done|]. by rewrite Hst.
  - destruct (real_send_spec ((TCPConnection.make cfg random) <| TCPConnection._sender := s |>)) as ([_ _ _ _ _ Hout] & _ & _).
    rewrite Hout. change (TCPSender._segments_out _) with (TCPSender._segments_out s). rewrite Hq.
    cbn [map app TCPConnection._segments_out TCPConnection.make upd]. done.
Qed.

(** ** Properties *)

Section sponge_properties.
Import TCPSpongeSocket.
Context {A In Out : Type} `{!DatagramAdapter A In Out}.
Local Abbreviation socket := (@TCPSpongeSocket.t A In Out).

(** C34: the socket loses nothing between its owner and the connection.  Whatever
    segments arrive, whatever [poll] says, however the kernel cuts reads and
    writes, and whichever rules have been cancelled: what the thread has read from
    the owner went through the connection's outbound buffer in order, and what it
    has given to the owner, followed by what waits in the inbound buffer, only
    ever grows at its end. *)
Theorem sponge_pipes_lossless (condition : socket → bool) (rs rs' : list (EventLoop.Rule socket))
    (base_time : Z) (its : list iteration) (w w' : socket) (ended : bool) :
  (∀ r, r ∈ rs → r ∈ rules) → is_Some (_tcp w) →
  _tcp_loop condition rs base_time its w = Ok (rs', w', ended) →
  is_Some (_tcp w') ∧
  (∃ x z, from_owner w' = from_owner w ++ z ∧ outbound_bytes w ++ z = x ++ outbound_bytes w') ∧
  (∃ y, to_owner w' ++ inbound_bytes w' = to_owner w ++ inbound_bytes w ++ y).
Proof.
  intros Hrs Hs Hl. destruct (tcp_loop_piped _ _ _ _ _ _ _ _ Hrs Hs Hl) as [[? ? ?] _]. done.
Qed.

(** C35: the owner's data is never refused.  Rule 2 asks the kernel for no more than
    the outbound buffer can take.  So when the rule is interested, the connection is in
    a state that its owner and a peer that stays in the window can bring about
    ([TCPConnection.reach], less than 2^61 numbers used) and the pipe has not ended
    before, against a kernel that never gives more than it is asked for: however much
    the owner has waiting, everything that is read is accepted into the outbound stream, which grows by precisely that, and the
    exception for a short write is never thrown; and when nothing is left to read,
    and only then, the rule ends the outbound stream. *)
Theorem owner_data_is_accepted (cfg : TCPConfig.t) (S : bytes) (isn : WrappingInt32) (c : TCPConnection.t)
    (w : socket) (answer : Z → sysret * bytes) (rest : list (Z → sysret * bytes)) :
  TCPConfig.ok cfg → len S < 2 ^ 63 → seq_ok isn → TCPConnection.reach cfg S isn c →
  TCPSender._next_seqno (TCPConnection._sender c) < 2 ^ 61 →
  _tcp w = Some c → rule2_interest w = true → reads (kernel w) = answer :: rest → honest answer →
  FileDescriptor.eof (_thread_data w) = false →
  let n := Z.min FileDescriptor.BUFFER_SIZE (TCPConnection.remaining_outbound_capacity c) in
  ∃ w' c' data, rule2_callback w = Ok w' ∧ _tcp w' = Some c' ∧
    len data = return_value (answer n).1 ∧ data = take (length data) (answer n).2 ∧
    from_owner w' = from_owner w ++ data ∧
    ByteStream.bytes_written (out_stream c') = ByteStream.bytes_written (out_stream c) + len data ∧
    ByteStream.input_ended (out_stream c') = ByteStream.input_ended (out_stream c) || bool_decide (data = []) ∧
    _outbound_shutdown w' = bool_decide (data = []).
Proof.
  intros Hcfg HS Hisn Hreach Hn Hc Hint Hreads Hhon He n.
  destruct (connection_reach_inv cfg S isn Hcfg HS Hisn c Hreach) as [a Hi].
  unfold rule2_interest in Hint. rewrite Hc in Hint. apply andb_prop in Hint as [[_ Hshut]%andb_prop Hroom].
  apply negb_true_iff in Hshut. unfold rule2_callback. rewrite Hc, Hreads. cbn [or_UB mbind outcome_bind].
  destruct (read_limited_returns (_thread_data w) (TCPConnection.remaining_outbound_capacity c) answer)
    as (data & Hmost & Hlen & Hdata & Hread); [lia|done|]. rewrite Hread. cbn [mbind outcome_bind].
  destruct (owner_writes cfg S isn a c data) as (a' & c1 & Hw & Hi' & HA' & Hwr & Hen); try done.
  rewrite Hw. cbn [mbind outcome_bind].
  rewrite Z.eqb_refl. cbn [negb]. unfold FileDescriptor.eof in He.
  destruct (decide (data = [])) as [E|E].
  - rewrite (bool_decide_eq_true_2 _ E) in *. cbn. unfold shut_outbound. cbn.
    destruct (owner_ends cfg S isn a' c1) as (c2 & Hc2 & Hwr2 & Hen2); [done..|]. rewrite Hc2. cbn.
    eexists _, c2, data. split_and!; try done; rewrite ?(bool_decide_eq_true_2 _ E), ?orb_true_r; first [done|congruence].
  - rewrite (bool_decide_eq_false_2 _ E) in *. cbn. rewrite He.
    eexists _, c1, data. split_and!; try done; rewrite ?(bool_decide_eq_false_2 _ E), ?orb_false_r; done.
Qed.

(** Rule 4 hands the connection's segments to the adapter, each once and in
    order: it does exactly what writing the queue to the adapter does, and leaves
    the queue empty, so the rule has no more interest and the loop no reason to
    suspect it of waiting in vain. *)
Theorem rule4_sends_queue (w : socket) (c : TCPConnection.t) :
  _tcp w = Some c →
  rule4_callback w =
    ('(a, out) ← adapter_writes (_datagram_adapter w) (TCPConnection._segments_out c);
     Ok (emit out (w <| _datagram_adapter := a |>
                     <| _tcp := Some (c <| TCPConnection._segments_out := [] |>) |>))) ∧
  ∀ w', rule4_callback w = Ok w' → rule4_interest w' = false.
Proof.
  intros Hc.
  assert (Heq : rule4_callback w = send_loop (TCPConnection._segments_out c) w)
    by (unfold rule4_callback; by rewrite Hc).
  rewrite Heq, (send_loop_spec _ w c Hc eq_refl). split; [done|].
  destruct (adapter_writes _ _) as [[a out]| | |]; try done. by intros w' [= <-].
Qed.

(** [connect] starts with one SYN.  On a socket without a connection it never
    fails its check of the state: it enters the loop with the adapter configured
    and the connection in the state SYN_SENT, whose queue holds the SYN alone. *)
Theorem connect_starts_handshake (w : socket) (c_tcp : TCPConfig.t) (c_ad : FdAdapterConfig.t)
    (random base_time : Z) (its : list iteration) :
  _tcp w = None →
  ∃ w1 c syn, connect w c_tcp c_ad random base_time its =
      _tcp_loop (in_state TCPState.SYN_SENT) rules base_time its w1 ∧
    _tcp w1 = Some c ∧ in_state TCPState.SYN_SENT w1 = true ∧
    FdAdapterBase.config (adapter_base (_datagram_adapter w1)) = c_ad ∧
    TCPConnection._segments_out c = [syn] ∧
    TCPHeader.syn (TCPSegment.header syn) = true ∧ TCPHeader.ack (TCPSegment.header syn) = false ∧
    TCPHeader.seqno (TCPSegment.header syn) =
      wrap 0 (default (mkWrappingInt32 random) (TCPConfig.fixed_isn c_tcp)).
Proof.
  intros Hn. destruct (connect_fresh c_tcp random) as (c & Hc & Hst & Hq).
  exists (configure c_ad (_initialize_TCP w c_tcp random) <| _tcp := Some c |>), c. eexists.
  unfold connect, has_value. rewrite Hn, (bind_eq _ _ (TCPConnection.make c_tcp random)) by reflexivity.
  rewrite (bind_eq _ _ c) by exact Hc.
  assert (Heqb : TCPState.eqb (TCPConnection.state c) (TCPState.of_state TCPState.SYN_SENT) = true)
    by (by rewrite Hst).
  unfold TCPState.neqb. rewrite Heqb. split; [done|]. split; [done|]. split; [exact Heqb|].
  split; [|split; [exact Hq|done]]. cbn. by rewrite adapter_set_base_law.
Qed.

(** An aborted thread sends no reset.  The destructor of the socket makes the
    thread leave its loop; the connection is then destroyed, and if it was still
    active, that puts a RST in its queue, but no rule runs any more: nothing is
    written to the device, and the queue is gone with the connection. *)
Theorem aborted_thread_sends_no_reset (rs : list (EventLoop.Rule socket)) (base_time : Z)
    (its : list iteration) (r : sysret) (w w' : socket) :
  _tcp_main rs base_time its r w = Ok (w', true) →
  ∃ rs1 w1 c c', _tcp_loop (λ _, true) rs base_time its w = Ok (rs1, w1, true) ∧ _tcp w1 = Some c ∧
    TCPConnection.destroy c = Ok c' ∧ device w' = device w1 ∧ _tcp w' = None ∧
    (TCPConnection.active c = true → ∃ rst, TCPHeader.rst (TCPSegment.header rst) = true ∧
       TCPConnection._segments_out c' = TCPConnection._segments_out c ++ [rst]).
Proof.
  unfold _tcp_main. destruct (has_value w); [|done]. intros ([[rs1 w1] ended] & Hl & H)%bind_Ok.
  destruct ended; [|done]. apply bind_Ok in H as (f & _ & (c & Hv & (c' & Hd & [= <-])%bind_Ok)%bind_Ok).
  exists rs1, w1, c, c'. unfold value in Hv. destruct (_tcp w1); [|done]. injection Hv as ->.
  split_and!; try done. intros Ha. unfold TCPConnection.destroy in Hd. rewrite Ha in Hd.
  apply bind_Ok in Hd as (c2 & Hs & [= <-]). unfold TCPConnection.send_RST in Hs.
  apply bind_Ok in Hs as ([seg c3] & Hdq & [= <-]). unfold TCPConnection.dequeue in Hdq.
  apply bind_Ok in Hdq as (front & _ & [= _ <-]). eexists. split; [|reflexivity]. done.
Qed.

End sponge_properties.

(** ** An example *)

Section sponge_example.
Import TCPSpongeSocket.

Local Abbreviation tun_socket := (@TCPSpongeSocket.t FdAdapterBase.t bytes BufferList.t).

(** The kernel holds [data] for the reader: a read takes what it asks for of it. *)
Definition has (data : bytes) (n : Z) : sysret * bytes := (mkSysret (Z.min n (len data)) 0, data).

(** A socket over a TUN device, whose owner writes three bytes and then ends. *)
Definition fresh_socket : tun_socket :=
  mk None FdAdapterBase.default (FileDescriptor.mk 3 false false 0 0) (FileDescriptor.mk 4 false false 0 0)
     (FileDescriptor.mk 5 false false 0 0) false false false false
     (mkEnv [] [has [7; 8; 9]; has []] [] []) [] [] [].

Definition tun_config : FdAdapterConfig.t :=
  FdAdapterConfig.mk (Address.mk 1 1000) (Address.mk 2 2000) 0 0.

Definition small_config : TCPConfig.t := TCPConfig.mk 1000 8 8 None.

(** Nothing arrives from the network; everything else the loop asks for is ready. *)
Definition no_datagrams (ps : list EventLoop.pollfd) : sysret * list Z :=
  (mkSysret 1 0, map (λ p, if (EventLoop.pfd p =? 3) && (EventLoop.events p =? EventLoop.POLLIN)
                           then 0 else EventLoop.events p) ps).

Definition state_of (r : outcome (list (EventLoop.Rule tun_socket) * tun_socket * bool)) : option (tun_socket * bool) :=
  match r with Ok (_, w, ended) => Some (w, ended) | _ => None end.

Lemma state_of_Some r w ended : state_of r = Some (w, ended) → ∃ rs, r = Ok (rs, w, ended).
Proof. destruct r as [[[rs w'] e]| | |]; cbn; try done. intros [= <- <-]. by eexists. Qed.

Definition after (r : outcome (list (EventLoop.Rule tun_socket) * tun_socket * bool)) : tun_socket :=
  (default (fresh_socket, true) (state_of r)).1.

(** After [connect] has sent its SYN, and after one more round. *)
Definition connecting : tun_socket :=
  Eval vm_compute in
    after (connect fresh_socket small_config tun_config 12345 0 [mkIteration no_datagrams false 5]).

Definition round_later : tun_socket :=
  Eval vm_compute in after (_tcp_loop (λ _, true) rules 5 [mkIteration no_datagrams false 9] connecting).

Lemma sponge_pipes_lossless_witness :
  is_Some (_tcp round_later) ∧
  (∃ x z, from_owner round_later = from_owner connecting ++ z ∧
          outbound_bytes connecting ++ z = x ++ outbound_bytes round_later) ∧
  (∃ y, to_owner round_later ++ inbound_bytes round_later = to_owner connecting ++ inbound_bytes connecting ++ y).
Proof.
  destruct (state_of_Some (_tcp_loop (λ _, true) rules 5 [mkIteration no_datagrams false 9] connecting)
    round_later false) as [rs Hrs]; [vm_compute; reflexivity|].
  apply (sponge_pipes_lossless (λ _, true) rules rs 5 [mkIteration no_datagrams false 9] connecting round_later false);
    [done|by eexists|exact Hrs].
Defined.

Lemma rule4_sends_queue_witness :
  ∃ (w : tun_socket) c, _tcp w = Some c ∧ ∃ syn, TCPConnection._segments_out c = [syn] ∧
    rule4_callback w =
      ('(a, out) ← adapter_writes (_datagram_adapter w) [syn];
       Ok (emit out (w <| _datagram_adapter := a |>
                       <| _tcp := Some (c <| TCPConnection._segments_out := [] |>) |>))) ∧
    ∀ w', rule4_callback w = Ok w' → rule4_interest w' = false.
Proof.
  destruct (connect_fresh small_config 12345) as (c & _ & _ & Hq).
  exists (fresh_socket <| _tcp := Some c |>), c. split; [done|]. eexists. split; [exact Hq|].
  rewrite <- Hq. apply (rule4_sends_queue (fresh_socket <| _tcp := Some c |>) c). done.
Defined.

Lemma connect_starts_handshake_witness :
  ∃ w1 c syn, connect fresh_socket small_config tun_config 12345 0 [] =
      _tcp_loop (in_state TCPState.SYN_SENT) rules 0 [] w1 ∧
    _tcp w1 = Some c ∧ in_state TCPState.SYN_SENT w1 = true ∧
    FdAdapterBase.config (_datagram_adapter w1) = tun_config ∧
    TCPConnection._segments_out c = [syn] ∧
    TCPHeader.syn (TCPSegment.header syn) = true ∧ TCPHeader.ack (TCPSegment.header syn) = false ∧
    TCPHeader.seqno (TCPSegment.header syn) = wrap 0 (mkWrappingInt32 12345).
Proof. exact (connect_starts_handshake fresh_socket small_config tun_config 12345 0 [] eq_refl). Defined.

(** The connection of a socket before its owner has written anything. *)
Definition new_connection : TCPConnection.t := TCPConnection.make small_config 12345.

(** The owner has twelve bytes waiting, the outbound buffer room for eight. *)
Definition twelve : bytes := [1; 2; 3; 4; 5; 6; 7; 8; 9; 10; 11; 12].

Definition much_waiting : tun_socket :=
  fresh_socket <| _tcp := Some new_connection |> <| kernel := mkEnv [] [has twelve] [] [] |>.

Lemma owner_data_is_accepted_witness :
  ∃ w' c' data, rule2_callback much_waiting = Ok w' ∧ _tcp w' = Some c' ∧
    len data = 8 ∧ data = take (length data) twelve ∧ from_owner w' = [] ++ data ∧
    ByteStream.bytes_written (out_stream c') = 0 + len data ∧
    ByteStream.input_ended (out_stream c') = false || bool_decide (data = []) ∧
    _outbound_shutdown w' = bool_decide (data = []).
Proof.
  apply (owner_data_is_accepted small_config [] (mkWrappingInt32 0) new_connection much_waiting (has twelve) []);
    try done; [apply TCPConnection.reach_make|].
  intros n Hn. cbn [has fst snd return_value]. pose proof (len_nonneg twelve). lia.
Defined.

(** The destructor's request to abort reaches the thread in its next round. *)
Definition aborted : outcome (tun_socket * bool) :=
  _tcp_main rules 5 [mkIteration no_datagrams true 9] (mkSysret 0 0) connecting.

Definition aborted_socket : tun_socket :=
  Eval vm_compute in match aborted with Ok (w, _) => w | _ => fresh_socket end.

Lemma aborted_thread_sends_no_reset_witness :
  ∃ rs1 w1 c c', _tcp_loop (λ _, true) rules 5 [mkIteration no_datagrams true 9] connecting = Ok (rs1, w1, true) ∧
    _tcp w1 = Some c ∧ TCPConnection.destroy c = Ok c' ∧ device aborted_socket = device w1 ∧
    _tcp aborted_socket = None ∧
    (TCPConnection.active c = true → ∃ rst, TCPHeader.rst (TCPSegment.header rst) = true ∧
       TCPConnection._segments_out c' = TCPConnection._segments_out c ++ [rst]).
Proof.
  apply (aborted_thread_sends_no_reset rules 5 [mkIteration no_datagrams true 9] (mkSysret 0 0) connecting aborted_socket).
  vm_compute. reflexivity.
Defined.

End sponge_example.
