(* ===== verification/bidirectional_stream_copy.v ===== *)
(** * Copying between a socket and the terminal

    Models [apps/bidirectional_stream_copy.cc]: two byte streams between the
    standard input and a socket and between the socket and the standard output,
    moved by four rules of an event loop.  What the kernel answers to the calls of
    a rule is a queue in the state (a call with no answer waits for ever); what it
    is given is a list in the state. *)

From S2P Require Import prelude byte_stream buffer adapters file_descriptor socket eventloop.

Module StreamCopy.
Import FileDescriptor.

Definition max_copy_length : Z := 65536.
Definition buffer_size : Z := 1048576.

(** The kernel's answers to come. *)
Record env := mkEnv {
  input_reads : list (sysret * bytes);
  socket_reads : list (sysret * bytes);
  socket_writes : list sysret;
  output_writes : list sysret;
  socket_shutdowns : list sysret;
  output_closes : list sysret
}.

#[global] Instance eta_env : Eta env := λ k,
  mkEnv (input_reads k) (socket_reads k) (socket_writes k) (output_writes k) (socket_shutdowns k)
    (output_closes k).

(** The local variables, the descriptors by their shared state; then the kernel,
    and what went through each descriptor. *)
Record t := mk {
  _outbound : ByteStream.t;
  _inbound : ByteStream.t;
  _outbound_shutdown : bool;
  _inbound_shutdown : bool;
  _input : FDWrapper;
  _output : FDWrapper;
  socket : FDWrapper;
  kernel : env;
  from_input : bytes;
  to_socket : bytes;
  from_socket : bytes;
  to_output : bytes
}.

#[global] Instance eta_t : Eta t := λ w,
  mk (_outbound w) (_inbound w) (_outbound_shutdown w) (_inbound_shutdown w) (_input w) (_output w) (socket w)
    (kernel w) (from_input w) (to_socket w) (from_socket w) (to_output w).

Definition start (input output sock : FDWrapper) (k : env) : t :=
  mk (ByteStream.make buffer_size) (ByteStream.make buffer_size) false false input output sock k [] [] [] [].

(** [_input], [socket] and [_output] *)
Definition descriptor (w : t) (i : nat) : FDWrapper :=
  match i with O => _input w | 1%nat => socket w | _ => _output w end.

(** Rule 1: read from stdin into the outbound byte stream. *)
Definition rule1_callback (w : t) : outcome t :=
  match input_reads (kernel w) with
  | [] => Diverge
  | (r, contents) :: rest =>
    '(data, f) ← FileDescriptor.read (_input w) (ByteStream.remaining_capacity (_outbound w)) r contents;
    let w := w <| kernel ::= λ k, k <| input_reads := rest |> |> <| _input := f |>
               <| from_input ::= λ b, b ++ data |> in
    let w := w <| _outbound ::= λ st, (ByteStream.write st data).1 |> in
    if eof (_input w) then Ok (w <| _outbound ::= ByteStream.end_input |>) else Ok w
  end.

Definition rule1_interest (w : t) : bool :=
  negb (ByteStream.error (_outbound w)) && (ByteStream.remaining_capacity (_outbound w) >? 0) &&
  negb (ByteStream.error (_inbound w)).

Definition end_outbound (w : t) : outcome t := Ok (w <| _outbound ::= ByteStream.end_input |>).

(** Rule 2: read from the outbound byte stream into the socket. *)
Definition rule2_callback (w : t) : outcome t :=
  let bytes_to_write := Z.min max_copy_length (ByteStream.buffer_size (_outbound w)) in
  match socket_writes (kernel w) with
  | [] => Diverge
  | r :: rest =>
    '(bytes_written, f, taken) ←
      FileDescriptor.write (socket w)
        (BufferViewList.of_string (ByteStream.peek_output (_outbound w) bytes_to_write)) false [r];
    let w := w <| kernel ::= λ k, k <| socket_writes := rest |> |> <| socket := f |>
               <| to_socket ::= λ b, b ++ taken |>
               <| _outbound ::= λ st, ByteStream.pop_output st bytes_written |> in
    if ByteStream.eof (_outbound w) then
      match socket_shutdowns (kernel w) with
      | [] => Diverge
      | r :: rest =>
        f ← Socket.shutdown (socket w) Socket.SHUT_WR r;
        Ok (w <| kernel ::= λ k, k <| socket_shutdowns := rest |> |> <| socket := f |>
              <| _outbound_shutdown := true |>)
      end
    else Ok w
  end.

Definition rule2_interest (w : t) : bool :=
  negb (ByteStream.buffer_empty (_outbound w)) || (ByteStream.eof (_outbound w) && negb (_outbound_shutdown w)).

(** Rule 3: read from the socket into the inbound byte stream. *)
Definition rule3_callback (w : t) : outcome t :=
  match socket_reads (kernel w) with
  | [] => Diverge
  | (r, contents) :: rest =>
    '(data, f) ← FileDescriptor.read (socket w) (ByteStream.remaining_capacity (_inbound w)) r contents;
    let w := w <| kernel ::= λ k, k <| socket_reads := rest |> |> <| socket := f |>
               <| from_socket ::= λ b, b ++ data |> in
    let w := w <| _inbound ::= λ st, (ByteStream.write st data).1 |> in
    if eof (socket w) then Ok (w <| _inbound ::= ByteStream.end_input |>) else Ok w
  end.

Definition rule3_interest (w : t) : bool :=
  negb (ByteStream.error (_inbound w)) && (ByteStream.remaining_capacity (_inbound w) >? 0) &&
  negb (ByteStream.error (_outbound w)).

Definition end_inbound (w : t) : outcome t := Ok (w <| _inbound ::= ByteStream.end_input |>).

(** Rule 4: read from the inbound byte stream into stdout. *)
Definition rule4_callback (w : t) : outcome t :=
  let bytes_to_write := Z.min max_copy_length (ByteStream.buffer_size (_inbound w)) in
  match output_writes (kernel w) with
  | [] => Diverge
  | r :: rest =>
    '(bytes_written, f, taken) ←
      FileDescriptor.write (_output w)
        (BufferViewList.of_string (ByteStream.peek_output (_inbound w) bytes_to_write)) false [r];
    let w := w <| kernel ::= λ k, k <| output_writes := rest |> |> <| _output := f |>
               <| to_output ::= λ b, b ++ taken |>
               <| _inbound ::= λ st, ByteStream.pop_output st bytes_written |> in
    if ByteStream.eof (_inbound w) then
      match output_closes (kernel w) with
      | [] => Diverge
      | r :: rest =>
        f ← FileDescriptor.close (_output w) r;
        Ok (w <| kernel ::= λ k, k <| output_closes := rest |> |> <| _output := f |>
              <| _inbound_shutdown := true |>)
      end
    else Ok w
  end.

Definition rule4_interest (w : t) : bool :=
  negb (ByteStream.buffer_empty (_inbound w)) || (ByteStream.eof (_inbound w) && negb (_inbound_shutdown w)).

Definition rules : list (EventLoop.Rule t) :=
  let rs := EventLoop.add_rule [] 0 EventLoop.In rule1_callback rule1_interest end_outbound in
  let rs := EventLoop.add_rule rs 1 EventLoop.Out rule2_callback rule2_interest end_outbound in
  let rs := EventLoop.add_rule rs 1 EventLoop.In rule3_callback rule3_interest end_inbound in
  EventLoop.add_rule rs 2 EventLoop.Out rule4_callback rule4_interest end_inbound.

(** [while (true) { ... }], a round per answer of [poll]; whether it has
    returned. *)
Fixpoint copy_loop (rs : list (EventLoop.Rule t)) (polls : list (list EventLoop.pollfd → sysret * list Z)) (w : t)
    : outcome (list (EventLoop.Rule t) * t * bool) :=
  match polls with
  | [] => Ok (rs, w, false)
  | poll :: polls =>
    '(ret, rs, w) ← EventLoop.wait_next_event descriptor rs w poll;
    match ret with EventLoop.Exit => Ok (rs, w, true) | _ => copy_loop rs polls w end
  end.

Definition STDIN_FILENO : Z := 0.
Definition STDOUT_FILENO : Z := 1.

(** [bidirectional_stream_copy(socket)]; [modes] are the answers to the two calls of
    [fcntl] on the socket, the input and the output. *)
Definition bidirectional_stream_copy (sock : FDWrapper) (modes : (sysret * sysret) * (sysret * sysret) * (sysret * sysret))
    (k : env) (polls : list (list EventLoop.pollfd → sysret * list Z)) : outcome (list (EventLoop.Rule t) * t * bool) :=
  let '(s, i, o) := modes in
  input ← make STDIN_FILENO;
  output ← make STDOUT_FILENO;
  let w := start input output sock k in
  _ ← set_blocking false s.1 s.2;
  _ ← set_blocking false i.1 i.2;
  _ ← set_blocking false o.1 o.2;
  copy_loop rules polls w.

(** Everything read is written or still in its stream, in order. *)
Definition copied (w : t) : Prop :=
  from_input w = to_socket w ++ ByteStream.buffer (_outbound w) ∧
  from_socket w = to_output w ++ ByteStream.buffer (_inbound w).

End StreamCopy.

(** ** Lemmas *)

Section copying.
Import StreamCopy.

Lemma rule1_copied w w' : copied w → rule1_callback w = Ok w' → copied w'.
Proof.
  intros [Ho Hi]. unfold rule1_callback. destruct (input_reads _) as [|[r contents] rest]; [done|].
  intros ([data f] & Hr%read_into_stream & Hw)%bind_Ok. revert Hw. set (w1 := upd _outbound _ _).
  assert (H1 : copied w1) by (split; [cbn -[ByteStream.write]; by rewrite Hr, Ho, <- app_assoc|exact Hi]).
  clearbody w1. destruct (FileDescriptor.eof _); intros [= <-]; exact H1.
Qed.

Lemma rule2_copied w w' : copied w → rule2_callback w = Ok w' → copied w'.
Proof.
  intros [Ho Hi]. unfold rule2_callback. destruct (socket_writes _) as [|r rest]; [done|].
  intros ([[n f] taken] & Hr%write_from_stream & Hw)%bind_Ok. revert Hw. set (w1 := upd _outbound _ _).
  assert (H1 : copied w1) by (split; [cbn; by rewrite <- app_assoc, Ho, Hr|exact Hi]). clearbody w1.
  destruct (ByteStream.eof _); [|by intros [= <-]]. destruct (socket_shutdowns _); [done|].
  intros (f' & _ & [= <-])%bind_Ok. exact H1.
Qed.

Lemma rule3_copied w w' : copied w → rule3_callback w = Ok w' → copied w'.
Proof.
  intros [Ho Hi]. unfold rule3_callback. destruct (socket_reads _) as [|[r contents] rest]; [done|].
  intros ([data f] & Hr%read_into_stream & Hw)%bind_Ok. revert Hw. set (w1 := upd _inbound _ _).
  assert (H1 : copied w1) by (split; [exact Ho|cbn -[ByteStream.write]; by rewrite Hr, Hi, <- app_assoc]).
  clearbody w1. destruct (FileDescriptor.eof _); intros [= <-]; exact H1.
Qed.

Lemma rule4_copied w w' : copied w → rule4_callback w = Ok w' → copied w'.
Proof.
  intros [Ho Hi]. unfold rule4_callback. destruct (output_writes _) as [|r rest]; [done|].
  intros ([[n f] taken] & Hr%write_from_stream & Hw)%bind_Ok. revert Hw. set (w1 := upd _inbound _ _).
  assert (H1 : copied w1) by (split; [exact Ho|cbn; by rewrite <- app_assoc, Hi, Hr]). clearbody w1.
  destruct (ByteStream.eof _); [|by intros [= <-]]. destruct (output_closes _); [done|].
  intros (f' & _ & [= <-])%bind_Ok. exact H1.
Qed.

Lemma rule_copied r w w' :
  r ∈ rules → copied w → EventLoop.callback r w = Ok w' ∨ EventLoop.cancel r w = Ok w' → copied w'.
Proof.
  assert (Hend : copied w → end_outbound w = Ok w' ∨ end_inbound w = Ok w' → copied w').
  { by intros ? [[= <-]|[= <-]]. }
  unfold rules, EventLoop.add_rule. cbn [app].
  intros Hr Hs [H|H]; repeat (apply elem_of_cons in Hr as [->|Hr]); try by apply elem_of_nil in Hr.
  all: cbn [EventLoop.callback EventLoop.cancel] in H; eauto using rule1_copied, rule2_copied, rule3_copied, rule4_copied.
Qed.

Lemma copy_loop_copied rs polls w rs' w' ended :
  (∀ r, r ∈ rs → r ∈ rules) → copied w → copy_loop rs polls w = Ok (rs', w', ended) → copied w'.
Proof.
  revert rs w. induction polls as [|poll polls IH]; intros rs w Hrs Hw; cbn [copy_loop]; [by intros [= <- <- <-]|].
  intros ([[ret rs1] w1] & Hround & H)%bind_Ok.
  apply (round_preserves descriptor copied) in Hround as [H1 Hsub]; [|intros; eapply rule_copied; eauto|done].
  assert (Hrs1 : ∀ r, r ∈ rs1 → r ∈ rules) by (intros r Hr; apply Hrs; by eapply elem_of_sublist).
  destruct ret; [by eapply IH|by eapply IH|by injection H as <- <- <-].
Qed.

End copying.

(** ** Properties *)

Section copy_properties.
Import StreamCopy.

(** C36: the copier loses nothing.  However the kernel cuts reads and writes and in
    whatever order descriptors become ready, what it has written to the socket,
    followed by what it holds, is what it has read from the input, and likewise
    from the socket to the output; so when the two writing rules have no more
    interest, everything read has been written. *)
Theorem copy_is_lossless (sock : FileDescriptor.FDWrapper) modes (k : env)
    (polls : list (list EventLoop.pollfd → sysret * list Z)) (rs : list (EventLoop.Rule t)) (w : t) (ended : bool) :
  bidirectional_stream_copy sock modes k polls = Ok (rs, w, ended) →
  from_input w = to_socket w ++ ByteStream.buffer (_outbound w) ∧
  from_socket w = to_output w ++ ByteStream.buffer (_inbound w) ∧
  (rule2_interest w = false → to_socket w = from_input w) ∧
  (rule4_interest w = false → to_output w = from_socket w).
Proof.
  destruct modes as [[s i] o]. unfold bidirectional_stream_copy, FileDescriptor.make. cbn [mbind outcome_bind Z.ltb Z.compare STDIN_FILENO STDOUT_FILENO].
  intros (_ & _ & (_ & _ & (_ & _ & H)%bind_Ok)%bind_Ok)%bind_Ok. apply copy_loop_copied in H as [Ho Hi]; [|done|done].
  assert (Hempty : ∀ st b, negb (ByteStream.buffer_empty st) || b = false → ByteStream.buffer st = []).
  { intros st b [He%negb_false_iff _]%orb_false_iff. apply len_zero_nil. by apply Z.eqb_eq. }
  split_and!; try done.
  - intros E%Hempty. by rewrite Ho, E, app_nil_r.
  - intros E%Hempty. by rewrite Hi, E, app_nil_r.
Qed.

(** Two bytes typed, one of which the socket takes at once. *)
Definition copy_env : env :=
  mkEnv [(mkSysret 2 0, [104; 105]); (mkSysret 0 0, [])] [] [mkSysret 1 0; mkSysret 1 0; mkSysret 0 0] [] [mkSysret 0 0] [].

Definition quiet_socket (ps : list EventLoop.pollfd) : sysret * list Z :=
  (mkSysret 1 0, map (λ p, if (EventLoop.pfd p =? 5) && (EventLoop.events p =? EventLoop.POLLIN)
                           then 0 else EventLoop.events p) ps).

Definition set_up : (sysret * sysret) * (sysret * sysret) * (sysret * sysret) :=
  let r := (mkSysret 2 0, mkSysret 0 0) in (r, r, r).

Abbreviation copy_run :=
  (bidirectional_stream_copy (FileDescriptor.mk 5 false false 0 0) set_up copy_env [quiet_socket; quiet_socket]).

Definition copy_later : t :=
  Eval vm_compute in
    match copy_run with
    | Ok (_, w, _) => w
    | _ => start (FileDescriptor.mk 0 false false 0 0) (FileDescriptor.mk 1 false false 0 0)
             (FileDescriptor.mk 5 false false 0 0) copy_env
    end.

Lemma copy_is_lossless_witness :
  from_input copy_later = to_socket copy_later ++ ByteStream.buffer (_outbound copy_later) ∧
  from_socket copy_later = to_output copy_later ++ ByteStream.buffer (_inbound copy_later) ∧
  (rule2_interest copy_later = false → to_socket copy_later = from_input copy_later) ∧
  (rule4_interest copy_later = false → to_output copy_later = from_socket copy_later).
Proof.
  assert (H : match copy_run with
              | Ok (_, w, e) => Some (w, e) | _ => None end = Some (copy_later, false))
    by (vm_compute; reflexivity).
  destruct copy_run as [[[rs w] e]| | |] eqn:E; try discriminate H.
  injection H as -> ->. apply (copy_is_lossless (FileDescriptor.mk 5 false false 0 0) set_up copy_env [quiet_socket; quiet_socket] rs copy_later false E).
Defined.

End copy_properties.
