(* ===== verification/network_simulator.v ===== *)
(** * The network simulator

    Models [apps/network_simulator.cc]: hosts with an interface each, a router
    with seven, wires between them, and the scenario that sends datagrams across
    and checks that each arrives where it should and nothing else does.  The
    random generator is the sequence of the numbers it will give.  An
    [unordered_map] is a finite map, visited in some order.  What is printed is
    left out. *)

From stdpp Require Import strings.
From S2P Require Import prelude text buffer parser internet_checksum ipv4 ethernet network_interface router adapters.

(** [mt19937]: the numbers to come and how many of them are spent. *)
Record random_generator := mkGenerator {
  numbers : nat → Z;
  spent : nat
}.

(** [rd()] *)
Definition rd (g : random_generator) : Z * random_generator :=
  (numbers g (spent g), mkGenerator (numbers g) (S (spent g))).

(** [for (auto &byte : addr) byte = rd();] over [n] elements *)
Fixpoint random_bytes (n : nat) (g : random_generator) : EthernetAddress * random_generator :=
  match n with
  | O => ([], g)
  | S n =>
    let '(byte, g) := rd g in
    let '(rest, g) := random_bytes n g in
    (u8 byte :: rest, g)
  end.

Definition random_host_ethernet_address (g : random_generator) : EthernetAddress * random_generator :=
  let '(addr, g) := random_bytes 6 g in
  let addr := alter (λ b, Z.lor b 2) 0%nat addr in
  let addr := alter (λ b, Z.land b 254) 0%nat addr in
  (addr, g).

Definition random_router_ethernet_address (g : random_generator) : EthernetAddress * random_generator :=
  let '(addr, g) := random_bytes 6 g in
  (<[2%nat := 0]> (<[1%nat := 0]> (<[0%nat := 2]> addr)), g).

(** [clear(queue1, queue2)]: popping an empty queue is undefined. *)
Fixpoint clear {A} (queue1 queue2 : list A) : outcome (list A) :=
  match queue1, queue2 with
  | [], _ => Ok queue2
  | _ :: queue1, _ :: queue2 => clear queue1 queue2
  | _ :: _, [] => UB
  end.

Module Host.

(** The members of [class Host]. *)
Record t := mk {
  _name : string;
  _my_address : Z;
  _interface : AsyncNetworkInterface.t;
  _next_hop : Z;
  _expecting_to_receive : list InternetDatagram
}.

#[global] Instance eta_t : Eta t := λ h,
  mk (_name h) (_my_address h) (_interface h) (_next_hop h) (_expecting_to_receive h).

(** [x.serialize().concatenate() == expected.serialize().concatenate()] *)
Definition same_datagram (x expected : InternetDatagram) : outcome bool :=
  x ← IPv4Datagram.serialize x;
  expected ← IPv4Datagram.serialize expected;
  Ok (bool_decide (BufferList.concatenate x = BufferList.concatenate expected)).

(** The loop of [expecting] over the list. *)
Fixpoint expecting_loop (l : list InternetDatagram) (expected : InternetDatagram) : outcome bool :=
  match l with
  | [] => Ok false
  | x :: l =>
    same ← same_datagram x expected;
    if same : bool then Ok true else expecting_loop l expected
  end.

Definition expecting (h : t) (expected : InternetDatagram) : outcome bool :=
  expecting_loop (_expecting_to_receive h) expected.

(** The loop of [remove_expectation]: the list after it. *)
Fixpoint remove_loop (l : list InternetDatagram) (expected : InternetDatagram) : outcome (list InternetDatagram) :=
  match l with
  | [] => Ok []
  | x :: l =>
    same ← same_datagram x expected;
    if same : bool then Ok l else l ← remove_loop l expected; Ok (x :: l)
  end.

Definition remove_expectation (h : t) (expected : InternetDatagram) : outcome t :=
  l ← remove_loop (_expecting_to_receive h) expected;
  Ok (h <| _expecting_to_receive := l |>).

(** [Host(name, my_address, next_hop)] *)
Definition make (name : string) (my_address next_hop : Z) (g : random_generator) : t * random_generator :=
  let '(addr, g) := random_host_ethernet_address g in
  (mk name my_address (AsyncNetworkInterface.make (NetworkInterface.make addr my_address)) next_hop [], g).

Definition send_to (h : t) (destination ttl : Z) (g : random_generator)
    : outcome (InternetDatagram * t * random_generator) :=
  let dgram := IPv4Datagram.default in
  let dgram := dgram <| IPv4Datagram.header ::= λ hd, hd <| IPv4Header.src := _my_address h |> |> in
  let dgram := dgram <| IPv4Datagram.header ::= λ hd, hd <| IPv4Header.dst := destination |> |> in
  let '(n, g) := rd g in
  let dgram := dgram <| IPv4Datagram.payload :=
                 BufferList.of_string (literal "random payload: {" ++ to_string n ++ literal "}") |> in
  let dgram := dgram <| IPv4Datagram.header ::= λ hd,
                 hd <| IPv4Header.len_ := u16 (u64 (IPv4Header.hlen hd * 4 + BufferList.size (IPv4Datagram.payload dgram))) |> |> in
  let dgram := dgram <| IPv4Datagram.header ::= λ hd, hd <| IPv4Header.ttl := ttl |> |> in
  i ← AsyncNetworkInterface.send_datagram (_interface h) dgram (_next_hop h);
  Ok (dgram, h <| _interface := i |>, g).

Definition address (h : t) : Z := _my_address h.
Definition interface (h : t) : AsyncNetworkInterface.t := _interface h.
Definition expect (h : t) (expected : InternetDatagram) : t :=
  h <| _expecting_to_receive ::= λ l, l ++ [expected] |>.
Definition name (h : t) : string := _name h.

(** [while (not _interface.datagrams_out().empty()) { ... }]; [queue] is the
    interface's. *)
Fixpoint check_loop (queue : list InternetDatagram) (h : t) : outcome t :=
  match queue with
  | [] => Ok h
  | dgram_received :: queue =>
    expected ← expecting h dgram_received;
    if negb expected then Throw runtime_error
    else
      h ← remove_expectation h dgram_received;
      check_loop queue (h <| _interface ::= λ i, i <| AsyncNetworkInterface._datagrams_out := queue |> |>)
  end.

Definition check (h : t) : outcome t :=
  h ← check_loop (AsyncNetworkInterface.datagrams_out (_interface h)) h;
  match _expecting_to_receive h with
  | [] => Ok h
  | _ :: _ => Throw runtime_error
  end.

End Host.

Module Network.

(** The members of [class Network]. *)
Record t := mk {
  _router : Router.t;
  default_id : Z;
  eth0_id : Z;
  eth1_id : Z;
  eth2_id : Z;
  uun3_id : Z;
  hs4_id : Z;
  mit5_id : Z;
  _hosts : gmap string Host.t
}.

#[global] Instance eta_t : Eta t := λ n,
  mk (_router n) (default_id n) (eth0_id n) (eth1_id n) (eth2_id n) (uun3_id n) (hs4_id n) (mit5_id n) (_hosts n).

(** [deliver(src_name, src, dst_name, dst)]: the interface [dst] after it *)
Fixpoint deliver (to_send : list EthernetFrame.t) (dst : AsyncNetworkInterface.t)
    : outcome AsyncNetworkInterface.t :=
  match to_send with
  | [] => Ok dst
  | frame :: to_send =>
    let frame := frame <| EthernetFrame.payload ::= λ p, BufferList.of_string (BufferList.concatenate p) |> in
    dst ← AsyncNetworkInterface.recv_frame dst frame;
    deliver to_send dst
  end.

(** [x.frames_out()] *)
Definition frames_out (x : AsyncNetworkInterface.t) : list EthernetFrame.t :=
  NetworkInterface.frames_out (AsyncNetworkInterface.base x).

(** [clear(frames, x.frames_out())] *)
Definition clear_frames (frames : list EthernetFrame.t) (x : AsyncNetworkInterface.t)
    : outcome AsyncNetworkInterface.t :=
  queue ← clear frames (frames_out x);
  Ok (x <| AsyncNetworkInterface.base ::= λ n, n <| NetworkInterface._frames_out := queue |> |>).

(** [exchange_frames] between two interfaces and among three *)
Definition exchange_frames (x y : AsyncNetworkInterface.t)
    : outcome (AsyncNetworkInterface.t * AsyncNetworkInterface.t) :=
  let x_frames := frames_out x in
  let y_frames := frames_out y in
  y ← deliver x_frames y;
  x ← deliver y_frames x;
  x ← clear_frames x_frames x;
  y ← clear_frames y_frames y;
  Ok (x, y).

Definition exchange_frames3 (x y z : AsyncNetworkInterface.t)
    : outcome (AsyncNetworkInterface.t * AsyncNetworkInterface.t * AsyncNetworkInterface.t) :=
  let x_frames := frames_out x in
  let y_frames := frames_out y in
  let z_frames := frames_out z in
  y ← deliver x_frames y;
  z ← deliver x_frames z;
  x ← deliver y_frames x;
  z ← deliver y_frames z;
  x ← deliver z_frames x;
  y ← deliver z_frames y;
  x ← clear_frames x_frames x;
  y ← clear_frames y_frames y;
  z ← clear_frames z_frames z;
  Ok (x, y, z).

(** [_router.add_interface({random_router_ethernet_address(), {ip}})] *)
Definition add_router_interface (r : Router.t) (ip : Z) (g : random_generator) : Router.t * Z * random_generator :=
  let '(addr, g) := random_router_ethernet_address g in
  let '(r, id) := Router.add_interface r (AsyncNetworkInterface.make (NetworkInterface.make addr ip)) in
  (r, id, g).

(** [_hosts.insert({name, {name, {my_address}, {next_hop}}})]: an element that is
    there already stays. *)
Definition insert_host (hosts : gmap string Host.t) (name : string) (my_address next_hop : Z)
    (g : random_generator) : gmap string Host.t * random_generator :=
  let '(h, g) := Host.make name my_address next_hop g in
  (match hosts !! name with Some _ => hosts | None => <[name := h]> hosts end, g).

Definition host (n : t) (name : string) : outcome Host.t :=
  match _hosts n !! name with
  | None => Throw runtime_error
  | Some h => if bool_decide (Host.name h ≠ name) then Throw runtime_error else Ok h
  end.

(** Assignments through the references [host(name)] and [_router.interface(id)]. *)
Definition set_host (n : t) (name : string) (h : Host.t) : t := n <| _hosts ::= <[name := h]> |>.

Definition set_interface (n : t) (id : Z) (i : AsyncNetworkInterface.t) : t :=
  n <| _router ::= λ r, r <| Router._interfaces ::= <[Z.to_nat id := i]> |> |>.

(** [Network()] *)
Definition make (g : random_generator) : outcome (t * random_generator) :=
  let r := Router.empty in
  let '(r, default_id, g) := add_router_interface r (Address.quad 171 67 76 46) g in
  let '(r, eth0_id, g) := add_router_interface r (Address.quad 10 0 0 1) g in
  let '(r, eth1_id, g) := add_router_interface r (Address.quad 172 16 0 1) g in
  let '(r, eth2_id, g) := add_router_interface r (Address.quad 192 168 0 1) g in
  let '(r, uun3_id, g) := add_router_interface r (Address.quad 198 178 229 1) g in
  let '(r, hs4_id, g) := add_router_interface r (Address.quad 143 195 0 2) g in
  let '(r, mit5_id, g) := add_router_interface r (Address.quad 128 30 76 255) g in
  let hosts := ∅ in
  let '(hosts, g) := insert_host hosts "applesauce" (Address.quad 10 0 0 2) (Address.quad 10 0 0 1) g in
  let '(hosts, g) := insert_host hosts "default_router" (Address.quad 171 67 76 1) 0 g in
  let '(hosts, g) := insert_host hosts "cherrypie" (Address.quad 192 168 0 2) (Address.quad 192 168 0 1) g in
  let '(hosts, g) := insert_host hosts "hs_router" (Address.quad 143 195 0 1) 0 g in
  let '(hosts, g) := insert_host hosts "dm42" (Address.quad 198 178 229 42) (Address.quad 198 178 229 1) g in
  let '(hosts, g) := insert_host hosts "dm43" (Address.quad 198 178 229 43) (Address.quad 198 178 229 1) g in
  let n := mk r default_id eth0_id eth1_id eth2_id uun3_id hs4_id mit5_id hosts in
  default_router ← host n "default_router";
  r ← Router.add_route r (Address.quad 0 0 0 0) 0 (Some (Host.address default_router)) default_id;
  r ← Router.add_route r (Address.quad 10 0 0 0) 8 None eth0_id;
  r ← Router.add_route r (Address.quad 172 16 0 0) 16 None eth1_id;
  r ← Router.add_route r (Address.quad 192 168 0 0) 24 None eth2_id;
  r ← Router.add_route r (Address.quad 198 178 229 0) 24 None uun3_id;
  hs_router ← host n "hs_router";
  r ← Router.add_route r (Address.quad 143 195 0 0) 17 (Some (Host.address hs_router)) hs4_id;
  r ← Router.add_route r (Address.quad 143 195 128 0) 18 (Some (Host.address hs_router)) hs4_id;
  r ← Router.add_route r (Address.quad 143 195 192 0) 19 (Some (Host.address hs_router)) hs4_id;
  r ← Router.add_route r (Address.quad 128 30 76 255) 16 (Some (Address.quad 128 30 0 1)) mit5_id;
  Ok (n <| _router := r |>, g).

(** [exchange_frames(..., _router.interface(id), name, host(name).interface())] *)
Definition wire (n : t) (id : Z) (name : string) : outcome t :=
  x ← Router.interface (_router n) id;
  h ← host n name;
  '(x, y) ← exchange_frames x (Host.interface h);
  Ok (set_host (set_interface n id x) name (h <| Host._interface := y |>)).

(** The wire that the router shares with two hosts. *)
Definition wire3 (n : t) (id : Z) (name1 name2 : string) : outcome t :=
  x ← Router.interface (_router n) id;
  h1 ← host n name1;
  h2 ← host n name2;
  '(x, y, z) ← exchange_frames3 x (Host.interface h1) (Host.interface h2);
  let n := set_host (set_interface n id x) name1 (h1 <| Host._interface := y |>) in
  Ok (set_host n name2 (h2 <| Host._interface := z |>)).

Definition simulate_physical_connections (n : t) : outcome t :=
  n ← wire n (default_id n) "default_router";
  n ← wire n (eth0_id n) "applesauce";
  n ← wire n (eth2_id n) "cherrypie";
  n ← wire n (hs4_id n) "hs_router";
  wire3 n (uun3_id n) "dm42" "dm43".

(** [for (unsigned int i = 0; i < rounds; i++) { ... }] *)
Fixpoint simulate_loop (rounds : nat) (n : t) : outcome t :=
  match rounds with
  | O => Ok n
  | S rounds =>
    r ← Router.route (_router n);
    n ← simulate_physical_connections (n <| _router := r |>);
    simulate_loop rounds n
  end.

(** [for (auto &host : _hosts) host.second.check();] *)
Fixpoint check_hosts (names : list string) (n : t) : outcome t :=
  match names with
  | [] => Ok n
  | name :: names =>
    match _hosts n !! name with
    | Some h => h ← Host.check h; check_hosts names (set_host n name h)
    | None => check_hosts names n
    end
  end.

Definition simulate (n : t) : outcome t :=
  n ← simulate_loop 256 n;
  check_hosts (map_to_list (_hosts n)).*1 n.

(** [network.host(from).send_to(destination, ttl)] *)
Definition send (n : t) (from : string) (destination ttl : Z) (g : random_generator)
    : outcome (InternetDatagram * t * random_generator) :=
  h ← host n from;
  '(dgram, h, g) ← Host.send_to h destination ttl g;
  Ok (dgram, set_host n from h, g).

(** [dgram_sent.header().ttl--; network.host(to).expect(dgram_sent);] *)
Definition expect_at (n : t) (to : string) (dgram_sent : InternetDatagram) : outcome t :=
  let dgram_sent := dgram_sent <| IPv4Datagram.header ::= λ h, h <| IPv4Header.ttl ::= λ x, u8 (x - 1) |> |> in
  h ← host n to;
  Ok (set_host n to (Host.expect h dgram_sent)).

(** One test: [from] sends, [to] expects, the network runs. *)
Definition test (n : t) (from : string) (destination : Z) (to : string) (g : random_generator)
    : outcome (t * random_generator) :=
  '(dgram_sent, n, g) ← send n from destination 64 g;
  n ← expect_at n to dgram_sent;
  n ← simulate n;
  Ok (n, g).

(** One test of a datagram that must not arrive. *)
Definition test_dropped (n : t) (from : string) (destination ttl : Z) (g : random_generator)
    : outcome (t * random_generator) :=
  '(_, n, g) ← send n from destination ttl g;
  n ← simulate n;
  Ok (n, g).

Definition network_simulator (g : random_generator) : outcome t :=
  '(n, g) ← make g;
  cherrypie ← host n "cherrypie";
  '(n, g) ← test n "applesauce" (Host.address cherrypie) "cherrypie" g;
  applesauce ← host n "applesauce";
  '(n, g) ← test n "cherrypie" (Host.address applesauce) "applesauce" g;
  '(n, g) ← test n "applesauce" (Address.quad 1 2 3 4) "default_router" g;
  '(n, g) ← test n "applesauce" (Address.quad 143 195 131 17) "hs_router" g;
  '(n, g) ← test n "cherrypie" (Address.quad 143 195 193 52) "hs_router" g;
  '(n, g) ← test n "cherrypie" (Address.quad 143 195 223 255) "hs_router" g;
  '(n, g) ← test n "cherrypie" (Address.quad 143 195 224 0) "default_router" g;
  dm43 ← host n "dm43";
  '(n, g) ← test n "dm42" (Host.address dm43) "dm43" g;
  '(n, g) ← test_dropped n "applesauce" (Address.quad 1 2 3 4) 1 g;
  '(n, _) ← test_dropped n "applesauce" (Address.quad 1 2 3 4) 0 g;
  Ok n.

(** [main]: the exit status *)
Definition main (g : random_generator) : outcome Z :=
  catching (_ ← network_simulator g; Ok tt).

End Network.

(** ** The addresses that are drawn *)

(** The first byte of a private address is even, and a byte. *)
Lemma private_byte b : 0 ≤ b < 2 ^ 8 → 0 ≤ Z.land (Z.lor b 2) 254 < 2 ^ 8 ∧ Z.land (Z.lor b 2) 254 ≠ 255.
Proof.
  intros Hb. assert (Hall : Forall (λ b, 0 ≤ Z.land (Z.lor b 2) 254 < 2 ^ 8 ∧ Z.land (Z.lor b 2) 254 ≠ 255) (seqZ 0 256)).
  { apply (bool_decide_unpack _). vm_compute. exact I. }
  rewrite Forall_forall in Hall. apply Hall, elem_of_seqZ. lia.
Qed.

Lemma random_router_ok g : addr_ok (random_router_ethernet_address g).1.
Proof. split; [done|]. cbn. repeat apply Forall_cons_2; try apply u8_bound; done. Qed.

Lemma random_host_ok g : addr_ok (random_host_ethernet_address g).1.
Proof.
  split; [done|]. cbn. repeat apply Forall_cons_2; try apply u8_bound; try done. apply private_byte, u8_bound.
Qed.

Lemma random_host_unicast g : (random_host_ethernet_address g).1 ≠ ETHERNET_BROADCAST.
Proof. cbn. intros [= H]. apply (private_byte (u8 (numbers g (spent g)))) in H; [done|apply u8_bound]. Qed.

(** ** A wire *)

Section wire.
Import Network.
Implicit Types (i : AsyncNetworkInterface.t) (c : gmap Z NetworkInterface.EthernetAddressEntry) (d : InternetDatagram).

(** An interface on a wire: its IP address and its Ethernet address. *)
Local Abbreviation party := (Z * EthernetAddress)%type.

Definition iface (p : party) (frames : list EthernetFrame.t) c (waiting : gmap Z NetworkInterface.WaitingList)
    (received : list InternetDatagram) : AsyncNetworkInterface.t :=
  AsyncNetworkInterface.mk (NetworkInterface.mk p.2 p.1 frames c waiting) received.

(** An interface with nothing to do. *)
Definition resting (p : party) c : AsyncNetworkInterface.t := iface p [] c ∅ [].

(** The parties on the wire. *)
Context (parties : list party).

(** What an interface has learned is right. *)
Definition truthful c : Prop := ∀ ip e, c !! ip = Some e → (ip, NetworkInterface.MAC_address e) ∈ parties.

Definition at_rest (p : party) i : Prop := ∃ c, truthful c ∧ i = resting p c.

(** The frame as the wire carries it: its payload in one piece. *)
Definition flat (f : EthernetFrame.t) : EthernetFrame.t :=
  f <| EthernetFrame.payload ::= λ p, BufferList.of_string (BufferList.concatenate p) |>.

(** [s] has frames to send and the others do not; they hear [s]. *)
Definition speaks (s : AsyncNetworkInterface.t) : list AsyncNetworkInterface.t → list AsyncNetworkInterface.t → Prop :=
  Forall2 (λ l l', frames_out l = [] ∧ deliver (frames_out s) l = Ok l').

Definition hush i : AsyncNetworkInterface.t :=
  i <| AsyncNetworkInterface.base ::= λ n, n <| NetworkInterface._frames_out := [] |> |>.

Lemma clear_all {A} (q : list A) : clear q q = Ok [].
Proof. by induction q. Qed.

Lemma clear_frames_all i : clear_frames (frames_out i) i = Ok (hush i).
Proof. unfold clear_frames. by rewrite clear_all. Qed.

Lemma clear_frames_nil i : clear_frames [] i = Ok i.
Proof. destruct i as [[] ?]. done. Qed.

Lemma exchange_speaks x y x' y' :
  speaks x [y] [y'] ∧ x' = hush x ∨ speaks y [x] [x'] ∧ y' = hush y →
  exchange_frames x y = Ok (x', y').
Proof.
  unfold speaks, exchange_frames. rewrite !Forall2_cons.
  intros [[[[Hf Hd] _] ->]|[[[Hf Hd] _] ->]]; rewrite Hf, Hd; cbn [deliver mbind outcome_bind];
    rewrite ?Hd, clear_frames_all, clear_frames_nil; done.
Qed.

Lemma exchange3_speaks x y z x' y' z' :
  speaks x [y; z] [y'; z'] ∧ x' = hush x ∨ speaks y [x; z] [x'; z'] ∧ y' = hush y ∨
    speaks z [x; y] [x'; y'] ∧ z' = hush z →
  exchange_frames3 x y z = Ok (x', y', z').
Proof.
  unfold speaks, exchange_frames3. rewrite !Forall2_cons.
  intros [[[[Hf Hd] [[Hg He] _]] ->]|[[[[Hf Hd] [[Hg He] _]] ->]|[[[Hf Hd] [[Hg He] _]] ->]]];
    rewrite Hf, Hg; cbn [deliver mbind outcome_bind]; rewrite ?Hd; cbn [mbind outcome_bind];
    rewrite ?He; cbn [mbind outcome_bind]; by rewrite clear_frames_all, !clear_frames_nil.
Qed.

(** ** What each frame does to an interface that hears it *)

Definition request_frame (p : party) (ip : Z) : EthernetFrame.t :=
  arp_frame (NetworkInterface.make p.2 p.1) ETHERNET_BROADCAST (request (NetworkInterface.make p.2 p.1) ip).

Definition reply_frame (p q : party) : EthernetFrame.t :=
  arp_frame (NetworkInterface.make p.2 p.1) q.2 (reply (NetworkInterface.make p.2 p.1) q.1 q.2).

Definition data_frame (p q : party) (out : BufferList.t) : EthernetFrame.t :=
  ip_frame (NetworkInterface.make p.2 p.1) q.2 out.

Definition party_ok (p : party) : Prop := 0 ≤ p.1 < 2 ^ 32 ∧ addr_ok p.2.

Lemma party_interface_ok p : party_ok p → NetworkInterface.ok (NetworkInterface.make p.2 p.1).
Proof. intros [? ?]. by split. Qed.

Lemma deliver_one f i i' : AsyncNetworkInterface.recv_frame i (flat f) = Ok i' → deliver [f] i = Ok i'.
Proof. intros H. cbn [deliver]. fold (flat f). by rewrite H. Qed.

Lemma hear_other f p frames c w r :
  EthernetHeader.dst (EthernetFrame.header f) ≠ p.2 →
  EthernetHeader.dst (EthernetFrame.header f) ≠ ETHERNET_BROADCAST →
  deliver [f] (iface p frames c w r) = Ok (iface p frames c w r).
Proof.
  intros H1 H2. apply deliver_one. unfold AsyncNetworkInterface.recv_frame, NetworkInterface.recv_frame.
  replace (NetworkInterface.valid_frame _ _) with false; [done|]. symmetry. unfold NetworkInterface.valid_frame.
  apply orb_false_iff. split; apply bool_decide_eq_false; done.
Qed.

(** An ARP message from [q], heard by [p] that has at most [ds] waiting for it. *)
Lemma hear_arp m mac p q frames c w r ds :
  party_ok p → ARPMessage.ok m → ARPMessage.sender_ip_address m = q.1 → ARPMessage.sender_ethernet_address m = q.2 →
  mac = p.2 ∨ mac = ETHERNET_BROADCAST →
  ds = default [] (NetworkInterface.waiting_datagram <$> w !! q.1) → Forall IPv4Datagram.ok ds →
  ∃ outs, Forall2 (λ d out, IPv4Datagram.serialize d = Ok out) ds outs ∧
    deliver [arp_frame (NetworkInterface.make q.2 q.1) mac m] (iface p frames c w r) =
      Ok (iface p (frames ++ map (data_frame p q) outs ++
            (if (ARPMessage.opcode m =? 1) && (ARPMessage.target_ip_address m =? p.1) then [reply_frame p q] else []))
          (<[q.1 := NetworkInterface.mkEntry 0 q.2]> c) (delete q.1 w) r).
Proof.
  intros Hp Hm Hip Hmac Hdst Hds Hok. set (n := NetworkInterface.mk p.2 p.1 frames c w).
  pose proof (length_arp m Hm) as Hlen.
  assert (Hwf : Buffer.wf (Buffer.of_string (arp_wire m))) by (apply wf_of_string; unfold len; lia).
  destruct (recv_arp_spec n (flat (arp_frame (NetworkInterface.make q.2 q.1) mac m))
    (Buffer.of_string (arp_wire m)) m ds) as (n' & outs & Hr & Hc & Hq & Houts & Hf & He & Hi); try done.
  - by destruct Hp.
  - unfold NetworkInterface.valid_frame. cbn. destruct Hdst as [-> | ->].
    + by rewrite bool_decide_eq_true_2.
    + by rewrite orb_comm, bool_decide_eq_true_2.
  - cbn. by rewrite app_nil_r.
  - by apply is_bytes_arp.
  - by apply arp_parse_wire.
  - by rewrite Hip.
  - exists outs. split; [done|]. apply deliver_one. unfold AsyncNetworkInterface.recv_frame, iface.
    cbn [AsyncNetworkInterface.base]. fold n. rewrite Hr. cbn [mbind outcome_bind]. f_equal.
    rewrite Hip, Hmac in *. destruct n'. cbn in He, Hi, Hf, Hc, Hq. subst. done.
Qed.

Lemma hear_request p q ip c :
  party_ok p → party_ok q → 0 ≤ ip < 2 ^ 32 →
  deliver [request_frame q ip] (resting p c) =
    Ok (iface p (if ip =? p.1 then [reply_frame p q] else []) (<[q.1 := NetworkInterface.mkEntry 0 q.2]> c) ∅ []).
Proof.
  intros Hp Hq Hip.
  destruct (hear_arp (request (NetworkInterface.make q.2 q.1) ip) ETHERNET_BROADCAST p q [] c ∅ [] [])
    as (outs & Houts & Hd); try done.
  - by apply request_ok; [apply party_interface_ok|].
  - by right.
  - apply Forall2_nil_inv_l in Houts as ->. unfold request_frame, resting. rewrite Hd. cbn. by rewrite delete_empty.
Qed.

Lemma hear_reply p q c d :
  party_ok p → party_ok q → IPv4Datagram.ok d →
  ∃ out, IPv4Datagram.serialize d = Ok out ∧
    deliver [reply_frame q p] (iface p [] c {[ q.1 := NetworkInterface.mkWaitingList 0 [d] ]} []) =
      Ok (iface p [data_frame p q out] (<[q.1 := NetworkInterface.mkEntry 0 q.2]> c) ∅ []).
Proof.
  intros Hp Hq Hd.
  destruct (hear_arp (reply (NetworkInterface.make q.2 q.1) p.1 p.2) p.2 p q [] c
    {[ q.1 := NetworkInterface.mkWaitingList 0 [d] ]} [] [d]) as (outs & Houts & Hdel); try done.
  - apply reply_ok; [by apply party_interface_ok|by apply Hp..].
  - by left.
  - by rewrite lookup_singleton_eq.
  - by apply Forall_singleton.
  - apply Forall2_cons_inv_l in Houts as (out & outs' & Hout & Houts & ->). apply Forall2_nil_inv_l in Houts as ->.
    exists out. split; [done|]. unfold reply_frame. rewrite Hdel. cbn. by rewrite delete_singleton_eq.
Qed.

Lemma hear_data p q c d out :
  IPv4Datagram.ok d → IPv4Datagram.serialize d = Ok out →
  ∃ d', arrived d d' ∧ deliver [data_frame q p out] (resting p c) = Ok (iface p [] c ∅ [d']).
Proof.
  intros Hd Hout.
  destruct (recv_ip_spec (NetworkInterface.mk p.2 p.1 [] c ∅) (flat (data_frame q p out)) d out)
    as (d' & Hr & Ha); try done.
  { unfold NetworkInterface.valid_frame. cbn. by rewrite bool_decide_eq_true_2. }
  exists d'. split; [done|]. apply deliver_one. unfold AsyncNetworkInterface.recv_frame, resting, iface.
  cbn [AsyncNetworkInterface.base]. by rewrite Hr.
Qed.

(** ** From one party to another *)

Context (a b : party) (others : list party) (d : InternetDatagram).
Context (Hparties : Forall party_ok parties) (Ha : a ∈ parties) (Hb : b ∈ parties)
  (Hothers : others ⊆ parties) (Hips : NoDup parties.*1)
  (Hmacs : Forall (λ o, o.1 ≠ b.1 ∧ a.2 ≠ o.2 ∧ b.2 ≠ o.2 ∧ a.2 ≠ ETHERNET_BROADCAST ∧ b.2 ≠ ETHERNET_BROADCAST) others)
  (Hd : IPv4Datagram.ok d).

(** The datagram [d] is on its way from [a] to [b], [m] rounds from its arrival. *)
Definition moving (m : nat) (x y : AsyncNetworkInterface.t) (zs : list AsyncNetworkInterface.t) : Prop :=
  Forall2 at_rest others zs ∧ ∃ ca cb, truthful ca ∧ truthful cb ∧
  match m with
  | O => x = resting a ca ∧ ∃ d', arrived d d' ∧ y = iface b [] cb ∅ [d']
  | 1%nat => y = resting b cb ∧
      ∃ out, IPv4Datagram.serialize d = Ok out ∧ x = iface a [data_frame a b out] ca ∅ []
  | 2%nat => x = iface a [] ca {[ b.1 := NetworkInterface.mkWaitingList 0 [d] ]} [] ∧
      y = iface b [reply_frame b a] cb ∅ []
  | 3%nat => x = iface a [request_frame a b.1] ca {[ b.1 := NetworkInterface.mkWaitingList 0 [d] ]} [] ∧
      y = resting b cb
  | _ => False
  end.

Lemma member_ok p : p ∈ parties → party_ok p.
Proof. intros Hp. by apply (proj1 (Forall_forall _ _) Hparties). Qed.

Lemma truthful_learn c p : p ∈ parties → truthful c → truthful (<[p.1 := NetworkInterface.mkEntry 0 p.2]> c).
Proof.
  intros Hp Hc ip e. destruct (decide (ip = p.1)) as [->|Hne].
  - rewrite lookup_insert_eq. intros [= <-]. by destruct p.
  - rewrite lookup_insert_ne by done. apply Hc.
Qed.

Lemma truthful_known c e p : p ∈ parties → truthful c → c !! p.1 = Some e → NetworkInterface.MAC_address e = p.2.
Proof.
  intros Hp Hc He. apply Hc in He. destruct p as [ip mac]. cbn in *.
  apply list_elem_of_lookup in Hp as [i Hi], He as [j Hj].
  assert (i = j) as ->.
  { eapply (NoDup_lookup _ i j ip Hips); rewrite list_lookup_fmap; [by rewrite Hi|by rewrite Hj]. }
  congruence.
Qed.

(** The others hear a frame and stay at rest. *)
Lemma others_hear f zs :
  f = request_frame a b.1 ∨ EthernetHeader.dst (EthernetFrame.header f) = a.2 ∨
    EthernetHeader.dst (EthernetFrame.header f) = b.2 →
  Forall2 at_rest others zs →
  ∃ zs', Forall2 at_rest others zs' ∧ Forall2 (λ z z', frames_out z = [] ∧ deliver [f] z = Ok z') zs zs'.
Proof.
  intros Hf Hz. revert Hothers Hmacs. induction Hz as [|o z os zs (c & Hc & ->) _ IH]; intros Hsub Hm.
  { by exists []. }
  apply Forall_cons in Hm as [(Hob & Hao & Hbo & Hab & Hbb) Hm].
  destruct IH as (zs' & Hr & Hs); [set_solver|done|].
  assert (Ho : o ∈ parties) by (apply Hsub; left).
  destruct Hf as [-> |Hf].
  - exists (resting o (<[a.1 := NetworkInterface.mkEntry 0 a.2]> c) :: zs').
    split; constructor; try done; [|split; [done|]].
    + eexists. split; [|reflexivity]. by apply truthful_learn.
    + rewrite (hear_request o a b.1 c (member_ok o Ho) (member_ok a Ha) (proj1 (member_ok b Hb))). by replace (b.1 =? o.1) with false by lia.
  - exists (resting o c :: zs'). split; constructor; try done; [by exists c|]. split; [done|].
    apply hear_other; destruct Hf as [-> | ->]; done.
Qed.

(** Each exchange brings it one round closer. *)
Lemma moving_step m x y zs :
  moving (S m) x y zs →
  ∃ x' y' zs', moving m x' y' zs' ∧
    (speaks x (y :: zs) (y' :: zs') ∧ x' = hush x ∨ speaks y (x :: zs) (x' :: zs') ∧ y' = hush y).
Proof.
  pose proof (member_ok a Ha) as Haok. pose proof (member_ok b Hb) as Hbok.
  intros (Hz & ca & cb & Hca & Hcb & Hm). destruct m as [|[|[|m]]]; [..|done].
  - destruct Hm as (-> & out & Hout & ->). destruct (hear_data b a cb d out Hd Hout) as (d' & Harr & Hdel).
    destruct (others_hear (data_frame a b out) zs) as (zs' & Hz' & Hs); [by right; right|done|].
    exists (resting a ca), (iface b [] cb ∅ [d']), zs'. split; [|left; split; [by constructor|done]].
    split; [done|]. exists ca, cb. split_and!; try done. by exists d'.
  - destruct Hm as (-> & ->). destruct (hear_reply a b ca d) as (out & Hout & Hdel); [done..|].
    destruct (others_hear (reply_frame b a) zs) as (zs' & Hz' & Hs); [by right; left|done|].
    eexists _, (resting b cb), zs'. split; [split; [done|]|right; split; [by constructor|done]].
    eexists _, cb. split; [|split; [done|split; [done|exists out; split; [done|reflexivity]]]]. by apply truthful_learn.
  - destruct Hm as (-> & ->). pose proof (hear_request b a b.1 cb Hbok ltac:(done) (proj1 Hbok)) as Hdel.
    rewrite Z.eqb_refl in Hdel.
    destruct (others_hear (request_frame a b.1) zs) as (zs' & Hz' & Hs); [by left|done|].
    eexists (iface a [] ca _ []), _, zs'. split; [split; [done|]|left; split; [by constructor|done]].
    eexists ca, _. split; [done|]. split; [|split; [done|reflexivity]]. by apply truthful_learn.
Qed.

(** [send_datagram] puts it on its way. *)
Lemma send_moving ca y zs :
  truthful ca → at_rest b y → Forall2 at_rest others zs →
  ∃ x' m, AsyncNetworkInterface.send_datagram (resting a ca) d b.1 = Ok x' ∧ (m < 3)%nat ∧ moving (S m) x' y zs.
Proof.
  pose proof (member_ok a Ha) as Haok. pose proof (member_ok b Hb) as Hbok.
  intros Hca (cb & Hcb & ->) Hz. unfold AsyncNetworkInterface.send_datagram, NetworkInterface.send_datagram.
  unfold NetworkInterface.get_EthernetAdress. cbn [AsyncNetworkInterface.base resting iface NetworkInterface._cache].
  destruct (ca !! b.1) as [e|] eqn:He.
  - cbn [fmap option_fmap option_map]. rewrite (truthful_known ca e b) by done.
    destruct (send_helper_spec (NetworkInterface.mk a.2 a.1 [] ca ∅) b.2 d Hd) as (out & Hout & ->).
    eexists _, 0%nat. split; [done|]. split; [lia|]. split; [done|]. exists ca, cb.
    split_and!; try done. by exists out.
  - cbn [fmap option_fmap option_map]. unfold NetworkInterface.queue_helper, NetworkInterface.get_WaitingList.
    cbn [NetworkInterface._queue_map]. rewrite lookup_empty. cbn [upd eta].
    rewrite send_ARP_request_spec; [|by destruct Haok|by apply Hbok].
    eexists _, 2%nat. split; [done|]. split; [lia|]. split; [done|]. by exists ca, cb.
Qed.

End wire.

(** ** Checking what arrived *)

Section checking.
Import Host.
Implicit Types (d x : InternetDatagram) (h : t).

(** The bytes a datagram is on the wire. *)
Definition wire_bytes d (w : bytes) : Prop :=
  ∃ out, IPv4Datagram.serialize d = Ok out ∧ BufferList.concatenate out = w.

Lemma same_datagram_spec x d wx w :
  wire_bytes x wx → wire_bytes d w → same_datagram x d = Ok (bool_decide (wx = w)).
Proof. intros (ox & Hx & <-) (o & Ho & <-). unfold same_datagram. by rewrite Hx, Ho. Qed.

Lemma expecting_spec l ws d w :
  Forall2 wire_bytes l ws → wire_bytes d w → expecting_loop l d = Ok (bool_decide (w ∈ ws)).
Proof.
  intros Hl Hd. induction Hl as [|x wx l ws Hx _ IH]; cbn [expecting_loop]; [done|].
  rewrite (same_datagram_spec x d wx w Hx Hd). cbn [mbind outcome_bind].
  destruct (decide (wx = w)) as [->|Hne].
  - rewrite !bool_decide_eq_true_2; [done|apply list_elem_of_here|done].
  - rewrite (bool_decide_eq_false_2 (wx = w)), IH by done. f_equal. apply bool_decide_ext.
    rewrite elem_of_cons. naive_solver.
Qed.

(** Removing what is expected takes out its first copy. *)
Lemma remove_spec l ws d w :
  Forall2 wire_bytes l ws → wire_bytes d w → w ∈ ws →
  ∃ l' ws', remove_loop l d = Ok l' ∧ Forall2 wire_bytes l' ws' ∧ ws ≡ₚ w :: ws'.
Proof.
  intros Hl Hd. induction Hl as [|x wx l ws Hx Hl IH]; cbn [remove_loop]; [by inversion 1|].
  rewrite (same_datagram_spec x d wx w Hx Hd). cbn [mbind outcome_bind]. intros Hin.
  destruct (decide (wx = w)) as [->|Hne]; [rewrite bool_decide_eq_true_2 by done; by exists l, ws|].
  rewrite bool_decide_eq_false_2 by done. apply elem_of_cons in Hin as [->|Hin]; [done|]. destruct (IH Hin) as (l' & ws' & -> & Hl' & Hp).
  exists (x :: l'), (wx :: ws'). split; [done|]. split; [by constructor|]. rewrite Hp. apply Permutation_swap.
Qed.

Lemma check_loop_spec queue vs h ws :
  Forall2 wire_bytes queue vs → Forall2 wire_bytes (_expecting_to_receive h) ws →
  queue = AsyncNetworkInterface.datagrams_out (_interface h) →
  (∃ ws' l', ws ≡ₚ vs ++ ws' ∧ Forall2 wire_bytes l' ws' ∧
     check_loop queue h = Ok (h <| _expecting_to_receive := l' |>
       <| _interface ::= λ i, i <| AsyncNetworkInterface._datagrams_out := [] |> |>)) ∨
  (∀ ws', ¬ ws ≡ₚ vs ++ ws') ∧ check_loop queue h = Throw runtime_error.
Proof.
  intros Hq. revert h ws. induction Hq as [|d v queue vs Hd Hq IH]; intros h ws He Hh; cbn [check_loop].
  { left. exists ws, (_expecting_to_receive h). split; [done|]. split; [done|]. f_equal.
    destruct h as [? ? [? ?] ? ?]. cbn in *. by subst. }
  unfold expecting. rewrite (expecting_spec _ ws d v He Hd). cbn [mbind outcome_bind].
  case_bool_decide as Hin; cbn [negb].
  - destruct (remove_spec _ ws d v He Hd Hin) as (l' & ws1 & Hr & Hl' & Hp).
    unfold remove_expectation. rewrite Hr. cbn [mbind outcome_bind]. set (h1 := _ <| _interface ::= _ |>).
    destruct (IH h1 ws1 Hl' eq_refl) as [(ws' & l2 & Hp' & Hl2 & ->)|(Hn & ->)].
    + left. exists ws', l2. split; [by rewrite Hp, Hp'|]. split; [done|]. done.
    + right. split; [|done]. intros ws' Hp'. apply (Hn ws'). apply (Permutation_cons_inv (a := v)). by rewrite <- Hp.
  - right. split; [|done]. intros ws' Hp. apply Hin. rewrite Hp. left.
Qed.

Lemma check_spec h vs ws :
  Forall2 wire_bytes (AsyncNetworkInterface.datagrams_out (_interface h)) vs →
  Forall2 wire_bytes (_expecting_to_receive h) ws →
  (vs ≡ₚ ws → check h = Ok (h <| _expecting_to_receive := [] |>
     <| _interface ::= λ i, i <| AsyncNetworkInterface._datagrams_out := [] |> |>)) ∧
  (¬ vs ≡ₚ ws → check h = Throw runtime_error).
Proof.
  intros Hv Hw. unfold check.
  destruct (check_loop_spec _ vs h ws Hv Hw eq_refl) as [(ws' & l' & Hp & Hl' & ->)|(Hn & ->)];
    cbn [mbind outcome_bind].
  - cbn [_expecting_to_receive upd eta]. split; intros H.
    + assert (ws' = []) as ->.
      { apply Permutation_nil_r, (Permutation_app_inv_l vs). by rewrite <- Hp, app_nil_r. }
      by apply Forall2_nil_inv_r in Hl' as ->.
    + destruct Hl'; [|done]. exfalso. apply H. by rewrite Hp, app_nil_r.
  - split; [|done]. intros H. exfalso. apply (Hn []). by rewrite app_nil_r.
Qed.

End checking.

(** ** Properties *)

Section simulator_properties.
Import Network.

(** Rounds of exchanges on a wire of two. *)
Fixpoint exchanges (m : nat) (x y : AsyncNetworkInterface.t)
    : outcome (AsyncNetworkInterface.t * AsyncNetworkInterface.t) :=
  match m with
  | O => Ok (x, y)
  | S m => '(x, y) ← exchange_frames x y; exchanges m x y
  end.

Lemma moving_exchanges parties a b d m x y :
  Forall party_ok parties → a ∈ parties → b ∈ parties → NoDup parties.*1 → IPv4Datagram.ok d →
  moving parties a b [] d m x y [] →
  ∃ x' y', exchanges m x y = Ok (x', y') ∧ moving parties a b [] d 0 x' y' [].
Proof.
  intros Hp Ha Hb Hi Hd. revert x y. induction m as [|m IH]; intros x y Hm; [by exists x, y|].
  destruct (moving_step parties a b [] d Hp Ha Hb ltac:(set_solver) Hi ltac:(done) Hd m x y [] Hm)
    as (x' & y' & zs' & Hm' & Hs).
  assert (zs' = []) as -> by (destruct Hm' as [Hz _]; by apply Forall2_nil_inv_l in Hz).
  cbn [exchanges]. rewrite (exchange_speaks x y x' y' Hs). by apply IH.
Qed.

(** Two interfaces on a wire.  Whether or not the sender knows the receiver's
    Ethernet address, at most three rounds after [send_datagram] (request, reply,
    datagram) the receiver has the datagram, with its header and payload intact and
    only once; both interfaces are at rest again, and what they have learned of
    each other is right. *)
Theorem wire_delivers (a b : Z * EthernetAddress) (ca cb : gmap Z NetworkInterface.EthernetAddressEntry)
    (d : InternetDatagram) :
  party_ok a → party_ok b → a.1 ≠ b.1 → IPv4Datagram.ok d → truthful [a; b] ca → truthful [a; b] cb →
  ∃ x m, AsyncNetworkInterface.send_datagram (resting a ca) d b.1 = Ok x ∧ (m ≤ 3)%nat ∧
  ∃ ca' cb' d', exchanges m x (resting b cb) = Ok (resting a ca', iface b [] cb' ∅ [d']) ∧
    arrived d d' ∧ truthful [a; b] ca' ∧ truthful [a; b] cb'.
Proof.
  intros Ha Hb Hne Hd Hca Hcb.
  assert (Hp : Forall party_ok [a; b]) by (by repeat apply Forall_cons_2).
  assert (Hi : NoDup [a; b].*1) by (cbn; apply NoDup_cons; split; [set_solver|apply NoDup_singleton]).
  destruct (send_moving [a; b] a b [] d Hp ltac:(set_solver) ltac:(set_solver) Hi Hd ca (resting b cb) [] Hca)
    as (x & m & Hx & Hm & Hmv); [by exists cb|done|].
  exists x, (S m). split; [done|]. split; [lia|].
  destruct (moving_exchanges [a; b] a b d (S m) x (resting b cb)) as (x' & y' & He & _ & ca' & cb' & H1 & H2 & -> & d' & Hd' & ->);
    try done; [set_solver..|].
  by exists ca', cb', d'.
Qed.

(** A host's check is exact.  It succeeds when, and only when, the datagrams that
    arrived are the expected ones, compared by their bytes on the wire and counted,
    in whatever order they came; it then leaves nothing behind.  Otherwise it
    throws. *)
Theorem host_check_exact (h : Host.t) (vs ws : list bytes) :
  Forall2 wire_bytes (AsyncNetworkInterface.datagrams_out (Host._interface h)) vs →
  Forall2 wire_bytes (Host._expecting_to_receive h) ws →
  (vs ≡ₚ ws → Host.check h = Ok (h <| Host._expecting_to_receive := [] |>
     <| Host._interface ::= λ i, i <| AsyncNetworkInterface._datagrams_out := [] |> |>)) ∧
  (¬ vs ≡ₚ ws → Host.check h = Throw runtime_error).
Proof. apply check_spec. Qed.

Definition left_party : Z * EthernetAddress := (167772161, [2; 0; 0; 0; 0; 1]).
Definition right_party : Z * EthernetAddress := (167772162, [2; 0; 0; 0; 0; 2]).

Lemma wire_delivers_witness :
  ∃ x m, AsyncNetworkInterface.send_datagram (resting left_party ∅) example_datagram 167772162 = Ok x ∧ (m ≤ 3)%nat ∧
  ∃ ca' cb' d', exchanges m x (resting right_party ∅) = Ok (resting left_party ca', iface right_party [] cb' ∅ [d']) ∧
    arrived example_datagram d' ∧ truthful [left_party; right_party] ca' ∧ truthful [left_party; right_party] cb'.
Proof.
  apply (wire_delivers left_party right_party ∅ ∅ example_datagram); try done.
  - split; [cbn; lia|apply example_addr_ok; lia].
  - split; [cbn; lia|apply example_addr_ok; lia].
  - apply example_datagram_ok.
Defined.

(** A host that got what it expects, and one that got something else. *)
Definition content_host (got : list InternetDatagram) : Host.t :=
  Host.mk "host" 167772161 (iface left_party [] ∅ ∅ got) 0 [example_datagram].

Definition example_wire : bytes := Eval vm_compute in
  match IPv4Datagram.serialize example_datagram with Ok out => BufferList.concatenate out | _ => [] end.

Lemma host_check_exact_witness :
  Host.check (content_host [example_datagram]) = Ok ((content_host [example_datagram])
    <| Host._expecting_to_receive := [] |>
    <| Host._interface ::= λ i, i <| AsyncNetworkInterface._datagrams_out := [] |> |>) ∧
  Host.check (content_host []) = Throw runtime_error.
Proof.
  assert (Hw : Forall2 wire_bytes [example_datagram] [example_wire]).
  { constructor; [|done]. eexists. split; vm_compute; reflexivity. }
  split.
  - by apply (host_check_exact (content_host [example_datagram]) [example_wire] [example_wire]).
  - apply (host_check_exact (content_host []) [] [example_wire]); [done|done|].
    by intros H%Permutation_nil_l.
Defined.

End simulator_properties.
