(* ===== verification/network_run.v ===== *)
(** * A run of the network simulator

    The whole scenario of [apps/network_simulator.cc], for every seed of its random
    generator: the network is put together from its wires, each test is followed
    round by round, from the host that sends through the router to the host that
    expects, and the network is at rest again after it. *)

From stdpp Require Import strings functions.
From S2P Require Import prelude text buffer parser internet_checksum ipv4 ethernet network_interface router adapters network_simulator.

(** ** The network from its wires *)

Section run.
Import Network.
Context (mac : nat → EthernetAddress).

Definition router_party (k : nat) : Z * EthernetAddress :=
  match k with
  | O => (Address.quad 171 67 76 46, mac 0)
  | 1%nat => (Address.quad 10 0 0 1, mac 1)
  | 2%nat => (Address.quad 192 168 0 1, mac 3)
  | _ => (Address.quad 143 195 0 2, mac 5)
  end.

Definition host_party (k : nat) : Z * EthernetAddress :=
  match k with
  | O => (Address.quad 171 67 76 1, mac 8)
  | 1%nat => (Address.quad 10 0 0 2, mac 7)
  | 2%nat => (Address.quad 192 168 0 2, mac 9)
  | _ => (Address.quad 143 195 0 1, mac 10)
  end.

Definition host_name (k : nat) : string :=
  match k with O => "default_router" | 1%nat => "applesauce" | 2%nat => "cherrypie" | _ => "hs_router" end.

Definition router_id (k : nat) : Z := match k with O => 0 | 1%nat => 1 | 2%nat => 3 | _ => 5 end.

Definition host_at (k : nat) (y : AsyncNetworkInterface.t) (e : list InternetDatagram) : Host.t :=
  Host.mk (host_name k) (host_party k).1 y
    (match k with 1%nat | 2%nat => (router_party k).1 | _ => 0 end) e.

Definition uun3_party : Z * EthernetAddress := (Address.quad 198 178 229 1, mac 4).
Definition dm42_party : Z * EthernetAddress := (Address.quad 198 178 229 42, mac 11).
Definition dm43_party : Z * EthernetAddress := (Address.quad 198 178 229 43, mac 12).
Definition eth1 : AsyncNetworkInterface.t := resting (Address.quad 172 16 0 1, mac 2) ∅.
Definition mit5 : AsyncNetworkInterface.t := resting (Address.quad 128 30 76 255, mac 6) ∅.

Definition table : list RouteEntry :=
  [mkRouteEntry 0 0 (Some (Address.quad 171 67 76 1)) 0 0;
   mkRouteEntry (Address.quad 10 0 0 0) 8 None 1 (Address.quad 255 0 0 0);
   mkRouteEntry (Address.quad 172 16 0 0) 16 None 2 (Address.quad 255 255 0 0);
   mkRouteEntry (Address.quad 192 168 0 0) 24 None 3 (Address.quad 255 255 255 0);
   mkRouteEntry (Address.quad 198 178 229 0) 24 None 4 (Address.quad 255 255 255 0);
   mkRouteEntry (Address.quad 143 195 0 0) 17 (Some (Address.quad 143 195 0 1)) 5 (Address.quad 255 255 128 0);
   mkRouteEntry (Address.quad 143 195 128 0) 18 (Some (Address.quad 143 195 0 1)) 5 (Address.quad 255 255 192 0);
   mkRouteEntry (Address.quad 143 195 192 0) 19 (Some (Address.quad 143 195 0 1)) 5 (Address.quad 255 255 224 0);
   mkRouteEntry (Address.quad 128 30 76 255) 16 (Some (Address.quad 128 30 0 1)) 6 (Address.quad 255 255 0 0)].

Definition interfaces (P : nat → AsyncNetworkInterface.t * AsyncNetworkInterface.t)
    (T : AsyncNetworkInterface.t * AsyncNetworkInterface.t * AsyncNetworkInterface.t) : list AsyncNetworkInterface.t :=
  [(P 0%nat).1; (P 1%nat).1; eth1; (P 2%nat).1; T.1.1; (P 3%nat).1; mit5].

Definition build (P : nat → AsyncNetworkInterface.t * AsyncNetworkInterface.t)
    (T : AsyncNetworkInterface.t * AsyncNetworkInterface.t * AsyncNetworkInterface.t)
    (E : nat → list InternetDatagram) : Network.t :=
  Network.mk (Router.mk (interfaces P T) table) 0 1 2 3 4 5 6
    (<["dm43" := Host.mk "dm43" dm43_party.1 T.2 uun3_party.1 (E 5%nat)]>
    (<["dm42" := Host.mk "dm42" dm42_party.1 T.1.2 uun3_party.1 (E 4%nat)]>
    (<[host_name 3 := host_at 3 (P 3%nat).2 (E 3%nat)]>
    (<[host_name 2 := host_at 2 (P 2%nat).2 (E 2%nat)]>
    (<[host_name 0 := host_at 0 (P 0%nat).2 (E 0%nat)]>
    (<[host_name 1 := host_at 1 (P 1%nat).2 (E 1%nat)]> ∅)))))).

Lemma build_interface k P T E :
  (k < 4)%nat → Router.interface (_router (build P T E)) (router_id k) = Ok (P k).1.
Proof. intros Hk. destruct k as [|[|[|[|k]]]]; [reflexivity..|lia]. Qed.

Lemma build_host k P T E :
  (k < 4)%nat → host (build P T E) (host_name k) = Ok (host_at k (P k).2 (E k)).
Proof. intros Hk. destruct k as [|[|[|[|k]]]]; [reflexivity..|lia]. Qed.

Lemma build_set k P T E x y :
  (k < 4)%nat →
  set_host (set_interface (build P T E) (router_id k) x) (host_name k) (host_at k y (E k)) =
  build (<[k := (x, y)]> P) T E.
Proof. intros Hk. destruct k as [|[|[|[|k]]]]; [reflexivity..|lia]. Qed.

Lemma build_set_host k P T E y e :
  (k < 4)%nat →
  set_host (build P T E) (host_name k) (host_at k y e) = build (<[k := ((P k).1, y)]> P) T (<[k := e]> E).
Proof. intros Hk. destruct k as [|[|[|[|k]]]]; [reflexivity..|lia]. Qed.

Lemma wire_build k P T E xy :
  (k < 4)%nat → exchange_frames (P k).1 (P k).2 = Ok xy →
  wire (build P T E) (router_id k) (host_name k) = Ok (build (<[k := xy]> P) T E).
Proof.
  intros Hk Hx. unfold wire. rewrite build_interface, build_host by done. cbn [mbind outcome_bind].
  change (Host.interface _) with (P k).2. rewrite Hx. destruct xy as [x y]. cbn [mbind outcome_bind].
  rewrite <- (build_set k P T E x y Hk). done.
Qed.

Lemma wire3_build P T E T' :
  exchange_frames3 T.1.1 T.1.2 T.2 = Ok T' → wire3 (build P T E) 4 "dm42" "dm43" = Ok (build P T' E).
Proof.
  intros Hx. unfold wire3. replace (Router.interface _ _) with (Ok T.1.1) by reflexivity. cbn [mbind outcome_bind].
  replace (host _ "dm42") with (Ok (Host.mk "dm42" dm42_party.1 T.1.2 uun3_party.1 (E 4%nat))) by reflexivity.
  cbn [mbind outcome_bind].
  replace (host _ "dm43") with (Ok (Host.mk "dm43" dm43_party.1 T.2 uun3_party.1 (E 5%nat))) by reflexivity.
  cbn [mbind outcome_bind Host.interface Host._interface]. rewrite Hx. destruct T' as [[x y] z].
  cbn [mbind outcome_bind]. reflexivity.
Qed.

Lemma build_ext P P' T E E' :
  (∀ k, (k < 4)%nat → P k = P' k) → (∀ k, E k = E' k) → build P T E = build P' T E'.
Proof.
  intros HP HE. unfold build, interfaces. rewrite (HP 0%nat), (HP 1%nat), (HP 2%nat), (HP 3%nat) by lia.
  by rewrite !HE.
Qed.

Lemma physical_build P P' T T' E :
  (∀ k, (k < 4)%nat → exchange_frames (P k).1 (P k).2 = Ok (P' k)) →
  exchange_frames3 T.1.1 T.1.2 T.2 = Ok T' →
  simulate_physical_connections (build P T E) = Ok (build P' T' E).
Proof.
  intros HP HT. unfold simulate_physical_connections.
  change (wire _ (default_id _) _) with (wire (build P T E) (router_id 0) (host_name 0)).
  rewrite (wire_build 0 P T E (P' 0%nat)) by (try lia; apply HP; lia). cbn [mbind outcome_bind].
  set (P1 := <[0%nat := _]> P).
  change (wire _ (eth0_id _) _) with (wire (build P1 T E) (router_id 1) (host_name 1)).
  rewrite (wire_build 1 P1 T E (P' 1%nat)) by (try lia; apply (HP 1%nat); lia). cbn [mbind outcome_bind].
  set (P2 := <[1%nat := _]> P1).
  change (wire _ (eth2_id _) _) with (wire (build P2 T E) (router_id 2) (host_name 2)).
  rewrite (wire_build 2 P2 T E (P' 2%nat)) by (try lia; apply (HP 2%nat); lia). cbn [mbind outcome_bind].
  set (P3 := <[2%nat := _]> P2).
  change (wire _ (hs4_id _) _) with (wire (build P3 T E) (router_id 3) (host_name 3)).
  rewrite (wire_build 3 P3 T E (P' 3%nat)) by (try lia; apply (HP 3%nat); lia). cbn [mbind outcome_bind].
  change (uun3_id _) with 4. rewrite (wire3_build _ T E T' HT). f_equal.
Qed.

(** ** Rounds *)

Definition step (n n' : Network.t) : Prop :=
  ∃ r, Router.route (_router n) = Ok r ∧ simulate_physical_connections (n <| _router := r |>) = Ok n'.

Lemma simulate_steps k r n n' : nsteps step k n n' → simulate_loop (k + r) n = simulate_loop r n'.
Proof.
  induction 1 as [|k n1 n2 n3 (rt & Hr & Hs) _ IH]; [done|]. cbn [simulate_loop Nat.add]. rewrite Hr.
  cbn [mbind outcome_bind]. rewrite Hs. apply IH.
Qed.

(** Once nothing moves any more the remaining rounds do nothing. *)
Lemma simulate_settles k n n' :
  nsteps step k n n' → (k ≤ 256)%nat → step n' n' → simulate_loop 256 n = Ok n'.
Proof.
  intros Hk Hle Hn. replace 256%nat with (k + (256 - k))%nat by lia. rewrite (simulate_steps k _ n n' Hk).
  induction (256 - k)%nat as [|r IH]; [done|]. change (S r) with (1 + r)%nat.
  rewrite (simulate_steps 1 r n' n'); [done|by apply nsteps_once].
Qed.

(** ** Wires at rest, and a wire in use *)

Context (Hmac : ∀ i, addr_ok (mac i)).

Definition pair_parties (k : nat) : list (Z * EthernetAddress) := [router_party k; host_party k].
Definition uun3_parties : list (Z * EthernetAddress) := [uun3_party; dm42_party; dm43_party].

Definition calm (k : nat) (xy : AsyncNetworkInterface.t * AsyncNetworkInterface.t) : Prop :=
  at_rest (pair_parties k) (router_party k) xy.1 ∧ at_rest (pair_parties k) (host_party k) xy.2.

Definition calm3 (T : AsyncNetworkInterface.t * AsyncNetworkInterface.t * AsyncNetworkInterface.t) : Prop :=
  at_rest uun3_parties uun3_party T.1.1 ∧ at_rest uun3_parties dm42_party T.1.2 ∧
  at_rest uun3_parties dm43_party T.2.

Lemma pair_parties_ok k : Forall party_ok (pair_parties k) ∧ NoDup (pair_parties k).*1.
Proof.
  split.
  - repeat apply Forall_cons_2; [..|done]; split; try (destruct k as [|[|[|k]]]; apply Hmac);
      destruct k as [|[|[|k]]]; done.
  - destruct k as [|[|[|k]]]; apply (bool_decide_unpack _); reflexivity.
Qed.

Lemma uun3_parties_ok : Forall party_ok uun3_parties ∧ NoDup uun3_parties.*1.
Proof.
  split; [|apply (bool_decide_unpack _); reflexivity].
  repeat apply Forall_cons_2; [..|done]; split; done || apply Hmac.
Qed.

Lemma exchange_calm k xy : calm k xy → exchange_frames xy.1 xy.2 = Ok xy.
Proof. destruct xy as [x y]. intros [(c & _ & Hx) (c' & _ & Hy)]. cbn in *. by subst. Qed.

Lemma exchange_calm3 T : calm3 T → exchange_frames3 T.1.1 T.1.2 T.2 = Ok T.
Proof.
  destruct T as [[x y] z]. intros ((c & _ & Hx) & (c' & _ & Hy) & (c'' & _ & Hz)). cbn in *. by subst.
Qed.

(** The datagram [d] on wire [k], up to the router or down to the host, [m] rounds
    from its arrival. *)
Definition on_way (up : bool) (k : nat) (d : InternetDatagram) (m : nat)
    (xy : AsyncNetworkInterface.t * AsyncNetworkInterface.t) : Prop :=
  if up then moving (pair_parties k) (host_party k) (router_party k) [] d m xy.2 xy.1 []
  else moving (pair_parties k) (router_party k) (host_party k) [] d m xy.1 xy.2 [].

Lemma router_in k : router_party k ∈ pair_parties k.
Proof. apply list_elem_of_here. Qed.

Lemma host_in k : host_party k ∈ pair_parties k.
Proof. apply list_elem_of_further, list_elem_of_here. Qed.

Lemma on_way_step up k d m xy :
  IPv4Datagram.ok d → on_way up k d (S m) xy →
  ∃ xy', exchange_frames xy.1 xy.2 = Ok xy' ∧ on_way up k d m xy'.
Proof.
  intros Hd Hm. destruct (pair_parties_ok k) as [Hp Hi]. pose proof (router_in k). pose proof (host_in k).
  destruct up; cbn [on_way] in *.
  - destruct (moving_step (pair_parties k) (host_party k) (router_party k) [] d Hp ltac:(done) ltac:(done)
      ltac:(set_solver) Hi ltac:(done) Hd m _ _ [] Hm) as (x' & y' & zs & Hm' & Hs).
    assert (zs = []) as -> by (destruct Hm' as [Hz _]; by apply Forall2_nil_inv_l in Hz).
    exists (y', x'). split; [|done]. apply exchange_speaks. tauto.
  - destruct (moving_step (pair_parties k) (router_party k) (host_party k) [] d Hp ltac:(done) ltac:(done)
      ltac:(set_solver) Hi ltac:(done) Hd m _ _ [] Hm) as (x' & y' & zs & Hm' & Hs).
    assert (zs = []) as -> by (destruct Hm' as [Hz _]; by apply Forall2_nil_inv_l in Hz).
    exists (x', y'). split; [|done]. apply exchange_speaks. tauto.
Qed.

(** A datagram that has not arrived is in nobody's hands. *)
Lemma moving_holds parties a b others d m x y zs :
  moving parties a b others d m x y zs →
  AsyncNetworkInterface.datagrams_out x = [] ∧ (m ≠ 0%nat → AsyncNetworkInterface.datagrams_out y = []).
Proof.
  intros (_ & ca & cb & _ & _ & Hm). destruct m as [|[|[|[|m]]]]; [..|done].
  - by destruct Hm as (-> & _).
  - destruct Hm as (-> & out & _ & ->). done.
  - by destruct Hm as (-> & ->).
  - by destruct Hm as (-> & ->).
Qed.

(** The router holds nothing. *)
Definition idle (P : nat → AsyncNetworkInterface.t * AsyncNetworkInterface.t)
    (T : AsyncNetworkInterface.t * AsyncNetworkInterface.t * AsyncNetworkInterface.t) : Prop :=
  (∀ k, (k < 4)%nat → AsyncNetworkInterface.datagrams_out (P k).1 = []) ∧
  AsyncNetworkInterface.datagrams_out T.1.1 = [].

Lemma route_build_idle P T : idle P T → Router.route (Router.mk (interfaces P T) table) = Ok (Router.mk (interfaces P T) table).
Proof.
  intros [HP HT]. apply route_idle. intros j. unfold held, interfaces.
  do 7 (destruct j as [|j]; [first [apply (HP 0%nat); lia|apply (HP 1%nat); lia|apply (HP 2%nat); lia|
    apply (HP 3%nat); lia|apply HT|done]|]). done.
Qed.

Lemma at_rest_holds parties p i : at_rest parties p i → AsyncNetworkInterface.datagrams_out i = [].
Proof. by intros (c & _ & ->). Qed.

(** A round in which the router has nothing to do. *)
Lemma step_idle P P' T T' E :
  idle P T → (∀ k, (k < 4)%nat → exchange_frames (P k).1 (P k).2 = Ok (P' k)) →
  exchange_frames3 T.1.1 T.1.2 T.2 = Ok T' → step (build P T E) (build P' T' E).
Proof. intros Hi HP HT. eexists. split; [by apply route_build_idle|]. by apply physical_build. Qed.

(** The datagram rides on a wire between two. *)
Lemma ride up k d m P T E :
  (k < 4)%nat → IPv4Datagram.ok d → (∀ j, (j < 4)%nat → j ≠ k → calm j (P j)) → calm3 T → on_way up k d m (P k) →
  ∃ xy, nsteps step m (build P T E) (build (<[k := xy]> P) T E) ∧ on_way up k d 0 xy.
Proof.
  intros Hk Hd Hcalm HT. revert P Hcalm. induction m as [|m IH]; intros P Hcalm Hw.
  { exists (P k). split; [|done]. replace (build (<[k := P k]> P) T E) with (build P T E); [constructor|].
    apply build_ext; [|done]. intros j _. destruct (decide (j = k)) as [->|Hne].
    - by rewrite fn_lookup_insert.
    - by rewrite fn_lookup_insert_ne. }
  destruct (on_way_step up k d m (P k) Hd Hw) as (xy & Hx & Hw').
  destruct (IH (<[k := xy]> P)) as (xy' & Hn & Hw0).
  { intros j Hj Hne. rewrite fn_lookup_insert_ne by done. by apply Hcalm. }
  { by rewrite fn_lookup_insert. }
  exists xy'. split; [|done]. apply (nsteps_l _ _ _ (build (<[k := xy]> P) T E)).
  - apply step_idle; [split| |by apply exchange_calm3].
    + intros j Hj. destruct (decide (j = k)) as [->|Hne].
      * destruct up; apply moving_holds in Hw; by apply Hw.
      * destruct (Hcalm j Hj Hne) as [Hr _]. by eapply at_rest_holds.
    + destruct HT as [Hr _]. by eapply at_rest_holds.
    + intros j Hj. destruct (decide (j = k)) as [->|Hne].
      * by rewrite fn_lookup_insert.
      * rewrite fn_lookup_insert_ne by done. by apply (exchange_calm j), Hcalm.
  - replace (build (<[k := xy']> P) T E) with (build (<[k := xy']> (<[k := xy]> P)) T E); [done|].
    apply build_ext; [|done]. intros j _. destruct (decide (j = k)) as [->|Hne].
    + by rewrite !fn_lookup_insert.
    + by rewrite !fn_lookup_insert_ne.
Qed.

(** ** Through the router *)

(** Sending does not touch what was received. *)
Lemma send_carries i r d next i' :
  AsyncNetworkInterface.send_datagram i d next = Ok i' →
  AsyncNetworkInterface.send_datagram (i <| AsyncNetworkInterface._datagrams_out := r |>) d next =
    Ok (i' <| AsyncNetworkInterface._datagrams_out := r |>).
Proof.
  unfold AsyncNetworkInterface.send_datagram. cbn [AsyncNetworkInterface.base upd eta].
  destruct (NetworkInterface.send_datagram _ _ _); try done. cbn [mbind outcome_bind]. by intros [= <-].
Qed.

(** The position of wire [k]'s interface in the router. *)
Definition slot (k : nat) : nat := Z.to_nat (router_id k).

Lemma slot_lookup k P T : (k < 4)%nat → interfaces P T !! slot k = Some (P k).1.
Proof. intros Hk. destruct k as [|[|[|[|k]]]]; [done..|lia]. Qed.

Lemma slot_insert k P T x :
  (k < 4)%nat → <[slot k := x]> (interfaces P T) = interfaces (<[k := (x, (P k).2)]> P) T.
Proof. intros Hk. destruct k as [|[|[|[|k]]]]; [done..|lia]. Qed.

Lemma slot_alter k P T f :
  (k < 4)%nat → alter f (slot k) (interfaces P T) = interfaces (<[k := (f (P k).1, (P k).2)]> P) T.
Proof. intros Hk. destruct k as [|[|[|[|k]]]]; [done..|lia]. Qed.

Lemma slot_lt k P T : (slot k < length (interfaces P T))%nat.
Proof. apply Nat.ltb_lt. by destruct k as [|[|[|k]]]. Qed.

(** Replacing the router's interfaces and not the hosts'. *)
Lemma build_router P P1 T T1 E :
  (∀ k, (k < 4)%nat → (P1 k).2 = (P k).2) → T1.1.2 = T.1.2 → T1.2 = T.2 →
  (build P T E) <| _router := Router.mk (interfaces P1 T1) table |> = build P1 T1 E.
Proof.
  intros HP H1 H2. unfold build.
  by rewrite H1, H2, (HP 0%nat ltac:(lia)), (HP 1%nat ltac:(lia)), (HP 2%nat ltac:(lia)), (HP 3%nat ltac:(lia)).
Qed.

(** Only wire [k]'s interface of the router holds something. *)
Lemma held_elsewhere k P T j :
  (k < 4)%nat → (∀ j, (j < 4)%nat → j ≠ k → AsyncNetworkInterface.datagrams_out (P j).1 = []) →
  AsyncNetworkInterface.datagrams_out T.1.1 = [] → j ≠ slot k → held (interfaces P T) j = [].
Proof.
  intros Hk HP HT Hj. unfold held, interfaces.
  do 7 (destruct j as [|j];
    [first [apply HT|done|apply (HP 0%nat); [lia|]|apply (HP 1%nat); [lia|]|apply (HP 2%nat); [lia|]|apply (HP 3%nat); [lia|]];
     intros <-; by apply Hj|]). done.
Qed.

(** From wire [s] to wire [t]: the datagram that arrived at the router sets off
    again. *)
Lemma forward s t d P T E :
  (s < 4)%nat → (t < 4)%nat → s ≠ t → IPv4Datagram.ok d → 1 < IPv4Header.ttl (IPv4Datagram.header d) →
  leads table (IPv4Header.dst (IPv4Datagram.header d)) (router_id t) (host_party t).1 →
  (∀ j, (j < 4)%nat → j ≠ s → calm j (P j)) → calm3 T → on_way true s d 0 (P s) →
  ∃ d1 m x y, arrived d d1 ∧ (m ≤ 2)%nat ∧ calm s x ∧ on_way false t (hop d1) m y ∧
    step (build P T E) (build (<[t := y]> (<[s := x]> P)) T E).
Proof.
  intros Hs Ht Hst Hd Httl Hlead Hcalm HT (_ & ca & cb & Hca & Hcb & Hhost & d1 & Harr & Hrouter).
  pose proof Harr as (Hh1 & _ & Hok1). destruct (Hcalm t Ht ltac:(done)) as [(ct & Hct & Hx) Hy].
  destruct (pair_parties_ok t) as [Hp Hi].
  assert (Httl1 : IPv4Header.ttl (IPv4Datagram.header d1) = IPv4Header.ttl (IPv4Datagram.header d)) by (by rewrite Hh1).
  destruct (send_moving (pair_parties t) (router_party t) (host_party t) [] (hop d1) Hp (router_in t) (host_in t) Hi
    ltac:(apply ttl_ok; [done|lia]) ct (P t).2 [] Hct Hy ltac:(done)) as (x' & m & Hsend & Hm & Hmv).
  set (x := (resting (router_party s) cb, (P s).2)).
  assert (Hroute : Router.route (Router.mk (interfaces P T) table) =
    Ok (Router.mk (interfaces (<[t := (x', (P t).2)]> (<[s := x]> P)) T) table)).
  { rewrite (route_single (interfaces P T) (<[slot t := x']> (interfaces P T)) table (slot s) d1).
    - do 2 f_equal. rewrite slot_insert, slot_alter by done.
      unfold interfaces. rewrite (fn_lookup_insert_ne P) by done. rewrite Hrouter. fold x.
      destruct s as [|[|[|[|s]]]]; [..|lia]; destruct t as [|[|[|[|t]]]]; try lia; try done.
    - apply slot_lt.
    - unfold held. rewrite slot_lookup by done. by rewrite Hrouter.
    - intros j Hj. apply (held_elsewhere s); try done.
      + intros k Hk Hne. destruct (Hcalm k Hk Hne) as [Hr _]. by eapply at_rest_holds.
      + destruct HT as [Hr _]. by eapply at_rest_holds.
    - apply (route_one_leads _ table d1 (router_id t) (host_party t).1 (P t).1); try done.
      + lia.
      + by rewrite Hh1.
      + by apply slot_lookup.
      + by rewrite Hx.
    - by rewrite length_insert.
    - intros j. unfold held. destruct (decide (j = slot t)) as [->|Hne].
      + rewrite list_lookup_insert_eq by apply slot_lt. rewrite slot_lookup by done. cbn.
        destruct (moving_holds _ _ _ _ _ _ _ _ _ Hmv) as [-> _]. by rewrite Hx.
      + by rewrite list_lookup_insert_ne. }
  set (P1 := <[t := _]> _) in Hroute.
  destruct (on_way_step false t (hop d1) m (x', (P t).2)) as (y & Hy' & Hw); [apply ttl_ok; [done|lia]|done|].
  exists d1, m, x, y. split; [done|]. split; [lia|].
  assert (Hxc : calm s x) by (split; [by exists cb|by exists ca]).
  split; [done|]. split; [done|]. eexists. split; [exact Hroute|]. rewrite (build_router P P1 T T E); try done.
  - apply physical_build; [|by apply exchange_calm3]. intros k Hk. unfold P1.
    destruct (decide (k = t)) as [->|Hkt]; [by rewrite !fn_lookup_insert|]. rewrite !(fn_lookup_insert_ne _ t) by done.
    destruct (decide (k = s)) as [->|Hks]; [rewrite fn_lookup_insert; by apply (exchange_calm s)|].
    rewrite (fn_lookup_insert_ne P) by done. by apply (exchange_calm k), Hcalm.
  - intros k Hk. unfold P1. destruct (decide (k = t)) as [->|Hkt]; [by rewrite fn_lookup_insert|].
    rewrite fn_lookup_insert_ne by done.
    destruct (decide (k = s)) as [->|Hks]; [by rewrite fn_lookup_insert|by rewrite fn_lookup_insert_ne].
Qed.

(** A datagram whose time to live is over goes no further. *)
Lemma expires s d P T E :
  (s < 4)%nat → IPv4Header.ttl (IPv4Datagram.header d) ≤ 1 →
  (∀ j, (j < 4)%nat → j ≠ s → calm j (P j)) → calm3 T → on_way true s d 0 (P s) →
  ∃ x, calm s x ∧ step (build P T E) (build (<[s := x]> P) T E).
Proof.
  intros Hs Httl Hcalm HT (_ & ca & cb & Hca & Hcb & Hhost & d1 & Harr & Hrouter).
  pose proof Harr as (Hh1 & _ & _). set (x := (resting (router_party s) cb, (P s).2)). exists x.
  assert (Hxc : calm s x) by (split; [by exists cb|by exists ca]). split; [done|].
  exists (Router.mk (interfaces (<[s := x]> P) T) table). split.
  - cbn [_router build]. rewrite (route_single (interfaces P T) (interfaces P T) table (slot s) d1); try done.
    + rewrite slot_alter by done. by rewrite Hrouter.
    + apply slot_lt.
    + unfold held. rewrite slot_lookup by done. by rewrite Hrouter.
    + intros j Hj. apply (held_elsewhere s); try done.
      * intros k Hk Hne. destruct (Hcalm k Hk Hne) as [Hr _]. by eapply at_rest_holds.
      * destruct HT as [Hr _]. by eapply at_rest_holds.
    + apply route_one_expired. by rewrite Hh1.
  - rewrite (build_router P (<[s := x]> P) T T E); try done.
    + apply physical_build; [|by apply exchange_calm3]. intros k Hk.
      destruct (decide (k = s)) as [->|Hks]; [rewrite fn_lookup_insert; by apply (exchange_calm s)|].
      rewrite fn_lookup_insert_ne by done. by apply (exchange_calm k), Hcalm.
    + intros k Hk. destruct (decide (k = s)) as [->|Hks]; [by rewrite fn_lookup_insert|by rewrite fn_lookup_insert_ne].
Qed.

(** ** The wire with two hosts *)

Context (Hdistinct : NoDup [mac 4; mac 11; mac 12])
  (Hunicast : Forall (λ a, a ≠ ETHERNET_BROADCAST) [mac 4; mac 11; mac 12]).

Definition on_way3 (up : bool) (d : InternetDatagram) (m : nat)
    (T : AsyncNetworkInterface.t * AsyncNetworkInterface.t * AsyncNetworkInterface.t) : Prop :=
  if up then moving uun3_parties dm42_party uun3_party [dm43_party] d m T.1.2 T.1.1 [T.2]
  else moving uun3_parties uun3_party dm43_party [dm42_party] d m T.1.1 T.2 [T.1.2].

Lemma macs_differ :
  mac 4 ≠ mac 11 ∧ mac 4 ≠ mac 12 ∧ mac 11 ≠ mac 12 ∧
  mac 4 ≠ ETHERNET_BROADCAST ∧ mac 11 ≠ ETHERNET_BROADCAST ∧ mac 12 ≠ ETHERNET_BROADCAST.
Proof.
  rewrite !Forall_cons in Hunicast. rewrite !NoDup_cons, !elem_of_cons in Hdistinct. naive_solver.
Qed.

Lemma on_way3_step up d m T :
  IPv4Datagram.ok d → on_way3 up d (S m) T →
  ∃ T', exchange_frames3 T.1.1 T.1.2 T.2 = Ok T' ∧ on_way3 up d m T'.
Proof.
  intros Hd Hm. destruct uun3_parties_ok as [Hp Hi]. pose proof macs_differ as (? & ? & ? & ? & ? & ?).
  assert (Hu : uun3_party ∈ uun3_parties) by set_solver. assert (H42 : dm42_party ∈ uun3_parties) by set_solver.
  assert (H43 : dm43_party ∈ uun3_parties) by set_solver. destruct up; cbn [on_way3] in *.
  - destruct (moving_step uun3_parties dm42_party uun3_party [dm43_party] d Hp H42 Hu ltac:(set_solver) Hi
      ltac:(apply Forall_singleton; done) Hd m _ _ _ Hm) as (x' & y' & zs & Hm' & Hs).
    assert (∃ z, zs = [z]) as [z ->].
    { destruct Hm' as [Hz _]. apply Forall2_cons_inv_l in Hz as (z & zs' & _ & Hz & ->).
      apply Forall2_nil_inv_l in Hz as ->. by exists z. }
    exists (y', x', z). split; [|done]. apply exchange3_speaks. tauto.
  - destruct (moving_step uun3_parties uun3_party dm43_party [dm42_party] d Hp Hu H43 ltac:(set_solver) Hi
      ltac:(apply Forall_singleton; done) Hd m _ _ _ Hm) as (x' & y' & zs & Hm' & Hs).
    assert (∃ z, zs = [z]) as [z ->].
    { destruct Hm' as [Hz _]. apply Forall2_cons_inv_l in Hz as (z & zs' & _ & Hz & ->).
      apply Forall2_nil_inv_l in Hz as ->. by exists z. }
    exists (x', z, y'). split; [|done]. apply exchange3_speaks.
    destruct Hs as [[Hs ->]|[Hs ->]]; [left|right; right]; (split; [|done]); [|done].
    unfold speaks in *. rewrite !Forall2_cons in *. naive_solver.
Qed.

(** The datagram rides on the wire with two hosts. *)
Lemma ride3 up d m P T E :
  IPv4Datagram.ok d → (∀ j, (j < 4)%nat → calm j (P j)) → on_way3 up d m T →
  ∃ T', nsteps step m (build P T E) (build P T' E) ∧ on_way3 up d 0 T'.
Proof.
  intros Hd Hcalm. revert T. induction m as [|m IH]; intros T Hw; [exists T; split; [constructor|done]|].
  destruct (on_way3_step up d m T Hd Hw) as (T1 & Hx & Hw1). destruct (IH T1 Hw1) as (T' & Hn & Hw').
  exists T'. split; [|done]. apply (nsteps_l _ _ _ (build P T1 E)); [|done].
  apply step_idle; [split| |done].
  - intros j Hj. destruct (Hcalm j Hj) as [Hr _]. by eapply at_rest_holds.
  - destruct up; apply moving_holds in Hw; by apply Hw.
  - intros j Hj. by apply (exchange_calm j), Hcalm.
Qed.

(** From [dm42] through the router to [dm43], on one wire. *)
Lemma forward3 d P T E :
  IPv4Datagram.ok d → 1 < IPv4Header.ttl (IPv4Datagram.header d) →
  leads table (IPv4Header.dst (IPv4Datagram.header d)) 4 dm43_party.1 →
  (∀ j, (j < 4)%nat → calm j (P j)) → on_way3 true d 0 T →
  ∃ d1 m T', arrived d d1 ∧ (m ≤ 2)%nat ∧ on_way3 false (hop d1) m T' ∧ step (build P T E) (build P T' E).
Proof.
  intros Hd Httl Hlead Hcalm (Hz & ca & cb & Hca & Hcb & Hhost & d1 & Harr & Hrouter).
  apply Forall2_cons_inv_l in Hz as (z & zs' & Hz & _ & [= <- _]).
  pose proof Harr as (Hh1 & _ & Hok1). destruct uun3_parties_ok as [Hp Hi].
  assert (Httl1 : IPv4Header.ttl (IPv4Datagram.header d1) = IPv4Header.ttl (IPv4Datagram.header d)) by (by rewrite Hh1).
  assert (Hrest : Forall2 (at_rest uun3_parties) [dm42_party] [T.1.2]) by (constructor; [by exists ca|done]).
  destruct (send_moving uun3_parties uun3_party dm43_party [dm42_party] (hop d1) Hp ltac:(set_solver) ltac:(set_solver) Hi
    ltac:(apply ttl_ok; [done|lia]) cb T.2 [T.1.2] Hcb Hz Hrest) as (x' & m & Hsend & Hm & Hmv).
  assert (Hroute : Router.route (Router.mk (interfaces P T) table) = Ok (Router.mk (interfaces P (x', T.1.2, T.2)) table)).
  { rewrite (route_single (interfaces P T)
      (<[4%nat := x' <| AsyncNetworkInterface._datagrams_out := [d1] |>]> (interfaces P T)) table 4 d1).
    - unfold interfaces. cbn. unfold emptied. cbn. destruct (moving_holds _ _ _ _ _ _ _ _ _ Hmv) as [Hx' _].
      destruct x' as [n r]. cbn in *. by subst r.
    - cbn. lia.
    - unfold held. cbn. by rewrite Hrouter.
    - intros j Hj. unfold held, interfaces.
      do 7 (destruct j as [|j]; [first [done|by (eapply at_rest_holds; apply (Hcalm 0%nat); lia)|
        by (eapply at_rest_holds; apply (Hcalm 1%nat); lia)|by (eapply at_rest_holds; apply (Hcalm 2%nat); lia)|
        by (eapply at_rest_holds; apply (Hcalm 3%nat); lia)]|]). done.
    - apply (route_one_leads _ table d1 4 dm43_party.1 T.1.1); try done.
      + lia.
      + by rewrite Hh1.
      + rewrite Hrouter. apply (send_carries (resting uun3_party cb) [d1]). done.
    - done.
    - intros j. unfold held. destruct (decide (j = 4%nat)) as [->|Hne]; [|by rewrite list_lookup_insert_ne].
      rewrite list_lookup_insert_eq by (cbn; lia). cbn. by rewrite Hrouter. }
  destruct (on_way3_step false (hop d1) m (x', T.1.2, T.2)) as (T' & Hx & Hw); [apply ttl_ok; [done|lia]|done|].
  exists d1, m, T'. split; [done|]. split; [lia|]. split; [done|]. eexists. split; [exact Hroute|].
  rewrite (build_router P P T (x', T.1.2, T.2) E) by done. apply physical_build; [|done].
  intros k Hk. by apply (exchange_calm k), Hcalm.
Qed.

(** ** The checks *)

(** A host whose check has succeeded. *)
Definition settled (h : Host.t) : Host.t :=
  h <| Host._expecting_to_receive := [] |> <| Host._interface ::= emptied |>.

Lemma check_hosts_some names n :
  NoDup names → (∀ name h, name ∈ names → _hosts n !! name = Some h → Host.check h = Ok (settled h)) →
  ∃ hosts, check_hosts names n = Ok (n <| _hosts := hosts |>) ∧
    ∀ name, hosts !! name = (if bool_decide (name ∈ names) then settled <$> _hosts n !! name else _hosts n !! name).
Proof.
  intros Hd. revert n. induction Hd as [|x names Hx _ IH]; intros n Hc; cbn [check_hosts].
  { exists (_hosts n). split; [by destruct n|done]. }
  destruct (_hosts n !! x) as [h|] eqn:Hh.
  - rewrite (Hc x h ltac:(left) Hh). cbn [mbind outcome_bind].
    destruct (IH (set_host n x (settled h))) as (hosts & -> & Hl).
    { intros name h' Hin Hl. apply (Hc name); [by right|]. cbn in Hl. rewrite lookup_insert_ne in Hl; [done|].
      intros ->. done. }
    exists hosts. split; [done|]. intros name. rewrite Hl. cbn.
    destruct (decide (name = x)) as [->|Hne].
    + rewrite (bool_decide_eq_false_2 (x ∈ names)), (bool_decide_eq_true_2 (x ∈ x :: names)) by (done || left).
      by rewrite lookup_insert_eq, Hh.
    + rewrite lookup_insert_ne by done. erewrite (bool_decide_ext (name ∈ names)); [done|].
      rewrite elem_of_cons. naive_solver.
  - destruct (IH n) as (hosts & -> & Hl); [intros; apply (Hc name); [by right|done]|].
    exists hosts. split; [done|]. intros name. rewrite Hl. destruct (decide (name = x)) as [->|Hne].
    + rewrite Hh. by repeat destruct (bool_decide _).
    + erewrite (bool_decide_ext (name ∈ names)); [done|]. rewrite elem_of_cons. naive_solver.
Qed.

Lemma check_hosts_all n :
  map_Forall (λ _ h, Host.check h = Ok (settled h)) (_hosts n) →
  check_hosts (map_to_list (_hosts n)).*1 n = Ok (n <| _hosts ::= fmap settled |>).
Proof.
  intros Hc. destruct (check_hosts_some (map_to_list (_hosts n)).*1 n) as (hosts & -> & Hl).
  - apply NoDup_fst_map_to_list.
  - intros name h _ Hh. by apply (Hc name).
  - assert (hosts = settled <$> _hosts n) as ->; [|done]. apply map_eq. intros name. rewrite Hl, lookup_fmap.
    destruct (_hosts n !! name) as [h|] eqn:Hh; [|by destruct (bool_decide _)].
    rewrite bool_decide_eq_true_2; [done|]. apply list_elem_of_fmap. exists (name, h). split; [done|].
    by apply elem_of_map_to_list.
Qed.

(** Nobody expects anything. *)
Definition none : nat → list InternetDatagram := λ _, [].

Lemma check_build P T E :
  (∀ k, (k < 4)%nat → Host.check (host_at k (P k).2 (E k)) = Ok (settled (host_at k (P k).2 (E k)))) →
  (∀ name address next, Host.check (Host.mk name address T.1.2 next (E 4%nat)) =
     Ok (settled (Host.mk name address T.1.2 next (E 4%nat)))) →
  (∀ name address next, Host.check (Host.mk name address T.2 next (E 5%nat)) =
     Ok (settled (Host.mk name address T.2 next (E 5%nat)))) →
  check_hosts (map_to_list (_hosts (build P T E))).*1 (build P T E) =
    Ok (build (λ k, ((P k).1, emptied (P k).2)) (T.1.1, emptied T.1.2, emptied T.2) none).
Proof.
  intros HP H4 H5. rewrite check_hosts_all; [reflexivity|]. cbn [_hosts build].
  repeat apply map_Forall_insert_2; try apply HP; try lia; try apply H4; try apply H5. apply map_Forall_empty.
Qed.

(** A host at rest that expects nothing is content. *)
Lemma check_rest parties p i name address next :
  at_rest parties p i → Host.check (Host.mk name address i next []) = Ok (settled (Host.mk name address i next [])).
Proof. by intros (c & _ & ->). Qed.

Lemma zero_cksum d :
  (sent_header d) <| IPv4Header.cksum := 0 |> = (IPv4Datagram.header d) <| IPv4Header.cksum := 0 |>.
Proof. reflexivity. Qed.

Lemma hop_cksum d :
  (IPv4Datagram.header (hop d)) <| IPv4Header.cksum := 0 |> =
  ((IPv4Datagram.header d) <| IPv4Header.cksum := 0 |>) <| IPv4Header.ttl ::= λ x, u8 (x - 1) |>.
Proof. reflexivity. Qed.

(** The expected datagram is what is left of the one sent after the router. *)
Lemma arrived_expected d d1 d2 :
  IPv4Datagram.ok d → 1 < IPv4Header.ttl (IPv4Datagram.header d) → arrived d d1 → arrived (hop d1) d2 →
  ∃ w, wire_bytes (hop d) w ∧ wire_bytes d2 w.
Proof.
  intros Hd Ht (Hh1 & Hp1 & Hok1) (Hh2 & Hp2 & Hok2).
  destruct (datagram_layout (hop d)) as (o & Ho & Hw); [by apply ttl_ok|].
  destruct (datagram_layout d2 Hok2) as (o2 & Ho2 & Hw2).
  exists (BufferList.concatenate o). split; [by exists o|]. exists o2. split; [done|].
  rewrite Hw, Hw2, Hp2. change (IPv4Datagram.payload (hop d1)) with (IPv4Datagram.payload d1). rewrite Hp1.
  change (IPv4Datagram.payload (hop d)) with (IPv4Datagram.payload d). do 2 f_equal.
  unfold sent_header. rewrite Hh2, zero_cksum, !hop_cksum, Hh1, zero_cksum. reflexivity.
Qed.

Lemma check_received p c d2 e w k :
  wire_bytes e w → wire_bytes d2 w →
  Host.check (host_at k (iface p [] c ∅ [d2]) [e]) = Ok (settled (host_at k (iface p [] c ∅ [d2]) [e])).
Proof.
  intros He Hd. apply (check_spec (host_at k (iface p [] c ∅ [d2]) [e]) [w] [w]); [by repeat constructor..|done].
Qed.

(** ** The tests *)

Definition generator_ok (g : random_generator) : Prop := ∀ i, 0 ≤ numbers g i < 2 ^ 32.

(** The payload [send_to] makes of a random number, and the datagram around it. *)
Definition payload_of (v : Z) : BufferList.t :=
  BufferList.of_string (literal "random payload: {" ++ to_string v ++ literal "}").

Definition datagram_of (src dst ttl v : Z) : InternetDatagram :=
  IPv4Datagram.mk (IPv4Header.mk 4 5 0 (u16 (u64 (5 * 4 + BufferList.size (payload_of v)))) 0 true false 0 ttl 6 0 src dst)
    (payload_of v).

Lemma send_to_spec h dst ttl g :
  Host.send_to h dst ttl g =
  (i ← AsyncNetworkInterface.send_datagram (Host._interface h)
         (datagram_of (Host._my_address h) dst ttl (numbers g (spent g))) (Host._next_hop h);
   Ok (datagram_of (Host._my_address h) dst ttl (numbers g (spent g)), h <| Host._interface := i |>,
       mkGenerator (numbers g) (S (spent g)))).
Proof. reflexivity. Qed.

Lemma datagram_of_ok src dst ttl v :
  0 ≤ src < 2 ^ 32 → 0 ≤ dst < 2 ^ 32 → 0 ≤ ttl < 2 ^ 8 → 0 ≤ v < 2 ^ 32 → IPv4Datagram.ok (datagram_of src dst ttl v).
Proof.
  intros Hs Hd Ht Hv. set (p := literal "random payload: {" ++ to_string v ++ literal "}").
  assert (Hlen : 0 ≤ len p ≤ 28).
  { split; [apply len_nonneg|]. unfold p. rewrite !len_app, !len_literal. cbn [String.length].
    pose proof (len_to_string 10 v ltac:(lia)). lia. }
  assert (Hc : BufferList.concatenate (payload_of v) = p) by (unfold payload_of; cbn; by rewrite app_nil_r).
  assert (Hl : u16 (u64 (5 * 4 + BufferList.size (payload_of v))) = 20 + len p).
  { rewrite bufferlist_size_concatenate, Hc by (rewrite Hc; lia). rewrite u64_id, u16_id by lia. lia. }
  split; [|split; [|split]].
  - unfold IPv4Header.ok. cbn [IPv4Datagram.header datagram_of IPv4Header.ver IPv4Header.hlen IPv4Header.tos
      IPv4Header.len_ IPv4Header.id IPv4Header.df IPv4Header.mf IPv4Header.offset IPv4Header.ttl IPv4Header.proto
      IPv4Header.cksum IPv4Header.src IPv4Header.dst]. rewrite Hl. lia.
  - apply Forall_singleton, wf_of_string. fold p. lia.
  - cbn [IPv4Datagram.payload datagram_of]. rewrite Hc. unfold p. rewrite !is_bytes_app.
    split_and!; apply literal_is_bytes.
  - cbn [IPv4Datagram.payload datagram_of IPv4Datagram.header IPv4Header.len_ IPv4Header.hlen]. rewrite Hl, Hc. lia.
Qed.

Lemma party_ip k : 0 ≤ (host_party k).1 < 2 ^ 32.
Proof. destruct k as [|[|[|k]]]; done. Qed.

(** A host whose next hop is the router sends: the datagram is on its way. *)
Lemma host_sends s dst ttl g P T :
  s = 1%nat ∨ s = 2%nat → 0 ≤ dst < 2 ^ 32 → 0 ≤ ttl < 2 ^ 8 → generator_ok g → calm s (P s) →
  ∃ d x' m, d = datagram_of (host_party s).1 dst ttl (numbers g (spent g)) ∧ IPv4Datagram.ok d ∧
    send (build P T none) (host_name s) dst ttl g =
      Ok (d, build (<[s := ((P s).1, x')]> P) T none, mkGenerator (numbers g) (S (spent g))) ∧
    (m < 3)%nat ∧ on_way true s d (S m) ((P s).1, x').
Proof.
  intros Hs Hdst Httl Hg [Hr (c & Hc & Hx)]. assert (Hs4 : (s < 4)%nat) by lia.
  set (d := datagram_of (host_party s).1 dst ttl (numbers g (spent g))).
  assert (Hd : IPv4Datagram.ok d) by (apply datagram_of_ok; [apply party_ip|done..]).
  destruct (pair_parties_ok s) as [Hp Hi].
  destruct (send_moving (pair_parties s) (host_party s) (router_party s) [] d Hp (host_in s) (router_in s) Hi Hd
    c (P s).1 [] Hc Hr ltac:(done)) as (x' & m & Hsend & Hm & Hmv).
  exists d, x', m. split; [done|]. split; [done|]. split; [|by split].
  unfold send. rewrite build_host by done. cbn [mbind outcome_bind]. rewrite send_to_spec.
  set (h := host_at s (P s).2 (none s)). change (Host._interface h) with (P s).2.
  change (Host._my_address h) with (host_party s).1. fold d.
  replace (Host._next_hop h) with (router_party s).1 by (by destruct Hs as [-> | ->]).
  rewrite Hx, Hsend. cbn [mbind outcome_bind].
  change (h <| Host._interface := x' |>) with (host_at s x' []).
  rewrite (build_set_host s P T none x' []) by done. do 3 f_equal.
  apply build_ext; [done|]. intros j. destruct (decide (j = s)) as [->|Hne].
  - by rewrite fn_lookup_insert.
  - by rewrite fn_lookup_insert_ne.
Qed.

Lemma next_generator_ok g : generator_ok g → generator_ok (mkGenerator (numbers g) (S (spent g))).
Proof. done. Qed.

(** [calm] wherever the datagram is not. *)
Definition calm_but (k : nat) (P : nat → AsyncNetworkInterface.t * AsyncNetworkInterface.t) : Prop :=
  ∀ j, (j < 4)%nat → j ≠ k → calm j (P j).

Lemma calm_but_insert k P xy : calm_but k P → calm_but k (<[k := xy]> P).
Proof. intros H j Hj Hne. rewrite fn_lookup_insert_ne by done. by apply H. Qed.

Lemma calm_insert k P xy : calm_but k P → calm k xy → ∀ j, (j < 4)%nat → calm j (<[k := xy]> P j).
Proof.
  intros H Hk j Hj. destruct (decide (j = k)) as [->|Hne]; [by rewrite fn_lookup_insert|].
  rewrite fn_lookup_insert_ne by done. by apply H.
Qed.

(** The whole way of a datagram from wire [s] to wire [t]. *)
Lemma crosses s t d m P T E :
  (s < 4)%nat → (t < 4)%nat → s ≠ t → (m ≤ 3)%nat → IPv4Datagram.ok d → 1 < IPv4Header.ttl (IPv4Datagram.header d) →
  leads table (IPv4Header.dst (IPv4Datagram.header d)) (router_id t) (host_party t).1 →
  calm_but s P → calm3 T → on_way true s d m (P s) →
  ∃ d1 P', arrived d d1 ∧ simulate_loop 256 (build P T E) = Ok (build P' T E) ∧
    calm_but t P' ∧ on_way false t (hop d1) 0 (P' t).
Proof.
  intros Hs Ht Hst Hm Hd Httl Hlead Hcalm HT Hw.
  destruct (ride true s d m P T E Hs Hd Hcalm HT Hw) as (xy & Hn1 & Hw1).
  destruct (forward s t d (<[s := xy]> P) T E) as (d1 & m2 & x & y & Harr & Hm2 & Hx & Hy & Hstep); try done.
  { by apply calm_but_insert. }
  { by rewrite fn_lookup_insert. }
  set (P2 := <[t := y]> (<[s := x]> (<[s := xy]> P))) in Hstep.
  assert (Hc2 : calm_but t P2).
  { apply calm_but_insert. intros j Hj Hne. apply calm_insert; [|done|done]. by apply calm_but_insert. }
  assert (Hok1 : IPv4Datagram.ok (hop d1)).
  { destruct Harr as (Hh1 & _ & Hok1). apply ttl_ok; [done|]. by rewrite Hh1. }
  destruct (ride false t (hop d1) m2 P2 T E Ht Hok1 Hc2 HT) as (z & Hn2 & Hw2).
  { unfold P2. by rewrite fn_lookup_insert. }
  exists d1, (<[t := z]> P2). split; [done|]. split; [|split; [by apply calm_but_insert|by rewrite fn_lookup_insert]].
  apply (simulate_settles (m + (1 + m2))); [|lia|].
  - eapply nsteps_trans; [exact Hn1|]. eapply nsteps_trans; [by apply nsteps_once|exact Hn2].
  - apply step_idle; [split| |by apply exchange_calm3].
    + intros j Hj. destruct (decide (j = t)) as [->|Hne].
      * rewrite fn_lookup_insert. by apply moving_holds in Hw2 as [? _].
      * destruct (calm_but_insert t P2 z Hc2 j Hj Hne) as [Hr _]. by eapply at_rest_holds.
    + destruct HT as [Hr _]. by eapply at_rest_holds.
    + intros j Hj. destruct (decide (j = t)) as [->|Hne].
      * rewrite fn_lookup_insert. destruct Hw2 as (_ & ca & cb & _ & _ & Hzx & d2 & _ & Hzy).
        destruct z as [zx zy]. cbn in *. by subst.
      * by apply (exchange_calm j), (calm_but_insert t P2 z Hc2).
Qed.

(** One test between two wires, on a network at rest. *)
Lemma test_passes s t dst g P T :
  s = 1%nat ∨ s = 2%nat → (t < 4)%nat → s ≠ t → 0 ≤ dst < 2 ^ 32 → leads table dst (router_id t) (host_party t).1 →
  generator_ok g → (∀ j, (j < 4)%nat → calm j (P j)) → calm3 T →
  ∃ P' g', test (build P T none) (host_name s) dst (host_name t) g = Ok (build P' T none, g') ∧
    (∀ j, (j < 4)%nat → calm j (P' j)) ∧ generator_ok g'.
Proof.
  intros Hs Ht Hst Hdst Hlead Hg Hcalm HT. assert (Hs4 : (s < 4)%nat) by lia.
  destruct (host_sends s dst 64 g P T Hs Hdst ltac:(lia) Hg (Hcalm s Hs4)) as (d & x' & m & Hdef & Hd & Hsend & Hm & Hw).
  set (P1 := <[s := _]> P) in Hsend. set (E := <[t := [hop d]]> none).
  unfold test. rewrite Hsend. cbn [mbind outcome_bind]. unfold expect_at. rewrite build_host by done.
  cbn [mbind outcome_bind]. fold (hop d).
  change (Host.expect (host_at t (P1 t).2 (none t)) (hop d)) with (host_at t (P1 t).2 [hop d]).
  rewrite (build_set_host t P1 T none (P1 t).2 [hop d]) by done. fold E.
  replace (build (<[t := _]> P1) T E) with (build P1 T E); cycle 1.
  { apply build_ext; [|done]. intros j _. destruct (decide (j = t)) as [->|Hne].
    - rewrite fn_lookup_insert. by destruct (P1 t).
    - by rewrite fn_lookup_insert_ne. }
  assert (Httl : IPv4Header.ttl (IPv4Datagram.header d) = 64) by (by rewrite Hdef).
  destruct (crosses s t d (S m) P1 T E) as (d1 & P' & Harr & Hsim & Hc' & Hw'); try done; try lia.
  { by rewrite Hdef. }
  { apply calm_but_insert. intros j Hj _. by apply Hcalm. }
  { unfold P1. by rewrite fn_lookup_insert. }
  unfold simulate. rewrite Hsim. cbn [mbind outcome_bind].
  destruct Hw' as (_ & ca & cb & Hca & Hcb & Hzx & d2 & Harr2 & Hzy).
  destruct (arrived_expected d d1 d2 Hd ltac:(lia) Harr Harr2) as (w & Hwe & Hwd).
  rewrite check_build.
  - cbn [mbind outcome_bind]. eexists _, _. split; [|split].
    + destruct T as [[T1 T2] T3]. destruct HT as (_ & (c2 & _ & HT2) & (c3 & _ & HT3)). cbn in HT2, HT3. subst. reflexivity.
    + intros j Hj. cbn [fst snd]. destruct (decide (j = t)) as [->|Hne].
      * split; cbn [fst snd]; [by exists ca|]. exists cb. by rewrite Hzy.
      * destruct (Hc' j Hj Hne) as [Hr (c & Hc & Hh)]. split; cbn [fst snd]; [done|]. exists c. by rewrite Hh.
    + by apply next_generator_ok.
  - intros k Hk. unfold E. destruct (decide (k = t)) as [->|Hne].
    + rewrite fn_lookup_insert, Hzy. by apply (check_received _ _ _ _ w).
    + rewrite fn_lookup_insert_ne by done. destruct (Hc' k Hk Hne) as [_ Hr]. by eapply check_rest.
  - intros. unfold E. rewrite fn_lookup_insert_ne by lia. destruct HT as (_ & Hr & _). by eapply check_rest.
  - intros. unfold E. rewrite fn_lookup_insert_ne by lia. destruct HT as (_ & _ & Hr). by eapply check_rest.
Qed.

(** Nobody expects anything and everybody is at rest: the checks change nothing. *)
Lemma check_calm P T :
  (∀ j, (j < 4)%nat → calm j (P j)) → calm3 T →
  ∃ P', check_hosts (map_to_list (_hosts (build P T none))).*1 (build P T none) = Ok (build P' T none) ∧
    ∀ j, (j < 4)%nat → calm j (P' j).
Proof.
  intros Hcalm HT. rewrite check_build.
  - eexists. split.
    + destruct T as [[T1 T2] T3]. destruct HT as (_ & (c2 & _ & HT2) & (c3 & _ & HT3)). cbn in HT2, HT3. subst. reflexivity.
    + intros j Hj. destruct (Hcalm j Hj) as [Hr (c & Hc & Hh)]. split; cbn [fst snd]; [done|]. exists c. by rewrite Hh.
  - intros k Hk. destruct (Hcalm k Hk) as [_ Hr]. by eapply check_rest.
  - intros. destruct HT as (_ & Hr & _). by eapply check_rest.
  - intros. destruct HT as (_ & _ & Hr). by eapply check_rest.
Qed.

(** One test of a datagram that is not to arrive. *)
Lemma test_dropped_passes s dst ttl g P T :
  s = 1%nat ∨ s = 2%nat → 0 ≤ dst < 2 ^ 32 → 0 ≤ ttl ≤ 1 → generator_ok g →
  (∀ j, (j < 4)%nat → calm j (P j)) → calm3 T →
  ∃ P' g', test_dropped (build P T none) (host_name s) dst ttl g = Ok (build P' T none, g') ∧
    (∀ j, (j < 4)%nat → calm j (P' j)) ∧ generator_ok g'.
Proof.
  intros Hs Hdst Httl Hg Hcalm HT. assert (Hs4 : (s < 4)%nat) by lia.
  destruct (host_sends s dst ttl g P T Hs Hdst ltac:(lia) Hg (Hcalm s Hs4)) as (d & x' & m & Hdef & Hd & Hsend & Hm & Hw).
  set (P1 := <[s := _]> P) in Hsend. unfold test_dropped. rewrite Hsend. cbn [mbind outcome_bind].
  assert (Hc1 : calm_but s P1) by (apply calm_but_insert; intros j Hj _; by apply Hcalm).
  destruct (ride true s d (S m) P1 T none Hs4 Hd Hc1 HT) as (xy & Hn1 & Hw1).
  { unfold P1. by rewrite fn_lookup_insert. }
  destruct (expires s d (<[s := xy]> P1) T none) as (x & Hx & Hstep); try done.
  { rewrite Hdef. cbn. lia. }
  { by apply calm_but_insert. }
  { by rewrite fn_lookup_insert. }
  set (P2 := <[s := x]> _) in Hstep.
  assert (Hc2 : ∀ j, (j < 4)%nat → calm j (P2 j)) by (apply calm_insert; [by apply calm_but_insert|done]).
  unfold simulate. rewrite (simulate_settles (S m + 1) (build P1 T none) (build P2 T none)).
  - cbn [mbind outcome_bind]. destruct (check_calm P2 T Hc2 HT) as (P' & -> & HP'). cbn [mbind outcome_bind].
    eexists P', _. split; [done|]. split; [done|]. by apply next_generator_ok.
  - eapply nsteps_trans; [exact Hn1|by apply nsteps_once].
  - lia.
  - apply step_idle; [split| |by apply exchange_calm3].
    + intros j Hj. destruct (Hc2 j Hj) as [Hr _]. by eapply at_rest_holds.
    + destruct HT as [Hr _]. by eapply at_rest_holds.
    + intros j Hj. by apply (exchange_calm j), Hc2.
Qed.

Lemma leads_dm43 : leads table (Address.quad 198 178 229 43) 4 (Address.quad 198 178 229 43).
Proof. eexists. split; [reflexivity|]. split; [done|]. by split. Qed.

(** A datagram sets off from the first of the two hosts that share a wire. *)
Lemma send_dm42 g P T dst ttl x' :
  let d := datagram_of dm42_party.1 dst ttl (numbers g (spent g)) in
  AsyncNetworkInterface.send_datagram T.1.2 d uun3_party.1 = Ok x' →
  send (build P T none) "dm42" dst ttl g =
    Ok (d, build P (T.1.1, x', T.2) none, mkGenerator (numbers g) (S (spent g))).
Proof.
  intros d Hsend. unfold send. set (h := Host.mk "dm42" dm42_party.1 T.1.2 uun3_party.1 []).
  replace (host _ _) with (Ok h) by reflexivity. cbn [mbind outcome_bind]. rewrite send_to_spec.
  change (Host._interface h) with T.1.2. change (Host._my_address h) with dm42_party.1. fold d.
  change (Host._next_hop h) with uun3_party.1. rewrite Hsend. reflexivity.
Qed.

(** The test between the two hosts that share a wire. *)
Lemma test_shared_passes g P T :
  generator_ok g → (∀ j, (j < 4)%nat → calm j (P j)) → calm3 T →
  ∃ P' T' g', test (build P T none) "dm42" dm43_party.1 "dm43" g = Ok (build P' T' none, g') ∧
    (∀ j, (j < 4)%nat → calm j (P' j)) ∧ calm3 T' ∧ generator_ok g'.
Proof.
  intros Hg Hcalm HT. pose proof HT as (Hr & (c & Hc & Hx) & Hz). destruct uun3_parties_ok as [Hp Hi].
  set (d := datagram_of dm42_party.1 dm43_party.1 64 (numbers g (spent g))).
  assert (Hd : IPv4Datagram.ok d) by (apply datagram_of_ok; done).
  destruct (send_moving uun3_parties dm42_party uun3_party [dm43_party] d Hp ltac:(set_solver) ltac:(set_solver) Hi Hd
    c T.1.1 [T.2] Hc Hr ltac:(by constructor)) as (x' & m & Hsend & Hm & Hmv).
  set (T1 := (T.1.1, x', T.2)). set (E := <[5%nat := [hop d]]> none).
  assert (Hstart : send (build P T none) "dm42" dm43_party.1 64 g =
    Ok (d, build P T1 none, mkGenerator (numbers g) (S (spent g)))) by (apply send_dm42; by rewrite Hx).
  unfold test. rewrite Hstart. cbn [mbind outcome_bind]. unfold expect_at. fold (hop d).
  replace (host (build P T1 none) "dm43") with (Ok (Host.mk "dm43" dm43_party.1 T1.2 uun3_party.1 [])) by reflexivity.
  cbn [mbind outcome_bind].
  replace (set_host (build P T1 none) _ _) with (build P T1 E) by reflexivity.
  destruct (ride3 true d (S m) P T1 E Hd Hcalm Hmv) as (T2 & Hn1 & Hw1).
  destruct (forward3 d P T2 E Hd) as (d1 & m2 & T3 & Harr & Hm2 & Hw2 & Hstep); try done.
  { exact leads_dm43. }
  assert (Hok1 : IPv4Datagram.ok (hop d1)).
  { destruct Harr as (Hh1 & _ & Hok1). apply ttl_ok; [done|]. by rewrite Hh1. }
  destruct (ride3 false (hop d1) m2 P T3 E Hok1 Hcalm Hw2) as (T4 & Hn2 & Hy & ca & cb & Hca & Hcb & Hzx & d2 & Harr2 & Hzy).
  apply Forall2_cons_inv_l in Hy as (z & zs' & (c42 & Hc42 & Hz42) & _ & [= <- _]).
  destruct T4 as [[T41 T42] T43]. cbn in Hzx, Hzy, Hz42. subst T41 T42 T43.
  destruct (arrived_expected d d1 d2 Hd ltac:(done) Harr Harr2) as (w & Hwe & Hwd).
  unfold simulate. rewrite (simulate_settles (S m + (1 + m2)) (build P T1 E)
    (build P (resting uun3_party ca, resting dm42_party c42, iface dm43_party [] cb ∅ [d2]) E)).
  - cbn [mbind outcome_bind]. rewrite check_build.
    + cbn [mbind outcome_bind]. eexists _, _, _. split; [reflexivity|]. split; [|split; [split; [|split]|done]].
      * intros j Hj. destruct (Hcalm j Hj) as [Hj1 (cj & Hcj & Hh)]. split; cbn [fst snd]; [done|]. exists cj. by rewrite Hh.
      * by exists ca.
      * by exists c42.
      * by exists cb.
    + intros k Hk. unfold E. rewrite fn_lookup_insert_ne by lia. destruct (Hcalm k Hk) as [_ Hh]. by eapply check_rest.
    + done.
    + intros. unfold E. rewrite fn_lookup_insert.
      apply (check_spec (Host.mk name address (iface dm43_party [] cb ∅ [d2]) next [hop d]) [w] [w]);
        [by repeat constructor..|done].
  - eapply nsteps_trans; [exact Hn1|]. eapply nsteps_trans; [by apply nsteps_once|exact Hn2].
  - lia.
  - apply step_idle; [split; [|done]| |done].
    + intros j Hj. destruct (Hcalm j Hj) as [Hj1 _]. by eapply at_rest_holds.
    + intros j Hj. by apply (exchange_calm j), Hcalm.
Qed.

End run.

(** ** The whole scenario *)

Section scenario.
Import Network.

(** The Ethernet addresses in the order they are drawn, six numbers each: the
    router's seven, then the hosts'. *)
Definition mac_of (g : random_generator) (i : nat) : EthernetAddress :=
  let g := mkGenerator (numbers g) (6 * i + spent g) in
  if (i <? 7)%nat then (random_router_ethernet_address g).1 else (random_host_ethernet_address g).1.

Lemma mac_of_ok g i : addr_ok (mac_of g i).
Proof. unfold mac_of. destruct (i <? 7)%nat; [apply random_router_ok|apply random_host_ok]. Qed.

Lemma mac_of_unicast g i : mac_of g i ≠ ETHERNET_BROADCAST.
Proof. unfold mac_of. destruct (i <? 7)%nat; [done|apply random_host_unicast]. Qed.

(** The network [Network()] makes: nobody has learned anything. *)
Definition new_pairs (mac : nat → EthernetAddress) (k : nat) : AsyncNetworkInterface.t * AsyncNetworkInterface.t :=
  (resting (router_party mac k) ∅, resting (host_party mac k) ∅).

Definition new_triple (mac : nat → EthernetAddress)
    : AsyncNetworkInterface.t * AsyncNetworkInterface.t * AsyncNetworkInterface.t :=
  (resting (uun3_party mac) ∅, resting (dm42_party mac) ∅, resting (dm43_party mac) ∅).

Lemma make_build g :
  make g = Ok (build (mac_of g) (new_pairs (mac_of g)) (new_triple (mac_of g)) none,
    mkGenerator (numbers g) (78 + spent g)).
Proof. reflexivity. Qed.

(** A network at rest in which nobody expects anything. *)
Definition quiet (mac : nat → EthernetAddress) (n : Network.t) : Prop :=
  ∃ P T, n = build mac P T none ∧ (∀ j, (j < 4)%nat → calm mac j (P j)) ∧ calm3 mac T.

(** A part of the scenario that leaves a network at rest at rest. *)
Definition passes (mac : nat → EthernetAddress)
    (f : Network.t → random_generator → outcome (Network.t * random_generator)) : Prop :=
  ∀ n g, quiet mac n → generator_ok g → ∃ n' g', f n g = Ok (n', g') ∧ quiet mac n' ∧ generator_ok g'.

Lemma passes_then mac f (n : Network.t) g (rest : Network.t * random_generator → outcome Network.t) (Q : Network.t → Prop) :
  passes mac f → quiet mac n → generator_ok g →
  (∀ n' g', quiet mac n' → generator_ok g' → ∃ m, rest (n', g') = Ok m ∧ Q m) →
  ∃ m, (ng ← f n g; rest ng) = Ok m ∧ Q m.
Proof.
  intros Hf Hn Hg Hrest. destruct (Hf n g Hn Hg) as (n' & g' & -> & Hn' & Hg'). by apply Hrest.
Qed.

Lemma passes_between mac s t dst :
  (∀ i, addr_ok (mac i)) → s = 1%nat ∨ s = 2%nat → (t < 4)%nat → s ≠ t → 0 ≤ dst < 2 ^ 32 →
  leads table dst (router_id t) (host_party mac t).1 → passes mac (λ n g, test n (host_name s) dst (host_name t) g).
Proof.
  intros Hmac Hs Ht Hst Hdst Hl n g (P & T & -> & Hc & HT) Hg.
  destruct (test_passes mac Hmac s t dst g P T Hs Ht Hst Hdst Hl Hg Hc HT) as (P' & g' & H & Hc' & Hg').
  exists (build mac P' T none), g'. split; [done|]. split; [by exists P', T|done].
Qed.

Lemma passes_dropped mac dst ttl :
  (∀ i, addr_ok (mac i)) → 0 ≤ dst < 2 ^ 32 → 0 ≤ ttl ≤ 1 → passes mac (λ n g, test_dropped n "applesauce" dst ttl g).
Proof.
  intros Hmac Hdst Httl n g (P & T & -> & Hc & HT) Hg.
  destruct (test_dropped_passes mac Hmac 1 dst ttl g P T ltac:(by left) Hdst Httl Hg Hc HT) as (P' & g' & H & Hc' & Hg').
  exists (build mac P' T none), g'. split; [done|]. split; [by exists P', T|done].
Qed.

Lemma passes_shared mac :
  (∀ i, addr_ok (mac i)) → NoDup [mac 4; mac 11; mac 12]%nat →
  Forall (λ a, a ≠ ETHERNET_BROADCAST) [mac 4; mac 11; mac 12]%nat →
  passes mac (λ n g, test n "dm42" (Address.quad 198 178 229 43) "dm43" g).
Proof.
  intros Hmac Hd Hu n g (P & T & -> & Hc & HT) Hg.
  destruct (test_shared_passes mac Hmac Hd Hu g P T Hg Hc HT) as (P' & T' & g' & H & Hc' & HT' & Hg').
  exists (build mac P' T' none), g'. split; [done|]. split; [by exists P', T'|done].
Qed.

(** The address of a host is a constant of the network. *)
Lemma quiet_host mac n i name ip :
  quiet mac n →
  [("cherrypie", Address.quad 192 168 0 2); ("applesauce", Address.quad 10 0 0 2);
   ("dm43", Address.quad 198 178 229 43)] !! i = Some (name, ip) →
  ∃ h, host n name = Ok h ∧ Host.address h = ip.
Proof.
  intros (P & T & -> & _ & _) Hi. destruct i as [|[|[|i]]]; [..|done]; injection Hi as <- <-; by eexists.
Qed.

Lemma quiet_end mac n :
  quiet mac n →
  map_Forall (λ _ h, Host._expecting_to_receive h = [] ∧ AsyncNetworkInterface.datagrams_out (Host.interface h) = [] ∧
    frames_out (Host.interface h) = []) (_hosts n).
Proof.
  intros (P & T & -> & Hc & (_ & (c2 & _ & H2) & (c3 & _ & H3))). cbn [_hosts build].
  repeat apply map_Forall_insert_2; try apply map_Forall_empty;
    cbn [Host._expecting_to_receive Host.interface Host._interface host_at]; rewrite ?H2, ?H3; try done.
  - destruct (Hc 3%nat ltac:(lia)) as [_ (c & _ & ->)]. done.
  - destruct (Hc 2%nat ltac:(lia)) as [_ (c & _ & ->)]. done.
  - destruct (Hc 0%nat ltac:(lia)) as [_ (c & _ & ->)]. done.
  - destruct (Hc 1%nat ltac:(lia)) as [_ (c & _ & ->)]. done.
Qed.

(** [leads] on a concrete destination. *)
Ltac follow := eexists; split; [vm_compute; reflexivity|]; split; [done|]; split; reflexivity.

(** [host(name)] in the scenario, and the next test of it. *)
Ltac at_host i :=
  match goal with
  | Hn : quiet ?mac ?n |- _ =>
    let h := fresh "h" in let Hh := fresh "Hh" in
    destruct (quiet_host mac n i _ _ Hn eq_refl) as (h & -> & Hh);
    cbn [mbind outcome_bind]; rewrite Hh; clear h Hh
  end.

Ltac next_test H :=
  eapply (passes_then _ _ _ _ _ _ H); [eassumption..|];
  repeat match goal with H : quiet _ _ |- _ => clear H end;
  let n := fresh "n" in let g := fresh "g" in intros n g ? ?; cbv beta iota.

(** The test from the host of wire [s] to the one of wire [t]. *)
Ltac cross Hmac s t dst :=
  next_test (passes_between _ s t dst Hmac ltac:(lia) ltac:(lia) ltac:(lia) ltac:(done) ltac:(follow)).

(** The Ethernet addresses of the wire that two hosts share. *)
Definition shared_addresses (n : Network.t) : list EthernetAddress :=
  match Router.interface (_router n) (uun3_id n), host n "dm42", host n "dm43" with
  | Ok x, Ok y, Ok z =>
    map (λ i, NetworkInterface._ethernet_address (AsyncNetworkInterface.base i)) [x; Host.interface y; Host.interface z]
  | _, _, _ => []
  end.

(** What is shown of the scenario holds of the program. *)
Lemma main_succeeds g (P : Network.t → Prop) :
  (∃ n, network_simulator g = Ok n ∧ P n) → ∃ n, network_simulator g = Ok n ∧ main g = Ok EXIT_SUCCESS ∧ P n.
Proof.
  intros (n & Hn & HP). exists n. split; [exact Hn|]. split; [|exact HP].
  exact (f_equal catching (bind_eq _ (λ _, Ok tt) _ Hn)).
Qed.

(** C30: the scenario succeeds for every seed.  Whatever numbers the random generator
    gives, as long as the three Ethernet addresses drawn for the wire that two hosts
    share differ, every datagram of the scenario arrives at the host that expects
    it, once, through the router and with its time to live reduced, no host gets
    anything else, the two datagrams whose time to live is over go nowhere, and the
    network ends with nothing under way; the program returns success. *)
Theorem network_simulator_succeeds (g : random_generator) :
  generator_ok g → (∀ n g', make g = Ok (n, g') → NoDup (shared_addresses n)) →
  ∃ n, network_simulator g = Ok n ∧ main g = Ok EXIT_SUCCESS ∧
    map_Forall (λ _ h, Host._expecting_to_receive h = [] ∧ AsyncNetworkInterface.datagrams_out (Host.interface h) = [] ∧
      frames_out (Host.interface h) = []) (_hosts n).
Proof.
  intros Hg Hdist. apply main_succeeds.
  specialize (Hdist _ _ (make_build g)). unfold network_simulator. rewrite make_build.
  cbn [mbind outcome_bind]. pose proof (mac_of_ok g) as Hmac. set (mac := mac_of g) in *.
  assert (Hd : NoDup [mac 4; mac 11; mac 12]%nat) by exact Hdist.
  assert (Hu : Forall (λ a, a ≠ ETHERNET_BROADCAST) [mac 4; mac 11; mac 12]%nat).
  { repeat apply Forall_cons_2; try apply mac_of_unicast. done. }
  assert (Hq : quiet mac (build mac (new_pairs mac) (new_triple mac) none)).
  { exists (new_pairs mac), (new_triple mac). split; [done|].
    split; [intros j Hj; split; by exists ∅|split; [|split]; by exists ∅]. }
  assert (Hg0 : generator_ok (mkGenerator (numbers g) (78 + spent g))) by done.
  clear Hdist. revert Hq Hg0. generalize (build mac (new_pairs mac) (new_triple mac) none) (mkGenerator (numbers g) (78 + spent g)).
  intros n g0 Hn Hg0.
  at_host 0%nat. cross Hmac 1%nat 2%nat (Address.quad 192 168 0 2).
  at_host 1%nat. cross Hmac 2%nat 1%nat (Address.quad 10 0 0 2).
  cross Hmac 1%nat 0%nat (Address.quad 1 2 3 4).
  cross Hmac 1%nat 3%nat (Address.quad 143 195 131 17).
  cross Hmac 2%nat 3%nat (Address.quad 143 195 193 52).
  cross Hmac 2%nat 3%nat (Address.quad 143 195 223 255).
  cross Hmac 2%nat 0%nat (Address.quad 143 195 224 0).
  at_host 2%nat. next_test (passes_shared mac Hmac Hd Hu).
  next_test (passes_dropped mac (Address.quad 1 2 3 4) 1 Hmac ltac:(done) ltac:(done)).
  next_test (passes_dropped mac (Address.quad 1 2 3 4) 0 Hmac ltac:(done) ltac:(done)).
  eexists. split; [done|]. by apply (quiet_end mac).
Qed.

(** A generator that counts in steps. *)
Definition example_generator : random_generator := mkGenerator (λ n, (Z.of_nat n * 7919 + 104729) mod 2 ^ 32) 0.

Lemma network_simulator_succeeds_witness :
  ∃ n, network_simulator example_generator = Ok n ∧ main example_generator = Ok EXIT_SUCCESS ∧
    map_Forall (λ _ h, Host._expecting_to_receive h = [] ∧ AsyncNetworkInterface.datagrams_out (Host.interface h) = [] ∧
      frames_out (Host.interface h) = []) (_hosts n).
Proof.
  apply (network_simulator_succeeds example_generator).
  - intros i. apply Z.mod_pos_bound. lia.
  - rewrite make_build. intros n g' [= <- <-]. apply (bool_decide_unpack _). vm_compute. exact I.
Defined.

End scenario.
