(* ===== verification/tcp_benchmark.v ===== *)
(** * The benchmark

    Models [apps/tcp_benchmark.cc]: two connections that exchange their segments
    directly, in order or with each batch reversed, until one has sent a string to
    the other and both are closed.  The string and the random initial sequence
    numbers are arguments; measuring and printing the throughput is left out. *)

From S2P Require Import prelude byte_stream wrapping_integers stream_reassembler buffer parser tcp_segment tcp_receiver tcp_sender tcp_state tcp_connection.

Module Benchmark.

(** The local variables of [main_loop]. *)
Record t := mk {
  x : TCPConnection.t;
  y : TCPConnection.t;
  bytes_to_send : Buffer.t;
  x_closed : bool;
  string_received : bytes
}.

#[global] Instance eta_t : Eta t := λ b, mk (x b) (y b) (bytes_to_send b) (x_closed b) (string_received b).

(** The calls of [y.segment_received] on a batch. *)
Fixpoint receive_all (segments : list TCPSegment.t) (c : TCPConnection.t) : outcome TCPConnection.t :=
  match segments with
  | [] => Ok c
  | seg :: segments => c ← TCPConnection.segment_received c seg; receive_all segments c
  end.

(** [while (not x.segments_out().empty()) { ... }]; [queue] is [x]'s. *)
Fixpoint take_segments (queue : list TCPSegment.t) (c : TCPConnection.t) (segments : list TCPSegment.t)
    : TCPConnection.t * list TCPSegment.t :=
  match queue with
  | [] => (c, segments)
  | seg :: queue => take_segments queue (c <| TCPConnection._segments_out := queue |>) (segments ++ [seg])
  end.

(** [move_segments(from, to, segments, reorder)] *)
Definition move_segments (from to : TCPConnection.t) (segments : list TCPSegment.t) (reorder : bool)
    : outcome (TCPConnection.t * TCPConnection.t * list TCPSegment.t) :=
  let '(from, segments) := take_segments (TCPConnection.segments_out from) from segments in
  to ← receive_all (if reorder then reverse segments else segments) to;
  Ok (from, to, []).

(** [while (bytes_to_send.size() and x.remaining_outbound_capacity()) { ... }] *)
Fixpoint write_loop (fuel : nat) (b : t) : outcome t :=
  match fuel with
  | O => Diverge
  | S fuel =>
    let capacity := TCPConnection.remaining_outbound_capacity (x b) in
    if negb (Buffer.size (bytes_to_send b) =? 0) && negb (capacity =? 0) then
      let want := Z.min capacity (Buffer.size (bytes_to_send b)) in
      '(c, written) ← TCPConnection.write (x b) (take (Z.to_nat want) (Buffer.str (bytes_to_send b)));
      let b := b <| x := c |> in
      if negb (want =? written) then Throw runtime_error
      else
        rest ← Buffer.remove_prefix (bytes_to_send b) written;
        write_loop fuel (b <| bytes_to_send := rest |>)
    else Ok b
  end.

(** The lambda [loop]. *)
Definition loop (reorder : bool) (b : t) : outcome t :=
  b ← write_loop (S (length (Buffer.str (bytes_to_send b)))) b;
  b ← (if (Buffer.size (bytes_to_send b) =? 0) && negb (x_closed b) then
         c ← TCPConnection.end_input_stream (x b);
         Ok (b <| x := c |> <| x_closed := true |>)
       else Ok b);
  let segments := [] in
  '(cx, cy, segments) ← move_segments (x b) (y b) segments reorder;
  '(cy, cx, segments) ← move_segments cy cx segments false;
  let available_output := ByteStream.buffer_size (TCPConnection.inbound_stream cy) in
  let '(cy, data) :=
    if available_output >? 0 then
      let '(stream, data) := ByteStream.read (TCPConnection.inbound_stream cy) available_output in
      (cy <| TCPConnection._receiver ::= λ r, r <| TCPReceiver._reassembler ::= λ s,
               s <| StreamReassembler._output := stream |> |> |>, data)
    else (cy, []) in
  cx ← TCPConnection.tick cx 1000;
  cy ← TCPConnection.tick cy 1000;
  Ok (b <| x := cx |> <| y := cy |> <| string_received ::= λ s, s ++ data |>).

(** [while (condition) { loop(); }], for at most [fuel] rounds *)
Fixpoint loop_while (fuel : nat) (condition : t → bool) (reorder : bool) (b : t) : outcome t :=
  match fuel with
  | O => Diverge
  | S fuel =>
    if condition b then b ← loop reorder b; loop_while fuel condition reorder b else Ok b
  end.

(** [main_loop(reorder)], with at most [fuel] rounds of each of its two loops *)
Definition main_loop (fuel : nat) (config : TCPConfig.t) (random_x random_y : Z) (string_to_send : bytes) (reorder : bool)
    : outcome t :=
  let cx := TCPConnection.make config random_x in
  let cy := TCPConnection.make config random_y in
  cx ← TCPConnection.connect cx;
  cy ← TCPConnection.end_input_stream cy;
  let b := mk cx cy (Buffer.of_string string_to_send) false [] in
  b ← loop_while fuel (λ b, negb (ByteStream.eof (TCPConnection.inbound_stream (y b)))) reorder b;
  if bool_decide (string_received b ≠ string_to_send) then Throw runtime_error
  else loop_while fuel (λ b, TCPConnection.active (x b) || TCPConnection.active (y b)) reorder b.

(** [main]: the exit status.  Each run draws its string and its connections' initial
    sequence numbers. *)
Definition main (fuel : nat) (config : TCPConfig.t) (first second : Z * Z * bytes) : outcome Z :=
  catching (_ ← main_loop fuel config first.1.1 first.1.2 first.2 false;
            _ ← main_loop fuel config second.1.1 second.1.2 second.2 true;
            Ok tt).

End Benchmark.

(** ** Lemmas *)

Section benchmark.
Import Benchmark.
Context (cfg : TCPConfig.t) (S : bytes) (isn : WrappingInt32) (Hcfg : TCPConfig.ok cfg).

(** The loop writes until the input or the room is used up. *)
Lemma write_loop_spec fuel a b :
  TCPConnection.inv cfg S isn a (x b) → Buffer.wf (bytes_to_send b) →
  len (ByteStreamSpec.accepted a) + len (Buffer.str (bytes_to_send b)) < 2 ^ 62 →
  (length (Buffer.str (bytes_to_send b)) < fuel)%nat →
  ∃ a' b' now, write_loop fuel b = Ok b' ∧ TCPConnection.inv cfg S isn a' (x b') ∧
    Buffer.str (bytes_to_send b) = now ++ Buffer.str (bytes_to_send b') ∧
    ByteStreamSpec.accepted a' = ByteStreamSpec.accepted a ++ now ∧
    (Buffer.str (bytes_to_send b') = [] ∨ TCPConnection.remaining_outbound_capacity (x b') = 0) ∧
    y b' = y b ∧ x_closed b' = x_closed b ∧ string_received b' = string_received b.
Proof.
  revert a b. induction fuel as [|fuel IH]; intros a b Hi Hwf HA Hfuel; [lia|]. cbn [write_loop].
  set (room := TCPConnection.remaining_outbound_capacity (x b)).
  assert (Hroom : 0 ≤ room) by apply u64_bound. unfold Buffer.size.
  destruct (negb (len (Buffer.str (bytes_to_send b)) =? 0) && negb (room =? 0)) eqn:E.
  - apply andb_prop in E as [E1 E2]. set (want := Z.min room _).
    pose proof (len_nonneg (Buffer.str (bytes_to_send b))).
    set (data := take (Z.to_nat want) (Buffer.str (bytes_to_send b))).
    assert (Hdata : len data = want) by (unfold data; rewrite len_take; lia).
    destruct (write_returns cfg S isn a (x b) data Hcfg Hi) as (a1 & c & Hw & Hi1 & HA1 & _); [lia|fold room; lia|].
    rewrite Hw. cbn [mbind outcome_bind]. rewrite Hdata, Z.eqb_refl. cbn [negb bytes_to_send upd eta].
    destruct (buffer_remove_prefix_spec (bytes_to_send b) want Hwf) as (rest & Hr & Hwf' & Hs'); [lia|].
    rewrite Hr. cbn [mbind outcome_bind].
    assert (Hsplit : Buffer.str (bytes_to_send b) = data ++ Buffer.str rest) by (rewrite Hs'; symmetry; apply take_drop).
    pose proof (f_equal len Hsplit) as Hlen. rewrite len_app in Hlen.
    set (b1 := mk c (y b) rest (x_closed b) (string_received b)). change (write_loop fuel _) with (write_loop fuel b1).
    destruct (IH a1 b1) as (a' & b' & now & -> & Hi' & Hnow & HA' & Hend & Hrest); try done.
    { rewrite HA1, len_app. cbn. lia. }
    { cbn. unfold len in *. lia. }
    exists a', b', (data ++ now). split; [done|]. split; [done|].
    split; [by rewrite Hsplit, <- app_assoc, <- Hnow|]. split; [by rewrite HA', HA1, app_assoc|done].
  - exists a, b, []. rewrite app_nil_r. split; [done|]. split_and!; try done.
    apply andb_false_iff in E as [E|E]; [left; apply len_zero_nil; lia|right; fold room; lia].
Qed.

(** Moving a batch hands over the whole queue. *)
Lemma take_segments_spec queue c segments :
  queue = TCPConnection._segments_out c →
  take_segments queue c segments = (c <| TCPConnection._segments_out := [] |>, segments ++ queue).
Proof.
  revert c segments. induction queue as [|seg queue IH]; intros c segments Hq; cbn [take_segments].
  { rewrite app_nil_r. destruct c. cbn in *. by subst. }
  rewrite IH by done. by rewrite <- app_assoc.
Qed.

Lemma receive_all_foldl segments c :
  receive_all segments c = foldl (λ c seg, c ← c; TCPConnection.segment_received c seg) (Ok c) segments.
Proof.
  revert c. induction segments as [|seg segments IH]; intros c; cbn [receive_all foldl mbind outcome_bind]; [done|].
  destruct (TCPConnection.segment_received c seg) as [c'| e | |]; cbn [mbind outcome_bind]; [by apply IH|..];
    clear IH; by induction segments.
Qed.

End benchmark.

(** ** Properties *)

Section benchmark_properties.
Import Benchmark.

(** The benchmark's writer never fails.  Whatever state the sending connection
    is in, the loop that feeds it ends, its check that everything offered was
    written never throws, the connection's stream has grown by exactly the bytes
    taken from the input, and the loop stops only when the input or the room for
    it is used up. *)
Theorem benchmark_writes (cfg : TCPConfig.t) (S : bytes) (isn : WrappingInt32) (b : t) :
  TCPConfig.ok cfg → len S < 2 ^ 63 → seq_ok isn → TCPConnection.reach cfg S isn (x b) →
  TCPSender._next_seqno (TCPConnection._sender (x b)) < 2 ^ 61 →
  Buffer.wf (bytes_to_send b) → len (Buffer.str (bytes_to_send b)) < 2 ^ 60 →
  ∃ b' now, write_loop (Datatypes.S (length (Buffer.str (bytes_to_send b)))) b = Ok b' ∧
    Buffer.str (bytes_to_send b) = now ++ Buffer.str (bytes_to_send b') ∧
    (∃ a a', TCPConnection.inv cfg S isn a (x b) ∧ TCPConnection.inv cfg S isn a' (x b') ∧
       ByteStreamSpec.accepted a' = ByteStreamSpec.accepted a ++ now) ∧
    (Buffer.str (bytes_to_send b') = [] ∨ TCPConnection.remaining_outbound_capacity (x b') = 0).
Proof.
  intros Hcfg HS Hisn Hreach Hn Hwf Hlen.
  destruct (connection_reach_inv cfg S isn Hcfg HS Hisn (x b) Hreach) as [a Hi].
  pose proof (accepted_le_next cfg a _ (TCPConnection.inv_sender _ _ _ _ _ Hi)). pose proof (send_capacity_ok cfg Hcfg).
  destruct (write_loop_spec cfg S isn Hcfg (Datatypes.S (length (Buffer.str (bytes_to_send b)))) a b)
    as (a' & b' & now & Hw & Hi' & Hnow & HA' & Hend & _); [done..|lia|lia|].
  exists b', now. split; [done|]. split; [done|]. split; [by exists a, a'|done].
Qed.

(** Moving a batch of segments is delivering the sender's queue, in order or
    reversed, each segment once: it empties the queue, leaves the scratch vector
    empty, and has the same effect on the receiving connection as those calls in
    that order. *)
Theorem moving_is_delivering (from to : TCPConnection.t) (reorder : bool) :
  move_segments from to [] reorder =
    (to' ← foldl (λ c seg, c ← c; TCPConnection.segment_received c seg) (Ok to)
             (if reorder then reverse (TCPConnection._segments_out from) else TCPConnection._segments_out from);
     Ok (from <| TCPConnection._segments_out := [] |>, to', [])).
Proof.
  unfold move_segments. rewrite take_segments_spec by done. cbn [app]. by rewrite receive_all_foldl.
Qed.

(** Twelve bytes between connections with room for eight, in order and with each
    batch reversed. *)
Definition tiny_config : TCPConfig.t := TCPConfig.mk 1000 8 8 None.
Definition twelve : bytes := [1; 2; 3; 4; 5; 6; 7; 8; 9; 10; 11; 12].

Definition run_of (reorder : bool) : outcome t := main_loop 20 tiny_config 12345 4294967290 twelve reorder.

(** The benchmark on a small input: it ends, with what was sent received and both
    connections closed, also when each batch is reversed. *)
Theorem benchmark_runs (reorder : bool) :
  ∃ b, run_of reorder = Ok b ∧ string_received b = twelve ∧
    TCPConnection.active (x b) = false ∧ TCPConnection.active (y b) = false.
Proof. destruct reorder; (eexists; split; [vm_compute; reflexivity|done]). Qed.

(** The program on that input, once in order and once reversed, returns success; too
    little fuel is reported as such and not as a failure of the program. *)
Example benchmark_main :
  main 20 tiny_config (12345, 4294967290, twelve) (7, 99, twelve) = Ok EXIT_SUCCESS ∧
  main 1 tiny_config (12345, 4294967290, twelve) (7, 99, twelve) = Diverge.
Proof. split; vm_compute; reflexivity. Qed.

Definition writing : t := mk (TCPConnection.make tiny_config 12345) (TCPConnection.make tiny_config 7)
  (Buffer.of_string twelve) false [].

Lemma benchmark_writes_witness :
  ∃ b' now, write_loop 13 writing = Ok b' ∧ twelve = now ++ Buffer.str (bytes_to_send b') ∧
    (∃ a a', TCPConnection.inv tiny_config [] (mkWrappingInt32 0) a (x writing) ∧
       TCPConnection.inv tiny_config [] (mkWrappingInt32 0) a' (x b') ∧
       ByteStreamSpec.accepted a' = ByteStreamSpec.accepted a ++ now) ∧
    (Buffer.str (bytes_to_send b') = [] ∨ TCPConnection.remaining_outbound_capacity (x b') = 0).
Proof.
  apply (benchmark_writes tiny_config [] (mkWrappingInt32 0) writing).
  - unfold TCPConfig.ok. cbn. split_and!; try done; lia.
  - done.
  - unfold seq_ok. cbn. lia.
  - apply TCPConnection.reach_make.
  - cbn. lia.
  - apply wf_of_string. unfold len. cbn. lia.
  - done.
Defined.

End benchmark_properties.
