(* ===== verification/lab7.v ===== *)
(** * The program that talks through two routers

    Models [apps/lab7.cc]: the adapter between a socket and a network interface,
    the socket, the router each of the two sides runs, and the thread that moves
    frames between the host, the router and the Internet.  The adapter's end of the
    datagram socket pair is the device of [adapters.v]; the thread's end and the
    UDP socket are descriptors of its event loop, and what the kernel answers to
    the calls of a rule is a queue in the state, as in [tcp_sponge_socket.v].
    What is printed is left out. *)

From stdpp Require Import strings.
From S2P Require Import prelude text buffer parser internet_checksum tcp_segment ipv4 ethernet tcp_sender tcp_connection network_interface router adapters file_descriptor socket eventloop tcp_sponge_socket network_simulator.

Module Lab7.

(** The two functions are those of [network_simulator.cc], word for word. *)
Definition random_host_ethernet_address (g : random_generator) : EthernetAddress * random_generator :=
  network_simulator.random_host_ethernet_address g.

Definition random_router_ethernet_address (g : random_generator) : EthernetAddress * random_generator :=
  network_simulator.random_router_ethernet_address g.

End Lab7.

Module NetworkInterfaceAdapter.

(** The members of the class, its base included. *)
Record t := mk {
  base : FdAdapterBase.t;
  _interface : NetworkInterface.t;
  _next_hop : Address.t
}.

#[global] Instance eta_t : Eta t := λ a, mk (base a) (_interface a) (_next_hop a).

Definition make (ip_address next_hop : Address.t) (g : random_generator) : t * random_generator :=
  let '(addr, g) := Lab7.random_host_ethernet_address g in
  (mk FdAdapterBase.default (NetworkInterface.make addr (Address.ipv4_numeric ip_address)) next_hop, g).

(** [while (not _interface.frames_out().empty()) { ... }]; [queue] is the
    interface's. *)
Fixpoint pending_loop (queue : list EthernetFrame.t) (a : t) (out : list BufferList.t) : t * list BufferList.t :=
  match queue with
  | [] => (a, out)
  | frame :: queue =>
    pending_loop queue (a <| _interface ::= λ n, n <| NetworkInterface._frames_out := queue |> |>)
      (out ++ [EthernetFrame.serialize frame])
  end.

Definition send_pending (a : t) : t * list BufferList.t :=
  pending_loop (NetworkInterface.frames_out (_interface a)) a [].

(** [read], with the bytes [_data_socket_pair.first.read()] returns. *)
Definition read (a : t) (data : bytes) : outcome (option TCPSegment.t * t * list BufferList.t) :=
  '(res, frame) ← EthernetFrame.parse EthernetFrame.default (Buffer.of_string data);
  if bool_decide (res ≠ NoError) then Ok (None, a, [])
  else
    '(n, ip_dgram) ← NetworkInterface.recv_frame (_interface a) frame;
    let a := a <| _interface := n |> in
    let '(a, out) := send_pending a in
    match ip_dgram with
    | Some ip_dgram =>
      '(seg, b) ← TCPOverIPv4Adapter.unwrap_tcp_in_ip (base a) ip_dgram;
      Ok (seg, a <| base := b |>, out)
    | None => Ok (None, a, out)
    end.

Definition write (a : t) (seg : TCPSegment.t) : outcome (t * list BufferList.t) :=
  '(ip_dgram, _) ← TCPOverIPv4Adapter.wrap_tcp_in_ip (base a) seg;
  n ← NetworkInterface.send_datagram (_interface a) ip_dgram (Address.ipv4_numeric (_next_hop a));
  Ok (send_pending (a <| _interface := n |>)).

Definition tick (a : t) (ms_since_last_tick : Z) : t * list BufferList.t :=
  let a := a <| _interface ::= λ n, NetworkInterface.tick n ms_since_last_tick |> in
  send_pending a.

(** ** The same as the adapter over a TAP device *)

Definition to_tap (a : t) : TCPOverIPv4OverEthernetAdapter.t :=
  TCPOverIPv4OverEthernetAdapter.mk (base a) (_interface a) (_next_hop a).

Definition of_tap (a : TCPOverIPv4OverEthernetAdapter.t) : t :=
  mk (TCPOverIPv4OverEthernetAdapter.base a) (TCPOverIPv4OverEthernetAdapter._interface a)
     (TCPOverIPv4OverEthernetAdapter._next_hop a).

End NetworkInterfaceAdapter.

Section interface_adapter.
Import NetworkInterfaceAdapter.

Lemma pending_loop_tap queue a out :
  pending_loop queue a out =
    (of_tap (TCPOverIPv4OverEthernetAdapter.pending_loop queue (to_tap a) out).1,
     (TCPOverIPv4OverEthernetAdapter.pending_loop queue (to_tap a) out).2).
Proof. revert a out. induction queue as [|f queue IH]; intros a out; cbn; [by destruct a|]. by rewrite IH. Qed.

Lemma send_pending_tap a :
  send_pending a =
    (a <| _interface ::= λ n, n <| NetworkInterface._frames_out := [] |> |>,
     map EthernetFrame.serialize (NetworkInterface._frames_out (_interface a))).
Proof.
  unfold send_pending. rewrite pending_loop_tap.
  change (TCPOverIPv4OverEthernetAdapter.pending_loop _ _ _) with
    (TCPOverIPv4OverEthernetAdapter.send_pending (to_tap a)).
  by rewrite send_pending_spec.
Qed.

(** Each operation is the TAP adapter's. *)
Lemma read_tap a data :
  read a data =
    ('(o, a, out) ← TCPOverIPv4OverEthernetAdapter.read (to_tap a) data; Ok (o, of_tap a, out)).
Proof.
  unfold read, TCPOverIPv4OverEthernetAdapter.read. destruct (EthernetFrame.parse _ _) as [[res f]| | |]; try done.
  cbn [mbind outcome_bind]. case_bool_decide; [by destruct a|].
  change (TCPOverIPv4OverEthernetAdapter._interface (to_tap a)) with (_interface a).
  destruct (NetworkInterface.recv_frame _ f) as [[n o]| | |]; try done. cbn [mbind outcome_bind].
  rewrite send_pending_tap, send_pending_spec. destruct o as [d|]; [|done]. cbn.
  by destruct (TCPOverIPv4Adapter.unwrap_tcp_in_ip _ d) as [[]| | |].
Qed.

Lemma write_tap a seg :
  write a seg = ('(a, out) ← TCPOverIPv4OverEthernetAdapter.write (to_tap a) seg; Ok (of_tap a, out)).
Proof.
  unfold write, TCPOverIPv4OverEthernetAdapter.write. change (TCPOverIPv4OverEthernetAdapter.base (to_tap a)) with (base a).
  destruct (TCPOverIPv4Adapter.wrap_tcp_in_ip _ seg) as [[d s]| | |]; try done. cbn.
  destruct (NetworkInterface.send_datagram _ d _); try done. cbn. by rewrite send_pending_tap, send_pending_spec.
Qed.

#[export] Program Instance interface_adapter : DatagramAdapter t bytes BufferList.t := {|
  adapter_base := base;
  adapter_set_base a b := a <| base := b |>;
  adapter_read := read;
  adapter_write := write;
  adapter_tick := tick
|}.
Next Obligation. done. Qed.
Next Obligation.
  intros a data o a' outs. rewrite read_tap.
  destruct (TCPOverIPv4OverEthernetAdapter.read _ _) as [[[o1 a1] out1]| | |] eqn:E; try done. cbn.
  intros [= <- <- <-]. exact (adapter_read_law (to_tap a) data o1 a1 out1 E).
Qed.
Next Obligation.
  intros a seg a' outs. rewrite write_tap.
  destruct (TCPOverIPv4OverEthernetAdapter.write _ _) as [[a1 out1]| | |] eqn:E; try done. cbn.
  intros [= <- <-]. exact (adapter_write_law (to_tap a) seg a1 out1 E).
Qed.
Next Obligation. intros a ms. unfold tick. by rewrite send_pending_tap. Qed.

End interface_adapter.

Module TCPSocketLab7.

(** The socket it derives from and its own member. *)
Record t := mk {
  sponge : @TCPSpongeSocket.t NetworkInterfaceAdapter.t bytes BufferList.t;
  _local_address : Address.t
}.

#[global] Instance eta_t : Eta t := λ s, mk (sponge s) (_local_address s).

(** [connect(address)]; [random_port] is what [random_device()()] gives, the rest
    is what [TCPSpongeSocket::connect] meets. *)
Definition connect (s : t) (address : Address.t) (random_port random base_time : Z)
    (its : list TCPSpongeSocket.iteration)
    : outcome (t * list (EventLoop.Rule (@TCPSpongeSocket.t NetworkInterfaceAdapter.t bytes BufferList.t)) * bool) :=
  let multiplexer_config := FdAdapterConfig.default in
  let s := s <| _local_address ::= λ a, Address.mk (Address.ipv4_numeric a) (u16 random_port) |> in
  let multiplexer_config := multiplexer_config <| FdAdapterConfig.source := _local_address s |> in
  let multiplexer_config := multiplexer_config <| FdAdapterConfig.destination := address |> in
  '(rs, w, ended) ← TCPSpongeSocket.connect (sponge s) TCPConfig.default multiplexer_config random base_time its;
  Ok (s <| sponge := w |>, rs, ended).

(** The two addresses are compared by their dotted quads. *)
Definition bind (s : t) (address : Address.t) : outcome t :=
  if negb (Address.ipv4_numeric address =? Address.ipv4_numeric (_local_address s)) then Throw runtime_error
  else Ok (s <| _local_address ::= λ a, Address.mk (Address.ipv4_numeric a) (Address.port address) |>).

Definition listen_and_accept (s : t) (random base_time : Z) (its : list TCPSpongeSocket.iteration)
    : outcome (t * list (EventLoop.Rule (@TCPSpongeSocket.t NetworkInterfaceAdapter.t bytes BufferList.t)) * bool) :=
  let multiplexer_config := FdAdapterConfig.default in
  let multiplexer_config := multiplexer_config <| FdAdapterConfig.source := _local_address s |> in
  '(rs, w, ended) ← TCPSpongeSocket.listen_and_accept (sponge s) TCPConfig.default multiplexer_config random base_time its;
  Ok (s <| sponge := w |>, rs, ended).

End TCPSocketLab7.

(** ** The network thread *)

Module NetworkThread.
Import FileDescriptor.

(** What the thread's lambda captures: the router, the numbers of its two
    interfaces, the thread's end of the socket pair and the UDP socket, and where
    the latter sends.  Then the kernel's answers to come ([::read] on either
    descriptor, the calls of [::writev] of one [write], [::sendmsg]), and what was
    sent to the host and to the Internet. *)
Record t := mk {
  router : Router.t;
  host_side : Z;
  internet_side : Z;
  frame_fd : FDWrapper;
  internet_socket : FDWrapper;
  bounce_address : Address.t;
  from_host : list (sysret * bytes);
  from_internet : list (sysret * bytes);
  host_writes : list (list sysret);
  internet_sends : list sysret;
  to_host : list bytes;
  to_internet : list (Address.t * bytes)
}.

#[global] Instance eta_t : Eta t := λ w,
  mk (router w) (host_side w) (internet_side w) (frame_fd w) (internet_socket w) (bounce_address w)
     (from_host w) (from_internet w) (host_writes w) (internet_sends w) (to_host w) (to_internet w).

Definition descriptor (w : t) (i : nat) : FDWrapper :=
  match i with O => frame_fd w | S _ => internet_socket w end.

(** [numeric_limits<size_t>::max()] *)
Definition no_limit : Z := 2 ^ 64 - 1.

(** Assignment through [router.interface(id)]. *)
Definition set_interface (w : t) (id : Z) (i : AsyncNetworkInterface.t) : t :=
  w <| router ::= λ r, r <| Router._interfaces ::= <[Z.to_nat id := i]> |> |>.

(** What both of the reading callbacks do with the bytes read: parse them, hand
    the frame to interface [id], route. *)
Definition receive (w : t) (id : Z) (data : bytes) : outcome t :=
  '(res, frame) ← EthernetFrame.parse EthernetFrame.default (Buffer.of_string data);
  if bool_decide (res ≠ NoError) then Ok w
  else
    i ← Router.interface (router w) id;
    i ← AsyncNetworkInterface.recv_frame i frame;
    let w := set_interface w id i in
    r ← Router.route (router w);
    Ok (w <| router := r |>).

(** [router.interface(id).frames_out()] *)
Definition frames_out (w : t) (id : Z) : outcome (list EthernetFrame.t) :=
  i ← Router.interface (router w) id;
  Ok (NetworkInterface.frames_out (AsyncNetworkInterface.base i)).

(** [f.pop()] on that queue *)
Definition pop_frame (w : t) (id : Z) (rest : list EthernetFrame.t) : outcome t :=
  i ← Router.interface (router w) id;
  Ok (set_interface w id (i <| AsyncNetworkInterface.base ::= λ n, n <| NetworkInterface._frames_out := rest |> |>)).

(** Frames from host to router *)
Definition rule1_callback (w : t) : outcome t :=
  match from_host w with
  | [] => Diverge
  | (r, contents) :: rest =>
    '(data, f) ← FileDescriptor.read (frame_fd w) no_limit r contents;
    receive (w <| from_host := rest |> <| frame_fd := f |>) (host_side w) data
  end.

Definition always (w : t) : bool := true.

(** Frames from router to host *)
Definition rule2_callback (w : t) : outcome t :=
  f ← frames_out w (host_side w);
  match f with
  | [] => UB
  | frame :: f =>
    match host_writes w with
    | [] => Diverge
    | rs :: rest =>
      '(_, fd, taken) ←
        FileDescriptor.write (frame_fd w) (BufferViewList.of_list (EthernetFrame.serialize frame)) true rs;
      pop_frame (w <| host_writes := rest |> <| frame_fd := fd |> <| to_host ::= λ l, l ++ [taken] |>)
        (host_side w) f
    end
  end.

(** [not router.interface(id).frames_out().empty()] *)
Definition waiting (id : t → Z) (w : t) : bool :=
  match frames_out w (id w) with Ok (_ :: _) => true | _ => false end.

(** Frames from router to Internet *)
Definition rule3_callback (w : t) : outcome t :=
  f ← frames_out w (internet_side w);
  match f with
  | [] => UB
  | frame :: f =>
    match internet_sends w with
    | [] => Diverge
    | r :: rest =>
      '(fd, message) ← UDPSocket.sendto (internet_socket w) (bounce_address w)
                         (BufferViewList.of_list (EthernetFrame.serialize frame)) r;
      pop_frame (w <| internet_sends := rest |> <| internet_socket := fd |> <| to_internet ::= λ l, l ++ [message] |>)
        (internet_side w) f
    end
  end.

(** Frames from Internet to router *)
Definition rule4_callback (w : t) : outcome t :=
  match from_internet w with
  | [] => Diverge
  | (r, contents) :: rest =>
    '(data, f) ← FileDescriptor.read (internet_socket w) no_limit r contents;
    receive (w <| from_internet := rest |> <| internet_socket := f |>) (internet_side w) data
  end.

Definition no_cancel (w : t) : outcome t := Ok w.

Definition rules : list (EventLoop.Rule t) :=
  let rs := EventLoop.add_rule [] 0 EventLoop.In rule1_callback always no_cancel in
  let rs := EventLoop.add_rule rs 0 EventLoop.Out rule2_callback (waiting host_side) no_cancel in
  let rs := EventLoop.add_rule rs 1 EventLoop.Out rule3_callback (waiting internet_side) no_cancel in
  EventLoop.add_rule rs 1 EventLoop.In rule4_callback always no_cancel.

(** [router.interface(id).tick(50)] *)
Definition tick_interface (w : t) (id : Z) : outcome t :=
  i ← Router.interface (router w) id;
  Ok (set_interface w id (i <| AsyncNetworkInterface.base ::= λ n, NetworkInterface.tick n 50 |>)).

(** What a round of the loop meets: the answer of [poll] and [exit_flag]. *)
Record iteration := mkIteration {
  poll : list EventLoop.pollfd → sysret * list Z;
  exit_flag : bool
}.

(** [while (true) { ... }]: the rules left, the state, and whether the loop has
    ended; if not, it goes on after the last round given. *)
Fixpoint network_loop (rs : list (EventLoop.Rule t)) (its : list iteration) (w : t)
    : outcome (list (EventLoop.Rule t) * t * bool) :=
  match its with
  | [] => Ok (rs, w, false)
  | it :: its =>
    '(ret, rs, w) ← EventLoop.wait_next_event descriptor rs w (poll it);
    match ret with
    | EventLoop.Exit => Ok (rs, w, true)
    | _ =>
      w ← tick_interface w (host_side w);
      w ← tick_interface w (internet_side w);
      if exit_flag it then Ok (rs, w, true) else network_loop rs its w
    end
  end.

(** [network_thread]: an exception ends the thread. *)
Definition network_thread (its : list iteration) (w : t) : outcome (option (list (EventLoop.Rule t) * t * bool)) :=
  match network_loop rules its w with
  | Ok x => Ok (Some x)
  | Throw _ => Ok None
  | UB => UB
  | Diverge => Diverge
  end.

End NetworkThread.

(** ** The program *)

Module Lab7Program.

(** "let bouncer know where we are", where the calls of [::sendmsg] give [r1], [r2]
    and [r3]: the socket and the three datagrams sent *)
Definition announce (internet_socket : FileDescriptor.FDWrapper) (bounce_address : Address.t) (r1 r2 r3 : sysret)
    : outcome (FileDescriptor.FDWrapper * list (Address.t * bytes)) :=
  '(f, m1) ← UDPSocket.sendto internet_socket bounce_address (BufferViewList.of_string []) r1;
  '(f, m2) ← UDPSocket.sendto f bounce_address (BufferViewList.of_string []) r2;
  '(f, m3) ← UDPSocket.sendto f bounce_address (BufferViewList.of_string []) r3;
  Ok (f, [m1; m2; m3]).

(** [router.add_interface({random_router_ethernet_address(), {ip}})] *)
Definition add_router_interface (r : Router.t) (ip : Z) (g : random_generator) : Router.t * Z * random_generator :=
  let '(addr, g) := Lab7.random_router_ethernet_address g in
  let '(r, id) := Router.add_interface r (AsyncNetworkInterface.make (NetworkInterface.make addr ip)) in
  (r, id, g).

(** "set up the router": the router, [host_side] and [internet_side] *)
Definition set_up_router (is_client : bool) (g : random_generator) : outcome (Router.t * Z * Z * random_generator) :=
  let r := Router.empty in
  if is_client then
    let '(r, host_side, g) := add_router_interface r (Address.quad 192 168 0 1) g in
    let '(r, internet_side, g) := add_router_interface r (Address.quad 10 0 0 192) g in
    r ← Router.add_route r (Address.quad 192 168 0 0) 16 None host_side;
    r ← Router.add_route r (Address.quad 10 0 0 0) 8 None internet_side;
    r ← Router.add_route r (Address.quad 172 16 0 0) 12 (Some (Address.quad 10 0 0 172)) internet_side;
    Ok (r, host_side, internet_side, g)
  else
    let '(r, host_side, g) := add_router_interface r (Address.quad 172 16 0 1) g in
    let '(r, internet_side, g) := add_router_interface r (Address.quad 10 0 0 172) g in
    r ← Router.add_route r (Address.quad 172 16 0 0) 12 None host_side;
    r ← Router.add_route r (Address.quad 10 0 0 0) 8 None internet_side;
    r ← Router.add_route r (Address.quad 192 168 0 0) 16 (Some (Address.quad 10 0 0 192)) internet_side;
    Ok (r, host_side, internet_side, g).

(** "set up the client": the arguments of the socket's constructor, its own
    address and its next hop *)
Definition socket_addresses (is_client : bool) : Address.t * Address.t :=
  if is_client then (Address.mk (Address.quad 192 168 0 50) 0, Address.mk (Address.quad 192 168 0 1) 0)
  else (Address.mk (Address.quad 172 16 0 100) 0, Address.mk (Address.quad 172 16 0 1) 0).

Definition server_address : Address.t := Address.mk (Address.quad 172 16 0 100) 1234.

(** [TCPSocketLab7(ip_address, next_hop)], the rest being what the constructor of
    [TCPSpongeSocket] meets. *)
Definition make_socket (ip_address next_hop : Address.t) (r : sysret) (fd0 fd1 : Z)
    (adapter_fd : FileDescriptor.FDWrapper) (k : TCPSpongeSocket.env)
    (so : Socket.sockopt * Socket.sockopt * Socket.sockopt * Socket.sockopt)
    (r1 r2 : sysret) (g : random_generator) : outcome (TCPSocketLab7.t * random_generator) :=
  let '(adapter, g) := NetworkInterfaceAdapter.make ip_address next_hop g in
  w ← TCPSpongeSocket.of_adapter r fd0 fd1 adapter adapter_fd k so r1 r2;
  Ok (TCPSocketLab7.mk w ip_address, g).

(** [if (is_client) { ... } else { ... }] *)
Definition open_socket (is_client : bool) (sock : TCPSocketLab7.t) (random_port random base_time : Z)
    (its : list TCPSpongeSocket.iteration)
    : outcome (TCPSocketLab7.t *
        list (EventLoop.Rule (@TCPSpongeSocket.t NetworkInterfaceAdapter.t bytes BufferList.t)) * bool) :=
  if is_client then TCPSocketLab7.connect sock server_address random_port random base_time its
  else
    sock ← TCPSocketLab7.bind sock server_address;
    TCPSocketLab7.listen_and_accept sock random base_time its.

(** [main]: the exit status, none if it aborts; [program_body] is the function of
    that name.  [argv] has [argc] elements. *)
Definition main (program_body : bool → string → string → bool → outcome unit) (argv : list string)
    : outcome (option Z) :=
  match argv with
  | [] => Ok None
  | [_; role; host; port] | [_; role; host; port; _] =>
    if bool_decide (role ≠ "client") && bool_decide (role ≠ "server") then Ok (Some EXIT_FAILURE)
    else
      match program_body (bool_decide (role = "client")) host port (len argv =? 5) with
      | Ok _ => Ok (Some EXIT_SUCCESS)
      | Throw _ => Ok (Some EXIT_FAILURE)
      | UB => UB
      | Diverge => Diverge
      end
  | _ => Ok (Some EXIT_FAILURE)
  end.

End Lab7Program.

(** ** The routers *)

Section routers.
Import Lab7Program Router.

(** The two parties on each side of the router of a role: its host and its own
    interfaces. *)
Definition host_ip (is_client : bool) : Z := Address.ipv4_numeric (socket_addresses is_client).1.
Definition gateway_ip (is_client : bool) : Z := Address.ipv4_numeric (socket_addresses is_client).2.
Definition uplink_ip (is_client : bool) : Z := if is_client then Address.quad 10 0 0 192 else Address.quad 10 0 0 172.

(** The network and the prefix length of the host of a role. *)
Definition host_net (is_client : bool) : Z * Z :=
  if is_client then (Address.quad 192 168 0 0, 16) else (Address.quad 172 16 0 0, 12).

Definition in_net (net : Z * Z) (dst : Z) : bool := dst / 2 ^ (32 - net.2) =? net.1 / 2 ^ (32 - net.2).

(** The table of a role. *)
Definition lab7_table (is_client : bool) : list RouteEntry :=
  let mask k := 2 ^ 32 - 2 ^ (32 - k) in
  let own := host_net is_client in
  let peer := host_net (negb is_client) in
  [mkRouteEntry own.1 own.2 None 0 (mask own.2);
   mkRouteEntry (Address.quad 10 0 0 0) 8 None 1 (mask 8);
   mkRouteEntry peer.1 peer.2 (Some (uplink_ip (negb is_client))) 1 (mask peer.2)].

Definition lab7_interface (ip : Z) (mac : EthernetAddress) : AsyncNetworkInterface.t :=
  AsyncNetworkInterface.make (NetworkInterface.make mac ip).

Lemma set_up_router_spec is_client g :
  let '(mac0, g1) := Lab7.random_router_ethernet_address g in
  let '(mac1, g2) := Lab7.random_router_ethernet_address g1 in
  set_up_router is_client g =
    Ok (mk [lab7_interface (gateway_ip is_client) mac0; lab7_interface (uplink_ip is_client) mac1]
           (lab7_table is_client), 0, 1, g2).
Proof.
  destruct (Lab7.random_router_ethernet_address g) as [mac0 g1] eqn:E0.
  destruct (Lab7.random_router_ethernet_address g1) as [mac1 g2] eqn:E1.
  assert (H : ∀ r ip g mac g', Lab7.random_router_ethernet_address g = (mac, g') →
    add_router_interface r ip g =
      (r <| _interfaces ::= λ l, l ++ [lab7_interface ip mac] |>, u64 (len (_interfaces r) + 1 - 1), g')).
  { intros r ip g0 mac g' E. unfold add_router_interface. rewrite E. cbn. by rewrite len_app. }
  unfold set_up_router. by destruct is_client; rewrite (H _ _ _ _ _ E0), (H _ _ _ _ _ E1).
Qed.

(** Where the table sends a destination: to the network of the host, to the one
    between the routers, or to the other router. *)
Definition lab7_way (is_client : bool) (dst : Z) : option (Z * Z) :=
  if in_net (host_net is_client) dst then Some (0, dst)
  else if in_net (Address.quad 10 0 0 0, 8) dst then Some (1, dst)
  else if in_net (host_net (negb is_client)) dst then Some (1, uplink_ip (negb is_client))
  else None.

Lemma entry_tests is_client dst :
  0 ≤ dst < 2 ^ 32 →
  Forall2 (λ e b, (Z.land dst (_prefix_mask e) =? _route_prefix e) = b) (lab7_table is_client)
    [in_net (host_net is_client) dst; in_net (Address.quad 10 0 0 0, 8) dst; in_net (host_net (negb is_client)) dst].
Proof.
  intros Hd. unfold lab7_table, in_net.
  destruct is_client; repeat (apply Forall2_cons; split); try apply Forall2_nil_2;
    cbn [_prefix_mask _route_prefix host_net negb fst snd]; rewrite land_mask by lia;
    match goal with |- (_ / ?m * _ =? ?p) = (_ =? ?q) => change q with (p / m) end;
    apply Bool.eq_iff_eq_true; rewrite !Z.eqb_eq; split; intros H.
  all: try (rewrite <- H; by rewrite Z.div_mul by lia).
  all: rewrite H; reflexivity.
Qed.

Lemma way_leads is_client dst :
  0 ≤ dst < 2 ^ 32 →
  match lab7_way is_client dst with
  | Some (num, next) => leads (lab7_table is_client) dst num next
  | None => match_loop (lab7_table is_client) 0 dst (-1) (-1) = -1
  end.
Proof.
  intros Hd. pose proof (entry_tests is_client dst Hd) as Ht. unfold lab7_table in *.
  apply Forall2_cons in Ht as [H1 Ht]. apply Forall2_cons in Ht as [H2 Ht]. apply Forall2_cons in Ht as [H3 _].
  pose proof (eq_refl : in_net (host_net true) dst = (dst / 65536 =? 49320)) as E1.
  pose proof (eq_refl : in_net (host_net false) dst = (dst / 1048576 =? 2753)) as E2.
  pose proof (eq_refl : in_net (Address.quad 10 0 0 0, 8) dst = (dst / 16777216 =? 10)) as E3.
  assert (Hdis : in_net (host_net is_client) dst = true → in_net (Address.quad 10 0 0 0, 8) dst = false ∧
    in_net (host_net (negb is_client)) dst = false) by (clear -E1 E2 E3; destruct is_client; cbn [negb]; Z.div_mod_to_equations; lia).
  assert (Hdis' : in_net (Address.quad 10 0 0 0, 8) dst = true → in_net (host_net (negb is_client)) dst = false)
    by (clear -E1 E2 E3; destruct is_client; cbn [negb]; Z.div_mod_to_equations; lia).
  unfold lab7_way, leads. cbn [match_loop _prefix_mask _route_prefix _prefix_length] in *. rewrite H1, H2, H3.
  destruct (in_net (host_net is_client) dst).
  { destruct Hdis as [-> ->]; [done|]. destruct is_client; eexists; repeat split; done. }
  destruct (in_net (Address.quad 10 0 0 0, 8) dst).
  { rewrite Hdis' by done. destruct is_client; eexists; repeat split; done. }
  destruct (in_net (host_net (negb is_client)) dst); [|done]. destruct is_client; eexists; repeat split; done.
Qed.

End routers.

(** ** What the callbacks leave alone *)

Section thread_frame.
Import NetworkThread EventLoop.
Implicit Types (w : t) (rs : list (Rule t)).

(** The Internet side is closed for reading and what arrived there is not
    touched. *)
Definition deaf w0 w : Prop :=
  FileDescriptor.eof (internet_socket w) = true ∧ from_internet w = from_internet w0.

Lemma receive_descriptors w id data w' :
  receive w id data = Ok w' → internet_socket w' = internet_socket w ∧ from_internet w' = from_internet w.
Proof.
  unfold receive. destruct (EthernetFrame.parse _ _) as [[res f]| | |]; try done. cbn [mbind outcome_bind].
  case_bool_decide as Hres; [by intros [= <-]|]. intros (i & _ & H)%bind_Ok. apply bind_Ok in H as (i' & _ & H).
  cbv zeta in H. apply bind_Ok in H as (r & _ & H). by injection H as <-.
Qed.

Lemma pop_frame_descriptors w id rest w' :
  pop_frame w id rest = Ok w' → internet_socket w' = internet_socket w ∧ from_internet w' = from_internet w.
Proof. unfold pop_frame. intros (i & _ & H)%bind_Ok. by injection H as <-. Qed.

Lemma deaf_callback w0 r w w' :
  r ∈ take 3 rules → deaf w0 w → callback r w = Ok w' → deaf w0 w'.
Proof.
  intros Hr [He Hf]. cbn in Hr. rewrite !elem_of_cons in Hr. destruct Hr as [->|[->|[->|H]]]; cbn [callback].
  - unfold rule1_callback. destruct (from_host w) as [|[r c] rest]; [done|]. intros ([data f] & _ & H)%bind_Ok.
    apply receive_descriptors in H as [H1 H2]. unfold deaf. by rewrite H1, H2.
  - unfold rule2_callback. intros ([|frame f] & _ & H)%bind_Ok; [done|]. destruct (host_writes w); [done|].
    apply bind_Ok in H as ([[n fd] taken] & _ & H). apply pop_frame_descriptors in H as [H1 H2].
    unfold deaf. by rewrite H1, H2.
  - unfold rule3_callback. intros ([|frame f] & _ & H)%bind_Ok; [done|]. destruct (internet_sends w); [done|].
    apply bind_Ok in H as ([fd message] & Hs & H). apply pop_frame_descriptors in H as [H1 H2].
    unfold deaf. rewrite H1, H2. cbn. split; [|done]. unfold UDPSocket.sendto in Hs.
    apply bind_Ok in Hs as (m & _ & Hs). by injection Hs as <- _.
  - by apply elem_of_nil in H.
Qed.

Lemma deaf_setup w0 rs w kept ps b w' :
  Forall (λ r, r ∈ rules) rs → deaf w0 w → setup descriptor rs w = Ok (kept, ps, b, w') →
  w' = w ∧ Forall (λ r, r ∈ take 3 rules) kept ∧ length ps = length kept.
Proof.
  intros Hrs Hd. revert kept ps b. induction Hrs as [|r rs Hr Hrs IH]; intros kept ps b; cbn [setup].
  { by intros [= <- <- <- <-]. }
  assert (Hc : cancel r w = Ok w) by (cbn in Hr; rewrite !elem_of_cons in Hr; by destruct Hr as [->|[->|[->|[->|[]%elem_of_nil]]]]).
  rewrite Hc. cbn [mbind outcome_bind].
  destruct (bool_decide _ && _) eqn:E1; [apply IH|]. destruct (FileDescriptor.closed _); [apply IH|].
  intros ([[[k1 p1] b1] w1] & H & [= <- <- <- ->])%bind_Ok. destruct (IH _ _ _ H) as (-> & Hk & Hl).
  split; [done|]. split; [|by cbn; rewrite Hl]. constructor; [|done].
  cbn in Hr. rewrite !elem_of_cons in Hr. destruct Hr as [->|[->|[->|[->|[]%elem_of_nil]]]]; [cbn; set_solver..|].
  destruct Hd as [He _]. cbn in E1. by rewrite He in E1.
Qed.

Lemma deaf_process w0 rs ps w kept w' :
  Forall (λ r, r ∈ take 3 rules) rs → deaf w0 w →
  process descriptor rs ps w = Ok (kept, w') → deaf w0 w' ∧ Forall (λ r, r ∈ rules) kept.
Proof.
  intros Hrs. revert ps w kept. induction Hrs as [|r rs Hr Hrs IH]; intros ps w kept Hd; cbn [process].
  { intros [= <- <-]. by split. }
  assert (Hin : r ∈ rules) by (cbn in *; set_solver).
  assert (Hc : cancel r w = Ok w).
  { cbn in Hr. rewrite !elem_of_cons in Hr. by destruct Hr as [->|[->|[->|[]%elem_of_nil]]]. }
  rewrite Hc. intros (p & _ & H)%bind_Ok. destruct (poll_error p); [done|].
  destruct (poll_hup p && _ && _); [by apply (IH (tail ps) w)|].
  apply bind_Ok in H as (w1 & Hw1 & H). apply bind_Ok in H as ([k1 w2] & Hp & [= <- <-]).
  assert (Hd1 : deaf w0 w1).
  { destruct (poll_ready p); [|by injection Hw1 as <-]. cbv zeta in Hw1. apply bind_Ok in Hw1 as (w3 & Hcb & Hw1).
    destruct (_ && _) in Hw1; [done|]. injection Hw1 as <-. by eapply deaf_callback. }
  destruct (IH _ _ _ Hd1 Hp) as [? ?]. split; [done|]. by constructor.
Qed.

Lemma deaf_round w0 rs w po ret kept w' :
  Forall (λ r, r ∈ rules) rs → deaf w0 w →
  wait_next_event descriptor rs w po = Ok (ret, kept, w') → deaf w0 w' ∧ Forall (λ r, r ∈ rules) kept.
Proof.
  intros Hrs Hd. unfold wait_next_event. intros ([[[k1 ps] b] w1] & Hs & H)%bind_Ok.
  apply (deaf_setup w0) in Hs as (-> & Hk & _); [|done..].
  assert (Hk' : Forall (λ r, r ∈ rules) k1) by (eapply Forall_impl; [exact Hk|]; cbn; set_solver).
  destruct b; [|injection H as <- <- <-; by split]. cbn [negb] in H. destruct (po ps) as [r filled]. cbv zeta in H.
  assert (Hgo : ∀ qs, ('(rs, w) ← process descriptor k1 qs w; Ok (Success, rs, w)) = Ok (ret, kept, w') →
    deaf w0 w' ∧ Forall (λ r, r ∈ rules) kept).
  { intros qs ([k2 w2] & Hp & [= <- <- <-])%bind_Ok. by eapply deaf_process. }
  destruct (SystemCall r 0) as [n|[]| |]; try done; [destruct (_ =? n)|destruct (_ =? EINTR)];
    try (injection H as <- <- <-; by split); by eapply Hgo.
Qed.

Lemma deaf_loop w0 rs its w kept w' ended :
  Forall (λ r, r ∈ rules) rs → deaf w0 w → network_loop rs its w = Ok (kept, w', ended) → deaf w0 w'.
Proof.
  revert rs w. induction its as [|it its IH]; intros rs w Hrs Hd; cbn [network_loop].
  { by intros [= <- <- <-]. }
  intros ([[ret k1] w1] & Hw & H)%bind_Ok. apply (deaf_round w0) in Hw as [Hd1 Hk]; [|done..].
  assert (Ht : ∀ id w2 w3, deaf w0 w2 → tick_interface w2 id = Ok w3 → deaf w0 w3).
  { intros id w2 w3 Hd2 (i & _ & [= <-])%bind_Ok. done. }
  assert (Hgo : (w ← tick_interface w1 (host_side w1); w ← tick_interface w (internet_side w);
    if exit_flag it then Ok (k1, w, true) else network_loop k1 its w) = Ok (kept, w', ended) → deaf w0 w').
  { intros (w2 & H2 & Hr)%bind_Ok. apply bind_Ok in Hr as (w3 & H3 & Hr).
    assert (deaf w0 w3) by (eapply Ht; [|done]; by eapply Ht).
    destruct (exit_flag it); [by injection Hr as <- <- <-|by eapply IH]. }
  destruct ret; [by apply Hgo..|]. by injection H as <- <- <-.
Qed.

End thread_frame.

(** ** Properties *)

Section lab7_properties.
Import NetworkThread.

(** The routers forward as they should.  Whatever Ethernet addresses are drawn, a
    side's router sends a datagram for its host's network to the destination on the
    host side, one for the network between the routers to the destination on the
    Internet side, and one for the other side's network to the other router; it
    drops any other. *)
Theorem lab7_routes (is_client : bool) (g : random_generator) (d : InternetDatagram) :
  let dst := IPv4Header.dst (IPv4Datagram.header d) in
  IPv4Datagram.ok d → 1 < IPv4Header.ttl (IPv4Datagram.header d) →
  ∃ r g', Lab7Program.set_up_router is_client g = Ok (r, 0, 1, g') ∧
    match lab7_way is_client dst with
    | Some (num, next) =>
      ∃ i i', Router._interfaces r !! Z.to_nat num = Some i ∧
        AsyncNetworkInterface.send_datagram i (hop d) next = Ok i' ∧
        Router.route_one_datagram r d = Ok (r <| Router._interfaces ::= <[Z.to_nat num := i']> |>)
    | None => Router.route_one_datagram r d = Ok r
    end.
Proof.
  intros dst Hd Httl. pose proof (set_up_router_spec is_client g) as Hs.
  pose proof (random_router_ok g : addr_ok (Lab7.random_router_ethernet_address g).1) as Hm0.
  destruct (Lab7.random_router_ethernet_address g) as [mac0 g1]. 
  pose proof (random_router_ok g1 : addr_ok (Lab7.random_router_ethernet_address g1).1) as Hm1.
  destruct (Lab7.random_router_ethernet_address g1) as [mac1 g2]. rewrite Hs. eexists _, _. split; [done|].
  assert (Hdst : 0 ≤ dst < 2 ^ 32) by (destruct Hd as (Hh & _); unfold IPv4Header.ok in Hh; tauto).
  pose proof (way_leads is_client dst Hdst) as Hw. destruct (lab7_way is_client dst) as [[num next]|] eqn:E.
  - assert (Hnum : (num = 0 ∨ num = 1) ∧ 0 ≤ next < 2 ^ 32).
    { unfold lab7_way in E. repeat case_match; simplify_eq; (split; [by auto|]); try done.
      destruct is_client; vm_compute; by split. }
    destruct Hnum as [Hnum Hnext].
    assert (Hi : ∃ i, [lab7_interface (gateway_ip is_client) mac0; lab7_interface (uplink_ip is_client) mac1] !!
      Z.to_nat num = Some i ∧ NetworkInterface.ok (AsyncNetworkInterface.base i)).
    { destruct Hnum as [-> | ->]; (eexists; split; [reflexivity|]; split; [done|]; destruct is_client; vm_compute; by split). }
    destruct Hi as (i & Hi & Hok). destruct (interface_send_ok _ (hop d) next Hok) as (n' & Hn & _); [by apply ttl_ok|done|].
    eexists i, _. split; [done|]. split; [unfold AsyncNetworkInterface.send_datagram; by rewrite Hn|].
    eapply route_one_leads; try done. unfold AsyncNetworkInterface.send_datagram. by rewrite Hn.
  - unfold Router.route_one_datagram. replace (_ <=? 1) with false by lia. cbn [Router._routing_table]. fold dst. by rewrite Hw.
Qed.

(** An empty datagram ends the reception.  [FileDescriptor::read] takes the zero
    bytes of an empty UDP datagram for the end of the input, so the event loop
    drops the rule that reads from the Internet: of all that arrives afterwards,
    however long the thread runs, nothing is read.  (Each side [announce]s itself
    with three empty datagrams when it starts.) *)
Theorem empty_datagram_ends_reception (w w1 : t) (contents : bytes) (rest : list (sysret * bytes)) :
  from_internet w = (mkSysret 0 0, contents) :: rest → rule4_callback w = Ok w1 →
  from_internet w1 = rest ∧
  ∀ its rs w2 ended, network_loop rules its w1 = Ok (rs, w2, ended) → from_internet w2 = rest.
Proof.
  intros Hf. unfold rule4_callback. rewrite Hf. intros ([data f] & Hr & H)%bind_Ok.
  unfold FileDescriptor.read in Hr. cbn in Hr. injection Hr as <- <-.
  apply receive_descriptors in H as [Hs Hi]. cbn in Hs, Hi. split; [done|]. intros its rs w2 ended Hl.
  destruct (deaf_loop w1 rules its w1 rs w2 ended) as [_ Hw]; try done; [|split; [by rewrite Hs|done]|congruence].
  repeat (apply Forall_cons_2; [cbn; set_solver|]). done.
Qed.

(** A client's thread with an empty datagram and another waiting. *)
Definition empty_seed : random_generator := mkGenerator (λ n, Z.of_nat n) 0.

Definition lab7_thread (answers : list (sysret * bytes)) : t := Eval vm_compute in
  match Lab7Program.set_up_router true empty_seed with
  | Ok (r, host_side, internet_side, _) =>
    mk r host_side internet_side (FileDescriptor.mk 3 false false 0 0) (FileDescriptor.mk 4 false false 0 0)
       (Address.mk 1 2) [] answers [] [] [] []
  | _ => mk Router.empty 0 0 (FileDescriptor.mk 3 false false 0 0) (FileDescriptor.mk 4 false false 0 0)
       (Address.mk 1 2) [] [] [] [] [] []
  end.

Lemma empty_datagram_ends_reception_witness :
  ∃ w1, rule4_callback (lab7_thread [(mkSysret 0 0, []); (mkSysret 1 0, [7])]) = Ok w1 ∧
  ∀ its rs w2 ended, network_loop rules its w1 = Ok (rs, w2, ended) → from_internet w2 = [(mkSysret 1 0, [7])].
Proof.
  assert (H : ∃ w1, rule4_callback (lab7_thread [(mkSysret 0 0, []); (mkSysret 1 0, [7])]) = Ok w1)
    by (eexists; vm_compute; reflexivity).
  destruct H as [w1 H]. exists w1. split; [exact H|].
  apply (empty_datagram_ends_reception (lab7_thread [(mkSysret 0 0, []); (mkSysret 1 0, [7])]) w1 []
    [(mkSysret 1 0, [7])]); [reflexivity|exact H].
Defined.

End lab7_properties.
