(* ===== verification/lab7_run.v ===== *)
(** * The program of lab 7 at work

    That the network thread of [apps/lab7.cc] never runs into undefined behaviour,
    whatever arrives from the host and from the Internet, and that a segment crosses
    from the socket of one side to the socket of the other, through both routers. *)

From Stdlib Require Import Sorted.
From stdpp Require Import strings functions.
From S2P Require Import prelude text buffer parser internet_checksum tcp_segment ipv4 ethernet network_interface router adapters file_descriptor socket eventloop network_simulator lab7.

(** ** Whatever arrives *)

(** An interface that has kept its frames and may have more. *)
Definition grows (n n' : NetworkInterface.t) : Prop :=
  NetworkInterface._frames_out n `prefix_of` NetworkInterface._frames_out n'.

#[export] Instance grows_preorder : PreOrder grows.
Proof. unfold grows. split; [by intros n|]. intros n1 n2 n3 H1 H2. by etrans. Qed.

Section interface_growth.
Import NetworkInterface.
Implicit Types (n : t) (d : InternetDatagram).

Lemma send_helper_grows n mac d : no_UB (grows n) (send_helper n mac d).
Proof.
  unfold send_helper. eapply (no_UB_bind (λ _, True)); [|intros out _ _; by apply prefix_app_r].
  unfold IPv4Datagram.serialize. destruct (negb _); [done|]. eapply (no_UB_bind (λ _, True)).
  - unfold IPv4Header.serialize. destruct (negb _); [done|]. by destruct (_ <? _).
  - intros h _ _. eapply (no_UB_bind (λ _, True)); [|done].
    unfold IPv4Header.serialize. destruct (negb _); [done|]. by destruct (_ <? _).
Qed.

Lemma send_arp_grows n n0 (header : EthernetHeader.t) (arp : ARPMessage.t) :
  grows n0 n → no_UB (grows n0) (data ← ARPMessage.serialize arp;
    Ok (n <| _frames_out ::= λ q, q ++ [EthernetFrame.mk header (BufferList.of_string data)] |>)).
Proof.
  intros Hn. eapply (no_UB_bind (λ _, True)); [|intros out _ _; by apply prefix_app_r].
  unfold ARPMessage.serialize. by destruct (negb _).
Qed.

Lemma send_datagram_grows n d ip : no_UB (grows n) (send_datagram n d ip).
Proof.
  unfold send_datagram. destruct (get_EthernetAdress n ip); [apply send_helper_grows|]. unfold queue_helper.
  destruct (get_WaitingList n ip) as [w|]; [destruct (_ >=? _); [by apply send_arp_grows|by cbn]|].
  apply send_arp_grows. by unfold grows.
Qed.

Lemma clear_loop_grows queue n ip mac : no_UB (grows n) (clear_loop n ip mac queue).
Proof.
  revert n. induction queue as [|d queue IH]; intros n; cbn [clear_loop]; [by cbn|].
  eapply no_UB_bind; [apply send_helper_grows|]. intros n1 _ H1. eapply no_UB_mono; [apply IH|].
  intros n2 _ H2. etrans; [|exact H2]. exact H1.
Qed.

(** A frame whose payload is in one piece, as parsing makes it. *)
Definition one_piece (f : EthernetFrame.t) : Prop :=
  ∃ b, EthernetFrame.payload f = [b] ∧ Buffer.wf b ∧ is_bytes (Buffer.str b).

Lemma recv_frame_grows n f : one_piece f → no_UB (λ r, grows n r.1) (recv_frame n f).
Proof.
  intros (b & Hp & Hwf & Hb). unfold recv_frame. destruct (negb _); [by cbn|]. rewrite Hp. cbn [BufferList.to_buffer].
  destruct (_ =? _); cbn [mbind outcome_bind].
  - unfold IPv4Datagram.parse.
    destruct (ipv4_header_parse_safe (IPv4Datagram.header IPv4Datagram.default) (NetParser.make b)) as (r & h & p' & -> & _);
      [by apply safe_make|]. cbn [mbind outcome_bind]. case_match; by cbn.
  - destruct (arp_parse_safe ARPMessage.default b Hwf Hb) as (r & m & -> & _). cbn [mbind outcome_bind].
    case_bool_decide; [|by cbn]. rewrite cache_mapping_eq. set (n1 := n <| _cache ::= _ |>).
    eapply (no_UB_bind (grows n)).
    + unfold clear_waitinglist. eapply (no_UB_bind (grows n)); [|intros n2 _ H2; exact H2].
      destruct (_queue_map n1 !! _) as [w|]; [|cbn; by unfold grows].
      eapply no_UB_mono; [apply (clear_loop_grows _ n1)|done].
    + intros n2 _ H2. eapply (no_UB_bind (grows n)); [|intros n3 _ H3; exact H3].
      destruct (_ && _); [|done]. by apply send_arp_grows.
Qed.

Lemma frame_parses data :
  is_bytes data → len data < 2 ^ 64 →
  ∃ r f, EthernetFrame.parse EthernetFrame.default (Buffer.of_string data) = Ok (r, f) ∧ one_piece f.
Proof.
  intros Hb Hl. unfold EthernetFrame.parse, EthernetHeader.parse.
  assert (Hs : safe NoError (NetParser.make (Buffer.of_string data))) by (apply safe_make; [by apply wf_of_string|done]).
  destruct (_ <? _); cbn [mbind outcome_bind].
  { eexists _, _. split; [done|]. eexists. split; [done|]. split; apply Hs. }
  destruct (parse_address_safe NoError 6 _ Hs) as (dst & p1 & -> & H1 & _). cbn [mbind outcome_bind].
  destruct (parse_address_safe NoError 6 _ H1) as (src & p2 & -> & H2 & _). cbn [mbind outcome_bind].
  clear Hs. assert (Hp := H2). parse_any.
  eexists _, _. split; [done|]. eexists. split; [done|]. split; apply Hp0.
Qed.

End interface_growth.

(** ** The router *)

Section router_growth.
Import Router.
Implicit Types (r : t) (d : InternetDatagram).

Definition async_grows (i i' : AsyncNetworkInterface.t) : Prop :=
  grows (AsyncNetworkInterface.base i) (AsyncNetworkInterface.base i').

#[export] Instance async_grows_preorder : PreOrder async_grows.
Proof. unfold async_grows. split; [by intros i|]. intros i1 i2 i3 H1 H2. by etrans. Qed.

(** A router with the same table, none of whose interfaces has lost a frame. *)
Record wider (r r' : t) : Prop := {
  wider_table : _routing_table r' = _routing_table r;
  wider_interfaces : Forall2 async_grows (_interfaces r) (_interfaces r')
}.

#[export] Instance wider_preorder : PreOrder wider.
Proof.
  split; [intros r; by split|]. intros r1 r2 r3 [T1 I1] [T2 I2]. split; [congruence|]. by etrans.
Qed.

Lemma wider_insert r k i i' :
  _interfaces r !! k = Some i → async_grows i i' →
  wider r (r <| _interfaces ::= <[k := i']> |>).
Proof.
  intros Hi Hg. split; [done|]. cbn. rewrite <- (list_insert_id (_interfaces r) k i Hi) at 1.
  by apply Forall2_insert.
Qed.

(** The routes are proper and lead to interfaces that exist. *)
Definition routes_ok r : Prop :=
  Forall (λ e, entry_ok e ∧ 0 ≤ _interface_num e < len (_interfaces r)) (_routing_table r).

Lemma wider_ok r r' : wider r r' → routes_ok r → routes_ok r'.
Proof. intros [Ht Hi]. unfold routes_ok, len. by rewrite Ht, (Forall2_length _ _ _ Hi). Qed.

Lemma route_one_wider r d : routes_ok r → no_UB (wider r) (route_one_datagram r d).
Proof.
  intros Hok. unfold route_one_datagram. destruct (_ <=? 1); [by cbn|]. pose proof Hok as Hall. unfold routes_ok in Hall.
  rewrite Forall_forall in Hall.
  destruct (best_match r (IPv4Header.dst (IPv4Datagram.header d))) as [[-> _]|(k & e & -> & Hk & _)];
    [apply Forall_forall; intros e He; by destruct (Hall e He)|by cbn|].
  replace (Z.of_nat k =? -1) with false by lia. rewrite Nat2Z.id, Hk. cbn [or_UB mbind outcome_bind].
  destruct (Hall e) as [_ Hnum]; [by apply list_elem_of_lookup_2 in Hk|].
  destruct (lookup_lt_is_Some_2 (_interfaces r) (Z.to_nat (_interface_num e))) as [i Hi]; [unfold len in *; lia|].
  rewrite Hi. cbn [or_UB mbind outcome_bind]. unfold AsyncNetworkInterface.send_datagram.
  eapply (no_UB_bind (async_grows i)).
  - eapply no_UB_bind; [apply send_datagram_grows|]. by intros n' _ Hn.
  - intros i' _ Hg. by eapply wider_insert.
Qed.

Lemma route_queue_wider fuel k r :
  routes_ok r → (k < length (_interfaces r))%nat → no_UB (wider r) (route_queue fuel k r).
Proof.
  revert r. induction fuel as [|fuel IH]; intros r Hok Hk; cbn [route_queue]; [done|].
  destruct (lookup_lt_is_Some_2 _ _ Hk) as [i Hi]. rewrite Hi. cbn [or_UB mbind outcome_bind].
  destruct (AsyncNetworkInterface.datagrams_out i) as [|d q]; [by cbn|].
  eapply no_UB_bind; [by apply route_one_wider|]. intros r1 _ H1. cbv zeta. set (r2 := r1 <| _interfaces ::= _ |>).
  assert (Hk1 : (k < length (_interfaces r1))%nat) by (by rewrite <- (Forall2_length _ _ _ (wider_interfaces _ _ H1))).
  assert (H2 : wider r r2).
  { etrans; [exact H1|]. destruct (lookup_lt_is_Some_2 _ _ Hk1) as [i1 Hi1].
    replace r2 with (r1 <| _interfaces ::= <[k := i1 <| AsyncNetworkInterface._datagrams_out ::= tail |>]> |>)
      by (unfold r2; cbn; by rewrite (alter_is_insert _ _ _ _ Hi1)).
    eapply wider_insert; [exact Hi1|]. by unfold async_grows. }
  eapply no_UB_mono; [apply IH; [by eapply wider_ok|by rewrite <- (Forall2_length _ _ _ (wider_interfaces _ _ H2))]|].
  intros r3 _ H3. by etrans.
Qed.

Lemma route_interfaces_wider todo k r :
  routes_ok r → (k + todo ≤ length (_interfaces r))%nat → no_UB (wider r) (route_interfaces todo k r).
Proof.
  revert k r. induction todo as [|todo IH]; intros k r Hok Hk; cbn [route_interfaces]; [by cbn|].
  destruct (lookup_lt_is_Some_2 (_interfaces r) k) as [i Hi]; [lia|]. rewrite Hi. cbn [or_UB mbind outcome_bind].
  eapply no_UB_bind; [apply route_queue_wider; [done|lia]|]. intros r1 _ H1.
  eapply no_UB_mono; [apply IH; [by eapply wider_ok|]|intros r2 _ H2; by etrans].
  rewrite <- (Forall2_length _ _ _ (wider_interfaces _ _ H1)). lia.
Qed.

Lemma route_wider r : routes_ok r → no_UB (wider r) (route r).
Proof. intros Hok. by apply route_interfaces_wider. Qed.

End router_growth.

(** ** The thread *)

Lemma view_remove_prefix_no_UB l n : no_UB (λ _, True) (BufferViewList.remove_prefix l n).
Proof.
  revert n. induction l as [|v l IH]; intros n; cbn; destruct (n >? 0); try done. destruct (n <? len v); [done|apply IH].
Qed.

Lemma write_no_UB f buffer write_all rs : no_UB (λ _, True) (FileDescriptor.write f buffer write_all rs).
Proof.
  unfold FileDescriptor.write. generalize (0) at 1 as total. generalize ([] : bytes) as taken.
  revert f buffer. induction rs as [|r rs IH]; intros f buffer taken total; cbn [FileDescriptor.write_loop]; [done|].
  eapply (no_UB_bind (λ _, True)); [unfold SystemCall; by destruct (_ || _)|]. intros n _ _.
  destruct (_ && _); [done|]. destruct (_ >? _); [done|]. cbv zeta.
  eapply no_UB_bind; [apply view_remove_prefix_no_UB|]. intros l _ _. destruct (_ && _); [apply IH|done].
Qed.

Lemma sendto_no_UB f destination payload r : no_UB (λ _, True) (UDPSocket.sendto f destination payload r).
Proof.
  unfold UDPSocket.sendto, UDPSocket.sendmsg_helper. eapply (no_UB_bind (λ _, True)); [|done].
  eapply (no_UB_bind (λ _, True)); [unfold SystemCall; by destruct (_ || _)|]. intros n _ _. by destruct (negb _).
Qed.

Lemma read_prefix f limit r contents :
  no_UB (λ '(data, _), data `prefix_of` contents) (FileDescriptor.read f limit r contents).
Proof.
  unfold FileDescriptor.read. eapply (no_UB_bind (λ _, True)); [unfold SystemCall; by destruct (_ || _)|].
  intros n _ _. destruct (_ >? _); [done|]. destruct (_ <? 0); [done|]. cbn. apply prefix_take.
Qed.

Section thread.
Import NetworkThread.
Implicit Types (w : t).

(** What the kernel leaves in a buffer: bytes, fewer than there are addresses. *)
Definition arrives (answer : sysret * bytes) : Prop := is_bytes answer.2 ∧ len answer.2 < 2 ^ 64.

(** The sides of the router are two of its interfaces, its routes are [table] and
    lead to interfaces it has. *)
Record sound (table : list RouteEntry) w : Prop := {
  sound_table : Router._routing_table (router w) = table;
  sound_routes : routes_ok (router w);
  sound_host : 0 ≤ host_side w < len (Router._interfaces (router w));
  sound_internet : 0 ≤ internet_side w < len (Router._interfaces (router w));
  sound_sides : host_side w ≠ internet_side w;
  sound_answers : Forall arrives (from_host w ++ from_internet w)
}.

Context (table : list RouteEntry).

(** Steps that lose no frame. *)
Lemma sound_wider w r : sound table w → wider (router w) r → sound table (w <| router := r |>).
Proof.
  intros [Ht Hr Hh Hi Hs Ha] Hw. pose proof (Forall2_length _ _ _ (wider_interfaces _ _ Hw)) as Hl.
  constructor; cbn; try done; [by rewrite (wider_table _ _ Hw)|by eapply wider_ok|unfold len in *; lia..].
Qed.

Lemma interface_is w id : 0 ≤ id < len (Router._interfaces (router w)) →
  ∃ i, Router._interfaces (router w) !! Z.to_nat id = Some i ∧ Router.interface (router w) id = Ok i.
Proof.
  intros H. destruct (lookup_lt_is_Some_2 (Router._interfaces (router w)) (Z.to_nat id)) as [i Hi]; [unfold len in *; lia|].
  exists i. split; [done|]. unfold Router.interface. by rewrite Hi.
Qed.

Lemma receive_wider w id data :
  routes_ok (router w) → 0 ≤ id < len (Router._interfaces (router w)) → is_bytes data → len data < 2 ^ 64 →
  no_UB (λ w', ∃ r, w' = w <| router := r |> ∧ wider (router w) r) (receive w id data).
Proof.
  intros Hok Hid Hb Hl. unfold receive. destruct (frame_parses data Hb Hl) as (res & f & -> & Hf). cbn [mbind outcome_bind].
  case_bool_decide; [by exists (router w); destruct w|]. destruct (interface_is w id Hid) as (i & Hi & ->). cbn [mbind outcome_bind].
  eapply (no_UB_bind (async_grows i)).
  - unfold AsyncNetworkInterface.recv_frame. eapply no_UB_bind; [by apply recv_frame_grows|]. intros [n [d|]] _ Hg; exact Hg.
  - intros i' _ Hg. cbv zeta. unfold set_interface. pose proof (wider_insert _ _ _ _ Hi Hg) as Hw.
    eapply no_UB_bind; [apply route_wider; by eapply wider_ok|]. intros r _ Hr. exists r. split; [done|]. by etrans.
Qed.

Lemma waiting_iff (id : t → Z) w :
  waiting id w = true ↔ ∃ i, Router._interfaces (router w) !! Z.to_nat (id w) = Some i ∧
    NetworkInterface._frames_out (AsyncNetworkInterface.base i) ≠ [].
Proof.
  unfold waiting, frames_out, Router.interface, NetworkInterface.frames_out. split.
  - destruct (_ !! _) as [i|]; [|done]. cbn. intros H. exists i. split; [done|].
    by destruct (NetworkInterface._frames_out _).
  - intros (i & -> & H). cbn. by destruct (NetworkInterface._frames_out _).
Qed.

Lemma waiting_wider (id : t → Z) w w' :
  wider (router w) (router w') → id w' = id w → waiting id w = true → waiting id w' = true.
Proof.
  intros [_ Hw] He (i & Hi & Hf)%waiting_iff. apply waiting_iff. rewrite He.
  destruct (Forall2_lookup_l _ _ _ _ _ Hw Hi) as (i' & Hi' & [k Hk]). exists i'. split; [done|].
  rewrite Hk. by destruct (NetworkInterface._frames_out _).
Qed.

(** Popping a frame of one side changes nothing on the other. *)
Lemma pop_frame_sound w id rest :
  sound table w → 0 ≤ id < len (Router._interfaces (router w)) →
  no_UB (λ w', sound table w' ∧ host_side w' = host_side w ∧ internet_side w' = internet_side w ∧
    ∀ k, k ≠ Z.to_nat id → Router._interfaces (router w') !! k = Router._interfaces (router w) !! k)
    (pop_frame w id rest).
Proof.
  intros [Ht Hr Hh Hi Hs Ha] Hid. unfold pop_frame. destruct (interface_is w id Hid) as (i & Hli & ->).
  unfold set_interface. cbn. split_and!; try done; [|intros k Hk; by apply list_lookup_insert_ne].
  constructor; cbn; try done; unfold routes_ok, len in *; cbn; by rewrite length_insert.
Qed.

(** *** The rules *)

Lemma answers_rest answer (rest l : list (sysret * bytes)) :
  Forall arrives (answer :: rest ++ l) → arrives answer ∧ Forall arrives (rest ++ l).
Proof. apply Forall_cons. Qed.

(** What was read is bytes. *)
Lemma arrives_prefix answer data : arrives answer → data `prefix_of` answer.2 → is_bytes data ∧ len data < 2 ^ 64.
Proof.
  intros [Hb Hl] [k Hk]. rewrite Hk in Hb, Hl. apply is_bytes_app in Hb as [Hb _]. rewrite len_app in Hl.
  pose proof (len_nonneg k). split; [done|lia].
Qed.

(** A rule that reads loses no frame. *)
Definition gains w w' : Prop :=
  sound table w' ∧ host_side w' = host_side w ∧ internet_side w' = internet_side w ∧ wider (router w) (router w').

Lemma receive_gains w id data :
  sound table w → 0 ≤ id < len (Router._interfaces (router w)) → is_bytes data → len data < 2 ^ 64 →
  no_UB (gains w) (receive w id data).
Proof.
  intros Hs Hid Hb Hl. eapply no_UB_mono; [apply receive_wider; try done; apply Hs|].
  intros w' _ (r & -> & Hr). split; [by apply sound_wider|done].
Qed.

Lemma rule1_gains w : sound table w → no_UB (gains w) (rule1_callback w).
Proof.
  intros Hs. unfold rule1_callback. pose proof (sound_answers _ _ Hs) as Ha.
  destruct (from_host w) as [|[r contents] rest]; [done|]. apply answers_rest in Ha as [Ha Hrest].
  eapply no_UB_bind; [apply read_prefix|]. intros [data f] _ Hp. destruct (arrives_prefix _ _ Ha Hp).
  destruct Hs. eapply no_UB_mono;
    [by apply (receive_gains (w <| from_host := rest |> <| frame_fd := f |>))|intros w' _ Hg; exact Hg].
Qed.

Lemma rule4_gains w : sound table w → no_UB (gains w) (rule4_callback w).
Proof.
  intros Hs. unfold rule4_callback. pose proof (sound_answers _ _ Hs) as Ha. apply Forall_app in Ha as [Hh Ha].
  destruct (from_internet w) as [|[r contents] rest] eqn:E; [done|]. apply Forall_cons in Ha as [Ha Hrest].
  eapply no_UB_bind; [apply read_prefix|]. intros [data f] _ Hp. destruct (arrives_prefix _ _ Ha Hp).
  destruct Hs. eapply no_UB_mono; 
    [apply (receive_gains (w <| from_internet := rest |> <| internet_socket := f |>)); try done|intros w' _ Hg; exact Hg].
  constructor; try done. cbn. by apply Forall_app.
Qed.

(** A rule that sends takes from its own side only. *)
Definition sends (id : t → Z) w w' : Prop :=
  sound table w' ∧ host_side w' = host_side w ∧ internet_side w' = internet_side w ∧
  ∀ k, k ≠ Z.to_nat (id w) → Router._interfaces (router w') !! k = Router._interfaces (router w) !! k.

Lemma frames_waiting (id : t → Z) w :
  waiting id w = true → ∃ frame f, frames_out w (id w) = Ok (frame :: f).
Proof. unfold waiting. destruct (frames_out w (id w)) as [[|frame f]| | |]; try done. by exists frame, f. Qed.

Lemma rule2_sends w : sound table w → waiting host_side w = true → no_UB (sends host_side w) (rule2_callback w).
Proof.
  intros Hs Hw. unfold rule2_callback. destruct (frames_waiting _ _ Hw) as (frame & f & ->). cbn [mbind outcome_bind].
  destruct (host_writes w) as [|rs rest]; [done|]. eapply no_UB_bind; [apply write_no_UB|]. intros [[n fd] taken] _ _.
  destruct Hs. eapply no_UB_mono;
    [by apply (pop_frame_sound (w <| host_writes := rest |> <| frame_fd := fd |> <| to_host ::= _ |>))|intros w' _ Hg; exact Hg].
Qed.

Lemma rule3_sends w :
  sound table w → waiting internet_side w = true → no_UB (sends internet_side w) (rule3_callback w).
Proof.
  intros Hs Hw. unfold rule3_callback. destruct (frames_waiting _ _ Hw) as (frame & f & ->). cbn [mbind outcome_bind].
  destruct (internet_sends w) as [|r rest]; [done|]. eapply no_UB_bind; [apply sendto_no_UB|]. intros [fd message] _ _.
  destruct Hs. eapply no_UB_mono;
    [by apply (pop_frame_sound (w <| internet_sends := rest |> <| internet_socket := fd |>
    <| to_internet ::= _ |>))|intros w' _ Hg; exact Hg].
Qed.

Lemma rules_behave : Forall (behaves (sound table)) rules.
Proof.
  repeat apply Forall_cons_2; try apply Forall_nil_2; (split; [|done]); cbn; intros w Hs Hi.
  - eapply no_UB_mono; [by apply rule1_gains|]. by intros w' _ [? _].
  - eapply no_UB_mono; [by apply rule2_sends|]. by intros w' _ [? _].
  - eapply no_UB_mono; [by apply rule3_sends|]. by intros w' _ [? _].
  - eapply no_UB_mono; [by apply rule4_gains|]. by intros w' _ [? _].
Qed.

Lemma rules_keep : StronglySorted (keeps (sound table)) rules.
Proof.
  assert (Hgain : ∀ id w w', id w' = id w → gains w w' → waiting id w = true → waiting id w' = true).
  { intros id w w' He (_ & _ & _ & Hw). by apply waiting_wider. }
  unfold rules. cbn. repeat apply SSorted_cons; try apply SSorted_nil; repeat apply Forall_cons_2; try apply Forall_nil_2;
    intros w w' Hs Hi Hc Hi'; cbn in *; try done.
  - destruct (no_UB_Ok _ _ _ (rule2_sends w Hs Hi) Hc) as (_ & Hh & Hin & Hsame).
    apply waiting_iff in Hi' as (i & Hli & Hf). apply waiting_iff. exists i. split; [|done].
    rewrite Hin, Hsame; [done|]. destruct Hs. lia.
  - pose proof (no_UB_Ok _ _ _ (rule1_gains w Hs) Hc) as Hg. apply (Hgain host_side w); try done. apply Hg.
  - pose proof (no_UB_Ok _ _ _ (rule1_gains w Hs) Hc) as Hg. apply (Hgain internet_side w); try done. apply Hg.
Qed.

Lemma tick_sound w id :
  sound table w → 0 ≤ id < len (Router._interfaces (router w)) →
  no_UB (λ w', sound table w' ∧ internet_side w' = internet_side w) (tick_interface w id).
Proof.
  intros Hs Hid. unfold tick_interface. destruct (interface_is w id Hid) as (i & Hi & ->). cbn. split; [|done].
  apply (sound_wider w); [done|]. eapply wider_insert; [exact Hi|].
  change (NetworkInterface._frames_out (AsyncNetworkInterface.base i) `prefix_of`
    NetworkInterface._frames_out (AsyncNetworkInterface.base i)). done.
Qed.

Lemma network_loop_sound its rs w :
  rs `sublist_of` rules → sound table w → Forall (λ it, ∀ ps, length (poll it ps).2 = length ps) its →
  no_UB (λ '(_, w', _), sound table w') (network_loop rs its w).
Proof.
  intros Hsub Hs Hits. revert rs w Hsub Hs. induction Hits as [|it its Hit _ IH]; intros rs w Hsub Hs; [done|].
  cbn [network_loop]. pose proof rules_behave as Hb. eapply no_UB_bind.
  { apply (round_behaved descriptor (sound table)); [|by eapply StronglySorted_sublist, rules_keep|done|done].
    rewrite Forall_forall in *. intros r Hr. by eapply Hb, elem_of_sublist. }
  intros [[ret kept] w1] _ [Hs1 Hk].
  assert (Hgo : no_UB (λ '(_, w', _), sound table w') (w ← tick_interface w1 (host_side w1);
    w ← tick_interface w (internet_side w); if exit_flag it then Ok (kept, w, true) else network_loop kept its w)).
  { eapply no_UB_bind; [apply tick_sound; [done|apply Hs1]|]. intros w2 _ [Hs2 _].
    eapply no_UB_bind; [apply tick_sound; [done|apply Hs2]|]. intros w3 _ [Hs3 _].
    destruct (exit_flag it); [done|]. apply IH; [by etrans|done]. }
  by destruct ret.
Qed.

End thread.

(** ** From one socket to the other *)

Section forwarding.
Import NetworkThread.
Implicit Types (w : t) (d : InternetDatagram) (n : NetworkInterface.t).

(** The bytes of a frame. *)
Definition on_wire (f : EthernetFrame.t) : bytes := BufferList.concatenate (EthernetFrame.serialize f).

Lemma recv_one_piece n f n' d :
  NetworkInterface.recv_frame n f = Ok (n', Some d) → ∃ b, IPv4Datagram.payload d = [b].
Proof.
  unfold NetworkInterface.recv_frame. destruct (negb _); [done|]. destruct (_ =? _).
  - intros (b & _ & H)%bind_Ok. unfold IPv4Datagram.parse in H.
    apply bind_Ok in H as ([r d1] & Hp & H). apply bind_Ok in Hp as ([[r1 h] p] & _ & Hp).
    assert (∃ b, IPv4Datagram.payload d1 = [b]) by (destruct (negb _) in Hp; injection Hp as <- <-; by eexists).
    case_bool_decide; [by injection H as _ <-|done].
  - intros (b & _ & H)%bind_Ok. apply bind_Ok in H as ([r m] & _ & H). case_bool_decide; [|done].
    apply bind_Ok in H as (n1 & _ & H). by apply bind_Ok in H as (n2 & _ & H).
Qed.

Lemma wire_length n mac d out :
  addr_ok mac → addr_ok (NetworkInterface._ethernet_address n) → IPv4Datagram.ok d →
  IPv4Datagram.serialize d = Ok out →
  EthernetFrame.ok (ip_frame n mac out) ∧ 0 < len (on_wire (ip_frame n mac out)) < 2 ^ 17.
Proof.
  intros Hm Hn Hd Hout. destruct (datagram_layout d Hd) as (out' & Hout' & Hc). rewrite Hout in Hout'. injection Hout' as <-.
  assert (Hl : 0 ≤ len (BufferList.concatenate out) < 2 ^ 16).
  { rewrite Hc, len_app, len_wire by apply Hd. destruct Hd as (Hh & _ & _ & Hl). unfold IPv4Header.ok in Hh.
    change (IPv4Header.hlen (sent_header d)) with (IPv4Header.hlen (IPv4Datagram.header d)).
    pose proof (len_nonneg (BufferList.concatenate (IPv4Datagram.payload d))). lia. }
  assert (Hok : EthernetHeader.ok (EthernetFrame.header (ip_frame n mac out)))
    by (split; [done|split; [done|]]; cbn; unfold EthernetHeader.TYPE_IPv4; lia).
  split.
  - split; [done|]. cbn. split; [|lia]. rewrite Hc. apply is_bytes_app. split; [apply is_bytes_wire|apply Hd].
  - unfold on_wire, EthernetFrame.serialize. rewrite !concatenate_append. unfold BufferList.of_string. cbn [BufferList.concatenate app].
    rewrite app_nil_r, str_of_string, len_app, ethernet_header_bytes by done. destruct Hm as [Hm _], Hn as [Hn _].
    unfold len at 1 3. rewrite !length_app. cbn. rewrite Hm, Hn. lia.
Qed.

(** A datagram sent to an interface over the wire is handed up there. *)
Lemma ip_frame_received n0 n d out :
  addr_ok (NetworkInterface._ethernet_address n0) → addr_ok (NetworkInterface._ethernet_address n) →
  IPv4Datagram.ok d → IPv4Datagram.serialize d = Ok out →
  ∃ f d' b, EthernetFrame.parse EthernetFrame.default
      (Buffer.of_string (on_wire (ip_frame n0 (NetworkInterface._ethernet_address n) out))) = Ok (NoError, f) ∧
    NetworkInterface.recv_frame n f = Ok (n, Some d') ∧ arrived d d' ∧ IPv4Datagram.payload d' = [b].
Proof.
  intros H0 Hn Hd Hout. destruct (wire_length n0 _ d out Hn H0 Hd Hout) as [Hok _].
  destruct (ethernet_frame_wire _ EthernetFrame.default Hok) as (f & b & Hp & Hh & Hpl & Hwf & Hb).
  destruct (recv_ip_buffer n f d out b) as (d' & Hr & Ha); try done.
  - unfold NetworkInterface.valid_frame. rewrite Hh. by rewrite bool_decide_eq_true_2.
  - by rewrite Hh.
  - destruct (recv_one_piece _ _ _ _ Hr) as [b' Hb']. by exists f, d', b'.
Qed.

(** A router all of whose queues but one are empty sends what that one holds. *)
Lemma route_forwards (l : list AsyncNetworkInterface.t) tb s num next i j j' d :
  (∀ k, held l k = []) → l !! s = Some i → l !! Z.to_nat num = Some j → Z.to_nat num ≠ s →
  1 < IPv4Header.ttl (IPv4Datagram.header d) → leads tb (IPv4Header.dst (IPv4Datagram.header d)) num next →
  AsyncNetworkInterface.send_datagram j (hop d) next = Ok j' →
  Router.route (Router.mk (<[s := i <| AsyncNetworkInterface._datagrams_out := [d] |>]> l) tb) =
    Ok (Router.mk (<[Z.to_nat num := j']> l) tb).
Proof.
  intros Hidle Hi Hj Hne Httl Hleads Hsend. set (i1 := i <| AsyncNetworkInterface._datagrams_out := _ |>).
  assert (Hq : AsyncNetworkInterface._datagrams_out i = []) by (specialize (Hidle s); unfold held in Hidle; by rewrite Hi in Hidle).
  assert (Hq' : AsyncNetworkInterface._datagrams_out j' = AsyncNetworkInterface._datagrams_out j)
    by (unfold AsyncNetworkInterface.send_datagram in Hsend; apply bind_Ok in Hsend as (n & _ & Hsend); by injection Hsend as <-).
  pose proof (lookup_lt_Some _ _ _ Hi) as Hs. pose proof (lookup_lt_Some _ _ _ Hj) as Hn.
  rewrite (route_single _ (<[Z.to_nat num := j']> (<[s := i1]> l)) _ s d).
  - f_equal. f_equal. apply list_eq. intros k. destruct (decide (k = s)) as [->|Hk].
    + rewrite list_lookup_alter_eq, list_lookup_insert_ne, list_lookup_insert_eq by done.
      rewrite list_lookup_insert_ne, Hi by done. cbn. f_equal.
      destruct i. unfold i1, emptied. cbn in *. by subst.
    + rewrite list_lookup_alter_ne by done. destruct (decide (k = Z.to_nat num)) as [->|Hk'].
      * by do 2 rewrite list_lookup_insert_eq by (rewrite ?length_insert; done).
      * by do 3 rewrite list_lookup_insert_ne by done.
  - by rewrite length_insert.
  - unfold held. by rewrite list_lookup_insert_eq by done.
  - intros k Hk. unfold held. rewrite list_lookup_insert_ne by done. apply Hidle.
  - eapply route_one_leads; try done. by rewrite list_lookup_insert_ne.
  - by rewrite !length_insert.
  - intros k. destruct (decide (k = Z.to_nat num)) as [->|Hk]; [|unfold held; by rewrite list_lookup_insert_ne].
    unfold held, AsyncNetworkInterface.datagrams_out. rewrite list_lookup_insert_eq by (by rewrite length_insert).
    rewrite list_lookup_insert_ne, Hj by done. cbn. by rewrite Hq'.
Qed.

(** The thread hands a datagram that arrives on interface [id] to the interface the
    table names. *)
Lemma receive_routes w id i f num next j j' d data :
  (∀ k, held (Router._interfaces (router w)) k = []) →
  Router._interfaces (router w) !! Z.to_nat id = Some i → Router._interfaces (router w) !! Z.to_nat num = Some j →
  Z.to_nat num ≠ Z.to_nat id → EthernetFrame.parse EthernetFrame.default (Buffer.of_string data) = Ok (NoError, f) →
  NetworkInterface.recv_frame (AsyncNetworkInterface.base i) f = Ok (AsyncNetworkInterface.base i, Some d) →
  1 < IPv4Header.ttl (IPv4Datagram.header d) →
  leads (Router._routing_table (router w)) (IPv4Header.dst (IPv4Datagram.header d)) num next →
  AsyncNetworkInterface.send_datagram j (hop d) next = Ok j' →
  receive w id data = Ok (set_interface w num j').
Proof.
  intros Hidle Hi Hj Hne Hp Hr Httl Hleads Hsend. unfold receive. rewrite Hp. cbn [mbind outcome_bind].
  rewrite bool_decide_eq_false_2 by tauto. unfold Router.interface. rewrite Hi. cbn [mbind outcome_bind].
  unfold AsyncNetworkInterface.recv_frame. rewrite Hr. cbn [mbind outcome_bind]. unfold set_interface. cbv zeta.
  assert (Hq : AsyncNetworkInterface._datagrams_out i = []).
  { specialize (Hidle (Z.to_nat id)). unfold held in Hidle. by rewrite Hi in Hidle. }
  replace (i <| AsyncNetworkInterface.base := _ |> <| AsyncNetworkInterface._datagrams_out ::= _ |>)
    with (i <| AsyncNetworkInterface._datagrams_out := [d] |>) by (cbn; by rewrite Hq).
  change (Router.route _) with (Router.route (Router.mk
    (<[Z.to_nat id := i <| AsyncNetworkInterface._datagrams_out := [d] |>]> (Router._interfaces (router w)))
    (Router._routing_table (router w)))).
  by erewrite route_forwards.
Qed.

(** The thread forwards: a datagram that arrives on interface [id] leaves on the
    interface the table names, if the Ethernet address of the next hop is known. *)
Lemma receive_forwards w id (n0 : NetworkInterface.t) i num next j mac d out :
  (∀ k, held (Router._interfaces (router w)) k = []) →
  Router._interfaces (router w) !! Z.to_nat id = Some i → Router._interfaces (router w) !! Z.to_nat num = Some j →
  Z.to_nat num ≠ Z.to_nat id →
  addr_ok (NetworkInterface._ethernet_address n0) → addr_ok (NetworkInterface._ethernet_address (AsyncNetworkInterface.base i)) →
  IPv4Datagram.ok d → IPv4Datagram.serialize d = Ok out → 1 < IPv4Header.ttl (IPv4Datagram.header d) →
  leads (Router._routing_table (router w)) (IPv4Header.dst (IPv4Datagram.header d)) num next →
  NetworkInterface.get_EthernetAdress (AsyncNetworkInterface.base j) next = Some mac →
  ∃ d' out', IPv4Datagram.ok d' ∧ IPv4Datagram.serialize d' = Ok out' ∧
    forwarded (IPv4Datagram.header d) (IPv4Datagram.header d') ∧
    IPv4Header.ttl (IPv4Datagram.header d') = IPv4Header.ttl (IPv4Datagram.header d) - 1 ∧
    BufferList.concatenate (IPv4Datagram.payload d') = BufferList.concatenate (IPv4Datagram.payload d) ∧
    receive w id (on_wire (ip_frame n0 (NetworkInterface._ethernet_address (AsyncNetworkInterface.base i)) out)) =
      Ok (set_interface w num (j <| AsyncNetworkInterface.base ::= λ n,
        n <| NetworkInterface._frames_out ::= λ q, q ++ [ip_frame n mac out'] |> |>)).
Proof.
  intros Hidle Hi Hj Hne H0 Hmi Hd Hout Httl Hleads Hmac.
  destruct (ip_frame_received n0 (AsyncNetworkInterface.base i) d out H0 Hmi Hd Hout) as (f & d1 & b & Hp & Hr & (Hh & Hpl & Hok1) & _).
  assert (Ht1 : IPv4Header.ttl (IPv4Datagram.header d1) = IPv4Header.ttl (IPv4Datagram.header d)) by (by rewrite Hh).
  assert (Hok : IPv4Datagram.ok (hop d1)) by (apply ttl_ok; [done|lia]).
  destruct (send_helper_spec (AsyncNetworkInterface.base j) mac (hop d1) Hok) as (out' & Hout' & Hsend).
  exists (hop d1), out'. split_and!; try done.
  - unfold hop. cbn. rewrite Hh. by eexists _, _.
  - unfold hop. cbn. rewrite Ht1, u8_id; [done|]. destruct Hd as (Hhd & _). unfold IPv4Header.ok in Hhd. lia.
  - eapply receive_routes; try done; [lia|by rewrite Hh|].
    unfold AsyncNetworkInterface.send_datagram, NetworkInterface.send_datagram. by rewrite Hmac, Hsend.
Qed.

End forwarding.

Section crossing.
Import NetworkThread.
Implicit Types (w : t).

(** A frame arrives from the host, and what the thread sends to the Internet
    next; the kernel takes and gives whole datagrams. *)
Definition upwards w (data : bytes) w' (sent : bytes) : Prop :=
  ∃ w1, rule1_callback (w <| from_host := [(mkSysret (len data) 0, data)] |>) = Ok w1 ∧
    waiting internet_side w1 = true ∧
    rule3_callback (w1 <| internet_sends := [mkSysret (len sent) 0] |>) = Ok w' ∧
    to_internet w' = to_internet w ++ [(bounce_address w, sent)].

(** A frame arrives from the Internet, and what the thread hands the host next. *)
Definition downwards w (data : bytes) w' (sent : bytes) : Prop :=
  ∃ w1, rule4_callback (w <| from_internet := [(mkSysret (len data) 0, data)] |>) = Ok w1 ∧
    waiting host_side w1 = true ∧
    rule2_callback (w1 <| host_writes := [[mkSysret (len sent) 0]] |>) = Ok w' ∧
    to_host w' = to_host w ++ [sent].

(** The thread of a role with interfaces [g] towards the host and [u] towards the
    Internet, with nothing to do. *)
Record resting (is_client : bool) w (g u : NetworkInterface.t) : Prop := {
  resting_router : router w = Router.mk [AsyncNetworkInterface.make g; AsyncNetworkInterface.make u] (lab7_table is_client);
  resting_sides : host_side w = 0 ∧ internet_side w = 1;
  resting_frames : NetworkInterface._frames_out g = [] ∧ NetworkInterface._frames_out u = [];
  resting_addresses : addr_ok (NetworkInterface._ethernet_address g) ∧ addr_ok (NetworkInterface._ethernet_address u)
}.

Lemma views_concat (l : BufferList.t) : concat (BufferViewList.of_list l) = BufferList.concatenate l.
Proof. induction l as [|b l IH]; cbn; [done|]. by rewrite <- IH. Qed.

Lemma read_all f data : 0 < len data < 2 ^ 17 → FileDescriptor.read f no_limit (mkSysret (len data) 0) data =
  Ok (data, FileDescriptor.register_read f).
Proof.
  intros Hl. unfold FileDescriptor.read. rewrite SystemCall_count by (cbn [return_value]; lia). cbn [mbind outcome_bind return_value].
  change (Z.min FileDescriptor.BUFFER_SIZE no_limit) with (2 ^ 20). replace (len data >? 2 ^ 20) with false by lia.
  replace (len data =? 0) with false by lia. replace (len data <? 0) with false by lia. rewrite andb_false_r.
  unfold len. by rewrite Nat2Z.id, take_ge.
Qed.

Lemma resting_held is_client w g u k : resting is_client w g u → held (Router._interfaces (router w)) k = [].
Proof. intros H. rewrite (resting_router _ _ _ _ H). by destruct k as [|[|k]]. Qed.

Lemma rule1_receives w data rest :
  from_host w = (mkSysret (len data) 0, data) :: rest → 0 < len data < 2 ^ 17 →
  rule1_callback w =
    receive (w <| from_host := rest |> <| frame_fd := FileDescriptor.register_read (frame_fd w) |>) (host_side w) data.
Proof. intros Hf Hl. unfold rule1_callback. by rewrite Hf, read_all. Qed.

Lemma rule4_receives w data rest :
  from_internet w = (mkSysret (len data) 0, data) :: rest → 0 < len data < 2 ^ 17 →
  rule4_callback w =
    receive (w <| from_internet := rest |> <| internet_socket := FileDescriptor.register_read (internet_socket w) |>)
      (internet_side w) data.
Proof. intros Hf Hl. unfold rule4_callback. by rewrite Hf, read_all. Qed.

Lemma pop_frame_sent w id f i :
  Router._interfaces (router w) !! Z.to_nat id = Some i →
  pop_frame w id f = Ok (set_interface w id (i <| AsyncNetworkInterface.base ::= λ n, n <| NetworkInterface._frames_out := f |> |>)).
Proof. intros Hi. unfold pop_frame, Router.interface. by rewrite Hi. Qed.

(** A frame has left interface [id], which is now [i]. *)
Definition popped w (id : Z) (i : AsyncNetworkInterface.t) (f : list EthernetFrame.t) w' : Prop :=
  router w' = router (set_interface w id (i <| AsyncNetworkInterface.base ::= λ n, n <| NetworkInterface._frames_out := f |> |>)) ∧
  host_side w' = host_side w ∧ internet_side w' = internet_side w.

Lemma frames_out_is w id i frame f :
  Router._interfaces (router w) !! Z.to_nat id = Some i →
  NetworkInterface._frames_out (AsyncNetworkInterface.base i) = frame :: f → frames_out w id = Ok (frame :: f).
Proof. intros Hi Hf. unfold frames_out, Router.interface. rewrite Hi. cbn. by rewrite <- Hf. Qed.

Lemma rule3_emits w i frame f rest :
  Router._interfaces (router w) !! Z.to_nat (internet_side w) = Some i →
  NetworkInterface._frames_out (AsyncNetworkInterface.base i) = frame :: f →
  internet_sends w = mkSysret (len (on_wire frame)) 0 :: rest → 0 < len (on_wire frame) < 2 ^ 17 →
  ∃ w', rule3_callback w = Ok w' ∧ to_internet w' = to_internet w ++ [(bounce_address w, on_wire frame)] ∧
    popped w (internet_side w) i f w'.
Proof.
  intros Hi Hf Hs Hl. unfold rule3_callback. erewrite frames_out_is by done. cbn [mbind outcome_bind]. rewrite Hs.
  unfold UDPSocket.sendto, UDPSocket.sendmsg_helper. rewrite SystemCall_count by (cbn [return_value]; lia). cbn [mbind outcome_bind return_value].
  rewrite viewlist_size_concat by (rewrite views_concat; fold (on_wire frame); lia).
  rewrite concat_iovecs, views_concat, u64_id by lia. fold (on_wire frame). rewrite Z.eqb_refl. cbn [negb mbind outcome_bind].
  match goal with |- context [pop_frame ?w1 _ _] => rewrite (pop_frame_sent w1 (internet_side w) f i Hi) end. by eexists.
Qed.

Lemma rule2_emits w i frame f rest :
  Router._interfaces (router w) !! Z.to_nat (host_side w) = Some i →
  NetworkInterface._frames_out (AsyncNetworkInterface.base i) = frame :: f →
  host_writes w = [mkSysret (len (on_wire frame)) 0] :: rest → 0 < len (on_wire frame) < 2 ^ 17 →
  ∃ w', rule2_callback w = Ok w' ∧ to_host w' = to_host w ++ [on_wire frame] ∧ popped w (host_side w) i f w'.
Proof.
  intros Hi Hf Hs Hl. unfold rule2_callback. erewrite frames_out_is by done. cbn [mbind outcome_bind]. rewrite Hs.
  unfold FileDescriptor.write. rewrite write_loop_ends; rewrite ?views_concat; fold (on_wire frame);
    [|lia|rewrite len_nil; lia|done|constructor; [cbn [return_value]; lia|constructor]|unfold accepted; cbn [foldr return_value]; lia].
  cbn [mbind outcome_bind app].
  match goal with |- context [pop_frame ?w1 _ _] => rewrite (pop_frame_sent w1 (host_side w) f i Hi) end. by eexists.
Qed.

(** A datagram for the other side's hosts goes up. *)
Lemma goes_up is_client w g u (n0 : NetworkInterface.t) mac d out :
  let h := IPv4Datagram.header d in
  resting is_client w g u → addr_ok (NetworkInterface._ethernet_address n0) → IPv4Datagram.ok d →
  IPv4Datagram.serialize d = Ok out → 1 < IPv4Header.ttl h →
  lab7_way is_client (IPv4Header.dst h) = Some (1, uplink_ip (negb is_client)) →
  NetworkInterface.get_EthernetAdress u (uplink_ip (negb is_client)) = Some mac → addr_ok mac →
  ∃ d' out' w', IPv4Datagram.ok d' ∧ IPv4Datagram.serialize d' = Ok out' ∧ forwarded h (IPv4Datagram.header d') ∧
    IPv4Header.ttl (IPv4Datagram.header d') = IPv4Header.ttl h - 1 ∧
    BufferList.concatenate (IPv4Datagram.payload d') = BufferList.concatenate (IPv4Datagram.payload d) ∧
    upwards w (on_wire (ip_frame n0 (NetworkInterface._ethernet_address g) out)) w' (on_wire (ip_frame u mac out')).
Proof.
  intros h Hw H0 Hd Hout Httl Hway Hmac Hmok. pose proof (resting_router _ _ _ _ Hw) as Hr.
  destruct (resting_sides _ _ _ _ Hw) as [Hh Hi]. destruct (resting_addresses _ _ _ _ Hw) as [Hg Hu].
  assert (Hdst : 0 ≤ IPv4Header.dst h < 2 ^ 32) by (destruct Hd as (Hok & _); unfold IPv4Header.ok in Hok; tauto).
  pose proof (way_leads is_client _ Hdst) as Hleads. rewrite Hway in Hleads.
  set (w0 := w <| from_host := [] |> <| frame_fd ::= FileDescriptor.register_read |>).
  destruct (receive_forwards w0 0 n0 (AsyncNetworkInterface.make g) 1 (uplink_ip (negb is_client)) (AsyncNetworkInterface.make u) mac d out)
    as (d' & out' & Hok' & Hout' & Hf & Ht & Hp & Hrec); try done.
  { intros k. by apply (resting_held is_client w g u). }
  { cbn. by rewrite Hr. } { cbn. by rewrite Hr. } { cbn. by rewrite Hr. }
  destruct (wire_length n0 _ d out Hg H0 Hd Hout) as [_ Hlen].
  destruct (wire_length u mac d' out' Hmok Hu Hok' Hout') as [_ Hlen'].
  set (u' := _ <| AsyncNetworkInterface.base ::= _ |>) in Hrec. set (w1 := set_interface w0 1 u') in Hrec.
  assert (Hu' : Router._interfaces (router w1) !! Z.to_nat (internet_side w1) = Some u') by (cbn; by rewrite Hi, Hr).
  assert (Hq : NetworkInterface._frames_out (AsyncNetworkInterface.base u') = [ip_frame u mac out'])
    by (cbn; by rewrite (proj2 (resting_frames _ _ _ _ Hw))).
  destruct (rule3_emits (w1 <| internet_sends := [mkSysret (len (on_wire (ip_frame u mac out'))) 0] |>) u' (ip_frame u mac out') [] [])
    as (w' & Hw' & Hsent & _); [exact Hu'|exact Hq|done|done|].
  exists d', out', w'. split_and!; try done. exists w1. split_and!; [|apply waiting_iff; exists u'; by rewrite Hq|done|done].
  erewrite rule1_receives by done. rewrite <- Hh in Hrec. exact Hrec.
Qed.

(** A datagram for this side's hosts goes down. *)
Lemma goes_down is_client w g u (n0 : NetworkInterface.t) mac d out :
  let h := IPv4Datagram.header d in
  resting is_client w g u → addr_ok (NetworkInterface._ethernet_address n0) → IPv4Datagram.ok d →
  IPv4Datagram.serialize d = Ok out → 1 < IPv4Header.ttl h →
  lab7_way is_client (IPv4Header.dst h) = Some (0, IPv4Header.dst h) →
  NetworkInterface.get_EthernetAdress g (IPv4Header.dst h) = Some mac → addr_ok mac →
  ∃ d' out' w', IPv4Datagram.ok d' ∧ IPv4Datagram.serialize d' = Ok out' ∧ forwarded h (IPv4Datagram.header d') ∧
    BufferList.concatenate (IPv4Datagram.payload d') = BufferList.concatenate (IPv4Datagram.payload d) ∧
    downwards w (on_wire (ip_frame n0 (NetworkInterface._ethernet_address u) out)) w' (on_wire (ip_frame g mac out')).
Proof.
  intros h Hw H0 Hd Hout Httl Hway Hmac Hmok. pose proof (resting_router _ _ _ _ Hw) as Hr.
  destruct (resting_sides _ _ _ _ Hw) as [Hh Hi]. destruct (resting_addresses _ _ _ _ Hw) as [Hg Hu].
  assert (Hdst : 0 ≤ IPv4Header.dst h < 2 ^ 32) by (destruct Hd as (Hok & _); unfold IPv4Header.ok in Hok; tauto).
  pose proof (way_leads is_client _ Hdst) as Hleads. rewrite Hway in Hleads.
  set (w0 := w <| from_internet := [] |> <| internet_socket ::= FileDescriptor.register_read |>).
  destruct (receive_forwards w0 1 n0 (AsyncNetworkInterface.make u) 0 (IPv4Header.dst h) (AsyncNetworkInterface.make g) mac d out)
    as (d' & out' & Hok' & Hout' & Hf & _ & Hp & Hrec); try done.
  { intros k. by apply (resting_held is_client w g u). }
  { cbn. by rewrite Hr. } { cbn. by rewrite Hr. } { cbn. by rewrite Hr. }
  destruct (wire_length n0 _ d out Hu H0 Hd Hout) as [_ Hlen].
  destruct (wire_length g mac d' out' Hmok Hg Hok' Hout') as [_ Hlen'].
  set (g' := _ <| AsyncNetworkInterface.base ::= _ |>) in Hrec. set (w1 := set_interface w0 0 g') in Hrec.
  assert (Hg' : Router._interfaces (router w1) !! Z.to_nat (host_side w1) = Some g') by (cbn; by rewrite Hh, Hr).
  assert (Hq : NetworkInterface._frames_out (AsyncNetworkInterface.base g') = [ip_frame g mac out'])
    by (cbn; by rewrite (proj1 (resting_frames _ _ _ _ Hw))).
  destruct (rule2_emits (w1 <| host_writes := [[mkSysret (len (on_wire (ip_frame g mac out'))) 0]] |>) g' (ip_frame g mac out') [] [])
    as (w' & Hw' & Hsent & _); [exact Hg'|exact Hq|done|done|].
  exists d', out', w'. split_and!; try done. exists w1. split_and!; [|apply waiting_iff; exists g'; by rewrite Hq|done|done].
  erewrite rule4_receives by done. rewrite <- Hi in Hrec. exact Hrec.
Qed.

(** Where the datagrams of one side's host for the other side's go. *)
Lemma way_across is_client dst :
  in_net (host_net (negb is_client)) dst = true →
  lab7_way is_client dst = Some (1, uplink_ip (negb is_client)) ∧ lab7_way (negb is_client) dst = Some (0, dst).
Proof.
  unfold lab7_way. rewrite negb_involutive. intros H. rewrite H.
  assert (in_net (host_net is_client) dst = false ∧ in_net (Address.quad 10 0 0 0, 8) dst = false) as [-> ->]; [|done].
  pose proof (eq_refl : in_net (host_net true) dst = (dst / 65536 =? 49320)) as E1.
  pose proof (eq_refl : in_net (host_net false) dst = (dst / 1048576 =? 2753)) as E2.
  pose proof (eq_refl : in_net (Address.quad 10 0 0 0, 8) dst = (dst / 16777216 =? 10)) as E3.
  destruct is_client; cbn [negb] in *; Z.div_mod_to_equations; lia.
Qed.

End crossing.

(** ** Properties *)

Section thread_properties.
Import NetworkThread.

(** C32: the network thread never runs into undefined behaviour.  From the router that
    either role sets up, whatever arrives from the host and from the Internet, whatever
    the system calls answer and however many rounds the loop makes, no rule reads
    outside a frame, pops an empty queue or indexes outside the routing table or the
    interfaces; and as long as the thread runs, the routes stay as they were set up. *)
Theorem network_thread_never_UB (is_client : bool) (g g' : random_generator) (w : t) (its : list iteration) :
  Lab7Program.set_up_router is_client g = Ok (router w, host_side w, internet_side w, g') →
  Forall arrives (from_host w ++ from_internet w) →
  (∀ it ps, it ∈ its → length (poll it ps).2 = length ps) →
  no_UB (λ o, ∀ rs w' ended, o = Some (rs, w', ended) →
    Router._routing_table (router w') = lab7_table is_client ∧ host_side w' ≠ internet_side w')
    (network_thread its w).
Proof.
  intros Hset Ha Hits. pose proof (set_up_router_spec is_client g) as Hspec.
  destruct (Lab7.random_router_ethernet_address g) as [mac0 g1].
  destruct (Lab7.random_router_ethernet_address g1) as [mac1 g2].
  rewrite Hspec in Hset. injection Hset as Hr Hh Hi _.
  assert (Hs : sound (lab7_table is_client) w).
  { constructor; rewrite <- ?Hr, <- ?Hh, <- ?Hi; try done. unfold routes_ok.
    destruct is_client; repeat apply Forall_cons_2; try apply Forall_nil_2; vm_compute; by repeat split. }
  pose proof (network_loop_sound _ its rules w ltac:(reflexivity) Hs) as Hl. unfold network_thread.
  destruct (network_loop rules its w) as [[[rs w'] ended]| | |]; cbn; try done.
  - intros ? ? ? [= <- <- <-]. assert (Hw : sound (lab7_table is_client) w') by (apply Hl, Forall_forall; auto).
    split; [apply Hw|]. apply (sound_sides _ _ Hw).
  - apply Hl, Forall_forall. auto.
Qed.

(** A round in which a byte arrives from the Internet: not a frame. *)
Definition byte_round : iteration := mkIteration (λ ps, (mkSysret 1 0, map (λ _, 1) ps)) false.

Lemma network_thread_never_UB_witness :
  network_thread [byte_round] (lab7_thread [(mkSysret 1 0, [7])]) ≠ UB.
Proof.
  pose proof (network_thread_never_UB true empty_seed (mkGenerator (λ n, Z.of_nat n) 12)
    (lab7_thread [(mkSysret 1 0, [7])]) [byte_round]) as H.
  intros E. rewrite E in H. apply H; [vm_compute; reflexivity| |].
  - constructor; [|constructor]. split; [constructor; [split; vm_compute; [discriminate|reflexivity]|constructor]|reflexivity].
  - intros it ps Hit. apply list_elem_of_singleton in Hit. subst it. cbn. apply length_map.
Defined.

(** A segment crosses from the socket of one side to the socket of the other.  With
    the Ethernet addresses of the three links resolved and both threads at rest, what
    the adapter of one side writes for a host of the other's network is one frame; the
    thread of that side, reading it from the host, sends one datagram to the Internet;
    the thread of the other side, reading that, hands its host one frame; and from it
    the other adapter reads the same segment, with the ports of the two ends and a
    checksum filled in, whether it is connected to the sender already or listens and
    the segment is a SYN. *)
Theorem lab7_delivers (is_client : bool) (a b : NetworkInterfaceAdapter.t) (w1 w2 : t)
    (g1 u1 g2 u2 : NetworkInterface.t) (seg : TCPSegment.t) :
  let na := NetworkInterfaceAdapter._interface a in
  let nb := NetworkInterfaceAdapter._interface b in
  let ca := FdAdapterBase.config (NetworkInterfaceAdapter.base a) in
  let cb := FdAdapterBase.config (NetworkInterfaceAdapter.base b) in
  let src := FdAdapterConfig.source ca in
  let dst := FdAdapterConfig.destination ca in
  let knows n ip n' := NetworkInterface.get_EthernetAdress n ip = Some (NetworkInterface._ethernet_address n') in
  fits ca seg → in_net (host_net (negb is_client)) (Address.ipv4_numeric dst) = true →
  Address.ipv4_numeric (NetworkInterfaceAdapter._next_hop a) = gateway_ip is_client →
  addr_ok (NetworkInterface._ethernet_address na) → addr_ok (NetworkInterface._ethernet_address nb) →
  NetworkInterface._frames_out na = [] → NetworkInterface._frames_out nb = [] →
  resting is_client w1 g1 u1 → resting (negb is_client) w2 g2 u2 →
  knows na (gateway_ip is_client) g1 → knows u1 (uplink_ip (negb is_client)) u2 →
  knows g2 (Address.ipv4_numeric dst) nb →
  (if FdAdapterBase.listening (NetworkInterfaceAdapter.base b)
   then Address.port (FdAdapterConfig.source cb) = Address.port dst ∧
        TCPHeader.syn (TCPSegment.header seg) = true ∧ TCPHeader.rst (TCPSegment.header seg) = false
   else FdAdapterConfig.source cb = dst ∧ FdAdapterConfig.destination cb = src) →
  ∃ a' out w1' datagram w2' frame b' seg' c,
    NetworkInterfaceAdapter.write a seg = Ok (a', [out]) ∧
    upwards w1 (BufferList.concatenate out) w1' datagram ∧
    downwards w2 datagram w2' frame ∧
    NetworkInterfaceAdapter.read b frame = Ok (Some seg', b', []) ∧
    NetworkInterfaceAdapter.base b' = connected (NetworkInterfaceAdapter.base b) dst src ∧
    TCPSegment.header seg' = (TCPSegment.header (ports ca seg)) <| TCPHeader.cksum := c |> ∧
    Buffer.str (TCPSegment.payload seg') = Buffer.str (TCPSegment.payload seg).
Proof.
  intros na nb ca cb src dst knows Hfits Hnet Hhop Hna Hnb Hfa Hfb Hw1 Hw2 Hk1 Hk2 Hk3 Hconn.
  destruct (wrap_tcp_spec (NetworkInterfaceAdapter.base a) seg Hfits) as (payload & Hs & Hwrap & Hok).
  set (d := IPv4Datagram.mk (ip_header _ seg) payload) in *.
  destruct (way_across is_client _ Hnet) as [Hup Hdown].
  destruct (send_helper_spec na (NetworkInterface._ethernet_address g1) d Hok) as (out & Hout & Hsend).
  destruct (resting_addresses _ _ _ _ Hw1) as [Hg1 Hu1]. destruct (resting_addresses _ _ _ _ Hw2) as [Hg2 Hu2].
  destruct (goes_up is_client w1 g1 u1 na (NetworkInterface._ethernet_address u2) d out)
    as (d1 & out1 & w1' & Hok1 & Hout1 & Hf1 & Ht1 & Hp1 & Hcross1); try done.
  assert (Hdst1 : IPv4Header.dst (IPv4Datagram.header d1) = Address.ipv4_numeric dst) by (by destruct Hf1 as (? & ? & ->)).
  destruct (goes_down (negb is_client) w2 g2 u2 u1 (NetworkInterface._ethernet_address nb) d1 out1)
    as (d2 & out2 & w2' & Hok2 & Hout2 & Hf2 & Hp2 & Hcross2); try done; [by rewrite Ht1|by rewrite Hdst1..|].
  destruct (ip_frame_received g2 nb d2 out2) as (f & d3 & b3 & Hparse & Hrecv & (Hh3 & Hp3 & Hok3) & Hb3); try done.
  assert (Hb3' : Buffer.str b3 = BufferList.concatenate payload).
  { rewrite Hb3 in Hp3. cbn in Hp3. rewrite app_nil_r in Hp3. by rewrite Hp3, Hp2, Hp1. }
  destruct (unwrap_wrapped (NetworkInterfaceAdapter.base a) (NetworkInterfaceAdapter.base b) seg payload d3 b3)
    as (seg' & c & Hun & Hh & Hpl); try done.
  { etrans; [exact Hf1|]. etrans; [exact Hf2|]. rewrite Hh3. by eexists _, _. }
  { destruct Hok3 as (_ & Hwf & _). rewrite Hb3 in Hwf. by apply Forall_inv in Hwf. }
  eexists _, (EthernetFrame.serialize (ip_frame na (NetworkInterface._ethernet_address g1) out)), w1', _, w2', _, _, seg', c.
  split_and!; [|exact Hcross1|exact Hcross2| | |exact Hh|exact Hpl].
  - unfold NetworkInterfaceAdapter.write. rewrite Hwrap. cbn [mbind outcome_bind]. rewrite Hhop.
    unfold NetworkInterface.send_datagram. fold na. unfold knows in Hk1. rewrite Hk1, Hsend. cbn [mbind outcome_bind].
    rewrite send_pending_tap. cbn. rewrite Hfa. reflexivity.
  - unfold NetworkInterfaceAdapter.read. rewrite Hparse. cbn [mbind outcome_bind]. rewrite bool_decide_eq_false_2 by tauto.
    fold nb. rewrite Hrecv. cbn [mbind outcome_bind]. rewrite send_pending_tap. cbn. rewrite Hun. cbn. rewrite Hfb. reflexivity.
  - done.
Qed.

(** The client's and the server's sides, with the addresses of the links known. *)
Definition known_interface (k ip next k' : Z) : NetworkInterface.t :=
  NetworkInterface.mk [2; 0; 0; 0; 0; k] ip [] {[next := NetworkInterface.mkEntry 0 [2; 0; 0; 0; 0; k']]} ∅.

Definition client_adapter : NetworkInterfaceAdapter.t :=
  NetworkInterfaceAdapter.mk
    (FdAdapterBase.mk (FdAdapterConfig.mk (Address.mk (host_ip true) 5000) Lab7Program.server_address 0 0) false)
    (known_interface 1 (host_ip true) (gateway_ip true) 2) (Address.mk (gateway_ip true) 0).

Definition server_adapter : NetworkInterfaceAdapter.t :=
  NetworkInterfaceAdapter.mk
    (FdAdapterBase.mk (FdAdapterConfig.mk Lab7Program.server_address (Address.mk 0 0) 0 0) true)
    (known_interface 6 (host_ip false) (gateway_ip false) 5) (Address.mk (gateway_ip false) 0).

Definition resting_thread (is_client : bool) (g u : NetworkInterface.t) : t :=
  mk (Router.mk [AsyncNetworkInterface.make g; AsyncNetworkInterface.make u] (lab7_table is_client)) 0 1
     (FileDescriptor.mk 3 false false 0 0) (FileDescriptor.mk 4 false false 0 0) (Address.mk 1 2) [] [] [] [] [] [].

Lemma lab7_delivers_witness :
  ∃ a' out w1' datagram w2' frame b' seg',
    NetworkInterfaceAdapter.write client_adapter opening_segment = Ok (a', [out]) ∧
    upwards (resting_thread true (known_interface 2 (gateway_ip true) 0 0)
      (known_interface 3 (uplink_ip true) (uplink_ip false) 4)) (BufferList.concatenate out) w1' datagram ∧
    downwards (resting_thread false (known_interface 5 (gateway_ip false) (host_ip false) 6)
      (known_interface 4 (uplink_ip false) 0 0)) datagram w2' frame ∧
    NetworkInterfaceAdapter.read server_adapter frame = Ok (Some seg', b', []) ∧
    Buffer.str (TCPSegment.payload seg') = [1; 2].
Proof.
  destruct (lab7_delivers true client_adapter server_adapter
    (resting_thread true (known_interface 2 (gateway_ip true) 0 0) (known_interface 3 (uplink_ip true) (uplink_ip false) 4))
    (resting_thread false (known_interface 5 (gateway_ip false) (host_ip false) 6) (known_interface 4 (uplink_ip false) 0 0))
    (known_interface 2 (gateway_ip true) 0 0) (known_interface 3 (uplink_ip true) (uplink_ip false) 4)
    (known_interface 5 (gateway_ip false) (host_ip false) 6) (known_interface 4 (uplink_ip false) 0 0) opening_segment)
    as (a' & out & w1' & datagram & w2' & frame & b' & seg' & c & H1 & H2 & H3 & H4 & _ & _ & H5).
  - split; [vm_compute; by repeat split|]. split; [vm_compute; by repeat split|].
    split; [apply opening_segment_ok|vm_compute; done].
  - reflexivity.
  - reflexivity.
  - apply example_addr_ok. lia.
  - apply example_addr_ok. lia.
  - reflexivity.
  - reflexivity.
  - constructor; [reflexivity|by split..|split; apply example_addr_ok; lia].
  - constructor; [reflexivity|by split..|split; apply example_addr_ok; lia].
  - vm_compute. reflexivity.
  - vm_compute. reflexivity.
  - vm_compute. reflexivity.
  - by vm_compute.
  - by exists a', out, w1', datagram, w2', frame, b', seg'.
Defined.

End thread_properties.
