(* ===== verification/lab7_network.v ===== *)
(** * Lab 7 as a network

    The two sides of [apps/lab7.cc] together: on each a host's adapter and a network
    thread, with the datagram socket pair between them, and the Internet between the
    threads.  Whoever has something to do does it, in any order.  From any state in
    which the caches of the interfaces hold nothing false, cold ones included, a
    segment that one host writes can be brought to the other: the Ethernet addresses
    that are not known are asked for and learned on the way. *)

From stdpp Require Import strings functions.
From S2P Require Import prelude text buffer parser internet_checksum tcp_segment ipv4 ethernet network_interface router adapters file_descriptor socket eventloop network_simulator lab7 lab7_run.

Module Lab7Net.
Import NetworkThread.

(** One side: the host's adapter, the thread, what is under way from the host to the
    thread, from the thread to the host and from the thread to the Internet, and the
    segments the host has read. *)
Record side := mkSide {
  host : NetworkInterfaceAdapter.t;
  thread : NetworkThread.t;
  up : list bytes;
  down : list bytes;
  out : list bytes;
  got : list TCPSegment.t
}.

#[global] Instance eta_side : Eta side := λ s, mkSide (host s) (thread s) (up s) (down s) (out s) (got s).

Inductive event :=
| HostWrites (seg : TCPSegment.t)
| HostReads
| FromHost          (* the thread's first rule *)
| ToHost            (* the second *)
| ToInternet        (* the third *)
| FromInternet.     (* the fourth *)

(** The kernel takes and gives whole frames. *)
Definition whole (data : bytes) : sysret := mkSysret (len data) 0.

(** The bytes of the oldest frame on interface [id]. *)
Definition oldest (w : t) (id : Z) : bytes :=
  match frames_out w id with
  | Ok (frame :: _) => BufferList.concatenate (EthernetFrame.serialize frame)
  | _ => []
  end.

(** [self] acts; what it takes from the Internet is what [peer] has sent. *)
Definition act (self peer : side) (e : event) : outcome (side * side) :=
  let w := thread self in
  match e with
  | HostWrites seg =>
    '(a, frames) ← NetworkInterfaceAdapter.write (host self) seg;
    Ok (self <| host := a |> <| up ::= λ q, q ++ map BufferList.concatenate frames |>, peer)
  | HostReads =>
    match down self with
    | [] => Diverge
    | data :: rest =>
      '(seg, a, frames) ← NetworkInterfaceAdapter.read (host self) data;
      Ok (self <| host := a |> <| down := rest |> <| up ::= λ q, q ++ map BufferList.concatenate frames |>
            <| got ::= λ l, l ++ option_list seg |>, peer)
    end
  | FromHost =>
    match up self with
    | [] => Diverge
    | data :: rest =>
      w ← rule1_callback (w <| from_host := [(whole data, data)] |>);
      Ok (self <| thread := w |> <| up := rest |>, peer)
    end
  | ToHost =>
    if waiting host_side w then
      w' ← rule2_callback (w <| host_writes := [[whole (oldest w (host_side w))]] |>);
      Ok (self <| thread := w' |> <| down ::= λ q, q ++ drop (length (to_host w)) (to_host w') |>, peer)
    else Diverge
  | ToInternet =>
    if waiting internet_side w then
      w' ← rule3_callback (w <| internet_sends := [whole (oldest w (internet_side w))] |>);
      Ok (self <| thread := w' |> <| out ::= λ q, q ++ (drop (length (to_internet w)) (to_internet w')).*2 |>, peer)
    else Diverge
  | FromInternet =>
    match out peer with
    | [] => Diverge
    | data :: rest =>
      w ← rule4_callback (w <| from_internet := [(whole data, data)] |>);
      Ok (self <| thread := w |>, peer <| out := rest |>)
    end
  end.

(** The first side or the second acts. *)
Definition step (n : side * side) (first : bool) (e : event) : outcome (side * side) :=
  if first then act n.1 n.2 e else '(b, a) ← act n.2 n.1 e; Ok (a, b).

Fixpoint run (n : side * side) (es : list (bool * event)) : outcome (side * side) :=
  match es with
  | [] => Ok n
  | (first, e) :: es => n ← step n first e; run n es
  end.

End Lab7Net.

(** ** Interfaces *)

Section interfaces.
Import NetworkInterface.
Implicit Types (n x y : t) (d : InternetDatagram).

(** Nothing to send and nothing waiting. *)
Definition still n : Prop := ok n ∧ _frames_out n = [] ∧ _queue_map n = ∅.

Definition learns n x : t := n <| _cache ::= <[_ip_address x := mkEntry 0 (_ethernet_address x)]> |>.

(** What [n] knows of [x] is true, if it knows anything. *)
Definition true_of n x : Prop :=
  match get_EthernetAdress n (_ip_address x) with Some mac => mac = _ethernet_address x | None => True end.

Lemma still_learns n x : still n → still (learns n x).
Proof. by intros (? & ? & ?). Qed.

(** The bytes [data] arrive at [n]. *)
Definition takes n (data : bytes) n' (o : option InternetDatagram) : Prop :=
  ∃ f, EthernetFrame.parse EthernetFrame.default (Buffer.of_string data) = Ok (NoError, f) ∧ recv_frame n f = Ok (n', o).

Lemma arp_wire_length n mac (m : ARPMessage.t) :
  addr_ok mac → addr_ok (_ethernet_address n) → ARPMessage.ok m →
  EthernetFrame.ok (arp_frame n mac m) ∧ 0 < len (on_wire (arp_frame n mac m)) < 2 ^ 17.
Proof.
  intros Hm Hn Hok. pose proof (length_arp m Hok) as Hlen.
  assert (Hh : EthernetHeader.ok (EthernetFrame.header (arp_frame n mac m)))
    by (split; [done|split; [done|]]; cbn; unfold EthernetHeader.TYPE_ARP; lia).
  split.
  - split; [done|]. cbn [arp_frame EthernetFrame.payload BufferList.of_string BufferList.concatenate].
    rewrite app_nil_r, str_of_string. split; [by apply is_bytes_arp|]. unfold len. rewrite Hlen. done.
  - unfold on_wire, EthernetFrame.serialize. rewrite !concatenate_append. unfold BufferList.of_string. cbn [BufferList.concatenate app].
    rewrite app_nil_r, str_of_string, len_app, ethernet_header_bytes by done. destruct Hm as [Hm _], Hn as [Hn _].
    cbn [arp_frame EthernetFrame.payload BufferList.of_string BufferList.concatenate]. rewrite app_nil_r, str_of_string.
    unfold len. rewrite Hlen, !length_app. cbn. rewrite Hm, Hn. lia.
Qed.

(** An ARP message arrives. *)
Lemma takes_arp n x mac (m : ARPMessage.t) ds :
  ok n → ok x → ARPMessage.ok m → ARPMessage.sender_ip_address m = _ip_address x →
  ARPMessage.sender_ethernet_address m = _ethernet_address x → addr_ok mac →
  mac = _ethernet_address n ∨ mac = ETHERNET_BROADCAST →
  ds = default [] (waiting_datagram <$> _queue_map n !! _ip_address x) → Forall IPv4Datagram.ok ds →
  ∃ outs, Forall2 (λ d out, IPv4Datagram.serialize d = Ok out) ds outs ∧
    takes n (on_wire (arp_frame x mac m))
      ((learns n x) <| _queue_map ::= delete (_ip_address x) |>
        <| _frames_out := _frames_out n ++ map (ip_frame n (_ethernet_address x)) outs ++
             (if (ARPMessage.opcode m =? 1) && (ARPMessage.target_ip_address m =? _ip_address n)
              then [arp_frame n (_ethernet_address x) (reply n (_ip_address x) (_ethernet_address x))] else []) |>) None.
Proof.
  intros Hn Hx Hm Hip Hmac Hok Hdst Hds Hall.
  destruct (arp_wire_length x mac m Hok (proj1 Hx) Hm) as [Hfr _].
  destruct (ethernet_frame_wire _ EthernetFrame.default Hfr) as (f & b & Hp & Hh & Hpl & Hwf & Hb).
  cbn in Hb. rewrite app_nil_r in Hb.
  destruct (recv_arp_spec n f b m ds) as (n' & outs & Hr & Hc & Hq & Houts & Hf & He & Hi); try done.
  - unfold valid_frame. rewrite Hh. cbn. destruct Hdst as [-> | ->].
    + by rewrite bool_decide_eq_true_2.
    + by rewrite orb_comm, bool_decide_eq_true_2.
  - by rewrite Hh.
  - rewrite Hb. by apply is_bytes_arp.
  - by apply arp_parse_wire.
  - by rewrite Hip.
  - exists outs. split; [done|]. exists f. split; [done|]. rewrite Hr. do 2 f_equal.
    rewrite Hip, Hmac in *. destruct n'. cbn in He, Hi, Hf, Hc, Hq. by subst.
Qed.

(** Asking for an address, the answer, and the release of what waited for it. *)
Lemma asks n d ip :
  still n → 0 ≤ ip < 2 ^ 32 → get_EthernetAdress n ip = None →
  send_datagram n d ip = Ok (n <| _frames_out := [arp_frame n ETHERNET_BROADCAST (request n ip)] |>
    <| _queue_map := {[ip := mkWaitingList 0 [d]]} |>).
Proof.
  intros (Hok & Hf & Hq) Hip Hnone. unfold send_datagram. rewrite Hnone. unfold queue_helper, get_WaitingList.
  rewrite Hq, lookup_empty. cbn [app]. rewrite send_ARP_request_spec by done.
  destruct n. cbn in *. by subst.
Qed.

Lemma takes_request n x :
  still n → ok x →
  takes n (on_wire (arp_frame x ETHERNET_BROADCAST (request x (_ip_address n))))
    ((learns n x) <| _frames_out := [arp_frame n (_ethernet_address x) (reply n (_ip_address x) (_ethernet_address x))] |>) None.
Proof.
  intros (Hok & Hf & Hq) Hx.
  destruct (takes_arp n x ETHERNET_BROADCAST (request x (_ip_address n)) []) as (outs & Houts & H); try done.
  - apply request_ok; [done|apply Hok].
  - split; [done|]. repeat constructor; lia.
  - by right.
  - by rewrite Hq, lookup_empty.
  - apply Forall2_nil_inv_l in Houts as ->. rewrite Hf in H. cbn [map app] in H.
    change (ARPMessage.opcode (request x (_ip_address n)) =? 1) with true in H. cbn [andb] in H.
    change (ARPMessage.target_ip_address (request x (_ip_address n))) with (_ip_address n) in H. rewrite Z.eqb_refl in H.
    destruct n. cbn in *. subst. by rewrite delete_empty in H.
Qed.

Lemma takes_reply n x d :
  ok n → ok x → IPv4Datagram.ok d → _frames_out n = [] → _queue_map n = {[_ip_address x := mkWaitingList 0 [d]]} →
  ∃ out, IPv4Datagram.serialize d = Ok out ∧
    takes n (on_wire (arp_frame x (_ethernet_address n) (reply x (_ip_address n) (_ethernet_address n))))
      ((learns n x) <| _frames_out := [ip_frame n (_ethernet_address x) out] |> <| _queue_map := ∅ |>) None.
Proof.
  intros Hok Hx Hd Hf Hq.
  destruct (takes_arp n x (_ethernet_address n) (reply x (_ip_address n) (_ethernet_address n)) [d]) as (outs & Houts & H); try done.
  - apply reply_ok; [done|apply Hok|apply Hok].
  - apply Hok.
  - by left.
  - by rewrite Hq, lookup_singleton_eq.
  - by apply Forall_singleton.
  - apply Forall2_cons_inv_l in Houts as (out & outs' & Hout & Houts & ->). apply Forall2_nil_inv_l in Houts as ->.
    exists out. split; [done|]. rewrite Hf in H. destruct n. cbn in *. subst. by rewrite delete_singleton_eq in H.
Qed.

End interfaces.

(** ** Steps of a side *)

Section sides.
Import Lab7Net NetworkThread.
Implicit Types (s peer : side) (w : NetworkThread.t) (g u : NetworkInterface.t).

(** The thread of a role with interfaces [g] and [u]. *)
Definition has (ic : bool) w g u : Prop :=
  router w = Router.mk [AsyncNetworkInterface.make g; AsyncNetworkInterface.make u] (lab7_table ic) ∧
  host_side w = 0 ∧ internet_side w = 1.

(** A side, part by part. *)
Record stands (ic : bool) s (a : NetworkInterfaceAdapter.t) g u (U D O : list bytes) (G : list TCPSegment.t) : Prop := {
  stands_host : host s = a;
  stands_thread : has ic (thread s) g u;
  stands_up : up s = U;
  stands_down : down s = D;
  stands_out : out s = O;
  stands_got : got s = G
}.

(** [self] alone moves. *)
Definition moves s s' : Prop := ∀ peer, ∃ es, run (s, peer) (map (pair true) es) = Ok (s', peer).

Lemma moves_refl s : moves s s.
Proof. intros peer. by exists []. Qed.

Lemma acts_app n es es' n' : run n es = Ok n' → run n (es ++ es') = run n' es'.
Proof.
  revert n. induction es as [|[first e] es IH]; intros n; cbn [run app]; [by intros [= ->]|].
  intros (n1 & Hs & H)%bind_Ok. rewrite Hs. cbn [mbind outcome_bind]. by apply IH.
Qed.

Lemma moves_trans s1 s2 s3 : moves s1 s2 → moves s2 s3 → moves s1 s3.
Proof.
  intros H1 H2 peer. destruct (H1 peer) as [es1 E1], (H2 peer) as [es2 E2]. exists (es1 ++ es2).
  rewrite map_app. by rewrite (acts_app _ _ _ _ E1).
Qed.

Lemma moves_act s s' e : (∀ peer, act s peer e = Ok (s', peer)) → moves s s'.
Proof. intros H peer. exists [e]. cbn. by rewrite H. Qed.

Lemma has_held ic w g u k : has ic w g u → held (Router._interfaces (router w)) k = [].
Proof. intros (-> & _). by destruct k as [|[|k]]. Qed.

(** The thread takes bytes on the interface towards the host or towards the
    Internet. *)
Lemma receive_arp ic w g u (id : Z) data (n' : NetworkInterface.t) :
  has ic w g u → id = 0 ∨ id = 1 → takes (if id =? 0 then g else u) data n' None →
  ∃ w', receive w id data = Ok w' ∧ has ic w' (if id =? 0 then n' else g) (if id =? 0 then u else n') ∧
    to_host w' = to_host w ∧ to_internet w' = to_internet w.
Proof.
  intros (Er & Hh & Hi) Hid (f & Hp & Hr). unfold receive. rewrite Hp. cbn [mbind outcome_bind].
  rewrite bool_decide_eq_false_2 by tauto.
  assert (Hrec : AsyncNetworkInterface.recv_frame (AsyncNetworkInterface.make (if id =? 0 then g else u)) f =
    Ok (AsyncNetworkInterface.make n')).
  { unfold AsyncNetworkInterface.recv_frame. cbn [AsyncNetworkInterface.base AsyncNetworkInterface.make]. by rewrite Hr. }
  set (l := [AsyncNetworkInterface.make (if id =? 0 then n' else g); AsyncNetworkInterface.make (if id =? 0 then u else n')]).
  assert (Hroute : Router.route (Router.mk l (lab7_table ic)) = Ok (Router.mk l (lab7_table ic)))
    by (apply route_idle; intros k; by destruct k as [|[|k]]).
  exists (w <| router := Router.mk l (lab7_table ic) |>). split; [|by repeat split].
  rewrite Er. destruct Hid as [-> | ->]; cbn [Z.eqb] in *.
  - change (Router.interface _ 0) with (Ok (AsyncNetworkInterface.make g)). cbn [mbind outcome_bind]. rewrite Hrec.
    cbn [mbind outcome_bind]. unfold set_interface. cbv zeta. cbn [router upd eta_t eta]. rewrite Er.
    match goal with |- context [Router.route ?r] => change r with (Router.mk l (lab7_table ic)) end. by rewrite Hroute.
  - change (Router.interface _ 1) with (Ok (AsyncNetworkInterface.make u)). cbn [mbind outcome_bind]. rewrite Hrec.
    cbn [mbind outcome_bind]. unfold set_interface. cbv zeta. cbn [router upd eta_t eta]. rewrite Er.
    match goal with |- context [Router.route ?r] => change r with (Router.mk l (lab7_table ic)) end. by rewrite Hroute.
Qed.

(** A datagram that arrives from the host leaves for the Internet. *)
Lemma receive_up ic w g u u' data d next :
  has ic w g u → takes g data g (Some d) → 1 < IPv4Header.ttl (IPv4Datagram.header d) →
  leads (lab7_table ic) (IPv4Header.dst (IPv4Datagram.header d)) 1 next →
  NetworkInterface.send_datagram u (hop d) next = Ok u' →
  ∃ w', receive w 0 data = Ok w' ∧ has ic w' g u' ∧ to_host w' = to_host w ∧ to_internet w' = to_internet w.
Proof.
  intros Hw (f & Hp & Hr) Httl Hleads Hsend. pose proof (has_held ic w g u) as Hidle. destruct Hw as (Er & Hh & Hi).
  erewrite (receive_routes w 0 (AsyncNetworkInterface.make g) f 1 next (AsyncNetworkInterface.make u) (AsyncNetworkInterface.make u') d);
    try done; rewrite ?Er; try done.
  - eexists. split; [reflexivity|]. unfold has, set_interface. cbn. rewrite Er. by repeat split.
  - intros k. by destruct k as [|[|k]].
  - unfold AsyncNetworkInterface.send_datagram. cbn [AsyncNetworkInterface.base AsyncNetworkInterface.make]. by rewrite Hsend.
Qed.

(** One that arrives from the Internet leaves for the host. *)
Lemma receive_down ic w g u g' data d next :
  has ic w g u → takes u data u (Some d) → 1 < IPv4Header.ttl (IPv4Datagram.header d) →
  leads (lab7_table ic) (IPv4Header.dst (IPv4Datagram.header d)) 0 next →
  NetworkInterface.send_datagram g (hop d) next = Ok g' →
  ∃ w', receive w 1 data = Ok w' ∧ has ic w' g' u ∧ to_host w' = to_host w ∧ to_internet w' = to_internet w.
Proof.
  intros Hw (f & Hp & Hr) Httl Hleads Hsend. destruct Hw as (Er & Hh & Hi).
  erewrite (receive_routes w 1 (AsyncNetworkInterface.make u) f 0 next (AsyncNetworkInterface.make g) (AsyncNetworkInterface.make g') d);
    try done; rewrite ?Er; try done.
  - eexists. split; [reflexivity|]. unfold has, set_interface. cbn. rewrite Er. by repeat split.
  - intros k. by destruct k as [|[|k]].
  - unfold AsyncNetworkInterface.send_datagram. cbn [AsyncNetworkInterface.base AsyncNetworkInterface.make]. by rewrite Hsend.
Qed.

(** What [receive] does to the thread is what the first and the fourth rule do. *)
Definition receives (ic : bool) g u (id : Z) (data : bytes) g' u' : Prop :=
  ∀ w, has ic w g u → ∃ w', receive w id data = Ok w' ∧ has ic w' g' u'.

Lemma from_host_step ic s a g u g' u' data U D O G :
  stands ic s a g u (data :: U) D O G → 0 < len data < 2 ^ 17 → receives ic g u 0 data g' u' →
  ∃ s', moves s s' ∧ stands ic s' a g' u' U D O G.
Proof.
  intros [Hh Hw Hu Hd Ho Hg] Hl Hrec. set (w := thread s) in *.
  destruct (Hrec (w <| from_host := [] |> <| frame_fd ::= FileDescriptor.register_read |>)) as (w' & Hw' & Hhas'); [exact Hw|].
  exists (s <| thread := w' |> <| up := U |>). split; [|by constructor].
  apply (moves_act _ _ FromHost). intros peer. cbn [act]. rewrite Hu. fold w.
  rewrite (rule1_receives _ data []) by done. change (host_side (w <| from_host := _ |>)) with (host_side w).
  destruct Hw as (_ & -> & _).
  match goal with |- context [receive ?x 0 data] => change x with (w <| from_host := [] |> <| frame_fd ::= FileDescriptor.register_read |>) end.
  by rewrite Hw'.
Qed.

Lemma to_host_step ic s a g u f U D O G :
  stands ic s a g u U D O G → NetworkInterface._frames_out g = [f] → 0 < len (on_wire f) < 2 ^ 17 →
  ∃ s', moves s s' ∧ stands ic s' a (g <| NetworkInterface._frames_out := [] |>) u U (D ++ [on_wire f]) O G.
Proof.
  intros [Hh Hw Hu Hd Ho Hg] Hf Hl. set (w := thread s) in *. destruct Hw as (Er & Eh & Ei).
  assert (Hlook : Router._interfaces (router w) !! Z.to_nat (host_side w) = Some (AsyncNetworkInterface.make g)) by (by rewrite Er, Eh).
  assert (Hfr : frames_out w (host_side w) = Ok [f]) by (by eapply frames_out_is).
  destruct (rule2_emits (w <| host_writes := [[whole (on_wire f)]] |>) (AsyncNetworkInterface.make g) f [] []) as (w' & Hw' & Hto & Hr & Hs1 & Hs2);
    [exact Hlook|exact Hf|done|done|].
  exists (s <| thread := w' |> <| down ::= λ q, q ++ [on_wire f] |>). split.
  - apply (moves_act _ _ ToHost). intros peer. cbn [act]. fold w. unfold waiting, oldest. rewrite Hfr.
    fold (on_wire f). rewrite Hw'. cbn [mbind outcome_bind]. rewrite Hto. cbn [to_host upd eta_t eta]. by rewrite drop_app_length.
  - constructor; cbn; try done; [|by rewrite Hd]. split; [rewrite Hr; cbn; by rewrite Er, Eh|]. rewrite Hs1, Hs2. done.
Qed.

Lemma to_internet_step ic s a g u f U D O G :
  stands ic s a g u U D O G → NetworkInterface._frames_out u = [f] → 0 < len (on_wire f) < 2 ^ 17 →
  ∃ s', moves s s' ∧ stands ic s' a g (u <| NetworkInterface._frames_out := [] |>) U D (O ++ [on_wire f]) G.
Proof.
  intros [Hh Hw Hu Hd Ho Hg] Hf Hl. set (w := thread s) in *. destruct Hw as (Er & Eh & Ei).
  assert (Hlook : Router._interfaces (router w) !! Z.to_nat (internet_side w) = Some (AsyncNetworkInterface.make u)) by (by rewrite Er, Ei).
  assert (Hfr : frames_out w (internet_side w) = Ok [f]) by (by eapply frames_out_is).
  destruct (rule3_emits (w <| internet_sends := [whole (on_wire f)] |>) (AsyncNetworkInterface.make u) f [] []) as (w' & Hw' & Hto & Hr & Hs1 & Hs2);
    [exact Hlook|exact Hf|done|done|].
  exists (s <| thread := w' |> <| out ::= λ q, q ++ [on_wire f] |>). split.
  - apply (moves_act _ _ ToInternet). intros peer. cbn [act]. fold w. unfold waiting, oldest. rewrite Hfr.
    fold (on_wire f). rewrite Hw'. cbn [mbind outcome_bind]. rewrite Hto. cbn [to_internet upd eta_t eta]. by rewrite drop_app_length.
  - constructor; cbn; try done; [|by rewrite Ho]. split; [rewrite Hr; cbn; by rewrite Er, Ei|]. rewrite Hs1, Hs2. done.
Qed.

(** A run of the two sides. *)
Definition leads_to (n n' : side * side) : Prop := ∃ es, run n es = Ok n'.

Lemma leads_to_trans n1 n2 n3 : leads_to n1 n2 → leads_to n2 n3 → leads_to n1 n3.
Proof. intros [es1 E1] [es2 E2]. exists (es1 ++ es2). by rewrite (acts_app _ _ _ _ E1). Qed.

Lemma moves_first s s' peer : moves s s' → leads_to (s, peer) (s', peer).
Proof. intros H. destruct (H peer) as [es Hes]. by eexists. Qed.

Lemma leads_to_swap s1 s2 s1' s2' : leads_to (s1, s2) (s1', s2') → leads_to (s2, s1) (s2', s1').
Proof.
  intros [es Hes]. exists (map (λ x, (negb x.1, x.2)) es). revert s1 s2 Hes.
  induction es as [|[first e] es IH]; intros s1 s2; cbn [run map fst snd]; [by intros [= -> ->]|].
  intros ([t1 t2] & Hs & H)%bind_Ok. unfold step in *. destruct first; cbn [negb fst snd] in *.
  - rewrite Hs. cbn [mbind outcome_bind]. by apply IH.
  - apply bind_Ok in Hs as ([b a] & Hb & [= <- <-]). rewrite Hb. cbn [mbind outcome_bind]. by apply IH.
Qed.

Lemma from_internet_step ic s peer a g u g' u' data U D O G O' :
  stands ic s a g u U D O G → out peer = data :: O' → 0 < len data < 2 ^ 17 → receives ic g u 1 data g' u' →
  ∃ s', leads_to (s, peer) (s', peer <| out := O' |>) ∧ stands ic s' a g' u' U D O G.
Proof.
  intros [Hh Hw Hu Hd Ho Hg] Hout Hl Hrec. set (w := thread s) in *.
  destruct (Hrec (w <| from_internet := [] |> <| internet_socket ::= FileDescriptor.register_read |>)) as (w' & Hw' & Hhas'); [exact Hw|].
  exists (s <| thread := w' |>). split; [|by constructor].
  exists [(true, FromInternet)]. cbn [run step act fst snd]. rewrite Hout. fold w.
  rewrite (rule4_receives _ data []) by done. change (internet_side (w <| from_internet := _ |>)) with (internet_side w).
  destruct Hw as (_ & _ & ->).
  match goal with |- context [receive ?x 1 data] => change x with (w <| from_internet := [] |> <| internet_socket ::= FileDescriptor.register_read |>) end.
  by rewrite Hw'.
Qed.

(** The host reads an ARP message. *)
Lemma host_reads_arp ic s a g u data (n' : NetworkInterface.t) U D O G :
  stands ic s a g u U (data :: D) O G → takes (NetworkInterfaceAdapter._interface a) data n' None →
  ∃ s', moves s s' ∧ stands ic s' (a <| NetworkInterfaceAdapter._interface := n' <| NetworkInterface._frames_out := [] |> |>) g u
    (U ++ map on_wire (NetworkInterface._frames_out n')) D O G.
Proof.
  intros [Hh Hw Hu Hd Ho Hg] (f & Hp & Hr).
  eexists. split.
  - apply (moves_act _ _ HostReads). intros peer. cbn [act]. rewrite Hd, Hh. unfold NetworkInterfaceAdapter.read. rewrite Hp.
    cbn [mbind outcome_bind]. rewrite bool_decide_eq_false_2 by tauto. rewrite Hr. cbn [mbind outcome_bind].
    rewrite send_pending_tap. cbn [mbind outcome_bind]. reflexivity.
  - constructor; cbn; try done; [|by rewrite Hg, app_nil_r]. rewrite Hu. f_equal. rewrite map_map. done.
Qed.

End sides.

(** ** One hop *)

Section hops.
Import Lab7Net NetworkThread.
Implicit Types (s : side) (n x g u : NetworkInterface.t) (d : InternetDatagram).

Definition same n n' : Prop :=
  NetworkInterface._ethernet_address n' = NetworkInterface._ethernet_address n ∧
  NetworkInterface._ip_address n' = NetworkInterface._ip_address n.

(** An interface that has asked for the address of [x] to send it [d]. *)
Definition asking n x d : NetworkInterface.t :=
  n <| NetworkInterface._frames_out :=
         [arp_frame n ETHERNET_BROADCAST (request n (NetworkInterface._ip_address x))] |>
    <| NetworkInterface._queue_map := {[NetworkInterface._ip_address x := NetworkInterface.mkWaitingList 0 [d]]} |>.

(** One that has been asked by [x] and answers. *)
Definition answering n x : NetworkInterface.t :=
  (learns n x) <| NetworkInterface._frames_out :=
    [arp_frame n (NetworkInterface._ethernet_address x)
       (reply n (NetworkInterface._ip_address x) (NetworkInterface._ethernet_address x))] |>.

(** One that sends. *)
Definition sending n x (out : BufferList.t) : NetworkInterface.t :=
  n <| NetworkInterface._frames_out := [ip_frame n (NetworkInterface._ethernet_address x) out] |>.

(** Nothing in its queue of frames. *)
Definition flushed n : NetworkInterface.t := n <| NetworkInterface._frames_out := [] |>.

Lemma sends_or_asks n x d :
  still n → NetworkInterface.ok x → true_of n x → IPv4Datagram.ok d →
  ∃ out, IPv4Datagram.serialize d = Ok out ∧
    (NetworkInterface.send_datagram n d (NetworkInterface._ip_address x) = Ok (sending n x out) ∨
     NetworkInterface.send_datagram n d (NetworkInterface._ip_address x) = Ok (asking n x d)).
Proof.
  intros Hn Hx Htrue Hd. destruct (send_helper_spec n (NetworkInterface._ethernet_address x) d Hd) as (out & Hout & Hs).
  exists out. split; [done|]. unfold true_of in Htrue.
  destruct (NetworkInterface.get_EthernetAdress n (NetworkInterface._ip_address x)) as [mac|] eqn:Hg.
  - left. unfold NetworkInterface.send_datagram. rewrite Hg, Htrue, Hs. destruct Hn as (_ & Hf & _).
    unfold sending. destruct n. cbn in *. by subst.
  - right. apply asks; [done|apply Hx|done].
Qed.

(** The frames of the exchange fit a read. *)
Lemma request_length n x : NetworkInterface.ok n → NetworkInterface.ok x →
  0 < len (on_wire (arp_frame n ETHERNET_BROADCAST (request n (NetworkInterface._ip_address x)))) < 2 ^ 17.
Proof.
  intros Hn Hx. apply arp_wire_length; [|apply Hn|apply request_ok; [done|apply Hx]].
  split; [done|]. repeat constructor; lia.
Qed.

Lemma reply_length n x : NetworkInterface.ok n → NetworkInterface.ok x →
  0 < len (on_wire (arp_frame n (NetworkInterface._ethernet_address x)
    (reply n (NetworkInterface._ip_address x) (NetworkInterface._ethernet_address x)))) < 2 ^ 17.
Proof. intros Hn Hx. apply arp_wire_length; [apply Hx|apply Hn|apply reply_ok; [done|apply Hx..]]. Qed.

(** The answer releases what waited. *)
Lemma asking_released n x d out :
  still n → NetworkInterface.ok x → IPv4Datagram.ok d → IPv4Datagram.serialize d = Ok out →
  takes (flushed (asking n x d)) (on_wire (arp_frame x (NetworkInterface._ethernet_address n)
    (reply x (NetworkInterface._ip_address n) (NetworkInterface._ethernet_address n))))
    (sending (learns n x) x out) None.
Proof.
  intros (Hok & Hf & Hq) Hx Hd Hout. destruct (takes_reply (flushed (asking n x d)) x d) as (out' & Hout' & H); try done.
  rewrite Hout in Hout'. injection Hout' as <-. destruct n. cbn in *. by subst.
Qed.

Definition frame_to n x (out : BufferList.t) : bytes := on_wire (ip_frame n (NetworkInterface._ethernet_address x) out).

(** From the host to the gateway. *)
Lemma host_to_gateway ic s a g u seg d seg0 O G :
  let n := NetworkInterfaceAdapter._interface a in
  stands ic s a g u [] [] O G → TCPOverIPv4Adapter.wrap_tcp_in_ip (NetworkInterfaceAdapter.base a) seg = Ok (d, seg0) →
  IPv4Datagram.ok d → Address.ipv4_numeric (NetworkInterfaceAdapter._next_hop a) = NetworkInterface._ip_address g →
  still n → still g → true_of n g →
  ∃ s0 s' n' g' out, (∀ peer, act s peer (HostWrites seg) = Ok (s0, peer)) ∧ moves s0 s' ∧ IPv4Datagram.serialize d = Ok out ∧
    stands ic s' (a <| NetworkInterfaceAdapter._interface := n' |>) g' u [frame_to n g out] [] O G ∧
    still n' ∧ still g' ∧ same n n' ∧ same g g'.
Proof.
  intros n Hs Hwrap Hd Hhop Hn Hg Htrue. pose proof Hs as [Hh Hw Hu Hdn Ho Hgot].
  destruct (sends_or_asks n g d Hn (proj1 Hg) Htrue Hd) as (out & Hout & Hsend).
  assert (Hact : ∀ n1, NetworkInterface.send_datagram n d (NetworkInterface._ip_address g) = Ok n1 →
    ∃ s1, (∀ peer, act s peer (HostWrites seg) = Ok (s1, peer)) ∧
      stands ic s1 (a <| NetworkInterfaceAdapter._interface := flushed n1 |>) g u
      (map on_wire (NetworkInterface._frames_out n1)) [] O G).
  { intros n1 Hn1. eexists. split.
    - intros peer. cbn [act]. rewrite Hh. unfold NetworkInterfaceAdapter.write.
      rewrite Hwrap. cbn [mbind outcome_bind]. rewrite Hhop. fold n. rewrite Hn1. cbn [mbind outcome_bind].
      rewrite send_pending_tap. reflexivity.
    - constructor; cbn; try done. rewrite Hu, map_map. done. }
  destruct Hsend as [Hsend|Hsend]; destruct (Hact _ Hsend) as (s1 & Hm1 & Hs1).
  - exists s1, s1, (flushed (sending n g out)), g, out. split; [done|]. split; [apply moves_refl|]. split; [done|]. split; [exact Hs1|].
    destruct Hn as (? & ? & ?), Hg as (? & ? & ?). unfold still, same. by split_and!.
  - destruct (from_host_step ic s1 _ g u (answering g n) u _ _ _ _ _ Hs1) as (s2 & Hm2 & Hs2).
    { exact (request_length n g (proj1 Hn) (proj1 Hg)). }
    { intros w Hhas. destruct (receive_arp ic w g u 0 (on_wire (arp_frame n ETHERNET_BROADCAST (request n (NetworkInterface._ip_address g))))
        (answering g n) Hhas) as (w' & Hr & Hhas' & _); [by left|apply takes_request; [done|apply Hn]|]. by exists w'. }
    destruct (to_host_step ic s2 _ _ u _ _ _ _ _ Hs2 eq_refl) as (s3 & Hm3 & Hs3); [exact (reply_length g n (proj1 Hg) (proj1 Hn))|].
    destruct (host_reads_arp ic s3 _ _ u _ (sending (learns n g) g out) _ _ _ _ Hs3) as (s4 & Hm4 & Hs4).
    { apply asking_released; try done. apply Hg. }
    exists s1, s4, (flushed (sending (learns n g) g out)), (flushed (answering g n)), out. split; [done|].
    split; [eapply moves_trans; [exact Hm2|]; by eapply moves_trans|].
    split; [done|]. split; [exact Hs4|]. destruct Hn as (? & ? & ?), Hg as (? & ? & ?). unfold still, same. by split_and!.
Qed.

(** A frame that carries a datagram arrives. *)
Lemma frame_taken n x d out :
  NetworkInterface.ok n → addr_ok (NetworkInterface._ethernet_address x) → IPv4Datagram.ok d → IPv4Datagram.serialize d = Ok out →
  0 < len (frame_to x n out) < 2 ^ 17 ∧
  ∃ d' b, takes n (frame_to x n out) n (Some d') ∧ arrived d d' ∧ IPv4Datagram.payload d' = [b].
Proof.
  intros [Hn _] Hx Hd Hout. destruct (wire_length x _ d out Hn Hx Hd Hout) as [_ Hl]. split; [exact Hl|].
  destruct (ip_frame_received x n d out Hx Hn Hd Hout) as (f & d' & b & Hp & Hr & Ha & Hb). exists d', b. split; [by exists f|done].
Qed.

Lemma hop_ok d d' : arrived d d' → IPv4Datagram.ok d → 1 < IPv4Header.ttl (IPv4Datagram.header d) →
  IPv4Datagram.ok (hop d') ∧ 1 < IPv4Header.ttl (IPv4Datagram.header d') ∧
  IPv4Header.dst (IPv4Datagram.header d') = IPv4Header.dst (IPv4Datagram.header d).
Proof.
  intros (Hh & _ & Hok) Hd Httl. assert (Ht : IPv4Header.ttl (IPv4Datagram.header d') = IPv4Header.ttl (IPv4Datagram.header d)) by (by rewrite Hh).
  split; [apply ttl_ok; [done|lia]|]. split; [lia|]. by rewrite Hh.
Qed.

(** The other side asks over the Internet, this one answers. *)
Lemma answers_request ic s peer a g u x U D G :
  stands ic s a g u U D [] G → still u → NetworkInterface.ok x →
  out peer = [on_wire (arp_frame x ETHERNET_BROADCAST (request x (NetworkInterface._ip_address u)))] →
  ∃ s', leads_to (s, peer) (s', peer <| out := [] |>) ∧
    stands ic s' a g (flushed (answering u x)) U D
      [on_wire (arp_frame u (NetworkInterface._ethernet_address x)
         (reply u (NetworkInterface._ip_address x) (NetworkInterface._ethernet_address x)))] G.
Proof.
  intros Hs Hu Hx Hout.
  destruct (from_internet_step ic s peer a g u g (answering u x) _ U D [] G [] Hs Hout) as (s1 & Hl1 & Hs1).
  { exact (request_length x u Hx (proj1 Hu)). }
  { intros w Hw. destruct (receive_arp ic w g u 1 _ (answering u x) Hw ltac:(by right) (takes_request u x Hu Hx)) as (w' & Hr & Hw' & _).
    by exists w'. }
  destruct (to_internet_step ic s1 a g (answering u x) _ U D [] G Hs1 eq_refl) as (s2 & Hm2 & Hs2).
  { exact (reply_length u x (proj1 Hu) Hx). }
  exists s2. split; [|done]. eapply leads_to_trans; [exact Hl1|]. by apply moves_first.
Qed.

(** From router to router. *)
Lemma router_to_router ic ic2 s1 s2 a b g1 u1 g2 u2 x d out1 U2 D2 G1 G2 :
  stands ic s1 a g1 u1 [frame_to x g1 out1] [] [] G1 → stands ic2 s2 b g2 u2 U2 D2 [] G2 →
  addr_ok (NetworkInterface._ethernet_address x) → IPv4Datagram.ok d → IPv4Datagram.serialize d = Ok out1 →
  1 < IPv4Header.ttl (IPv4Datagram.header d) →
  leads (lab7_table ic) (IPv4Header.dst (IPv4Datagram.header d)) 1 (NetworkInterface._ip_address u2) →
  still g1 → still u1 → still u2 → true_of u1 u2 →
  ∃ s1' s2' u1' u2' d1 out2, leads_to (s1, s2) (s1', s2') ∧ arrived d d1 ∧ IPv4Datagram.serialize (hop d1) = Ok out2 ∧
    stands ic s1' a g1 u1' [] [] [frame_to u1 u2 out2] G1 ∧ stands ic2 s2' b g2 u2' U2 D2 [] G2 ∧
    still u1' ∧ still u2' ∧ same u1 u1' ∧ same u2 u2'.
Proof.
  intros Hs1 Hs2 Hx Hd Hout Httl Hleads Hg1 Hu1 Hu2 Htrue.
  destruct (frame_taken g1 x d out1 (proj1 Hg1) Hx Hd Hout) as (Hl & d1 & _ & Htake & Harr & _).
  destruct (hop_ok d d1 Harr Hd Httl) as (Hok1 & Httl1 & Hdst1).
  destruct (sends_or_asks u1 u2 (hop d1) Hu1 (proj1 Hu2) Htrue Hok1) as (out2 & Hout2 & Hsend).
  assert (Hact : ∀ u', NetworkInterface.send_datagram u1 (hop d1) (NetworkInterface._ip_address u2) = Ok u' →
    ∃ s, moves s1 s ∧ stands ic s a g1 u' [] [] [] G1).
  { intros u' Hu'. apply (from_host_step ic s1 a g1 u1 g1 u' _ _ _ _ _ Hs1 Hl). intros w Hw.
    destruct (receive_up ic w g1 u1 u' _ d1 _ Hw Htake Httl1 ltac:(rewrite Hdst1; exact Hleads) Hu') as (w' & Hr & Hw' & _). by exists w'. }
  destruct (frame_taken u2 u1 (hop d1) out2 (proj1 Hu2) (proj1 (proj1 Hu1)) Hok1 Hout2) as [Hl2 _].
  destruct Hsend as [Hsend|Hsend]; destruct (Hact _ Hsend) as (s3 & Hm3 & Hs3).
  - destruct (to_internet_step ic s3 a g1 _ _ _ _ _ _ Hs3 eq_refl Hl2) as (s4 & Hm4 & Hs4).
    exists s4, s2, (flushed (sending u1 u2 out2)), u2, d1, out2.
    split; [apply moves_first; by eapply moves_trans|]. split; [done|]. split; [done|]. split; [exact Hs4|]. split; [done|].
    destruct Hu1 as (? & ? & ?), Hu2 as (? & ? & ?). unfold still, same. by split_and!.
  - destruct (to_internet_step ic s3 a g1 _ _ _ _ _ _ Hs3 eq_refl) as (s4 & Hm4 & Hs4).
    { exact (request_length u1 u2 (proj1 Hu1) (proj1 Hu2)). }
    destruct (answers_request ic2 s2 s4 b g2 u2 u1 U2 D2 G2 Hs2 Hu2 (proj1 Hu1) (stands_out _ _ _ _ _ _ _ _ _ Hs4)) as (s5 & Hl5 & Hs5).
    assert (Hs4' : stands ic (s4 <| out := [] |>) a g1 (flushed (asking u1 u2 (hop d1))) [] [] [] G1) by (by destruct Hs4).
    destruct (from_internet_step ic _ s5 a g1 _ g1 (sending (learns u1 u2) u2 out2) _ [] [] [] G1 [] Hs4' (stands_out _ _ _ _ _ _ _ _ _ Hs5)) as (s6 & Hl6 & Hs6).
    { exact (reply_length u2 u1 (proj1 Hu2) (proj1 Hu1)). }
    { intros w Hw. destruct (receive_arp ic w g1 _ 1 _ (sending (learns u1 u2) u2 out2) Hw ltac:(by right)
        (asking_released u1 u2 (hop d1) out2 Hu1 (proj1 Hu2) Hok1 Hout2)) as (w' & Hr & Hw' & _). by exists w'. }
    destruct (to_internet_step ic s6 a g1 _ _ _ _ _ _ Hs6 eq_refl Hl2) as (s7 & Hm7 & Hs7).
    exists s7, (s5 <| out := [] |>), (flushed (sending (learns u1 u2) u2 out2)), (flushed (answering u2 u1)), d1, out2.
    split; [|split; [done|]; split; [done|]; split; [exact Hs7|]; split; [by destruct Hs5|]].
    2:{ destruct Hu1 as (? & ? & ?), Hu2 as (? & ? & ?). unfold still, same. by split_and!. }
    eapply leads_to_trans; [apply moves_first; eapply moves_trans; [exact Hm3|exact Hm4]|].
    eapply leads_to_trans; [apply leads_to_swap; exact Hl5|]. eapply leads_to_trans; [exact Hl6|]. by apply moves_first.
Qed.


(** From the router to its host. *)
Lemma router_to_host ic s peer b g u x d out1 O G :
  let n := NetworkInterfaceAdapter._interface b in
  stands ic s b g u [] [] O G → out peer = [frame_to x u out1] →
  addr_ok (NetworkInterface._ethernet_address x) → IPv4Datagram.ok d → IPv4Datagram.serialize d = Ok out1 →
  1 < IPv4Header.ttl (IPv4Datagram.header d) →
  leads (lab7_table ic) (IPv4Header.dst (IPv4Datagram.header d)) 0 (NetworkInterface._ip_address n) →
  still n → still g → still u → true_of g n →
  ∃ s' n' g' d1 out2, leads_to (s, peer) (s', peer <| out := [] |>) ∧ arrived d d1 ∧ IPv4Datagram.ok (hop d1) ∧
    IPv4Datagram.serialize (hop d1) = Ok out2 ∧
    stands ic s' (b <| NetworkInterfaceAdapter._interface := n' |>) g' u [] [frame_to g n out2] O G ∧
    still n' ∧ still g' ∧ same n n' ∧ same g g'.
Proof.
  intros n Hs Hpeer Hx Hd Hout Httl Hleads Hn Hg Hu Htrue.
  destruct (frame_taken u x d out1 (proj1 Hu) Hx Hd Hout) as (Hl & d1 & _ & Htake & Harr & _).
  destruct (hop_ok d d1 Harr Hd Httl) as (Hok1 & Httl1 & Hdst1).
  destruct (sends_or_asks g n (hop d1) Hg (proj1 Hn) Htrue Hok1) as (out2 & Hout2 & Hsend).
  assert (Hact : ∀ g', NetworkInterface.send_datagram g (hop d1) (NetworkInterface._ip_address n) = Ok g' →
    ∃ s', leads_to (s, peer) (s', peer <| out := [] |>) ∧ stands ic s' b g' u [] [] O G).
  { intros g' Hg'. apply (from_internet_step ic s peer b g u g' u _ _ _ _ _ _ Hs Hpeer Hl). intros w Hw.
    destruct (receive_down ic w g u g' _ d1 _ Hw Htake Httl1 ltac:(rewrite Hdst1; exact Hleads) Hg') as (w' & Hr & Hw' & _). by exists w'. }
  destruct (frame_taken n g (hop d1) out2 (proj1 Hn) (proj1 (proj1 Hg)) Hok1 Hout2) as [Hl2 _].
  destruct Hsend as [Hsend|Hsend]; destruct (Hact _ Hsend) as (s1 & Hl1 & Hs1).
  - destruct (to_host_step ic s1 b _ u _ _ _ _ _ Hs1 eq_refl Hl2) as (s2 & Hm2 & Hs2).
    exists s2, n, (flushed (sending g n out2)), d1, out2.
    split; [eapply leads_to_trans; [exact Hl1|by apply moves_first]|]. split; [done|]. split; [done|]. split; [done|].
    split; [destruct b; exact Hs2|]. destruct Hn as (? & ? & ?), Hg as (? & ? & ?). unfold still, same. by split_and!.
  - destruct (to_host_step ic s1 b _ u _ _ _ _ _ Hs1 eq_refl) as (s2 & Hm2 & Hs2).
    { exact (request_length g n (proj1 Hg) (proj1 Hn)). }
    destruct (host_reads_arp ic s2 b _ u _ (answering n g) _ _ _ _ Hs2 (takes_request n g Hn (proj1 Hg))) as (s3 & Hm3 & Hs3).
    destruct (from_host_step ic s3 _ _ u (sending (learns g n) n out2) u _ _ _ _ _ Hs3) as (s4 & Hm4 & Hs4).
    { exact (reply_length n g (proj1 Hn) (proj1 Hg)). }
    { intros w Hw. destruct (receive_arp ic w _ u 0 _ (sending (learns g n) n out2) Hw ltac:(by left)
        (asking_released g n (hop d1) out2 Hg (proj1 Hn) Hok1 Hout2)) as (w' & Hr & Hw' & _). by exists w'. }
    destruct (to_host_step ic s4 _ _ u _ _ _ _ _ Hs4 eq_refl Hl2) as (s5 & Hm5 & Hs5).
    exists s5, (flushed (answering n g)), (flushed (sending (learns g n) n out2)), d1, out2.
    split; [|split; [done|]; split; [done|]; split; [done|]; split; [exact Hs5|]].
    2:{ destruct Hn as (? & ? & ?), Hg as (? & ? & ?). unfold still, same. by split_and!. }
    eapply leads_to_trans; [exact Hl1|]. apply moves_first. eapply moves_trans; [exact Hm2|].
    eapply moves_trans; [exact Hm3|]. by eapply moves_trans.
Qed.

(** The host reads a segment. *)
Lemma host_reads_segment ic s b g u x d out1 U D O G seg base' :
  let n := NetworkInterfaceAdapter._interface b in
  stands ic s b g u U (frame_to x n out1 :: D) O G → takes n (frame_to x n out1) n (Some d) → still n →
  TCPOverIPv4Adapter.unwrap_tcp_in_ip (NetworkInterfaceAdapter.base b) d = Ok (Some seg, base') →
  ∃ s', moves s s' ∧ stands ic s' (b <| NetworkInterfaceAdapter.base := base' |>) g u U D O (G ++ [seg]).
Proof.
  intros n [Hh Hw Hu Hd Ho Hg] (f & Hp & Hr) (_ & Hf & _) Hun. eexists. split.
  - apply (moves_act _ _ HostReads). intros peer. cbn [act]. rewrite Hd, Hh. unfold NetworkInterfaceAdapter.read. rewrite Hp.
    cbn [mbind outcome_bind]. rewrite bool_decide_eq_false_2 by tauto. fold n. rewrite Hr. cbn [mbind outcome_bind].
    rewrite send_pending_tap. cbn [mbind outcome_bind NetworkInterfaceAdapter.base upd eta NetworkInterfaceAdapter.eta_t].
    rewrite Hun. cbn [mbind outcome_bind]. reflexivity.
  - unfold n in Hf. destruct b as [bb [] nh]. cbn in *. subst.
    constructor; cbn; try done. by rewrite app_nil_r.
Qed.

End hops.

(** ** Across the network *)

Section network_properties.
Import Lab7Net NetworkThread.

(** The side of a role at rest, with the interfaces [g] and [u] of its router. *)
Definition at_rest_side (ic : bool) (s : side) (g u : NetworkInterface.t) : Prop :=
  has ic (thread s) g u ∧ up s = [] ∧ down s = [] ∧ out s = [] ∧
  still (NetworkInterfaceAdapter._interface (host s)) ∧ still g ∧ still u ∧
  NetworkInterface._ip_address g = gateway_ip ic ∧ NetworkInterface._ip_address u = uplink_ip ic.

Lemma at_rest_stands ic s g u : at_rest_side ic s g u → stands ic s (host s) g u [] [] [] (got s).
Proof. intros (? & ? & ? & ? & _). by constructor. Qed.

Lemma stands_at_rest ic s a g u G g0 u0 :
  stands ic s a g u [] [] [] G → still (NetworkInterfaceAdapter._interface a) → still g → still u →
  same g0 g → same u0 u → NetworkInterface._ip_address g0 = gateway_ip ic → NetworkInterface._ip_address u0 = uplink_ip ic →
  at_rest_side ic s g u.
Proof. intros [Eh ? ? ? ? ?] ? ? ? [_ Hg] [_ Hu] Eg Eu. unfold at_rest_side. by rewrite Eh, Hg, Hu. Qed.

Lemma arrived_forwarded d d' :
  arrived d d' → forwarded (IPv4Datagram.header d) (IPv4Datagram.header d') ∧
    IPv4Header.ttl (IPv4Datagram.header d') = IPv4Header.ttl (IPv4Datagram.header d).
Proof. intros (-> & _). split; [|done]. unfold sent_header. by eexists _, _. Qed.

Lemma hop_forwarded d :
  IPv4Datagram.ok d → 1 < IPv4Header.ttl (IPv4Datagram.header d) →
  forwarded (IPv4Datagram.header d) (IPv4Datagram.header (hop d)) ∧
    IPv4Header.ttl (IPv4Datagram.header (hop d)) = IPv4Header.ttl (IPv4Datagram.header d) - 1.
Proof.
  intros (Hok & _) Ht. split; [by eexists _, _|]. unfold hop. cbn. unfold IPv4Header.ok in Hok. rewrite u8_id; [done|lia].
Qed.

(** What a datagram is when it gets to the other host. *)
Definition crossed (d d' : InternetDatagram) : Prop :=
  forwarded (IPv4Datagram.header d) (IPv4Datagram.header d') ∧
  BufferList.concatenate (IPv4Datagram.payload d') = BufferList.concatenate (IPv4Datagram.payload d) ∧ IPv4Datagram.ok d'.

Lemma arrived_crossed d d' : arrived d d' → crossed d d'.
Proof. intros Ha. split; [by apply arrived_forwarded|apply Ha]. Qed.

Lemma crossed_hop d d1 d2 : crossed d d1 → arrived (hop d1) d2 → crossed d d2.
Proof.
  intros (F & P & _) Ha. destruct (arrived_crossed _ _ Ha) as (F' & P' & Hok).
  split; [|split; [by rewrite P'|done]]. etrans; [exact F|]. etrans; [|exact F']. by eexists _, _.
Qed.

(** Over the three links. *)
Lemma network_carries (ic : bool) (s1 s2 : side) (g1 u1 g2 u2 : NetworkInterface.t) (seg seg0 : TCPSegment.t) (d : InternetDatagram) :
  let a := host s1 in
  let nb := NetworkInterfaceAdapter._interface (host s2) in
  let dst := IPv4Header.dst (IPv4Datagram.header d) in
  at_rest_side ic s1 g1 u1 → at_rest_side (negb ic) s2 g2 u2 →
  true_of (NetworkInterfaceAdapter._interface a) g1 → true_of u1 u2 → true_of g2 nb →
  TCPOverIPv4Adapter.wrap_tcp_in_ip (NetworkInterfaceAdapter.base a) seg = Ok (d, seg0) → IPv4Datagram.ok d →
  2 < IPv4Header.ttl (IPv4Datagram.header d) → in_net (host_net (negb ic)) dst = true →
  NetworkInterface._ip_address nb = dst → Address.ipv4_numeric (NetworkInterfaceAdapter._next_hop a) = gateway_ip ic →
  ∃ s0 s1' s2' nb' g1' u1' g2' u2' x out' d',
    (∀ peer, act s1 peer (HostWrites seg) = Ok (s0, peer)) ∧ leads_to (s0, s2) (s1', s2') ∧ crossed d d' ∧
    (∃ b, IPv4Datagram.payload d' = [b]) ∧ takes nb' (frame_to x nb' out') nb' (Some d') ∧
    got s1' = got s1 ∧ at_rest_side ic s1' g1' u1' ∧ still nb' ∧ still g2' ∧ still u2' ∧ same g2 g2' ∧ same u2 u2' ∧
    stands (negb ic) s2' ((host s2) <| NetworkInterfaceAdapter._interface := nb' |>) g2' u2' [] [frame_to x nb' out'] [] (got s2).
Proof.
  intros a nb dst H1 H2 T1 T2 T3 Hwrap Hok Httl Hnet Hip Hhop.
  pose proof (at_rest_stands _ _ _ _ H1) as S1. pose proof (at_rest_stands _ _ _ _ H2) as S2. fold a in S1.
  destruct H1 as (_ & _ & _ & _ & Na & Ng1 & Nu1 & Eg1 & Eu1), H2 as (_ & _ & _ & _ & Nb & Ng2 & Nu2 & Eg2 & Eu2).
  fold a in Na. fold nb in Nb. destruct (way_across ic _ Hnet) as [Hup Hdown].
  assert (Hdst : 0 ≤ dst < 2 ^ 32) by (destruct Hok as (Hh & _); unfold IPv4Header.ok in Hh; tauto).
  pose proof (way_leads ic _ Hdst) as W1. rewrite Hup in W1. pose proof (way_leads (negb ic) _ Hdst) as W2. rewrite Hdown in W2.
  destruct (host_to_gateway ic s1 a g1 u1 seg d _ [] _ S1 Hwrap Hok) as (s0 & t1 & na' & g1' & o1 & Hact & Hm1 & Ho1 & St1 & Na' & Ng1' & Sa & Sg1);
    try done; [by rewrite Hhop|].
  set (na := NetworkInterfaceAdapter._interface a) in *.
  replace (frame_to na g1 o1) with (frame_to na g1' o1) in St1 by (unfold frame_to; by rewrite (proj1 Sg1)).
  destruct (router_to_router ic (negb ic) t1 s2 _ _ g1' u1 g2 u2 na d o1 _ _ _ _ St1 S2)
    as (t1' & t2 & u1' & u2' & d1 & o2 & Hl2 & Ha1 & Ho2 & St1' & St2 & Nu1' & Nu2' & Su1 & Su2);
    try done; [apply Na|lia|by rewrite Eu2|].
  destruct (hop_ok d d1 Ha1 Hok ltac:(lia)) as (Hok1 & Ht1 & Hd1). destruct (arrived_forwarded d d1 Ha1) as [_ E1].
  destruct (hop_forwarded d1 (proj2 (proj2 Ha1)) Ht1) as [_ E2].
  replace (frame_to u1 u2 o2) with (frame_to u1 u2' o2) in St1' by (unfold frame_to; by rewrite (proj1 Su2)).
  destruct (router_to_host (negb ic) t2 t1' _ g2 u2' u1 (hop d1) o2 _ _ St2 (stands_out _ _ _ _ _ _ _ _ _ St1'))
    as (t3 & nb' & g2' & d2 & o3 & Hl3 & Ha2 & Hok2 & Ho3 & St3 & Nb' & Ng2' & Sb & Sg2); try done;
    [apply Nu1|rewrite E2, E1; lia|change (IPv4Header.dst _) with (IPv4Header.dst (IPv4Datagram.header d1)); rewrite Hd1; fold nb; by rewrite Hip|].
  destruct (frame_taken nb' g2 (hop d2) o3 (proj1 Nb') (proj1 (proj1 Ng2)) Hok2 Ho3) as (_ & d3 & b3 & Htake & Ha3 & Hb3).
  fold nb in St3, Sb. replace (frame_to g2 nb o3) with (frame_to g2 nb' o3) in St3 by (unfold frame_to; by rewrite (proj1 Sb)).
  exists s0, (t1' <| out := [] |>), t3, nb', g1', u1', g2', u2', g2, o3, d3. split; [done|]. split.
  { eapply leads_to_trans; [apply moves_first; exact Hm1|]. eapply leads_to_trans; [exact Hl2|]. apply leads_to_swap, Hl3. }
  split; [by eapply crossed_hop, Ha3; eapply crossed_hop, Ha2; apply arrived_crossed|]. split; [by exists b3|]. split; [done|].
  split; [by destruct St1'|]. split; [|done].
  apply (stands_at_rest ic _ (a <| NetworkInterfaceAdapter._interface := na' |>) _ _ (got s1) g1 u1); try done.
  destruct St1'. by constructor.
Qed.

(** C31: the network of lab 7 delivers from cold caches.  Whatever the interfaces of the
    two hosts and the two routers know of each other, as long as it is true, and if
    they know nothing at all, what the host of one side writes for the host of the
    other can be brought there: by ARP exchanges on the links where the address is not
    known, over both routers.  The other host reads one segment, the one written, with
    the ports of the two ends and a checksum filled in, and the network is at rest
    again. *)
Theorem lab7_network_delivers (ic : bool) (s1 s2 : side) (g1 u1 g2 u2 : NetworkInterface.t) (seg : TCPSegment.t) :
  let a := host s1 in
  let b := host s2 in
  let na := NetworkInterfaceAdapter._interface a in
  let nb := NetworkInterfaceAdapter._interface b in
  let ca := FdAdapterBase.config (NetworkInterfaceAdapter.base a) in
  let cb := FdAdapterBase.config (NetworkInterfaceAdapter.base b) in
  let src := FdAdapterConfig.source ca in
  let dst := FdAdapterConfig.destination ca in
  at_rest_side ic s1 g1 u1 → at_rest_side (negb ic) s2 g2 u2 →
  true_of na g1 → true_of u1 u2 → true_of g2 nb →
  fits ca seg → in_net (host_net (negb ic)) (Address.ipv4_numeric dst) = true →
  NetworkInterface._ip_address nb = Address.ipv4_numeric dst →
  Address.ipv4_numeric (NetworkInterfaceAdapter._next_hop a) = gateway_ip ic →
  (if FdAdapterBase.listening (NetworkInterfaceAdapter.base b)
   then Address.port (FdAdapterConfig.source cb) = Address.port dst ∧
        TCPHeader.syn (TCPSegment.header seg) = true ∧ TCPHeader.rst (TCPSegment.header seg) = false
   else FdAdapterConfig.source cb = dst ∧ FdAdapterConfig.destination cb = src) →
  ∃ es s1' s2' seg' c,
    run (s1, s2) ((true, HostWrites seg) :: es) = Ok (s1', s2') ∧
    got s1' = got s1 ∧ got s2' = got s2 ++ [seg'] ∧
    TCPSegment.header seg' = (TCPSegment.header (ports ca seg)) <| TCPHeader.cksum := c |> ∧
    Buffer.str (TCPSegment.payload seg') = Buffer.str (TCPSegment.payload seg) ∧
    NetworkInterfaceAdapter.base (host s2') = connected (NetworkInterfaceAdapter.base b) dst src ∧
    (∃ g1' u1', at_rest_side ic s1' g1' u1') ∧ (∃ g2' u2', at_rest_side (negb ic) s2' g2' u2').
Proof.
  intros a b na nb ca cb src dst H1 H2 T1 T2 T3 Hfits Hnet Hip Hhop Hconn.
  destruct (wrap_tcp_spec (NetworkInterfaceAdapter.base a) seg Hfits) as (payload & Hs & Hwrap & Hok).
  destruct (network_carries ic s1 s2 g1 u1 g2 u2 seg _ _ H1 H2 T1 T2 T3 Hwrap Hok) as
    (s0 & t1 & t2 & nb' & g1' & u1' & g2' & u2' & x & o & d & Hact & Hl & (F & P & Hokd) & (b3 & Hb3) & Htake & G1 & R1 & Nb' & Ng & Nu & Sg & Su & St);
    try done.
  destruct (unwrap_wrapped (NetworkInterfaceAdapter.base a) (NetworkInterfaceAdapter.base b) seg payload d b3)
    as (seg' & c & Hun & Hh & Hpl); try done.
  { destruct Hokd as (_ & Hwf & _). rewrite Hb3 in Hwf. by apply Forall_inv in Hwf. }
  { rewrite Hb3 in P. cbn in P. by rewrite app_nil_r in P. }
  destruct (host_reads_segment (negb ic) t2 _ g2' u2' x d o _ _ _ _ seg' _ St Htake Nb' Hun) as (t3 & Hm & St3).
  assert (Hall : leads_to (s0, s2) (t1, t3)) by (eapply leads_to_trans; [exact Hl|]; apply leads_to_swap, moves_first, Hm).
  destruct Hall as [es Hes]. exists es, t1, t3, seg', c.
  split; [cbn [run step fst snd]; rewrite Hact; exact Hes|]. split; [done|]. split; [by destruct St3|].
  split; [done|]. split; [done|]. split; [by destruct St3 as [-> _ _ _ _ _]|]. split; [by exists g1', u1'|].
  destruct H2 as (_ & _ & _ & _ & _ & _ & _ & ? & ?). exists g2', u2'. by eapply (stands_at_rest (negb ic) t3 _ _ _ _ g2 u2).
Qed.

End network_properties.

Section network_witness.
Import Lab7Net.

(** Nobody knows anybody: a client's SYN to a listening server. *)
Definition cold (k ip : Z) : NetworkInterface.t := NetworkInterface.make [2; 0; 0; 0; 0; k] ip.

Definition cold_client : side :=
  mkSide (client_adapter <| NetworkInterfaceAdapter._interface := cold 1 (host_ip true) |>)
    (resting_thread true (cold 2 (gateway_ip true)) (cold 3 (uplink_ip true))) [] [] [] [].

Definition cold_server : side :=
  mkSide (server_adapter <| NetworkInterfaceAdapter._interface := cold 6 (host_ip false) |>)
    (resting_thread false (cold 5 (gateway_ip false)) (cold 4 (uplink_ip false))) [] [] [] [].

Lemma cold_still k ip : 0 ≤ k < 2 ^ 8 → 0 ≤ ip < 2 ^ 32 → still (cold k ip).
Proof. intros Hk Hip. split; [|done]. split; [by apply example_addr_ok|done]. Qed.

Lemma lab7_network_delivers_witness :
  ∃ es s1' s2' seg', run (cold_client, cold_server) ((true, HostWrites opening_segment) :: es) = Ok (s1', s2') ∧
    got s2' = [seg'] ∧ Buffer.str (TCPSegment.payload seg') = [1; 2].
Proof.
  destruct (lab7_network_delivers true cold_client cold_server (cold 2 (gateway_ip true)) (cold 3 (uplink_ip true))
    (cold 5 (gateway_ip false)) (cold 4 (uplink_ip false)) opening_segment)
    as (es & s1' & s2' & seg' & c & H1 & _ & H2 & _ & H3 & _).
  - split_and!; try done; by apply cold_still.
  - split_and!; try done; by apply cold_still.
  - done.
  - done.
  - done.
  - split; [vm_compute; by repeat split|]. split; [vm_compute; by repeat split|].
    split; [apply opening_segment_ok|vm_compute; done].
  - reflexivity.
  - reflexivity.
  - reflexivity.
  - by vm_compute.
  - by exists es, s1', s2', seg'.
Defined.

End network_witness.
