(* ===== verification/command_line.v ===== *)
(** * The command lines of the programs

    Models the argument handling of [apps/tcp_udp.cc], [apps/tcp_ipv4.cc],
    [apps/tcp_ip_ethernet.cc], [apps/tcp_native.cc] and [apps/webget.cc], with what
    it uses of the C library ([strncmp], [strtol] and [strtof] of [text.v]).  [argv] is the list
    of the [argc] arguments; the loop of [get_config] runs over what is left of it,
    so that [argc - curr] is a length.  Name resolution is outside: [resolve host
    service] is what the constructor of [Address] gives or throws.  What a program
    does once it has its configuration is an argument of [main]. *)

From Stdlib Require Import SpecFloat Ascii String.
From stdpp Require Import strings pretty.
From S2P Require Import prelude text buffer adapters file_descriptor socket tcp_sender tcp_sponge_socket.

(** ** Loss rates *)

(** [static_cast<uint16_t>(f)]: towards zero, undefined outside the range *)
Definition float_to_u16 (f : spec_float) : outcome Z :=
  match f with
  | S754_zero _ => Ok 0
  | S754_finite negative m e =>
    let n := Z.shiftl (Zpos m) e in
    let z := if negative then - n else n in
    if (0 <=? z) && (z <? 2 ^ 16) then Ok z else UB
  | S754_infinity _ | S754_nan => UB
  end.

(** [static_cast<uint16_t>(static_cast<float>(numeric_limits<uint16_t>::max()) *
    lossrate)] for [lossrate = strtof(arg, nullptr)] *)
Definition loss_rate (arg : string) : outcome Z :=
  let lossrate := strtof arg in
  float_to_u16 (SFmul float_prec float_emax (binary_normalize float_prec float_emax 65535 0 false) lossrate).

(** ** Options *)

(** A program goes on with a value, or calls [exit] with a status after showing its
    usage, with a message or without one. *)
Inductive exits (A : Type) :=
| Runs (a : A)
| Exits (status : Z) (msg : option string).
Arguments Runs {A} a.
Arguments Exits {A} status msg.

(** What the chain of tests in the loop of [get_config] does about an option:
    change the state of the loop, the same with the next argument after
    [check_argc(argc, argv, curr, error)], or end the program. *)
Inductive action (S : Type) :=
| Flag (f : S → S)
| Argument (error : string) (f : S → string → outcome S)
| Help
| Unknown.
Arguments Flag {S} f.
Arguments Argument {S} error f.
Arguments Help {S}.
Arguments Unknown {S}.

(** [check_argc(argc, argv, curr, err)], where [rest] starts at [curr]: whether it
    exits *)
Definition check_argc (rest : list string) : bool := len rest <=? 3.

(** [while (argc - curr > 2) { ... }], the same in the three programs; [rest] are the
    arguments from [curr] on.  It gives the state and the arguments left. *)
Fixpoint option_loop {S : Type} (chain : string → action S) (rest : list string) (s : S)
    : outcome (exits (S * list string)) :=
  if len rest >? 2 then
    match rest with
    | option :: tail =>
      match chain option with
      | Flag f => option_loop chain tail (f s)
      | Argument error f =>
        if check_argc rest then Ok (Exits 1 (Some error))
        else
          match tail with
          | argument :: tail => s ← f s argument; option_loop chain tail s
          | [] => UB
          end
      | Help => Ok (Exits 0 None)
      | Unknown => Ok (Exits 1 (Some ("ERROR: unrecognized option " +:+ option)))
      end
    | [] => UB
    end
  else Ok (Runs (s, rest)).

(** [argv[i]] after the loop; past the end it is a null pointer. *)
Definition arg (args : list string) (i : nat) : outcome string := or_UB (args !! i).

(** [strtol] assigned to [recv_capacity] and to [rt_timeout] *)
Definition set_window (c : TCPConfig.t) (a : string) : TCPConfig.t :=
  TCPConfig.mk (TCPConfig.rt_timeout c) (u64 (strtol a)) (TCPConfig.send_capacity c) (TCPConfig.fixed_isn c).

Definition set_timeout (c : TCPConfig.t) (a : string) : TCPConfig.t :=
  TCPConfig.mk (u16 (strtol a)) (TCPConfig.recv_capacity c) (TCPConfig.send_capacity c) (TCPConfig.fixed_isn c).

(** [catching] around code that may also exit. *)
Definition catching_exits {A : Type} (m : outcome (exits A)) (k : A → outcome unit) : outcome Z :=
  match m with
  | Ok (Runs a) => catching (k a)
  | Ok (Exits status _) => Ok status
  | Throw _ => Ok EXIT_FAILURE
  | UB => UB
  | Diverge => Diverge
  end.

(** ** apps/tcp_udp.cc *)

Module TcpUdp.

(** The local variables of [get_config]. *)
Record t := mk {
  c_fsm : TCPConfig.t;
  c_filt : FdAdapterConfig.t;
  listen : bool
}.

#[global] Instance eta_t : Eta t := λ s, mk (c_fsm s) (c_filt s) (listen s).

(** [show_usage(argv0, msg)]: what it prints *)
Definition show_usage (argv0 : string) (msg : option string) : string :=
  "Usage: " +:+ argv0 +:+ " [options] <host> <port>" +:+ newline +:+ newline +:+
  "   Option                                                          Default" +:+ newline +:+
  "   --                                                              --" +:+ newline +:+ newline +:+
  "   -l              Server (listen) mode.                           (client mode)" +:+ newline +:+
  "                   In server mode, <host>:<port> is the address to bind." +:+ newline +:+ newline +:+
  "   -w <winsz>      Use a window of <winsz> bytes                   " +:+ dec TCPConfig.MAX_PAYLOAD_SIZE +:+
  newline +:+ newline +:+
  "   -t <tmout>      Set rt_timeout to tmout                         " +:+ dec TCPConfig.TIMEOUT_DFLT +:+
  newline +:+ newline +:+
  "   -Lu <loss>      Set uplink loss to <rate> (float in 0..1)       (no loss)" +:+ newline +:+
  "   -Ld <loss>      Set downlink loss to <rate> (float in 0..1)     (no loss)" +:+ newline +:+ newline +:+
  "   -h              Show this message and quit." +:+ newline +:+ newline +:+
  default "" msg +:+ newline.

Definition start : t := mk TCPConfig.default FdAdapterConfig.default false.

(** The chain of tests. *)
Definition chain (option : string) : action t :=
  if strncmp_eq 3 "-l" option then Flag (λ s, s <| listen := true |>)
  else if strncmp_eq 3 "-w" option then
    Argument "ERROR: -w requires one argument." (λ s a, Ok (s <| c_fsm ::= λ c, set_window c a |>))
  else if strncmp_eq 3 "-t" option then
    Argument "ERROR: -t requires one argument." (λ s a, Ok (s <| c_fsm ::= λ c, set_timeout c a |>))
  else if strncmp_eq 3 "-Lu" option then
    Argument "ERROR: -Lu requires one argument." (λ s a,
      rate ← loss_rate a; Ok (s <| c_filt ::= λ c, c <| FdAdapterConfig.loss_rate_up := rate |> |>))
  else if strncmp_eq 3 "-Ld" option then
    Argument "ERROR: -Lu requires one argument." (λ s a,
      rate ← loss_rate a; Ok (s <| c_filt ::= λ c, c <| FdAdapterConfig.loss_rate_dn := rate |> |>))
  else if strncmp_eq 3 "-h" option then Help
  else Unknown.

Section program.
Context (resolve : string → string → outcome Address.t).

Definition get_config (argv : list string) : outcome (exits t) :=
  r ← option_loop chain (tail argv) start;
  match r with
  | Exits status msg => Ok (Exits status msg)
  | Runs (s, _) =>
    if listen s then
      port ← arg argv (length argv - 1);
      source ← resolve "0" port;
      Ok (Runs (s <| c_filt ::= λ c, c <| FdAdapterConfig.source := source |> |>))
    else
      host ← arg argv (length argv - 2);
      port ← arg argv (length argv - 1);
      destination ← resolve host port;
      Ok (Runs (s <| c_filt ::= λ c, c <| FdAdapterConfig.destination := destination |> |>))
  end.

(** [main]; [body] is what it does with the configuration: bind the UDP socket in
    server mode, open the TCP socket, copy until it is closed. *)
Definition main (body : t → outcome unit) (argv : list string) : outcome Z :=
  if len argv <? 3 then Ok 1
  else catching_exits (get_config argv) body.

End program.

End TcpUdp.

(** ** apps/tcp_ipv4.cc *)

Module TcpIpv4.

(** The local variables of [get_config]. *)
Record t := mk {
  c_fsm : TCPConfig.t;
  c_filt : FdAdapterConfig.t;
  tundev : option string;
  listen : bool;
  source_address : string;
  source_port : string
}.

#[global] Instance eta_t : Eta t := λ s,
  mk (c_fsm s) (c_filt s) (tundev s) (listen s) (source_address s) (source_port s).

Definition TUN_DFLT : string := "tun144".
Definition LOCAL_ADDRESS_DFLT : string := "169.254.144.9".

(** [show_usage(argv0, msg)]: what it prints *)
Definition show_usage (argv0 : string) (msg : option string) : string :=
  "Usage: " +:+ argv0 +:+ " [options] <host> <port>" +:+ newline +:+ newline +:+
  "   Option                                                          Default" +:+ newline +:+
  "   --                                                              --" +:+ newline +:+ newline +:+
  "   -l              Server (listen) mode.                           (client mode)" +:+ newline +:+
  "                   In server mode, <host>:<port> is the address to bind." +:+ newline +:+ newline +:+
  "   -a <addr>       Set source address (client mode only)           " +:+ LOCAL_ADDRESS_DFLT +:+ newline +:+
  "   -s <port>       Set source port (client mode only)              (random)" +:+ newline +:+ newline +:+
  "   -w <winsz>      Use a window of <winsz> bytes                   " +:+ dec TCPConfig.MAX_PAYLOAD_SIZE +:+
  newline +:+ newline +:+
  "   -t <tmout>      Set rt_timeout to tmout                         " +:+ dec TCPConfig.TIMEOUT_DFLT +:+
  newline +:+ newline +:+
  "   -d <tundev>     Connect to tun <tundev>                         " +:+ TUN_DFLT +:+ newline +:+ newline +:+
  "   -Lu <loss>      Set uplink loss to <rate> (float in 0..1)       (no loss)" +:+ newline +:+
  "   -Ld <loss>      Set downlink loss to <rate> (float in 0..1)     (no loss)" +:+ newline +:+ newline +:+
  "   -h              Show this message." +:+ newline +:+ newline +:+
  default "" msg +:+ newline.

(** [random] is what [random_device()()] gives. *)
Definition start (random : Z) : t :=
  mk TCPConfig.default FdAdapterConfig.default None false LOCAL_ADDRESS_DFLT (pretty (Z.to_N (u16 random))).

(** The chain of tests. *)
Definition chain (option : string) : action t :=
  if strncmp_eq 3 "-l" option then Flag (λ s, s <| listen := true |>)
  else if strncmp_eq 3 "-a" option then
    Argument "ERROR: -a requires one argument." (λ s a, Ok (s <| source_address := a |>))
  else if strncmp_eq 3 "-s" option then
    Argument "ERROR: -s requires one argument." (λ s a, Ok (s <| source_port := a |>))
  else if strncmp_eq 3 "-w" option then
    Argument "ERROR: -w requires one argument." (λ s a, Ok (s <| c_fsm ::= λ c, set_window c a |>))
  else if strncmp_eq 3 "-t" option then
    Argument "ERROR: -t requires one argument." (λ s a, Ok (s <| c_fsm ::= λ c, set_timeout c a |>))
  else if strncmp_eq 3 "-d" option then
    Argument "ERROR: -t requires one argument." (λ s a, Ok (s <| tundev := Some a |>))
  else if strncmp_eq 3 "-Lu" option then
    Argument "ERROR: -Lu requires one argument." (λ s a,
      rate ← loss_rate a; Ok (s <| c_filt ::= λ c, c <| FdAdapterConfig.loss_rate_up := rate |> |>))
  else if strncmp_eq 3 "-Ld" option then
    Argument "ERROR: -Lu requires one argument." (λ s a,
      rate ← loss_rate a; Ok (s <| c_filt ::= λ c, c <| FdAdapterConfig.loss_rate_dn := rate |> |>))
  else if strncmp_eq 3 "-h" option then Help
  else Unknown.

Section program.
Context (resolve : string → string → outcome Address.t).

Definition get_config (random : Z) (argv : list string) : outcome (exits t) :=
  r ← option_loop chain (tail argv) (start random);
  match r with
  | Exits status msg => Ok (Exits status msg)
  | Runs (s, rest) =>
    if listen s then
      port ← arg rest 1;
      source ← resolve "0" port;
      let s := s <| c_filt ::= λ c, c <| FdAdapterConfig.source := source |> |> in
      if Address.port source =? 0 then Ok (Exits 1 (Some "ERROR: listen port cannot be zero in server mode."))
      else Ok (Runs s)
    else
      host ← arg rest 0;
      port ← arg rest 1;
      destination ← resolve host port;
      source ← resolve (source_address s) (source_port s);
      Ok (Runs (s <| c_filt ::= λ c, c <| FdAdapterConfig.destination := destination |>
                                       <| FdAdapterConfig.source := source |> |>))
  end.

(** The device that is opened. *)
Definition device (s : t) : string := match tundev s with None => TUN_DFLT | Some d => d end.

(** [main]; [body] is what it does with the device and the configuration. *)
Definition main (body : string → t → outcome unit) (random : Z) (argv : list string) : outcome Z :=
  if len argv <? 3 then Ok EXIT_FAILURE
  else catching_exits (get_config random argv) (λ s, body (device s) s).

End program.

End TcpIpv4.

(** ** apps/tcp_ip_ethernet.cc *)

Module TcpIpEthernet.

(** The local variables of [get_config]. *)
Record t := mk {
  c_fsm : TCPConfig.t;
  c_filt : FdAdapterConfig.t;
  tapdev : string;
  source_address : string;
  source_port : string;
  next_hop_address : string
}.

#[global] Instance eta_t : Eta t := λ s,
  mk (c_fsm s) (c_filt s) (tapdev s) (source_address s) (source_port s) (next_hop_address s).

Definition TAP_DFLT : string := "tap10".
Definition LOCAL_ADDRESS_DFLT : string := "169.254.10.9".
Definition GATEWAY_DFLT : string := "169.254.10.1".

(** [show_usage(argv0, msg)]: what it prints *)
Definition show_usage (argv0 : string) (msg : option string) : string :=
  "Usage: " +:+ argv0 +:+ " [options] <host> <port>" +:+ newline +:+ newline +:+
  "   Option                                                          Default" +:+ newline +:+
  "   --                                                              --" +:+ newline +:+ newline +:+
  "   -a <addr>       Set IP source address (client mode only)        " +:+ LOCAL_ADDRESS_DFLT +:+ newline +:+
  "   -s <port>       Set TCP source port (client mode only)          (random)" +:+ newline +:+ newline +:+
  "   -n <addr>       Set IP next-hop address                         " +:+ GATEWAY_DFLT +:+ newline +:+
  "   -w <winsz>      Use a window of <winsz> bytes                   " +:+ dec TCPConfig.MAX_PAYLOAD_SIZE +:+
  newline +:+ newline +:+
  "   -t <tmout>      Set rt_timeout to tmout                         " +:+ dec TCPConfig.TIMEOUT_DFLT +:+
  newline +:+ newline +:+
  "   -d <tapdev>     Connect to tap <tapdev>                         " +:+ TAP_DFLT +:+ newline +:+ newline +:+
  "   -h              Show this message." +:+ newline +:+ newline +:+
  default "" msg +:+ newline.

Definition start (random : Z) : t :=
  mk TCPConfig.default FdAdapterConfig.default TAP_DFLT LOCAL_ADDRESS_DFLT (pretty (Z.to_N (u16 random))) GATEWAY_DFLT.

(** The chain of tests. *)
Definition chain (option : string) : action t :=
  if strncmp_eq 3 "-a" option then
    Argument "ERROR: -a requires one argument." (λ s a, Ok (s <| source_address := a |>))
  else if strncmp_eq 3 "-s" option then
    Argument "ERROR: -s requires one argument." (λ s a, Ok (s <| source_port := a |>))
  else if strncmp_eq 3 "-n" option then
    Argument "ERROR: -n requires one argument." (λ s a, Ok (s <| next_hop_address := a |>))
  else if strncmp_eq 3 "-w" option then
    Argument "ERROR: -w requires one argument." (λ s a, Ok (s <| c_fsm ::= λ c, set_window c a |>))
  else if strncmp_eq 3 "-t" option then
    Argument "ERROR: -t requires one argument." (λ s a, Ok (s <| c_fsm ::= λ c, set_timeout c a |>))
  else if strncmp_eq 3 "-d" option then
    Argument "ERROR: -t requires one argument." (λ s a, Ok (s <| tapdev := a |>))
  else if strncmp_eq 3 "-h" option then Help
  else Unknown.

Section program.
Context (resolve : string → string → outcome Address.t).

(** The configuration and the next hop *)
Definition get_config (random : Z) (argv : list string) : outcome (exits (t * Address.t)) :=
  r ← option_loop chain (tail argv) (start random);
  match r with
  | Exits status msg => Ok (Exits status msg)
  | Runs (s, rest) =>
    host ← arg rest 0;
    port ← arg rest 1;
    destination ← resolve host port;
    source ← resolve (source_address s) (source_port s);
    next_hop ← resolve (next_hop_address s) "0";
    Ok (Runs (s <| c_filt ::= λ c, c <| FdAdapterConfig.destination := destination |>
                                     <| FdAdapterConfig.source := source |> |>, next_hop))
  end.

(** [main]; [randoms] are the numbers for the six bytes of the Ethernet address,
    [body] what it does with the address and the configuration. *)
Definition main (body : list Z → t → Address.t → outcome unit) (randoms : list Z) (random : Z)
    (argv : list string) : outcome Z :=
  if len argv <? 3 then Ok EXIT_FAILURE
  else
    let local_ethernet_address := TCPSpongeSocket.random_private_ethernet_address randoms in
    catching_exits (get_config random argv) (λ '(s, next_hop), body local_ethernet_address s next_hop).

End program.

End TcpIpEthernet.

(** ** apps/tcp_native.cc and apps/webget.cc *)

Module TcpNative.

Section program.
Context (resolve : string → string → outcome Address.t).

(** What the system calls of the program give, in the order of the calls. *)
Record answers := mkAnswers {
  a_socket : sysret;
  a_setsockopt : sysret;
  a_bind : sysret;
  a_listen : sysret;
  a_accept : sysret;
  a_domain : Socket.sockopt;
  a_type : Socket.sockopt;
  a_connect : sysret
}.

(** The lambda that makes [socket]. *)
Definition make_socket (server_mode : bool) (argv : list string) (k : answers) : outcome FileDescriptor.FDWrapper :=
  if server_mode then
    listening_socket ← TCPSocket.make (a_socket k);
    _ ← Socket.set_reuseaddr (a_setsockopt k);
    host ← arg argv 2;
    port ← arg argv 3;
    _ ← resolve host port;
    _ ← Socket.bind (a_bind k);
    _ ← TCPSocket.listen (a_listen k);
    '(socket, _) ← TCPSocket.accept listening_socket (a_accept k) (a_domain k) (a_type k);
    Ok socket
  else
    connecting_socket ← TCPSocket.make (a_socket k);
    host ← arg argv 1;
    port ← arg argv 2;
    _ ← resolve host port;
    _ ← Socket.connect (a_connect k);
    Ok connecting_socket.

(** [main]; [copy] is [bidirectional_stream_copy]. *)
Definition main (copy : FileDescriptor.FDWrapper → outcome unit) (k : answers) (argv : list string) : outcome Z :=
  let server_mode := match argv with _ :: a :: _ => strncmp_eq 3 "-l" a | _ => false end in
  if (len argv <? 3) || (server_mode && (len argv <? 4)) then Ok EXIT_FAILURE
  else catching (socket ← make_socket server_mode argv k; copy socket).

End program.

End TcpNative.

Module Webget.

Definition CRLF : string := String (ascii_of_nat 13) (String (ascii_of_nat 10) "").

(** The [message] of [get_URL(host, path)]. *)
Definition request (host path : string) : string :=
  let message := "" in
  let message := message +:+ ("GET " +:+ path +:+ " HTTP/1.1" +:+ CRLF) in
  let message := message +:+ ("Host: " +:+ host +:+ CRLF) in
  message +:+ ("Connection: close" +:+ CRLF +:+ CRLF).

(** [while (!socket.eof()) { cout << socket.read(); }] from where [out] was printed;
    the calls of [::read] give [reads], and without an answer the loop waits. *)
Fixpoint print_loop (socket : FileDescriptor.FDWrapper) (reads : list (sysret * bytes)) (out : bytes)
    : outcome (FileDescriptor.FDWrapper * bytes) :=
  if FileDescriptor.eof socket then Ok (socket, out)
  else
    match reads with
    | [] => Diverge
    | (r, contents) :: reads =>
      '(data, socket) ← FileDescriptor.read socket (2 ^ 64 - 1) r contents;
      print_loop socket reads (out ++ data)
    end.

Section program.
Context (resolve : string → string → outcome Address.t).

(** [get_URL(host, path)] on the descriptor of the socket, with [connect] for
    [FullStackSocket::connect], [writes], [reads] and [r] for what the kernel answers,
    and [join] for the end of the socket's thread: what was sent and what was
    printed. *)
Definition get_URL (connect : Address.t → outcome unit) (socket : FileDescriptor.FDWrapper)
    (writes : list sysret) (reads : list (sysret * bytes)) (r : sysret) (join : outcome unit)
    (host path : string) : outcome (bytes * bytes) :=
  address ← resolve host "http";
  _ ← connect address;
  let message := literal (request host path) in
  '(_, socket, sent) ← FileDescriptor.write socket (BufferViewList.of_string message) true writes;
  '(socket, out) ← print_loop socket reads [];
  _ ← Socket.shutdown socket Socket.SHUT_RDWR r;
  _ ← join;
  Ok (sent, out).

End program.

(** [main]; [get_URL] is the function of that name, and no status is an abort. *)
Definition main (get_URL : string → string → outcome unit) (argv : list string) : outcome (option Z) :=
  match argv with
  | [] => Ok None
  | [_; host; path] => status ← catching (get_URL host path); Ok (Some status)
  | _ => Ok (Some EXIT_FAILURE)
  end.

End Webget.

(** ** Lemmas *)

Section loop.
Context {S : Type} (chain : string → action S).

(** The words of one option, and what the option does. *)
Inductive spells : list string → (S → outcome S) → Prop :=
| spells_flag o f : chain o = Flag f → spells [o] (λ s, Ok (f s))
| spells_argument o e f a : chain o = Argument e f → spells [o; a] (λ s, f s a).

(** The effects of a sequence of options. *)
Definition apply_all (effects : list (S → outcome S)) (s : S) : outcome S :=
  foldl (λ m f, m ≫= f) (Ok s) effects.

Lemma apply_all_cons f effects s : apply_all (f :: effects) s = f s ≫= apply_all effects.
Proof.
  unfold apply_all. cbn. destruct (f s); try done; cbn; clear; by induction effects.
Qed.

(** The loop takes options as long as more than two arguments are left. *)
Lemma loop_parses words effects x y s :
  Forall2 spells words effects →
  option_loop chain (concat words ++ [x; y]) s = (s ← apply_all effects s; Ok (Runs (s, [x; y]))).
Proof.
  intros H. revert s. induction H as [|ws f words effects Hs _ IH]; intros s; [done|].
  rewrite apply_all_cons. pose proof (len_nonneg (concat words)).
  destruct Hs as [o f Hc|o e f a Hc]; cbn [concat app option_loop];
    rewrite ?len_cons, len_app, !len_cons, len_nil; replace (_ >? 2) with true by lia; rewrite Hc.
  - apply IH.
  - unfold check_argc. rewrite !len_cons, len_app, !len_cons, len_nil. replace (_ <=? 3) with false by lia.
    destruct (f s a); try done. apply IH.
Qed.

(** Conversely, a loop that goes on has taken options and leaves two arguments. *)
Lemma loop_spells n rest s s' left :
  (length rest ≤ n)%nat → 2 ≤ len rest → option_loop chain rest s = Ok (Runs (s', left)) →
  ∃ words effects x y, rest = concat words ++ [x; y] ∧ left = [x; y] ∧ Forall2 spells words effects ∧
    apply_all effects s = Ok s'.
Proof.
  revert rest s. induction n as [|n IH]; intros rest s Hn Hl; [unfold len in Hl; lia|].
  destruct rest as [|o tail]; [by rewrite len_nil in Hl|]. cbn [option_loop]. rewrite len_cons in *.
  destruct (Z.gtb_spec (1 + len tail) 2) as [Hgt|Hle]; cycle 1.
  { intros [= <- <-]. destruct tail as [|y [|z tail]]; rewrite ?len_cons, ?len_nil in *; try lia.
    - exists [], [], o, y. by repeat constructor.
    - pose proof (len_nonneg tail). lia. }
  destruct (chain o) as [f|e f| |] eqn:Hc; try done.
  - intros H. apply IH in H as (words & effects & x & y & -> & -> & Hw & Ha); [|cbn in Hn; lia|lia].
    exists ([o] :: words), ((λ s, Ok (f s)) :: effects), x, y. rewrite apply_all_cons.
    split_and!; try done. constructor; [by constructor|done].
  - unfold check_argc. rewrite len_cons. destruct (Z.leb_spec (1 + len tail) 3) as [|H3]; [done|].
    destruct tail as [|a tail]; [done|]. rewrite len_cons in *. intros (s1 & Hf & H)%bind_Ok.
    apply IH in H as (words & effects & x & y & -> & -> & Hw & Ha); [|cbn in Hn; lia|lia].
    exists ([o; a] :: words), ((λ s, f s a) :: effects), x, y. rewrite apply_all_cons, Hf.
    split_and!; try done. constructor; [by econstructor|done].
Qed.

(** The loop has no undefined behaviour of its own. *)
Lemma loop_defined n rest s :
  (length rest ≤ n)%nat → (∀ o e f s a, chain o = Argument e f → f s a ≠ UB ∧ f s a ≠ Diverge) →
  option_loop chain rest s ≠ UB ∧ option_loop chain rest s ≠ Diverge.
Proof.
  intros Hn Hf. revert rest s Hn. induction n as [|n IH]; intros rest s Hn.
  { destruct rest; [done|cbn in Hn; lia]. }
  destruct rest as [|o tail]; [done|]. cbn [option_loop]. cbn in Hn.
  destruct (Z.gtb_spec (len (o :: tail)) 2) as [Hgt|Hle]; [|done].
  destruct (chain o) as [f|e f| |] eqn:Hc; try done; [apply IH; lia|].
  destruct (check_argc _); [done|]. destruct tail as [|a tail]; [by rewrite len_cons in Hgt|].
  destruct (Hf o e f s a Hc). destruct (f s a) as [s1| | |]; try done. cbn. apply IH. cbn in Hn. lia.
Qed.

End loop.

(** ** Properties *)

Section command_line_properties.

(** The options of [tcp_ipv4], and what they are for. *)
Inductive given :=
| Listen
| SourceAddress (a : string)
| SourcePort (p : string)
| Window (n : Z)
| Timeout (n : Z)
| TunDevice (d : string)
| LossUp (rate : string)
| LossDown (rate : string).

Definition render (o : given) : list string :=
  match o with
  | Listen => ["-l"]
  | SourceAddress a => ["-a"; a]
  | SourcePort p => ["-s"; p]
  | Window n => ["-w"; pretty (Z.to_N n)]
  | Timeout n => ["-t"; pretty (Z.to_N n)]
  | TunDevice d => ["-d"; d]
  | LossUp r => ["-Lu"; r]
  | LossDown r => ["-Ld"; r]
  end.

Definition meaning (o : given) (s : TcpIpv4.t) : outcome TcpIpv4.t :=
  match o with
  | Listen => Ok (s <| TcpIpv4.listen := true |>)
  | SourceAddress a => Ok (s <| TcpIpv4.source_address := a |>)
  | SourcePort p => Ok (s <| TcpIpv4.source_port := p |>)
  | Window n => Ok (s <| TcpIpv4.c_fsm ::= λ c,
      TCPConfig.mk (TCPConfig.rt_timeout c) n (TCPConfig.send_capacity c) (TCPConfig.fixed_isn c) |>)
  | Timeout n => Ok (s <| TcpIpv4.c_fsm ::= λ c,
      TCPConfig.mk n (TCPConfig.recv_capacity c) (TCPConfig.send_capacity c) (TCPConfig.fixed_isn c) |>)
  | TunDevice d => Ok (s <| TcpIpv4.tundev := Some d |>)
  | LossUp r => rate ← loss_rate r; Ok (s <| TcpIpv4.c_filt ::= λ c, c <| FdAdapterConfig.loss_rate_up := rate |> |>)
  | LossDown r => rate ← loss_rate r; Ok (s <| TcpIpv4.c_filt ::= λ c, c <| FdAdapterConfig.loss_rate_dn := rate |> |>)
  end.

(** Numbers that fit the fields they are for. *)
Definition given_ok (o : given) : Prop :=
  match o with
  | Window n => 0 ≤ n ≤ LONG_MAX
  | Timeout n => 0 ≤ n < 2 ^ 16
  | _ => True
  end.

Lemma render_spells o : given_ok o → ∃ f, spells TcpIpv4.chain (render o) f ∧ ∀ s, f s = meaning o s.
Proof.
  intros Ho. destruct o; (eexists; split; [by econstructor|]); intros s; cbn; try done.
  - unfold set_window. cbn in Ho. by rewrite strtol_pretty, u64_id by (unfold LONG_MAX in *; lia).
  - unfold set_timeout. cbn in Ho. by rewrite strtol_pretty, u16_id by (unfold LONG_MAX in *; lia).
Qed.

Lemma renders_spell os :
  Forall given_ok os → ∃ fs, Forall2 (spells TcpIpv4.chain) (map render os) fs ∧
    ∀ s, apply_all fs s = apply_all (map meaning os) s.
Proof.
  induction 1 as [|o os Ho _ (fs & Hf & IH)]; [by exists []|].
  destruct (render_spells o Ho) as (f & Hs & He). exists (f :: fs). split; [by constructor|].
  intros s. cbn [map]. rewrite !apply_all_cons, He. destruct (meaning o s); try done. apply IH.
Qed.

Lemma meaning_listen os s s' :
  apply_all (map meaning os) s = Ok s' → TcpIpv4.listen s' = true ↔ TcpIpv4.listen s = true ∨ Listen ∈ os.
Proof.
  revert s. induction os as [|o os IH]; intros s.
  { cbn. intros [= ->]. set_solver. }
  cbn [map]. rewrite apply_all_cons. intros (s1 & Ho & H)%bind_Ok. rewrite (IH _ H), elem_of_cons.
  assert (TcpIpv4.listen s1 = true ↔ TcpIpv4.listen s = true ∨ Listen = o); [|naive_solver].
  destruct o; cbn in Ho; [injection Ho as <-; naive_solver..| |]; apply bind_Ok in Ho as (x & _ & [= <-]); naive_solver.
Qed.

(** The window asked for: the last one given, or else the default. *)
Definition window_given (os : list given) : Z :=
  foldl (λ w o, match o with Window n => n | _ => w end) TCPConfig.DEFAULT_CAPACITY os.

Lemma meaning_window os s s' :
  apply_all (map meaning os) s = Ok s' →
  TCPConfig.recv_capacity (TcpIpv4.c_fsm s') =
    foldl (λ w o, match o with Window n => n | _ => w end) (TCPConfig.recv_capacity (TcpIpv4.c_fsm s)) os.
Proof.
  revert s. induction os as [|o os IH]; intros s; [by intros [= ->]|].
  cbn [map foldl]. rewrite apply_all_cons. intros (s1 & Ho & H)%bind_Ok. rewrite (IH _ H). f_equal.
  destruct o; cbn in Ho; [by injection Ho as <-..| |]; by apply bind_Ok in Ho as (x & _ & [= <-]).
Qed.

(** C37: A command line is read back.  Whatever options [tcp_ipv4] is given, in whatever
    order and however often, followed by a host and a port, [get_config] takes each at
    its word, the later ones overriding the earlier, even where an argument looks like
    an option, provided that the numbers fit: loss rates that their type can hold, and a
    window up to [LONG_MAX] and a timeout below 2^16, which come back as the numbers
    that were written (a larger timeout would be cut to 16 bits).  Where an option is
    not given its value is that of [start]: without [-w] the window is [DEFAULT_CAPACITY], 64000, and not [MAX_PAYLOAD_SIZE], 1000,
    which the usage text gives as its default.  A client connects to the host and the
    port from the source address and port; a server listens on the port of all
    addresses and ignores the host, which the usage text says it binds to. *)
Theorem command_line_roundtrip (resolve : string → string → outcome Address.t) (random : Z) (prog : string)
    (os : list given) (host port : string) (s : TcpIpv4.t) :
  Forall given_ok os → apply_all (map meaning os) (TcpIpv4.start random) = Ok s →
  let argv := prog :: concat (map render os) ++ [host; port] in
  TCPConfig.recv_capacity (TcpIpv4.c_fsm s) = window_given os ∧
  (Listen ∉ os → ∀ src dst,
     resolve host port = Ok dst → resolve (TcpIpv4.source_address s) (TcpIpv4.source_port s) = Ok src →
     TcpIpv4.get_config resolve random argv =
       Ok (Runs (s <| TcpIpv4.c_filt ::= λ c, c <| FdAdapterConfig.destination := dst |>
                                                <| FdAdapterConfig.source := src |> |>))) ∧
  (Listen ∈ os → ∀ src, resolve "0" port = Ok src → Address.port src ≠ 0 →
     TcpIpv4.get_config resolve random argv =
       Ok (Runs (s <| TcpIpv4.c_filt ::= λ c, c <| FdAdapterConfig.source := src |> |>))).
Proof.
  intros Hos Hs argv. destruct (renders_spell os Hos) as (fs & Hf & He).
  assert (Hl : option_loop TcpIpv4.chain (tail argv) (TcpIpv4.start random) = Ok (Runs (s, [host; port]))).
  { cbn [tail argv]. rewrite (loop_parses _ _ _ host port _ Hf), He, Hs. done. }
  pose proof (meaning_listen os _ _ Hs) as Hm. split; [exact (meaning_window os _ _ Hs)|].
  unfold TcpIpv4.get_config. rewrite Hl. cbn [mbind outcome_bind]. split.
  - intros Hn src dst Hd Hsrc. destruct (TcpIpv4.listen s); [naive_solver|]. cbn. by rewrite Hd; cbn; rewrite Hsrc.
  - intros Hi src Hsrc Hp. rewrite (proj2 Hm) by (by right). cbn. rewrite Hsrc. cbn. by destruct (Z.eqb_spec (Address.port src) 0).
Qed.

(** The same options, and some that look like arguments. *)
Definition any_host (host service : string) : outcome Address.t :=
  Ok (Address.mk (Z.of_nat (String.length host)) (strtol service)).

Lemma command_line_roundtrip_witness :
  TcpIpv4.get_config any_host 7 ["tcp_ipv4"; "-w"; "500"; "-a"; "-h"; "-Lu"; "0.5"; "stanford.edu"; "80"] =
    Ok (Runs (TcpIpv4.mk (TCPConfig.mk 1000 500 64000 None)
      (FdAdapterConfig.mk (Address.mk 2 7) (Address.mk 12 80) 0 32767) None false "-h" "7")).
Proof.
  refine (proj1 (proj2 (command_line_roundtrip any_host 7 "tcp_ipv4" [Window 500; SourceAddress "-h"; LossUp "0.5"]
    "stanford.edu" "80" (TcpIpv4.mk (TCPConfig.mk 1000 500 64000 None)
      (FdAdapterConfig.mk (Address.mk 0 0) (Address.mk 0 0) 0 32767) None false "-h" "7") _ _)) _ _ _ _ _).
  - repeat constructor; cbn; unfold LONG_MAX; lia.
  - vm_compute. reflexivity.
  - intros H. rewrite !elem_of_cons, elem_of_nil in H. naive_solver.
  - reflexivity.
  - reflexivity.
Defined.

(** No argument is missed.  With at least a host and a port, [get_config] of
    [tcp_ip_ethernet] reads no argument that is not there and always ends: it gives a
    configuration only if everything before the last two arguments is options, each
    with its argument, and then those two are the host and the port; any other
    command line ends the program. *)
Theorem ethernet_arguments_complete (resolve : string → string → outcome Address.t) (random : Z) (argv : list string) :
  3 ≤ len argv → (∀ h p, resolve h p ≠ UB ∧ resolve h p ≠ Diverge) →
  TcpIpEthernet.get_config resolve random argv ≠ UB ∧ TcpIpEthernet.get_config resolve random argv ≠ Diverge ∧
  ∀ s next_hop, TcpIpEthernet.get_config resolve random argv = Ok (Runs (s, next_hop)) →
    ∃ prog words effects host port, argv = prog :: concat words ++ [host; port] ∧
      Forall2 (spells TcpIpEthernet.chain) words effects ∧
      resolve host port = Ok (FdAdapterConfig.destination (TcpIpEthernet.c_filt s)).
Proof.
  intros Hl Hr. destruct argv as [|prog rest]; [by rewrite len_nil in Hl|]. rewrite len_cons in Hl.
  unfold TcpIpEthernet.get_config. cbn [tail].
  destruct (loop_defined TcpIpEthernet.chain (length rest) rest (TcpIpEthernet.start random)) as [Hu Hd]; [done| |].
  { intros o e f s a Hc. unfold TcpIpEthernet.chain in Hc. repeat case_match; by simplify_eq. }
  destruct (option_loop _ rest _) as [[[s left]|status msg]|e| |] eqn:E; try done.
  destruct (loop_spells _ _ _ _ _ _ (le_n (length rest)) ltac:(lia) E) as (words & effects & host & port & -> & -> & Hw & _).
  cbn [mbind outcome_bind arg or_UB lookup list_lookup].
  destruct (Hr host port), (Hr (TcpIpEthernet.source_address s) (TcpIpEthernet.source_port s)),
    (Hr (TcpIpEthernet.next_hop_address s) "0").
  destruct (resolve host port) as [dst| | |] eqn:Ed; try done. cbn [mbind outcome_bind].
  destruct (resolve (TcpIpEthernet.source_address s) _) as [src| | |]; try done. cbn [mbind outcome_bind].
  destruct (resolve (TcpIpEthernet.next_hop_address s) _) as [nh| | |]; try done. cbn [mbind outcome_bind].
  split_and!; try done. intros s1 nh1 [= <- <-]. by exists prog, words, effects, host, port.
Qed.

Lemma ethernet_arguments_complete_witness :
  TcpIpEthernet.get_config any_host 7 ["tcp_ip_ethernet"; "-n"; "host"; "80"] ≠ UB.
Proof. apply (ethernet_arguments_complete any_host 7 ["tcp_ip_ethernet"; "-n"; "host"; "80"]); [unfold len; simpl; lia|done]. Defined.

(** [webget] asks for the path and prints the whole answer: if the kernel takes the
    request, in however many pieces, and delivers the answer in chunks of whatever
    size until the peer closes, the request is sent once and what is printed is the
    concatenation of the chunks. *)
Theorem webget_prints_answer (resolve : string → string → outcome Address.t) (connect : Address.t → outcome unit)
    (socket : FileDescriptor.FDWrapper) (writes : list sysret) (chunks : list bytes) (r : sysret)
    (host path : string) (a : Address.t) :
  let message := literal (Webget.request host path) in
  resolve host "http" = Ok a → connect a = Ok tt → FileDescriptor.eof socket = false → len message < 2 ^ 31 →
  Forall (λ w, 0 < return_value w) writes → accepted writes = len message →
  Forall (λ c, 0 < len c ≤ FileDescriptor.BUFFER_SIZE) chunks → 0 ≤ return_value r < 2 ^ 31 →
  Webget.get_URL resolve connect socket writes
    (map (λ c, (mkSysret (len c) 0, c)) chunks ++ [(mkSysret 0 0, [])]) r (Ok tt) host path =
    Ok (message, concat chunks).
Proof.
  intros message Ha Hc He Hm Hw Hacc Hch Hr. unfold Webget.get_URL. rewrite Ha. cbn [mbind outcome_bind].
  rewrite Hc. cbn [mbind outcome_bind]. fold message. unfold FileDescriptor.write.
  assert (Hcat : concat (BufferViewList.of_string message) = message) by apply app_nil_r.
  rewrite (write_loop_ends writes socket (BufferViewList.of_string message) 0 []); rewrite ?Hcat, ?(@len_nil Z); try done;
    try (unfold message; rewrite len_literal; cbn; lia).
  cbn [mbind outcome_bind app]. set (f := Nat.iter _ _ socket).
  assert (Hf : FileDescriptor.eof f = false).
  { unfold f. clear -He. induction (length writes); [done|]. cbn. done. }
  clearbody f. clear Hw Hacc Hcat He.
  assert (Hp : ∀ out, ∃ f', Webget.print_loop f
    (map (λ c, (mkSysret (len c) 0, c)) chunks ++ [(mkSysret 0 0, [])]) out = Ok (f', out ++ concat chunks));
    [|destruct (Hp []) as [f' ->]; cbn [mbind outcome_bind]].
  { revert f Hf.
    induction Hch as [|c chunks Hcl _ IH]; intros f Hf out; cbn [map app Webget.print_loop]; rewrite Hf.
    - eexists. unfold FileDescriptor.read. cbn. reflexivity.
    - unfold FileDescriptor.read. unfold FileDescriptor.BUFFER_SIZE in *. rewrite SystemCall_count by (cbn; lia).
      cbn [mbind outcome_bind return_value]. replace (_ =? 0) with false by lia. rewrite andb_false_r.
      replace (_ >? _) with false by lia. replace (len c <? 0) with false by lia. unfold len. rewrite Nat2Z.id, firstn_all.
      cbn [concat]. rewrite app_assoc. by apply IH. }
  unfold Socket.shutdown. rewrite SystemCall_count by done. done.
Qed.

Lemma webget_prints_answer_witness :
  Webget.get_URL any_host (λ _, Ok tt) (FileDescriptor.mk 3 false false 0 0) [mkSysret 40 0; mkSysret 6 0]
    [(mkSysret 2 0, [72; 84]); (mkSysret 1 0, [84]); (mkSysret 0 0, [])] (mkSysret 0 0) (Ok tt) "h" "/" =
    Ok (literal (Webget.request "h" "/"), [72; 84; 84]).
Proof.
  apply (webget_prints_answer any_host (λ _, Ok tt) (FileDescriptor.mk 3 false false 0 0)
    [mkSysret 40 0; mkSysret 6 0] [[72; 84]; [84]] (mkSysret 0 0) "h" "/" (Address.mk 1 0)).
  - reflexivity.
  - reflexivity.
  - reflexivity.
  - reflexivity.
  - repeat constructor; simpl; lia.
  - reflexivity.
  - repeat constructor; unfold FileDescriptor.BUFFER_SIZE, len; simpl; lia.
  - simpl. lia.
Defined.

End command_line_properties.
