(* ===== verification/printers.v ===== *)
(** * The printers

    Models the functions that turn the program's data into text: [to_string] and
    [summary] of the headers in [libsponge/tcp_helpers], [TCPState::name],
    [summary] of a frame in [apps/network_simulator.cc] and
    [apps/lab7.cc], and [hexdump] of [libsponge/util/util.cc].  A number is written in
    the base the stream is set to at that point. *)

From Stdlib Require Import Ascii String.
From stdpp Require Import strings pretty.
From S2P Require Import prelude text wrapping_integers buffer parser internet_checksum tcp_segment ipv4 ethernet tcp_state network_interface adapters.

(** The characters of a byte string. *)
Fixpoint chars (l : bytes) : string :=
  match l with
  | [] => EmptyString
  | b :: l => String (ascii_of_nat (Z.to_nat b)) (chars l)
  end.

(** [os << seqno] in base 16 and in base 10: [raw_value()] *)
Definition print_seqno (base : Z → string) (a : WrappingInt32) : string := base (raw_value a).

(** ** Headers *)

Module TCPHeaderPrinter.
Import TCPHeader.

Definition to_string (h : TCPHeader.t) : string :=
  "TCP source port: " +:+ hex (sport h) +:+ newline +:+
  "TCP dest port: " +:+ hex (dport h) +:+ newline +:+
  "TCP seqno: " +:+ print_seqno hex (seqno h) +:+ newline +:+
  "TCP ackno: " +:+ print_seqno hex (ackno h) +:+ newline +:+
  "TCP doff: " +:+ hex (doff h) +:+ newline +:+
  "Flags: urg: " +:+ boolalpha (urg h) +:+ " ack: " +:+ boolalpha (ack h) +:+ " psh: " +:+ boolalpha (psh h) +:+
  " rst: " +:+ boolalpha (rst h) +:+ " syn: " +:+ boolalpha (syn h) +:+ " fin: " +:+ boolalpha (fin h) +:+ newline +:+
  "TCP winsize: " +:+ hex (win h) +:+ newline +:+
  "TCP cksum: " +:+ hex (cksum h) +:+ newline +:+
  "TCP uptr: " +:+ hex (uptr h) +:+ newline.

Definition summary (h : TCPHeader.t) : string :=
  "Header(flags=" +:+ (if syn h then "S" else "") +:+ (if ack h then "A" else "") +:+
  (if rst h then "R" else "") +:+ (if fin h then "F" else "") +:+
  ",seqno=" +:+ print_seqno dec (seqno h) +:+ ",ack=" +:+ print_seqno dec (ackno h) +:+
  ",win=" +:+ dec (win h) +:+ ")".

End TCPHeaderPrinter.

Module IPv4HeaderPrinter.
Import IPv4Header.

Definition to_string (h : IPv4Header.t) : string :=
  "IP version: " +:+ hex (ver h) +:+ newline +:+
  "IP hdr len: " +:+ hex (hlen h) +:+ newline +:+
  "IP tos: " +:+ hex (tos h) +:+ newline +:+
  "IP dgram len: " +:+ hex (len_ h) +:+ newline +:+
  "IP id: " +:+ hex (id h) +:+ newline +:+
  "Flags: df: " +:+ boolalpha (df h) +:+ " mf: " +:+ boolalpha (mf h) +:+ newline +:+
  "Offset: " +:+ hex (offset h) +:+ newline +:+
  "TTL: " +:+ hex (ttl h) +:+ newline +:+
  "Protocol: " +:+ hex (proto h) +:+ newline +:+
  "Checksum: " +:+ hex (cksum h) +:+ newline +:+
  "Src addr: " +:+ hex (src h) +:+ newline +:+
  "Dst addr: " +:+ hex (dst h) +:+ newline.

(** The numbers are in base 16, but for the time to live and the addresses. *)
Definition summary (h : IPv4Header.t) : string :=
  "IPv" +:+ hex (ver h) +:+ ", " +:+
  "len=" +:+ hex (len_ h) +:+ ", " +:+
  "protocol=" +:+ hex (proto h) +:+ ", " +:+
  (if ttl h >=? 10 then "" else "ttl=" +:+ dec (ttl h) +:+ ", ") +:+
  "src=" +:+ inet_ntoa (src h) +:+ ", " +:+
  "dst=" +:+ inet_ntoa (dst h).

End IPv4HeaderPrinter.

Module EthernetPrinter.

(** [to_string(const EthernetAddress)]: a colon after every byte but the last *)
Fixpoint address_to_string (address : EthernetAddress) : string :=
  match address with
  | [] => ""
  | [b] => setw 2 "0" (hex b)
  | b :: address => setw 2 "0" (hex b) +:+ ":" +:+ address_to_string address
  end.

Definition to_string (h : EthernetHeader.t) : string :=
  "dst=" +:+ address_to_string (EthernetHeader.dst h) +:+
  ", src=" +:+ address_to_string (EthernetHeader.src h) +:+
  ", type=" +:+
  (if EthernetHeader.type h =? EthernetHeader.TYPE_IPv4 then "IPv4"
   else if EthernetHeader.type h =? EthernetHeader.TYPE_ARP then "ARP"
   else "[unknown type " +:+ hex (EthernetHeader.type h) +:+ "!]").

End EthernetPrinter.

Module ARPPrinter.
Import ARPMessage.

Definition to_string (m : ARPMessage.t) : string :=
  let opcode_str := "(unknown type)" in
  let opcode_str := if opcode m =? OPCODE_REQUEST then "REQUEST" else opcode_str in
  let opcode_str := if opcode m =? OPCODE_REPLY then "REPLY" else opcode_str in
  "opcode=" +:+ opcode_str +:+ ", sender=" +:+ EthernetPrinter.address_to_string (sender_ethernet_address m) +:+ "/" +:+
  inet_ntoa (sender_ip_address m) +:+ ", target=" +:+
  EthernetPrinter.address_to_string (target_ethernet_address m) +:+ "/" +:+ inet_ntoa (target_ip_address m).

End ARPPrinter.

(** [TCPState::name]; [to_string] of a [bool] is that of the number. *)
Definition state_name (s : TCPState.t) : string :=
  "sender=`" +:+ TCPState._sender s +:+ "`, receiver=`" +:+ TCPState._receiver s +:+ "`, active=" +:+
  dec (b2z (TCPState._active s)) +:+ ", linger_after_streams_finish=" +:+
  dec (b2z (TCPState._linger_after_streams_finish s)).

(** ** Frames *)

Definition quote : string := String (ascii_of_nat 34) "".

(** [dgram.parse(buffer) == ParseResult::NoError] *)
Definition parse_datagram (buffer : Buffer.t) : outcome (option InternetDatagram) :=
  '(res, dgram) ← IPv4Datagram.parse IPv4Datagram.default buffer;
  Ok (if bool_decide (res = NoError) then Some dgram else None).

(** What both functions do with an ARP frame. *)
Definition arp_summary (payload : BufferList.t) : outcome string :=
  buffer ← BufferList.to_buffer payload;
  '(res, arp) ← ARPMessage.parse ARPMessage.default buffer;
  Ok (if bool_decide (res = NoError) then " " +:+ ARPPrinter.to_string arp else " (bad ARP)").

(** [summary] of [network_simulator.cc] *)
Definition simulator_summary (frame : EthernetFrame.t) : outcome string :=
  let header := EthernetFrame.header frame in
  let ret := EthernetPrinter.to_string header in
  if EthernetHeader.type header =? EthernetHeader.TYPE_IPv4 then
    buffer ← BufferList.to_buffer (EthernetFrame.payload frame);
    dgram ← parse_datagram buffer;
    match dgram with
    | Some dgram =>
      let ret := ret +:+ " " +:+ IPv4HeaderPrinter.summary (IPv4Datagram.header dgram) in
      Ok (ret +:+ " payload=" +:+ quote +:+ chars (BufferList.concatenate (IPv4Datagram.payload dgram)) +:+ quote)
    | None => Ok (ret +:+ " (bad IPv4)")
    end
  else if EthernetHeader.type header =? EthernetHeader.TYPE_ARP then
    arp ← arp_summary (EthernetFrame.payload frame);
    Ok (ret +:+ arp)
  else Ok ret.

(** [summary] of [lab7.cc] *)
Definition lab7_summary (frame : EthernetFrame.t) : outcome string :=
  let header := EthernetFrame.header frame in
  let ret := EthernetPrinter.to_string header in
  if EthernetHeader.type header =? EthernetHeader.TYPE_IPv4 then
    dgram ← parse_datagram (Buffer.of_string (BufferList.concatenate (EthernetFrame.payload frame)));
    match dgram with
    | Some dgram =>
      let ret := ret +:+ " " +:+ IPv4HeaderPrinter.summary (IPv4Datagram.header dgram) in
      if IPv4Header.proto (IPv4Datagram.header dgram) =? IPv4Header.PROTO_TCP then
        '(res, tcp_seg) ← TCPSegment.parse TCPSegment.default
          (Buffer.of_string (BufferList.concatenate (IPv4Datagram.payload dgram)))
          (IPv4Header.pseudo_cksum (IPv4Datagram.header dgram));
        Ok (if bool_decide (res = NoError)
            then ret +:+ " " +:+ TCPHeaderPrinter.summary (TCPSegment.header tcp_seg) else ret)
      else Ok ret
    | None => Ok (ret +:+ " (bad IPv4)")
    end
  else if EthernetHeader.type header =? EthernetHeader.TYPE_ARP then
    arp ← arp_summary (EthernetFrame.payload frame);
    Ok (ret +:+ arp)
  else Ok ret.

(** ** Bytes *)

Module Hexdump.

(** A [stringstream]: its contents and the position where it is written next.  One
    that is made from a string, or given one by [str], is written from the start. *)
Record stringstream := mkStream {
  contents : string;
  position : nat
}.

Definition of_string (s : string) : stringstream := mkStream s 0.

(** [os << c]: in the place of a character that is there, or at the end *)
Definition put (os : stringstream) (c : ascii) : stringstream :=
  let s := contents os in
  let n := position os in
  mkStream (substring 0 n s +:+ String c (substring (S n) (String.length s - S n) s)) (S n).

Definition isprint (b : Z) : bool := (32 <=? b) && (b <=? 126).

(** [string(n, ' ')] *)
Definition spaces (n : Z) : string := String.concat "" (replicate (Z.to_nat n) " ").

Definition INT_MAX : Z := 2 ^ 31 - 1.

(** The loop over the bytes from the one numbered [printed] on; [out] is what was
    printed and [pchars] the characters of the line.  [printed] is an [int]. *)
Fixpoint loop (indent_string : string) (data : bytes) (printed : Z) (pchars : stringstream) (out : string)
    : outcome (Z * stringstream * string) :=
  match data with
  | [] => Ok (printed, pchars, out)
  | b :: data =>
    let '(pchars, out) :=
      if Z.land printed 15 =? 0 then
        let '(pchars, out) :=
          if negb (printed =? 0) then (of_string " ", out +:+ "    " +:+ contents pchars +:+ newline)
          else (pchars, out) in
        (pchars, out +:+ indent_string +:+ setw 8 "0" (hex printed) +:+ ":    ")
      else if Z.land printed 1 =? 0 then (pchars, out +:+ " ")
      else (pchars, out) in
    let out := out +:+ setw 2 "0" (hex b) in
    let pchars := put pchars (if isprint b then ascii_of_nat (Z.to_nat b) else "."%char) in
    if printed =? INT_MAX then UB else loop indent_string data (printed + 1) pchars out
  end.

(** [hexdump(data, len, indent)]: what it prints *)
Definition hexdump (data : bytes) (indent : Z) : outcome string :=
  '(printed, pchars, out) ← loop (spaces indent) data 0 (of_string " ") "";
  let print_rem := (16 - Z.land printed 15) mod 16 in
  Ok (out +:+ spaces (2 * print_rem + print_rem / 2 + 4) +:+ contents pchars +:+ newline +:+ newline).

End Hexdump.

(** ** Lemmas *)

Section dump.
Import Hexdump.

(** What a line shows: the bytes in base 16, in pairs, from position [j] of the
    line on; and the characters. *)
Fixpoint columns (j : nat) (l : bytes) : string :=
  match l with
  | [] => ""
  | b :: l => (if Nat.even j && negb (j =? 0)%nat then " " else "") +:+ hex_byte b +:+ columns (S j) l
  end.

Fixpoint shown (l : bytes) : string :=
  match l with
  | [] => ""
  | b :: l => String (if isprint b then ascii_of_nat (Z.to_nat b) else "."%char) (shown l)
  end.

Lemma substring_none n s : substring n 0 s = EmptyString.
Proof. revert n. induction s as [|c s IH]; intros [|n]; try done. apply IH. Qed.

Lemma put_end s n c : n = String.length s → put (mkStream s n) c = mkStream (s +:+ String c "") (S n).
Proof.
  intros ->. unfold put. cbn [contents position]. rewrite substring_all. replace (_ - _)%nat with 0%nat by lia.
  by rewrite substring_none.
Qed.

Lemma shown_app s l b : s +:+ shown (b :: l) = (s +:+ shown [b]) +:+ shown l.
Proof. rewrite append_assoc. done. Qed.

(** The counter of an [int] lasts for less than 2^31 bytes. *)
Lemma hexdump_total data indent : len data < 2 ^ 31 → ∃ out, hexdump data indent = Ok out.
Proof.
  intros Hl. unfold hexdump.
  assert (Hgo : ∀ printed p out, 0 ≤ printed → printed + len data < 2 ^ 31 →
    ∃ r, loop (spaces indent) data printed p out = Ok r).
  { clear Hl. induction data as [|b data IH]; intros printed p out Hp Hl; cbn [loop]; [by eexists|].
    rewrite len_cons in Hl. destruct (if _ =? 0 then _ else _) as [p' out'].
    pose proof (len_nonneg data). unfold INT_MAX. replace (_ =? _) with false by lia. apply IH; lia. }
  destruct (Hgo 0 (of_string " ") "") as [[[printed p] out] ->]; [lia..|]. by eexists.
Qed.

(** The bytes of a line after the first. *)
Lemma loop_line indent l rest k j s out :
  (0 < j)%nat → (j + length l ≤ 16)%nat → String.length s = j → 16 * k + Z.of_nat (j + length l) < 2 ^ 31 →
  loop indent (l ++ rest) (16 * k + Z.of_nat j) (mkStream s j) out =
    loop indent rest (16 * k + Z.of_nat (j + length l)) (mkStream (s +:+ shown l) (j + length l))
      (out +:+ columns j l).
Proof.
  revert j s out. induction l as [|b l IH]; intros j s out Hj Hl Hs Hi.
  { cbn. by rewrite Nat.add_0_r, !append_nil_r. }
  cbn [app loop length]. cbn [length] in Hl, Hi.
  assert (H15 : Z.land (16 * k + Z.of_nat j) 15 = Z.of_nat j).
  { change 15 with (Z.ones 4). rewrite Z.land_ones by lia. change (2 ^ 4) with 16.
    rewrite Z.add_comm, Z.mul_comm, Z_mod_plus_full. apply Z.mod_small. lia. }
  assert (H1 : (Z.land (16 * k + Z.of_nat j) 1 =? 0) = Nat.even j).
  { change 1 with (Z.ones 1). rewrite Z.land_ones by lia. change (2 ^ 1) with 2.
    replace (16 * k + Z.of_nat j) with (Z.of_nat j + 8 * k * 2) by lia. rewrite Z_mod_plus_full.
    destruct (Nat.even j) eqn:E; [apply Nat.even_spec in E as [m ->]|
      rewrite <- Nat.negb_odd in E; apply negb_false_iff, Nat.odd_spec in E as [m ->]]; [|apply Z.eqb_neq]; 
      [apply Z.eqb_eq|]; Z.div_mod_to_equations; lia. }
  rewrite H15, H1. replace (Z.of_nat j =? 0) with false by lia.
  set (p := if Nat.even j then (mkStream s j, out +:+ " ") else (mkStream s j, out)).
  assert (Hp : p = (mkStream s j, out +:+ (if Nat.even j && negb (j =? 0)%nat then " " else ""))).
  { unfold p. replace (j =? 0)%nat with false by (symmetry; apply Nat.eqb_neq; lia). rewrite andb_true_r.
    destruct (Nat.even j); [done|]. by rewrite append_nil_r. }
  clearbody p. subst p. rewrite put_end by done. unfold INT_MAX. replace (_ =? 2 ^ 31 - 1) with false by lia.
  replace (16 * k + Z.of_nat j + 1) with (16 * k + Z.of_nat (S j)) by lia. rewrite IH; [|lia|lia| |lia].
  - replace (j + S (length l))%nat with (S j + length l)%nat by lia. f_equal.
    + f_equal. by rewrite append_assoc.
    + cbn [columns]. by rewrite !append_assoc.
  - rewrite length_append, Hs. cbn. lia.
Qed.

(** A whole line, after the end of the line before. *)
Definition line_end (k : Z) (p : stringstream) : string :=
  if k =? 0 then "" else "    " +:+ contents p +:+ newline.

Lemma loop_row indent b l rest k p out :
  0 ≤ k → (length l ≤ 15)%nat → 16 * k + Z.of_nat (S (length l)) < 2 ^ 31 → (k = 0 → p = of_string " ") →
  loop indent (b :: l ++ rest) (16 * k) p out =
    loop indent rest (16 * k + Z.of_nat (S (length l))) (mkStream (shown (b :: l)) (S (length l)))
      (out +:+ line_end k p +:+ indent +:+ setw 8 "0" (hex (16 * k)) +:+ ":    " +:+ columns 0 (b :: l)).
Proof.
  intros Hk Hl Hi Hp. cbn [loop].
  assert (Z.land (16 * k) 15 = 0) as ->.
  { change 15 with (Z.ones 4). rewrite Z.land_ones by lia. change (2 ^ 4) with 16. rewrite Z.mul_comm. apply Z_mod_mult. }
  rewrite Z.eqb_refl. replace (16 * k =? 0) with (k =? 0) by lia. unfold line_end.
  set (c := if isprint b then _ else _).
  assert (Hput : put (of_string " ") c = mkStream (String c "") 1) by done.
  replace (16 * k + 1) with (16 * k + Z.of_nat 1) by lia.
  unfold INT_MAX. replace (16 * k =? 2 ^ 31 - 1) with false by lia.
  destruct (Z.eqb_spec k 0) as [E|E]; cbn [negb]; [rewrite (Hp E)|]; rewrite Hput, loop_line by (cbn; lia);
    (f_equal; cbn [columns Nat.even Nat.eqb negb andb]; by rewrite ?append_assoc, ?append_nil_l).
Qed.

Lemma spaces_add a b : 0 ≤ a → 0 ≤ b → spaces (a + b) = spaces a +:+ spaces b.
Proof.
  intros Ha Hb. unfold spaces. rewrite Z2Nat.inj_add by lia.
  assert (H : ∀ n, String.concat "" (replicate (S n) " ") = " " +:+ String.concat "" (replicate n " ")).
  { intros [|n]; done. }
  induction (Z.to_nat a) as [|n IH]; [done|]. rewrite Nat.add_succ_l, !H, IH. done.
Qed.

Lemma length_columns j l :
  (0 < j)%nat → is_bytes l →
  String.length (columns j l) = (2 * length l + (j + length l + 1) / 2 - (j + 1) / 2)%nat.
Proof.
  intros Hj Hl. revert j Hj. induction Hl as [|b l Hb _ IH]; intros j Hj; cbn [columns length].
  { cbn. rewrite Nat.add_0_r. lia. }
  rewrite !length_append, length_hex_byte, IH by lia.
  replace (j =? 0)%nat with false by (symmetry; apply Nat.eqb_neq; lia). rewrite andb_true_r.
  replace (S j + length l + 1)%nat with (j + S (length l) + 1)%nat by lia.
  destruct (Nat.even j) eqn:E; [apply Nat.even_spec in E as [m ->]|
      rewrite <- Nat.negb_odd in E; apply negb_false_iff, Nat.odd_spec in E as [m ->]]; cbn [String.length].
  - replace ((2 * m + 1) / 2)%nat with m by (apply Nat.div_unique with 1%nat; lia).
    replace ((S (2 * m) + 1) / 2)%nat with (S m) by (apply Nat.div_unique with 0%nat; lia).
    pose proof (Nat.Div0.div_le_mono (2 * S m) (2 * m + S (length l) + 1) 2 ltac:(lia)) as H.
    rewrite Nat.mul_comm, Nat.div_mul in H by lia. lia.
  - replace ((2 * m + 1 + 1) / 2)%nat with (S m) by (apply Nat.div_unique with 0%nat; lia).
    replace ((S (2 * m + 1) + 1) / 2)%nat with (S m) by (apply Nat.div_unique with 1%nat; lia).
    pose proof (Nat.Div0.div_le_mono (2 * S m) (2 * m + 1 + S (length l) + 1) 2 ltac:(lia)) as H.
    rewrite Nat.mul_comm, Nat.div_mul in H by lia. lia.
Qed.

(** A row of the dump: the offset, the bytes in a column of 39 characters, the
    characters. *)
Definition row (indent : string) (k : Z) (chunk : bytes) : string :=
  indent +:+ setw 8 "0" (hex (16 * k)) +:+ ":    " +:+ columns 0 chunk +:+
  spaces (39 - Z.of_nat (String.length (columns 0 chunk))) +:+ "    " +:+ shown chunk +:+ newline.

Fixpoint rows (indent : string) (k : Z) (chunks : list bytes) : string :=
  match chunks with
  | [] => ""
  | chunk :: chunks => row indent k chunk +:+ rows indent (k + 1) chunks
  end.

(** The end of [hexdump]. *)
Definition finish (r : outcome (Z * stringstream * string)) : outcome string :=
  '(printed, pchars, out) ← r;
  let print_rem := (16 - Z.land printed 15) mod 16 in
  Ok (out +:+ spaces (2 * print_rem + print_rem / 2 + 4) +:+ contents pchars +:+ newline +:+ newline).

(** What is left of the column after the last row's bytes. *)
Lemma finish_row k b l s out :
  0 ≤ k → (length l ≤ 15)%nat → is_bytes (b :: l) →
  finish (Ok (16 * k + Z.of_nat (S (length l)), s, out +:+ columns 0 (b :: l))) =
    Ok (out +:+ columns 0 (b :: l) +:+ spaces (39 - Z.of_nat (String.length (columns 0 (b :: l)))) +:+ "    " +:+
      contents s +:+ newline +:+ newline).
Proof.
  intros Hk Hl Hb. unfold finish. cbn [mbind outcome_bind]. apply Forall_cons in Hb as [Hb Hbs].
  assert (Hlen : String.length (columns 0 (b :: l)) = (2 + (2 * length l + (1 + length l + 1) / 2 - (1 + 1) / 2))%nat).
  { cbn [columns Nat.even Nat.eqb negb andb]. by rewrite append_nil_l, length_append, length_hex_byte, length_columns by (done || lia). }
  assert (Hland : Z.land (16 * k + Z.of_nat (S (length l))) 15 = Z.of_nat (S (length l)) mod 16).
  { change 15 with (Z.ones 4). rewrite Z.land_ones by lia. change (2 ^ 4) with 16.
    by rewrite Z.add_comm, Z.mul_comm, Z_mod_plus_full. }
  rewrite Hland, Hlen. set (n := length l) in *. clearbody n.
  assert (Hrem : (16 - Z.of_nat (S n) mod 16) mod 16 = 15 - Z.of_nat n).
  { destruct (decide (n = 15)%nat) as [->|]; [done|]. rewrite (Z.mod_small (Z.of_nat (S n))), Z.mod_small by lia. lia. }
  rewrite Hrem. set (a := 39 - _).
  assert (Ha : 2 * (15 - Z.of_nat n) + (15 - Z.of_nat n) / 2 = a ∧ 0 ≤ a).
  { unfold a. do 16 (destruct n as [|n]; [by vm_compute|]). lia. }
  destruct Ha as [-> Ha]. rewrite spaces_add by lia. by rewrite !append_assoc.
Qed.

Lemma dump_rows indent full last k p out :
  0 ≤ k → Forall (λ c, length c = 16%nat ∧ is_bytes c) full → (0 < length last ≤ 16)%nat → is_bytes last →
  16 * k + len (concat full ++ last) < 2 ^ 31 → (k = 0 → p = of_string " ") →
  finish (loop indent (concat full ++ last) (16 * k) p out) =
    Ok (out +:+ line_end k p +:+ rows indent k (full ++ [last]) +:+ newline).
Proof.
  intros Hk Hf Hl Hb. revert k p out Hk. induction Hf as [|c full [Hc Hcb] _ IH]; intros k p out Hk Hi Hp.
  - destruct last as [|b l]; [cbn in Hl; lia|]. cbn [length] in Hl. cbn [concat app] in Hi |- *. unfold len in Hi. cbn [length] in Hi.
    rewrite <- (app_nil_r l) at 1. rewrite loop_row by (done || lia). cbn [loop].
    rewrite <- !(append_assoc out), <- !(append_assoc (out +:+ _)), <- !(append_assoc ((out +:+ _) +:+ _)),
      <- !(append_assoc (((out +:+ _) +:+ _) +:+ _)).
    rewrite finish_row by (done || lia). cbn [rows app]. unfold row. cbn [contents]. rewrite append_nil_r. by rewrite !append_assoc.
  - destruct c as [|b l]; [done|]. cbn [length] in Hc. injection Hc as Hc. cbn [concat] in Hi |- *.
    rewrite <- app_assoc in Hi |- *. rewrite len_app in Hi. pose proof (len_nonneg (concat full ++ last)).
    assert (Hlb : len (b :: l) = 16) by (unfold len; cbn; lia). rewrite Hlb in Hi.
    cbn [app]. rewrite loop_row by (done || lia). rewrite Hc.
    replace (16 * k + Z.of_nat 16) with (16 * (k + 1)) by lia. rewrite IH by lia.
    assert (Hlen : String.length (columns 0 (b :: l)) = 39%nat).
    { apply Forall_cons in Hcb as [? ?]. cbn [columns Nat.even Nat.eqb negb andb].
      by rewrite append_nil_l, length_append, length_hex_byte, length_columns, Hc by (done || lia). }
    cbn [rows app]. unfold row. rewrite Hlen. unfold line_end at 2. replace (k + 1 =? 0) with false by lia.
    cbn [contents]. change (spaces (39 - Z.of_nat 39)) with "". rewrite !append_assoc. done.
Qed.

End dump.

Section addresses.
Import EthernetPrinter.

(** An Ethernet address can be read off its text. *)
Lemma address_text_inj a b :
  length a = length b → is_bytes a → is_bytes b → address_to_string a = address_to_string b → a = b.
Proof.
  revert b. induction a as [|x a IH]; intros [|y b] Hl Ha Hb H; try done.
  injection Hl as Hl. apply Forall_cons in Ha as [Hx Ha], Hb as [Hy Hb].
  assert (Hgo : ∀ s t, hex_byte x +:+ s = hex_byte y +:+ t → x = y ∧ s = t).
  { intros s t Hst. apply append_inj in Hst as [Hxy ->]; [|by rewrite !length_hex_byte].
    split; [by apply hex_byte_inj|done]. }
  destruct a as [|x' a], b as [|y' b]; try done.
  - change (hex_byte x = hex_byte y) in H. by rewrite (hex_byte_inj x y).
  - apply Hgo in H as [-> H]. injection H as H. f_equal. by apply IH.
Qed.

End addresses.

(** ** Properties *)

Section printer_properties.

(** C39: What [hexdump] prints, for at least one and less than 2^31 bytes (beyond that
    its counter overflows).  The bytes stand sixteen to a row, each row with the
    offset of its first byte, the bytes in base 16 in pairs in a column of 39
    characters, four spaces, and the characters, a dot for one that is not printable;
    the last row is padded so that its characters line up with the others'.  The
    space the code means to put before the characters is not there: the first
    character is written over it. *)
Theorem hexdump_layout (full : list bytes) (last : bytes) (indent : Z) :
  Forall (λ c, length c = 16%nat ∧ is_bytes c) full → (0 < length last ≤ 16)%nat → is_bytes last →
  len (concat full ++ last) < 2 ^ 31 →
  Hexdump.hexdump (concat full ++ last) indent =
    Ok (rows (Hexdump.spaces indent) 0 (full ++ [last]) +:+ newline).
Proof.
  intros Hf Hl Hb Hi. change (Hexdump.hexdump _ _) with
    (finish (Hexdump.loop (Hexdump.spaces indent) (concat full ++ last) (16 * 0) (Hexdump.of_string " ") "")).
  by rewrite dump_rows.
Qed.

Lemma hexdump_layout_witness :
  Hexdump.hexdump (seqZ 60 18) 1 = Ok (
    " 00000000:    3c3d 3e3f 4041 4243 4445 4647 4849 4a4b    <=>?@ABCDEFGHIJK" +:+ newline +:+
    " 00000010:    4c4d                                       LM" +:+ newline +:+ newline).
Proof.
  refine (eq_trans (hexdump_layout [seqZ 60 16] [76; 77] 1 _ _ _ _) _).
  - apply Forall_singleton. split; [reflexivity|]. apply (bool_decide_unpack _). vm_compute. exact I.
  - simpl. lia.
  - repeat constructor; lia.
  - vm_compute. reflexivity.
  - vm_compute. reflexivity.
Defined.

End printer_properties.
