(* ===== verification/udp_tcpdump.v ===== *)
(** * The packet dump

    Models [apps/udp_tcpdump.cc]: its arguments, the search for the UDP payload in a
    captured packet, and what is printed for it.  [libpcap] is outside: the packets it
    delivers are arguments, and so is what [inet_ntop] makes of an IPv6 address.  A
    read outside the captured bytes is [UB], and so is a pointer beyond their end. *)

From Stdlib Require Import Ascii String.
From stdpp Require Import strings pretty.
From S2P Require Import prelude text wrapping_integers buffer parser internet_checksum tcp_segment command_line printers.

Module UdpTcpdump.

(** ** Arguments *)

(** [show_usage(arg0, errmsg)]: what it prints *)
Definition show_usage (arg0 : string) (errmsg : option string) : string :=
  "Usage: " +:+ arg0 +:+ " [-i <intf>] [-F <file>] [-h|--help] <expression>" +:+ newline +:+ newline +:+
  "  -i <intf>    only capture packets from <intf> (default: all)" +:+ newline +:+ newline +:+
  "  -F <file>    reads in a filter expression from <file>" +:+ newline +:+
  "               <expression> is ignored if -F is supplied." +:+ newline +:+ newline +:+
  "  -h, --help   show this message" +:+ newline +:+ newline +:+
  "  <expression> a filter expression in pcap-filter(7) syntax" +:+ newline +:+
  match errmsg with Some errmsg => newline +:+ errmsg | None => "" end +:+ newline.

(** [parse_arguments] on the arguments from [curr] on: the device, and the arguments
    left, or the end of the program. *)
Fixpoint parse_arguments (rest : list string) (dev : option string) : exits (option string * list string) :=
  match rest with
  | [] => Runs (dev, [])
  | option :: tail =>
    if strncmp_eq 3 "-i" option then
      match tail with
      | [] => Exits 1 (Some "ERROR: -i requires an argument")
      | dev :: tail => parse_arguments tail (Some dev)
      end
    else if strncmp_eq 3 "-h" option || strncmp_eq 7 "--help" option then Exits 0 None
    else Runs (dev, rest)
  end.

(** [for (int i = exp_start; i < argc; ++i) f_stream << argv[i] << ' ';] *)
Fixpoint filter_expression (rest : list string) : string :=
  match rest with
  | [] => ""
  | a :: rest => a +:+ " " +:+ filter_expression rest
  end.

(** ** Packets *)

(** [data[i]], and [n] bytes from [data + i] *)
Definition at_ (data : bytes) (i : Z) : outcome Z := or_UB (data !! Z.to_nat i).

Definition slice (data : bytes) (i : Z) (n : nat) : outcome bytes :=
  let s := take n (drop (Z.to_nat i) data) in
  if (length s =? n)%nat then Ok s else UB.

(** [data + n]; at most one past the end *)
Definition advance (data : bytes) (n : Z) : outcome bytes :=
  if n <=? len data then Ok (drop (Z.to_nat n) data) else UB.

Section packets.
(** [inet_ntop(AF_INET6, ...)] on sixteen bytes, none if it fails *)
Context (inet_ntop6 : bytes → option string).

(** [inet4_addr(data)]: [inet_ntop] cannot fail on four bytes. *)
Definition inet4_addr (data : bytes) (i : Z) : outcome string :=
  b ← slice data i 4;
  match b with
  | [a; b; c; d] => Ok (dec a +:+ "." +:+ dec b +:+ "." +:+ dec c +:+ "." +:+ dec d)
  | _ => UB
  end.

Definition inet6_addr (data : bytes) (i : Z) : outcome string :=
  b ← slice data i 16;
  Ok (default "unknown" (inet_ntop6 b)).

(** [while (nxt != 0x11) { ... }]: the offset after it, none for [return -1] *)
Fixpoint extension_loop (fuel : nat) (len : Z) (data : bytes) (nxt data_offset : Z) : outcome (option Z) :=
  match fuel with
  | O => Diverge
  | S fuel =>
    if nxt =? 17 then Ok (Some data_offset)
    else if negb (nxt =? 0) && negb (nxt =? 43) && negb (nxt =? 60) then Ok None
    else
      nxt ← at_ data data_offset;
      l ← at_ data (data_offset + 1);
      let data_offset := data_offset + 8 * (1 + l) in
      if len <? data_offset + 2 then Ok None
      else extension_loop fuel len data nxt data_offset
  end.

(** [process_ipv4_ipv6(len, data, src_addr, dst_addr)]: what it returns, and the
    addresses; none for -1.  Every iteration of its loop moves eight bytes on. *)
Definition process_ipv4_ipv6 (len : Z) (data : bytes) : outcome (option (Z * string * string)) :=
  if len <? 1 then Ok None
  else
    b0 ← at_ data 0;
    let pt := Z.land b0 240 in
    if pt =? 64 then
      let data_offset := Z.land b0 15 * 4 in
      if len <? data_offset then Ok None
      else
        proto ← at_ data 9;
        if negb (proto =? 17) then Ok None
        else
          src_addr ← inet4_addr data 12;
          dst_addr ← inet4_addr data 16;
          Ok (Some (data_offset + 8, src_addr, dst_addr))
    else if pt =? 96 then
      if len <? 42 then Ok None
      else
        nxt ← at_ data 6;
        o ← extension_loop (S (length data)) len data nxt 40;
        match o with
        | None => Ok None
        | Some data_offset =>
          src_addr ← inet6_addr data 8;
          dst_addr ← inet6_addr data 24;
          Ok (Some (data_offset + 8, src_addr, dst_addr))
        end
    else Ok None.

Definition DLT_NULL : Z := 0.
Definition DLT_EN10MB : Z := 1.
Definition DLT_RAW : Z := 12.
Definition DLT_LINUX_SLL : Z := 113.
Definition DLT_LINUX_SLL2 : Z := 276.

(** [dlt != DLT_RAW && dlt != DLT_NULL && ...]: whether the type is supported *)
Definition supported (dlt : Z) : bool :=
  (dlt =? DLT_RAW) || (dlt =? DLT_NULL) || (dlt =? DLT_EN10MB) || (dlt =? DLT_LINUX_SLL) || (dlt =? DLT_LINUX_SLL2).

(** What becomes of a packet: a note on the standard error stream, text on the
    standard output, or the end of the program. *)
Inductive result :=
| Skipped (note : string)
| Printed (text : string)
| GaveUp.

Definition malformed : string := "[INFO] Skipping malformed packet.".
Definition non_IP : string := "[INFO] Skipping non-IP packet.".

(** Where the packet starts behind the link header, or why it is skipped. *)
Definition link_header (dl_type : Z) (pkt_data : bytes) : outcome (Z + result) :=
  let caplen := len pkt_data in
  let typed (hdr_off first : Z) :=
    if caplen <? hdr_off then Ok (inr (Skipped malformed))
    else
      hi ← at_ pkt_data first;
      lo ← at_ pkt_data (first + 1);
      let pt := u16 (Z.lor (Z.shiftl hi 8) lo) in
      if negb (pt =? 2048) && negb (pt =? 34525) then Ok (inr (Skipped non_IP)) else Ok (inl hdr_off) in
  if dl_type =? DLT_NULL then
    if caplen <? 4 then Ok (inr (Skipped malformed))
    else
      pt ← at_ pkt_data 3;
      if negb (pt =? 2) && negb (pt =? 24) && negb (pt =? 28) && negb (pt =? 30) then Ok (inr (Skipped non_IP))
      else Ok (inl 4)
  else if dl_type =? DLT_EN10MB then typed 14 12
  else if dl_type =? DLT_LINUX_SLL then typed 16 14
  else if dl_type =? DLT_LINUX_SLL2 then typed 20 0
  else if negb (dl_type =? DLT_RAW) then Ok (inr GaveUp)
  else Ok (inl 0).

(** The UDP payload and the addresses. *)
Definition find_payload (dl_type : Z) (pkt_data : bytes) : outcome (string * string * bytes + result) :=
  h ← link_header dl_type pkt_data;
  match h with
  | inr r => Ok (inr r)
  | inl hdr_off =>
    data ← advance pkt_data hdr_off;
    r ← process_ipv4_ipv6 (len pkt_data - hdr_off) data;
    match r with
    | None => Ok (inr (Skipped "Error parsing IPv4/IPv6 packet. Skipping."))
    | Some (start_off, src, dst) =>
      let payload_off := hdr_off + start_off in
      payload ← advance pkt_data payload_off;
      Ok (inl (src, dst, payload))
    end
  end.

(** What is printed for a payload: [res > ParseResult::BadChecksum] compares the
    numbers of the results. *)
Definition describe (src dst : string) (payload : bytes) : outcome string :=
  '(res, seg) ← TCPSegment.parse TCPSegment.default (Buffer.of_string payload) 0;
  if (1 <? ParseResult_index res)%nat then
    Ok ("(did not recognize TCP header) src: " +:+ src +:+ " dst: " +:+ dst +:+ newline)
  else
    let tcp_hdr := TCPSegment.header seg in
    let seqlen := u32 (TCPSegment.length_in_sequence_space seg) in
    Ok (src +:+ ":" +:+ dec (TCPHeader.sport tcp_hdr) +:+ " > " +:+ dst +:+ ":" +:+ dec (TCPHeader.dport tcp_hdr) +:+
        newline +:+ "    Flags [" +:+
        (if TCPHeader.urg tcp_hdr then "U" else "") +:+ (if TCPHeader.psh tcp_hdr then "P" else "") +:+
        (if TCPHeader.rst tcp_hdr then "R" else "") +:+ (if TCPHeader.syn tcp_hdr then "S" else "") +:+
        (if TCPHeader.fin tcp_hdr then "F" else "") +:+ (if TCPHeader.ack tcp_hdr then "." else "") +:+
        "] cksum 0x" +:+ setw 4 "0" (hex (TCPHeader.cksum tcp_hdr)) +:+
        (if bool_decide (res = NoError) then " (correct)" else " (incorrect!)") +:+
        " seq " +:+ print_seqno dec (TCPHeader.seqno tcp_hdr) +:+
        (if seqlen >? 0 then ":" +:+ print_seqno dec (seq_add (TCPHeader.seqno tcp_hdr) seqlen) else "") +:+
        " ack " +:+ print_seqno dec (TCPHeader.ackno tcp_hdr) +:+ " win " +:+ dec (TCPHeader.win tcp_hdr) +:+
        " length " +:+ dec (len payload) +:+ newline).

(** The body of the main loop. *)
Definition process_packet (dl_type : Z) (pkt_data : bytes) : outcome result :=
  r ← find_payload dl_type pkt_data;
  match r with
  | inr r => Ok r
  | inl (src, dst, payload) =>
    text ← describe src dst payload;
    dump ← Hexdump.hexdump payload 8;
    Ok (Printed (text +:+ dump))
  end.

(** [while ((next_ret = pcap_next_ex(...)) >= 0) { ... }] on the answers of
    [pcap_next_ex]: what becomes of the packets, and the exit status; none if the
    loop goes on after the last answer. *)
Fixpoint capture_loop (dl_type : Z) (answers : list (Z * bytes)) : outcome (list result * option Z) :=
  match answers with
  | [] => Ok ([], None)
  | (next_ret, pkt_data) :: answers =>
    if next_ret <? 0 then Ok ([], Some (if next_ret =? -1 then EXIT_FAILURE else EXIT_SUCCESS))
    else if next_ret =? 0 then capture_loop dl_type answers
    else
      r ← process_packet dl_type pkt_data;
      match r with
      | GaveUp => Ok ([GaveUp], Some EXIT_FAILURE)
      | _ =>
        '(rs, status) ← capture_loop dl_type answers;
        Ok (r :: rs, status)
      end
  end.

(** [main]: what [libpcap] answers are arguments.  [open] is the type of the link if
    the device can be opened, [compiled] and [set] say whether the filter was
    accepted. *)
Definition main (open : option string → option Z) (compiled set : string → bool)
    (argv : list string) (answers : list (Z * bytes)) : outcome (list result * option Z) :=
  match parse_arguments (tail argv) None with
  | Exits status _ => Ok ([], Some status)
  | Runs (dev, rest) =>
    match open dev with
    | None => Ok ([], Some 1)
    | Some dl_type =>
      if negb (supported dl_type) then Ok ([], Some 1)
      else if negb (compiled (filter_expression rest)) then Ok ([], Some EXIT_FAILURE)
      else if negb (set (filter_expression rest)) then Ok ([], Some EXIT_FAILURE)
      else capture_loop dl_type answers
    end
  end.

End packets.

End UdpTcpdump.

(** ** Lemmas *)

Section packet_facts.
Import UdpTcpdump.
Context (inet_ntop6 : bytes → option string).

Lemma at_Ok data i b : data !! Z.to_nat i = Some b → at_ data i = Ok b.
Proof. intros H. unfold at_. by rewrite H. Qed.

Lemma at_in data i : 0 ≤ i < len data → ∃ b, at_ data i = Ok b ∧ b ∈ data.
Proof.
  intros Hi. destruct (lookup_lt_is_Some_2 data (Z.to_nat i)) as [b Hb]; [unfold len in Hi; lia|].
  exists b. split; [by apply at_Ok|]. by apply list_elem_of_lookup_2 in Hb.
Qed.

Lemma slice_in data i n : 0 ≤ i → i + Z.of_nat n ≤ len data → slice data i n = Ok (take n (drop (Z.to_nat i) data)).
Proof.
  intros Hi Hn. unfold slice. rewrite length_take, length_drop. unfold len in Hn.
  replace (_ `min` _)%nat with n by lia. by rewrite Nat.eqb_refl.
Qed.

Lemma advance_app (l k : bytes) : advance (l ++ k) (len l) = Ok k.
Proof.
  unfold advance. rewrite len_app. pose proof (len_nonneg k). replace (_ <=? _) with true by lia.
  unfold len. rewrite Nat2Z.id. by rewrite drop_app_length.
Qed.

Lemma inet4_in data i : 0 ≤ i → i + 4 ≤ len data → ∃ s, inet4_addr data i = Ok s.
Proof.
  intros Hi Hn. unfold inet4_addr. rewrite slice_in by lia. cbn [mbind outcome_bind].
  set (l := take 4 _). assert (Hl : length l = 4%nat) by (unfold l, len in *; rewrite length_take, length_drop; lia).
  clearbody l. destruct l as [|a [|b [|c [|d [|e l]]]]]; try done. by eexists.
Qed.

(** The search for the UDP header behind the extension headers reads nothing
    outside the packet and ends: every header is at least eight bytes. *)
Lemma extension_ends fuel data nxt off :
  is_bytes data → 0 ≤ off → off + 2 ≤ len data → len data - off < Z.of_nat fuel →
  ∃ o, extension_loop fuel (len data) data nxt off = Ok o ∧
    match o with Some off' => off ≤ off' ∧ off' + 2 ≤ len data | None => True end.
Proof.
  intros Hb. revert nxt off. induction fuel as [|fuel IH]; intros nxt off Ho Hl Hf; [lia|].
  cbn [extension_loop]. destruct (nxt =? 17); [exists (Some off); split; [done|lia]|].
  destruct (_ && _); [by exists None|].
  destruct (at_in data off) as (n & -> & _); [lia|]. cbn [mbind outcome_bind].
  destruct (at_in data (off + 1)) as (l & -> & Hin); [lia|]. cbn [mbind outcome_bind].
  assert (0 ≤ l < 2 ^ 8) by (unfold is_bytes in Hb; rewrite Forall_forall in Hb; by apply Hb).
  destruct (Z.ltb_spec (len data) (off + 8 * (1 + l) + 2)); [by exists None|].
  destruct (IH n (off + 8 * (1 + l))) as (o & -> & Ho'); [lia..|]. exists o. split; [done|].
  destruct o; [lia|done].
Qed.

(** A link header of a type: its length, and that it announces IP. *)
Definition link_ok (dl_type : Z) (link : bytes) : Prop :=
  (dl_type = DLT_RAW ∧ link = []) ∨
  (dl_type = DLT_NULL ∧ len link = 4 ∧ ∃ pt, link !! 3%nat = Some pt ∧ pt ∈ [2; 24; 28; 30]) ∨
  (∃ n k hi lo, (dl_type, n, k) ∈ [(DLT_EN10MB, 14, 12); (DLT_LINUX_SLL, 16, 14); (DLT_LINUX_SLL2, 20, 0)] ∧
     len link = n ∧ link !! Z.to_nat k = Some hi ∧ link !! Z.to_nat (k + 1) = Some lo ∧ (hi, lo) ∈ [(8, 0); (134, 221)]).

Lemma link_found dl_type link rest :
  link_ok dl_type link → link_header dl_type (link ++ rest) = Ok (inl (len link)).
Proof.
  pose proof (len_nonneg rest) as Hr. unfold link_header. rewrite len_app.
  intros [[-> ->]|[(-> & Hl & pt & Hpt & Hin)|(n & k & hi & lo & Hin & Hl & Hhi & Hlo & Ht)]].
  - done.
  - rewrite Hl. change (DLT_NULL =? DLT_NULL) with true. cbv iota. replace (_ <? _) with false by lia.
    rewrite (at_Ok _ _ pt) by (by apply lookup_app_l_Some). cbn [mbind outcome_bind].
    rewrite !elem_of_cons in Hin. destruct Hin as [->|[->|[->|[->|[]%elem_of_nil]]]]; done.
  - assert (Hty : u16 (Z.lor (Z.shiftl hi 8) lo) = 2048 ∨ u16 (Z.lor (Z.shiftl hi 8) lo) = 34525).
    { rewrite !elem_of_cons in Ht. destruct Ht as [[= -> ->]|[[= -> ->]|[]%elem_of_nil]]; [by left|by right]. }
    assert (H1 : at_ (link ++ rest) k = Ok hi) by (by apply at_Ok, lookup_app_l_Some).
    assert (H2 : at_ (link ++ rest) (k + 1) = Ok lo) by (by apply at_Ok, lookup_app_l_Some).
    set (u := u16 _) in Hty.
    rewrite !elem_of_cons in Hin. destruct Hin as [[= -> -> ->]|[[= -> -> ->]|[[= -> -> ->]|[]%elem_of_nil]]];
      rewrite Hl; cbn -[at_ Z.lor Z.shiftl u16 Z.add Z.ltb]; replace (_ + len rest <? _) with false by lia;
      rewrite H1; cbn [mbind outcome_bind]; rewrite H2; cbn [mbind outcome_bind]; fold u; clearbody u; clear -Hty;
      destruct Hty as [-> | ->]; done.
Qed.

End packet_facts.

(** ** Properties *)

Section tcpdump_properties.
Import UdpTcpdump.

(** The payload is found.  Whatever the link, a packet with a link header that
    announces IP, an IPv4 header with or without options whose protocol is UDP and a
    UDP header gives exactly what follows the UDP header, with the addresses at their
    places in the IPv4 header. *)
Theorem udp_payload_found (inet_ntop6 : bytes → option string) (dl_type : Z) (link ip udp payload : bytes) (ihl : Z) :
  link_ok dl_type link → 5 ≤ ihl ≤ 15 → len ip = 4 * ihl → ip !! 0%nat = Some (64 + ihl) → ip !! 9%nat = Some 17 →
  len udp = 8 →
  ∃ src dst, inet4_addr ip 12 = Ok src ∧ inet4_addr ip 16 = Ok dst ∧
    find_payload inet_ntop6 dl_type (link ++ ip ++ udp ++ payload) = Ok (inl (src, dst, payload)).
Proof.
  intros Hlink Hihl Hip H0 H9 Hudp.
  destruct (inet4_in ip 12) as [src Hsrc]; [lia..|]. destruct (inet4_in ip 16) as [dst Hdst]; [lia..|].
  exists src, dst. split; [done|]. split; [done|].
  assert (Happ : ∀ i s, 0 ≤ i → i + 4 ≤ len ip → inet4_addr ip i = Ok s → inet4_addr (ip ++ udp ++ payload) i = Ok s).
  { intros i s Hi Hl. unfold inet4_addr. rewrite (slice_in ip), (slice_in (ip ++ _)) by
      (rewrite ?len_app; pose proof (len_nonneg udp); pose proof (len_nonneg payload); lia).
    unfold len in Hl.  rewrite drop_app_le, take_app_le by (rewrite ?length_drop; lia). done. }
  assert (Hnn := len_nonneg payload). unfold find_payload. rewrite link_found by done. cbn [mbind outcome_bind].
  rewrite advance_app. cbn [mbind outcome_bind]. unfold process_ipv4_ipv6.
  rewrite !len_app. replace (_ <? 1) with false by lia.
  rewrite (at_Ok _ 0 (64 + ihl)) by (by apply lookup_app_l_Some). cbn [mbind outcome_bind].
  assert (Hbits : Z.land (64 + ihl) 240 = 64 ∧ Z.land (64 + ihl) 15 = ihl).
  { assert (H : Forall (λ i, Z.land (64 + i) 240 = 64 ∧ Z.land (64 + i) 15 = i) (seqZ 5 11)).
    { apply (bool_decide_unpack _). vm_compute. exact I. }
    rewrite Forall_forall in H. apply H, elem_of_seqZ. lia. }
  destruct Hbits as [-> ->]. change (64 =? 64) with true. cbv iota. replace (_ <? ihl * 4) with false by lia.
  rewrite (at_Ok _ 9 17) by (by apply lookup_app_l_Some). cbn [mbind outcome_bind negb Z.eqb Pos.eqb].
  rewrite (Happ 12 src) by (done || lia). cbn [mbind outcome_bind].
  rewrite (Happ 16 dst) by (done || lia). cbn [mbind outcome_bind].
  replace (len link + (ihl * 4 + 8)) with (len (link ++ ip ++ udp)) by (rewrite !len_app; lia).
  rewrite !app_assoc, advance_app. done.
Qed.

Definition example_ip : bytes := [69; 0; 0; 29; 0; 0; 0; 0; 64; 17; 0; 0; 10; 0; 0; 1; 10; 0; 0; 2].

Lemma udp_payload_found_witness :
  ∃ src dst, inet4_addr example_ip 12 = Ok src ∧ inet4_addr example_ip 16 = Ok dst ∧
    find_payload (λ _, None) DLT_NULL ([0; 0; 0; 2] ++ example_ip ++ [1; 2; 3; 4; 5; 6; 7; 8] ++ [9]) =
      Ok (inl (src, dst, [9])).
Proof.
  apply (udp_payload_found (λ _, None) DLT_NULL [0; 0; 0; 2] example_ip [1; 2; 3; 4; 5; 6; 7; 8] [9] 5); try reflexivity.
  - right. left. split; [reflexivity|]. split; [reflexivity|]. exists 2. split; [reflexivity|]. left.
  - lia.
Defined.

(** C38: The search through IPv6 extension headers ends and stays inside the packet,
    whatever the packet holds: it gives up, or finds a place inside where the UDP
    header should be. *)
Theorem ipv6_search_ends (inet_ntop6 : bytes → option string) (data : bytes) (b0 : Z) :
  is_bytes data → data !! 0%nat = Some b0 → Z.land b0 240 = 96 →
  ∃ r, process_ipv4_ipv6 inet_ntop6 (len data) data = Ok r ∧
    match r with Some (start_off, _, _) => 48 ≤ start_off ≤ len data + 6 | None => True end.
Proof.
  intros Hb H0 Hpt. unfold process_ipv4_ipv6.
  assert (Hl : 0 < len data) by (apply lookup_lt_Some in H0; unfold len; lia).
  replace (_ <? 1) with false by lia. rewrite (at_Ok _ 0 b0) by done. cbn [mbind outcome_bind]. rewrite Hpt.
  change (96 =? 64) with false. change (96 =? 96) with true. cbv iota zeta.
  destruct (Z.ltb_spec (len data) 42); [by exists None|].
  destruct (at_in data 6) as (nxt & -> & _); [lia|]. cbn [mbind outcome_bind].
  destruct (extension_ends (S (length data)) data nxt 40) as (o & -> & Ho); [done|lia|lia|unfold len; lia|].
  cbn [mbind outcome_bind]. destruct o as [off|]; [|by exists None]. unfold inet6_addr.
  rewrite !slice_in by lia. cbn [mbind outcome_bind]. eexists. split; [done|]. cbn. lia.
Qed.

Lemma ipv6_search_ends_witness :
  ∃ r, process_ipv4_ipv6 (λ _, None) 42 (96 :: replicate 41 0) = Ok r ∧
    match r with Some (start_off, _, _) => 48 ≤ start_off ≤ 42 + 6 | None => True end.
Proof.
  apply (ipv6_search_ends (λ _, None) (96 :: replicate 41 0) 96); [|reflexivity|reflexivity].
  apply (bool_decide_unpack _). vm_compute. exact I.
Defined.

(** A short packet is read past its end.  The IPv4 branch looks at the protocol and
    the addresses after comparing the length only with the header length the packet
    claims, and the payload is taken to start behind a UDP header that need not be
    there: a lone byte with version 4, and an IPv4 header with nothing behind it, are
    both enough. *)
Theorem short_packet_overruns (inet_ntop6 : bytes → option string) :
  find_payload inet_ntop6 DLT_RAW [64] = UB ∧ find_payload inet_ntop6 DLT_RAW example_ip = UB.
Proof. split; reflexivity. Qed.

End tcpdump_properties.
