(* ===== verification/tun.v ===== *)
(** * TUN and TAP devices

    Models [libsponge/util/tun.cc], the request a [TunTapFD] makes to the kernel, and
    [apps/tun.cc], which prints the packets of a device.  What the kernel answers is
    an argument. *)

From Stdlib Require Import Ascii String.
From stdpp Require Import strings pretty.
From S2P Require Import prelude text buffer parser internet_checksum tcp_segment ipv4 file_descriptor printers.

Module TunTapFD.

Definition IFF_TUN : Z := 1.
Definition IFF_TAP : Z := 2.
Definition IFF_NO_PI : Z := 4096.
Definition IFNAMSIZ : nat := 16.

(** The fields of [struct ifreq] that are set. *)
Record ifreq := mkIfreq {
  ifr_name : bytes;
  ifr_flags : Z
}.

(** [strncpy(dst, src, n)] on an array [dst]: at most [n] bytes of [src], up to its
    null byte, then null bytes up to [n]; the rest of [dst] stays. *)
Fixpoint strncpy (dst src : bytes) (n : nat) {struct n} : bytes :=
  match n, dst with
  | O, _ => dst
  | S n, [] => []
  | S n, _ :: dst =>
    match src with
    | c :: src => if c =? 0 then 0 :: strncpy dst [] n else c :: strncpy dst src n
    | [] => 0 :: strncpy dst [] n
    end
  end.

(** [TunTapFD(devname, is_tun)], where [open] gives [r1] and [ioctl] [r2]: the
    descriptor and the request. *)
Definition make (devname : bytes) (is_tun : bool) (r1 r2 : sysret) : outcome (FileDescriptor.FDWrapper * ifreq) :=
  fd ← SystemCall r1 0;
  f ← FileDescriptor.make fd;
  let tun_req := mkIfreq (replicate IFNAMSIZ 0) 0 in
  let tun_req := mkIfreq (ifr_name tun_req) (Z.lor (if is_tun then IFF_TUN else IFF_TAP) IFF_NO_PI) in
  let tun_req := mkIfreq (strncpy (ifr_name tun_req) devname (IFNAMSIZ - 1)) (ifr_flags tun_req) in
  let tun_req := mkIfreq (<[(IFNAMSIZ - 1)%nat := 0]> (ifr_name tun_req)) (ifr_flags tun_req) in
  _ ← SystemCall r2 0;
  Ok (f, tun_req).

(** [TunFD(devname)] and [TapFD(devname)] *)
Definition TunFD (devname : bytes) (r1 r2 : sysret) : outcome (FileDescriptor.FDWrapper * ifreq) :=
  make devname true r1 r2.
Definition TapFD (devname : bytes) (r1 r2 : sysret) : outcome (FileDescriptor.FDWrapper * ifreq) :=
  make devname false r1 r2.

End TunTapFD.

Module TunProgram.

(** The body of the loop of [main], on the bytes [tun.read()] returns: what is
    printed. *)
Definition print_packet (buffer : bytes) : outcome string :=
  let out := newline +:+ newline +:+ "***" +:+ newline +:+ "*** Got packet:" +:+ newline +:+ "***" +:+ newline in
  dump ← Hexdump.hexdump buffer 0;
  let out := out +:+ dump in
  let out := out +:+ "attempting to parse as ipv4 datagram... " in
  '(res, ip_dgram) ← IPv4Datagram.parse IPv4Datagram.default (Buffer.of_string buffer);
  if bool_decide (res ≠ NoError) then Ok (out +:+ "failed." +:+ newline)
  else
    let header := IPv4Datagram.header ip_dgram in
    let out := out +:+ "success! totlen=" +:+ dec (IPv4Header.len_ header) +:+ ", IPv4 header contents:" +:+ newline in
    let out := out +:+ IPv4HeaderPrinter.to_string header in
    if negb (IPv4Header.proto header =? IPv4Header.PROTO_TCP) then
      Ok (out +:+ newline +:+ "Not TCP, skipping." +:+ newline)
    else
      let out := out +:+ newline +:+ "Attempting to parse as a TCP segment... " in
      payload ← BufferList.to_buffer (IPv4Datagram.payload ip_dgram);
      '(res, tcp_seg) ← TCPSegment.parse TCPSegment.default payload (IPv4Header.pseudo_cksum header);
      if bool_decide (res ≠ NoError) then Ok (out +:+ "failed." +:+ newline)
      else
        let out := out +:+ "success! payload len=" +:+ dec (Buffer.size (TCPSegment.payload tcp_seg)) +:+
                     ", TCP header contents:" +:+ newline in
        Ok (out +:+ TCPHeaderPrinter.to_string (TCPSegment.header tcp_seg) +:+ newline).

(** The loop of [main] under its [try]: what it printed for the packets it dealt with,
    and the exit status, none while it waits for the next packet.  [reads] are the
    answers of [::read]; the limit of [tun.read()] is the largest [size_t]. *)
Fixpoint packet_loop (tun : FileDescriptor.FDWrapper) (reads : list (sysret * bytes)) : outcome (list string * option Z) :=
  match reads with
  | [] => Ok ([], None)
  | (r, contents) :: reads =>
    match '(buffer, tun) ← FileDescriptor.read tun (2 ^ 64 - 1) r contents; out ← print_packet buffer; Ok (out, tun) with
    | Ok (out, tun) => '(outs, status) ← packet_loop tun reads; Ok (out :: outs, status)
    | Throw _ => Ok ([], Some EXIT_FAILURE)
    | UB => UB
    | Diverge => Diverge
    end
  end.

Definition main (r1 r2 : sysret) (reads : list (sysret * bytes)) : outcome (list string * option Z) :=
  match TunTapFD.TunFD (literal "tun144") r1 r2 with
  | Ok (tun, _) => packet_loop tun reads
  | Throw _ => Ok ([], Some EXIT_FAILURE)
  | UB => UB
  | Diverge => Diverge
  end.

End TunProgram.

(** ** Lemmas *)

Section device_names.
Import TunTapFD.

Lemma strncpy_spec dst src n :
  Forall (λ c, c ≠ 0) src → (n ≤ length dst)%nat →
  strncpy dst src n = take n src ++ replicate (n - length src) 0 ++ drop n dst.
Proof.
  revert dst src. induction n as [|n IH]; intros dst src Hs Hl; [done|].
  destruct dst as [|d dst]; [cbn in Hl; lia|]. cbn in Hl. destruct Hs as [|c src Hc Hs]; cbn [strncpy].
  - rewrite (IH dst []) by (apply Forall_nil_2 || lia). cbn. by rewrite take_nil, Nat.sub_0_r.
  - replace (c =? 0) with false by lia. by rewrite IH by (done || lia).
Qed.

End device_names.

Section packets.
Import TunProgram.

(** Any bytes make a report. *)
Lemma print_packet_total buffer : is_bytes buffer → len buffer < 2 ^ 31 → ∃ out, print_packet buffer = Ok out.
Proof.
  intros Hb Hl. unfold print_packet, IPv4Datagram.parse.
  destruct (hexdump_total buffer 0 Hl) as [dump ->]. cbn [mbind outcome_bind].
  destruct (ipv4_header_parse_safe (IPv4Datagram.header IPv4Datagram.default) (NetParser.make (Buffer.of_string buffer)))
    as (r & h & p & -> & Hp); [apply safe_make; [apply wf_of_string; lia|done]|].
  cbn [mbind outcome_bind].
  destruct (negb (BufferList.size _ =? _)); cbn; [by eauto|]. destruct (bool_decide _); [by eauto|].
  destruct (negb _); [by eauto|].
  destruct (tcp_parse_reports TCPSegment.default (NetParser.buffer p) (IPv4Header.pseudo_cksum h)) as (r' & s & -> & _).
  1, 2: by apply Hp.
  cbn. destruct (bool_decide _); by eauto.
Qed.

End packets.

(** ** Properties *)

Section tun_properties.
Import TunTapFD.

(** The kernel is asked for the device by its name, as far as it fits: the field has
    sixteen bytes, holds at most fifteen bytes of the name and ends with a null byte,
    and the flags ask for the kind of device without packet information. *)
Theorem device_request (devname : bytes) (is_tun : bool) (r1 r2 : sysret) :
  Forall (λ c, c ≠ 0) devname → 0 ≤ return_value r1 < 2 ^ 31 → 0 ≤ return_value r2 < 2 ^ 31 →
  make devname is_tun r1 r2 =
    Ok (FileDescriptor.mk (return_value r1) false false 0 0,
        mkIfreq (take 15 devname ++ replicate (16 - length (take 15 devname)) 0) (if is_tun then 4097 else 4098)).
Proof.
  intros Hd H1 H2. unfold make. rewrite SystemCall_count by done. cbn [mbind outcome_bind].
  unfold FileDescriptor.make.
  rewrite SystemCall_count by done. cbn [mbind outcome_bind ifr_name ifr_flags]. unfold IFNAMSIZ.
  rewrite strncpy_spec by (done || (simpl; lia)). do 2 f_equal.
  replace (Z.lor _ _) with (if is_tun then 4097 else 4098) by (by destruct is_tun). f_equal.
  change (drop (16 - 1) (replicate 16 0)) with [0]. change (16 - 1)%nat with 15%nat.
  rewrite app_assoc, insert_app_r_alt; rewrite length_app, length_take, length_replicate; [|lia].
  replace (15 - (15 `min` length devname + (15 - length devname)))%nat with 0%nat by lia. cbn [insert list_insert]. rewrite <- app_assoc. f_equal.
  replace (16 - 15 `min` length devname)%nat with (15 - length devname + 1)%nat by lia.
  rewrite replicate_add.
  by destruct (Z.ltb_spec (return_value r1) 0); [lia|].
Qed.

Lemma device_request_witness :
  make (literal "tun144") true (mkSysret 3 0) (mkSysret 0 0) =
    Ok (FileDescriptor.mk 3 false false 0 0, mkIfreq (literal "tun144" ++ replicate 10 0) 4097).
Proof.
  apply (device_request (literal "tun144") true (mkSysret 3 0) (mkSysret 0 0)); [|simpl; lia|simpl; lia].
  repeat constructor; simpl; lia.
Defined.

(** A read that brings a packet: at most what the buffer holds, in bytes. *)
Definition packet_read (rc : sysret * bytes) : Prop :=
  0 ≤ return_value rc.1 ≤ FileDescriptor.BUFFER_SIZE ∧ is_bytes rc.2.

Definition packet (rc : sysret * bytes) : bytes := take (Z.to_nat (return_value rc.1)) rc.2.

Lemma packet_loop_app tun good rest :
  Forall packet_read good → ∃ outs tun',
    Forall2 (λ rc out, TunProgram.print_packet (packet rc) = Ok out) good outs ∧
    TunProgram.packet_loop tun (good ++ rest) =
      ('(more, status) ← TunProgram.packet_loop tun' rest; Ok (outs ++ more, status)).
Proof.
  intros Hg. revert tun. induction Hg as [|[r contents] good [Hr Hc] _ IH]; intros tun.
  { exists [], tun. split; [constructor|]. simpl. destruct (TunProgram.packet_loop tun rest) as [[more status]| | |]; done. }
  cbn [fst snd] in Hr, Hc. unfold FileDescriptor.BUFFER_SIZE in Hr.
  destruct (print_packet_total (packet (r, contents))) as [out Hout].
  { by apply Forall_take. }
  { unfold packet, len. cbn [fst snd]. rewrite length_take. lia. }
  cbn [app TunProgram.packet_loop]. unfold FileDescriptor.read. rewrite SystemCall_count by lia. cbn [mbind outcome_bind].
  replace (return_value r >? _) with false by (unfold FileDescriptor.BUFFER_SIZE; lia).
  replace (return_value r <? 0) with false by lia.
  fold (packet (r, contents)) in *. cbn [mbind outcome_bind]. change (take _ contents) with (packet (r, contents)). rewrite Hout. cbn [mbind outcome_bind].
  match goal with |- context [TunProgram.packet_loop ?f (good ++ rest)] => destruct (IH f) as (outs & tun' & Ho & E) end.
  exists (out :: outs), tun'. split; [by constructor|]. rewrite E.
  by destruct (TunProgram.packet_loop tun' rest) as [[more status]| | |].
Qed.

(** The program reports every packet, of whatever bytes, and goes on waiting; it ends
    only when a read fails, with a failure, and never returns success. *)
Theorem tun_reports_packets (r1 r2 bad : sysret) (good rest : list (sysret * bytes)) (left : bytes) :
  0 ≤ return_value r1 < 2 ^ 31 → 0 ≤ return_value r2 < 2 ^ 31 → Forall packet_read good →
  - 2 ^ 31 ≤ return_value bad < 0 → errno bad ≠ 0 →
  ∃ outs, Forall2 (λ rc out, TunProgram.print_packet (packet rc) = Ok out) good outs ∧
    TunProgram.main r1 r2 good = Ok (outs, None) ∧
    TunProgram.main r1 r2 (good ++ (bad, left) :: rest) = Ok (outs, Some EXIT_FAILURE).
Proof.
  intros H1 H2 Hg Hbad He. unfold TunProgram.main, TunFD.
  rewrite device_request by (done || (repeat constructor; simpl; lia)). cbv beta iota.
  destruct (packet_loop_app (FileDescriptor.mk (return_value r1) false false 0 0) good [] Hg) as (outs & tun & Ho & E).
  destruct (packet_loop_app (FileDescriptor.mk (return_value r1) false false 0 0) good ((bad, left) :: rest) Hg) as (outs' & tun' & Ho' & E').
  assert (outs' = outs) as ->.
  { clear E E'. revert outs' Ho'. induction Ho as [|rc out good outs Hrc _ IH]; intros outs' Ho'; inversion Ho'; subst; [done|].
    f_equal; [congruence|]. apply IH; [by inversion Hg|done]. }
  exists outs. split; [done|]. rewrite app_nil_r in E. rewrite E, E'. cbn. rewrite app_nil_r. split; [done|].
  unfold FileDescriptor.read, SystemCall. rewrite s32_id by lia. replace (_ >=? 0) with false by lia.
  replace (errno bad =? 0) with false by lia. cbn. by rewrite app_nil_r.
Qed.

Lemma tun_reports_packets_witness :
  ∃ outs, length outs = 2%nat ∧
    TunProgram.main (mkSysret 3 0) (mkSysret 0 0) [(mkSysret 2 0, [69; 0; 9]); (mkSysret 0 0, []); (mkSysret (-1) 5, [])] =
      Ok (outs, Some EXIT_FAILURE).
Proof.
  destruct (tun_reports_packets (mkSysret 3 0) (mkSysret 0 0) (mkSysret (-1) 5) [(mkSysret 2 0, [69; 0; 9]); (mkSysret 0 0, [])] [] [])
    as (outs & Ho & _ & E); try (simpl; lia).
  - repeat constructor; simpl; unfold FileDescriptor.BUFFER_SIZE; lia.
  - exists outs. split; [by rewrite <- (Forall2_length _ _ _ Ho)|exact E].
Defined.

End tun_properties.
